(** * blkmon: prefix index, hostile-IP registry, line parser and orchestrator

    A shallow embedding of the Python sources [blk_tree.py], [blk_ipdict.py],
    [blk_state.py], [blk_main.py], [blk_rteserv.py], [blk_rdblk.py],
    [blk_wk_msg.py], [blk_web.py] and [cfg.py], followed by the properties
    of the specification that concern them and by further properties of
    the code.

    Python objects mutated in place become values threaded through the
    functions; exceptions become the [Raised] constructor of [result]; the
    twisted log becomes a list of [log_entry] returned by each function. *)

From Stdlib Require Import ZArith Lia Ascii String.
From stdpp Require Import gmap strings list sorting.

Open Scope string_scope.
Open Scope Z_scope.

(** ** Exceptions and the log *)

Inductive exn : Type :=
  | ValueError
  | AttributeError
  | AssertionError
  | IndexError
  | TypeError
  | NameError (name : string).

Inductive result (A : Type) : Type :=
  | Returned (a : A)
  | Raised (e : exn).
Arguments Returned {A} a.
Arguments Raised {A} e.

(** [log.msg] and [log.err] of twisted.python. *)
Inductive log_entry : Type :=
  | LogMsg (s : string)
  | LogErr (s : string).

(** What a function hands to the reactor or to another component: the
    calls whose effect lies outside the modelled state. *)
Inductive action : Type :=
  | ReadBlklsts
  | CallLater (secs : Z) (fn : string)
  | ConnectTCP (host : string) (port : Z)
  | CymruGetWhois (host : string) (port : Z) (data : string)
  | SetStatus (msg : string).

(** ** The ipaddr networks used as tree keys *)

Module IPAddr.

(** Model of the third-party ipaddr library (release 2.2.0), which is
    imported by [blk_tree.py] and [blk_rteserv.py] and is not part of the
    repository.  An [IPv4Network] keeps the address it was built from and
    its prefix length; [network], [netmask], [hostmask] and [broadcast]
    are derived as the library derives them.  The comparisons are the
    ones the docstring of [blk_tree.py] relies on: [==] compares network
    address and mask, [<] and [>] compare the network addresses first and
    the masks next, [in] is inclusion of address ranges.  The text of an
    IPv4 network is parsed as the library parses it; the parser of IPv6
    text is a parameter, [IPv6Parser]. *)
Record IPv4Network : Type := mkNet { ip : Z; prefixlen : Z }.

Definition ALL_ONES : Z := 2 ^ 32 - 1.

Definition netmask (n : IPv4Network) : Z :=
  Z.lxor ALL_ONES (Z.shiftr ALL_ONES (prefixlen n)).

Definition hostmask (n : IPv4Network) : Z :=
  Z.lxor (netmask n) ALL_ONES.

Definition network (n : IPv4Network) : Z := Z.land (ip n) (netmask n).

Definition broadcast (n : IPv4Network) : Z := Z.lor (ip n) (hostmask n).

(** [a == b] *)
Definition net_eq (a b : IPv4Network) : bool :=
  (network a =? network b) && (netmask a =? netmask b).

(** [a > b] *)
Definition net_gt (a b : IPv4Network) : bool :=
  if negb (network a =? network b) then network a >? network b
  else if negb (netmask a =? netmask b) then netmask a >? netmask b
  else false.

(** [a < b] *)
Definition net_lt (a b : IPv4Network) : bool :=
  if negb (network a =? network b) then network a <? network b
  else if negb (netmask a =? netmask b) then netmask a <? netmask b
  else false.

(** [other in self], both networks *)
Definition net_contains (self other : IPv4Network) : bool :=
  (network self <=? network other) && (broadcast self >=? broadcast other).

(** [numhosts] *)
Definition numhosts (n : IPv4Network) : Z := broadcast n - network n + 1.

(** What the constructor accepts: a 32-bit address, a length in 0..32. *)
Definition wf (n : IPv4Network) : Prop :=
  0 <= ip n < 2 ^ 32 /\ 0 <= prefixlen n <= 32.

(** The network of a single address, [IPNetwork("a.b.c.d")]. *)
Definition host (x : Z) : IPv4Network := mkNet x 32.

(** The address [x] lies in the range of [p] (section 3 of the
    specification: the top [prefixlen] bits agree). *)
Definition covers (p : IPv4Network) (x : Z) : Prop :=
  network p <= x <= broadcast p.

Definition overlap (p q : IPv4Network) : Prop :=
  exists x, covers p x /\ covers q x.

(** *** Parsing of the textual form *)

Definition is_digit (c : ascii) : bool :=
  let n := nat_of_ascii c in (48 <=? n)%nat && (n <=? 57)%nat.

Definition digit_val (c : ascii) : Z := Z.of_nat (nat_of_ascii c) - 48.

Fixpoint all_digits (s : string) : bool :=
  match s with
  | EmptyString => true
  | String c s' => is_digit c && all_digits s'
  end.

Fixpoint decimal_acc (acc : Z) (s : string) : Z :=
  match s with
  | EmptyString => acc
  | String c s' => decimal_acc (10 * acc + digit_val c) s'
  end.

(** A run of one to [maxlen] decimal digits with value at most [bound]. *)
Definition parse_number (maxlen : nat) (bound : Z) (s : string) : option Z :=
  if (0 <? String.length s)%nat && (String.length s <=? maxlen)%nat
     && all_digits s
  then let v := decimal_acc 0 s in
       if v <=? bound then Some v else None
  else None.

(** [s.split(sep)] for a one-character separator. *)
Fixpoint split_on (sep : ascii) (cur : string) (s : string) : list string :=
  match s with
  | EmptyString => [cur]
  | String c s' =>
      if Ascii.eqb c sep then cur :: split_on sep EmptyString s'
      else split_on sep (cur ++ String c EmptyString)%string s'
  end.

(** A dotted quad: four runs of one to three decimal digits, each at most
    255, and the address it denotes.  This is the form the patterns of
    [blk_ipdict.py] and [blk_web.py] aim at; the parser of the library,
    below, accepts less (no leading zero). *)
Definition parse_address (s : string) : option Z :=
  match split_on "." EmptyString s with
  | [a; b; c; d] =>
      match parse_number 3 255 a, parse_number 3 255 b,
            parse_number 3 255 c, parse_number 3 255 d with
      | Some a, Some b, Some c, Some d =>
          Some (((a * 256 + b) * 256 + c) * 256 + d)
      | _, _, _, _ => None
      end
  | _ => None
  end.

(** *** The parser of the library (ipaddr 2.2.0)

    [None] stands for [AddressValueError] or [NetmaskValueError]. *)

(** [_BaseV4._parse_octet]: decimal digits only, at most 255, and no
    leading zero in front of another digit. *)
Definition _parse_octet (octet_str : string) : option Z :=
  if all_digits octet_str then
    match octet_str with
    | EmptyString => None
    | String c _ =>
        let octet_int := decimal_acc 0 octet_str in
        if (octet_int >? 255)
           || (Ascii.eqb c "0" && (1 <? String.length octet_str)%nat)
        then None
        else Some octet_int
    end
  else None.

(** The loop of [_BaseV4._ip_int_from_string] over the octets. *)
Fixpoint pack_octets (octets : list string) (packed_ip : Z) : option Z :=
  match octets with
  | [] => Some packed_ip
  | oc :: rest =>
      match _parse_octet oc with
      | Some v => pack_octets rest (Z.lor (Z.shiftl packed_ip 8) v)
      | None => None
      end
  end.

(** [_BaseV4._ip_int_from_string] *)
Definition _ip_int_from_string (ip_str : string) : option Z :=
  let octets := split_on "." EmptyString ip_str in
  if (length octets =? 4)%nat then pack_octets octets 0 else None.

(** [_BaseNet._prefix_from_prefix_string]: a run of decimal digits whose
    value is at most [max_prefixlen]. *)
Definition _prefix_from_prefix_string (max_prefixlen : Z)
  (prefixlen_str : string) : option Z :=
  if all_digits prefixlen_str then
    match prefixlen_str with
    | EmptyString => None
    | String _ _ =>
        let prefixlen := decimal_acc 0 prefixlen_str in
        if prefixlen <=? max_prefixlen then Some prefixlen else None
    end
  else None.

(** The loop of [_BaseNet._prefix_from_ip_int]: the zero bits at the low
    end are shifted out, [prefixlen] counting down from the width. *)
Fixpoint shift_zeroes (prefixlen : nat) (ip_int : Z) : Z * nat :=
  match prefixlen with
  | O => (ip_int, O)
  | S p =>
      if Z.land ip_int 1 =? 1 then (ip_int, prefixlen)
      else shift_zeroes p (Z.shiftr ip_int 1)
  end.

(** [_BaseNet._prefix_from_ip_int] for the 32 bits of IPv4: what is left
    above the zeroes has to be all ones. *)
Definition _prefix_from_ip_int (ip_int : Z) : option Z :=
  let '(rest, prefixlen) := shift_zeroes 32 ip_int in
  if rest =? Z.shiftl 1 (Z.of_nat prefixlen) - 1
  then Some (Z.of_nat prefixlen)
  else None.

(** [_BaseNet._prefix_from_ip_string]: a netmask in dotted form, or else
    a hostmask. *)
Definition _prefix_from_ip_string (ip_str : string) : option Z :=
  match _ip_int_from_string ip_str with
  | None => None
  | Some ip_int =>
      match _prefix_from_ip_int ip_int with
      | Some prefixlen => Some prefixlen
      | None => _prefix_from_ip_int (Z.lxor ip_int ALL_ONES)
      end
  end.

(** [IPv4Network(address)] for a string. *)
Definition IPv4Network_of_string (address : string) : option IPv4Network :=
  match split_on "/" EmptyString address with
  | [a] =>
      match _ip_int_from_string a with
      | Some x => Some (mkNet x 32)
      | None => None
      end
  | [a; m] =>
      match _ip_int_from_string a with
      | Some x =>
          match _prefix_from_prefix_string 32 m with
          | Some n => Some (mkNet x n)
          | None =>
              match _prefix_from_ip_string m with
              | Some n => Some (mkNet x n)
              | None => None
              end
          end
      | None => None
      end
  | _ => None
  end.

(** *** Networks of the other version

    [IPv6Network] objects carry the same two numbers on 128 bits. *)
Record IPv6Network : Type := mkNet6 { ip6 : Z; prefixlen6 : Z }.

Definition ALL_ONES6 : Z := 2 ^ 128 - 1.

Definition netmask6 (n : IPv6Network) : Z :=
  Z.lxor ALL_ONES6 (Z.shiftr ALL_ONES6 (prefixlen6 n)).

Definition hostmask6 (n : IPv6Network) : Z :=
  Z.lxor (netmask6 n) ALL_ONES6.

Definition network6 (n : IPv6Network) : Z := Z.land (ip6 n) (netmask6 n).

Definition broadcast6 (n : IPv6Network) : Z := Z.lor (ip6 n) (hostmask6 n).

Definition numhosts6 (n : IPv6Network) : Z := broadcast6 n - network6 n + 1.

Definition wf6 (n : IPv6Network) : Prop :=
  0 <= ip6 n < 2 ^ 128 /\ 0 <= prefixlen6 n <= 128.

(** What [IPNetwork] returns: a network of one of the two versions. *)
Inductive IPNet : Type :=
  | V4 (n : IPv4Network)
  | V6 (n : IPv6Network).

Definition version (n : IPNet) : Z :=
  match n with V4 _ => 4 | V6 _ => 6 end.

(** [n.numhosts] *)
Definition ipnet_numhosts (n : IPNet) : Z :=
  match n with V4 a => numhosts a | V6 a => numhosts6 a end.

(** [a == b]: networks of different versions are not equal. *)
Definition ipnet_eq (a b : IPNet) : bool :=
  match a, b with
  | V4 a, V4 b => net_eq a b
  | V6 a, V6 b =>
      (network6 a =? network6 b) && (netmask6 a =? netmask6 b)
  | _, _ => false
  end.

(** [a > b]: networks of different versions cannot be ordered, the
    library raises [TypeError]. *)
Definition ipnet_gt (a b : IPNet) : result bool :=
  match a, b with
  | V4 a, V4 b => Returned (net_gt a b)
  | V6 a, V6 b =>
      Returned
        (if negb (network6 a =? network6 b) then network6 a >? network6 b
         else if negb (netmask6 a =? netmask6 b)
              then netmask6 a >? netmask6 b
              else false)
  | _, _ => Raised TypeError
  end.

(** The constructor [IPv6Network(address)] for a string, which the
    functions of the repository reach only through [IPNetwork]: it is a
    parameter of the model. *)
Class IPv6Parser : Type :=
  IPv6Network_of_string : string -> option IPv6Network.

(** [IPNetwork(address)]: an IPv4 network if the text is one, or else an
    IPv6 network; [None] stands for the [ValueError] raised when it is
    neither. *)
Definition IPNetwork `{IPv6Parser} (address : string) : option IPNet :=
  match IPv4Network_of_string address with
  | Some n => Some (V4 n)
  | None =>
      match IPv6Network_of_string address with
      | Some n => Some (V6 n)
      | None => None
      end
  end.

End IPAddr.

(** ** blk_tree.py: the balanced tree of subnets *)

Module BlkTree.
Import IPAddr.

(** [bbsnode], with the sentinel [NIL_NODE] of level 0 as a constructor.
    [subs[0]] and [subs[1]] are the two last arguments of [Node]. *)
Inductive bbsnode : Type :=
  | NIL_NODE
  | Node (level : nat) (key : IPv4Network) (value : string)
         (sub0 sub1 : bbsnode).

Definition level (t : bbsnode) : nat :=
  match t with NIL_NODE => 0%nat | Node lv _ _ _ _ => lv end.

Definition is_nil (t : bbsnode) : bool :=
  match t with NIL_NODE => true | Node _ _ _ _ _ => false end.

(** [NIL_NODE.subs = [NIL_NODE, NIL_NODE]] *)
Definition sub1_of (t : bbsnode) : bbsnode :=
  match t with NIL_NODE => NIL_NODE | Node _ _ _ _ r => r end.

Definition sub0_of (t : bbsnode) : bbsnode :=
  match t with NIL_NODE => NIL_NODE | Node _ _ _ l _ => l end.

Definition key_of (t : bbsnode) : option IPv4Network :=
  match t with NIL_NODE => None | Node _ k _ _ _ => Some k end.

Definition value_of (t : bbsnode) : option string :=
  match t with NIL_NODE => None | Node _ _ v _ _ => Some v end.

(** The tree object.  Its [lastinsert] attribute is written by [insert]
    and read only by [instest], which nothing in the repository calls; it
    is left out. *)
Record bbstree : Type := mkTree { root : bbsnode }.

(** [bbstree()] *)
Definition empty : bbstree := mkTree NIL_NODE.

(** [bbstree.height] *)
Definition height (t : bbstree) : nat := level (root t).

(** [__skew] *)
Definition __skew (t : bbsnode) : bbsnode :=
  if negb (level t =? 0)%nat then
    match t with
    | Node lv k v (Node llv lk lval ll lr) r =>
        if (llv =? lv)%nat
        then Node llv lk lval ll (Node lv k v lr r)
        else t
    | _ => t
    end
  else t.

(** [__split] *)
Definition __split (t : bbsnode) : bbsnode :=
  if negb (level t =? 0)%nat then
    if (level t =? level (sub1_of (sub1_of t)))%nat then
      match t with
      | Node lv k v l (Node rlv rk rval rl rr) =>
          Node (rlv + 1) rk rval (Node lv k v l rl) rr
      | _ => t
      end
    else t
  else t.

(** [__insert]; it is only ever called on a node that is not the
    sentinel. *)
Fixpoint __insert (tnode : bbsnode) (k : IPv4Network) (v : string)
  : bbsnode :=
  match tnode with
  | NIL_NODE => NIL_NODE
  | Node lv key val l r =>
      if net_eq k key then Node lv key v l r
      else if net_gt k key then
        match r with
        | NIL_NODE => Node lv key val l (Node 1 k v NIL_NODE NIL_NODE)
        | Node _ _ _ _ _ =>
            Node lv key val l (__split (__skew (__insert r k v)))
        end
      else
        match l with
        | NIL_NODE => Node lv key val (Node 1 k v NIL_NODE NIL_NODE) r
        | Node _ _ _ _ _ =>
            Node lv key val (__split (__skew (__insert l k v))) r
        end
  end.

(** [bbstree.insert] *)
Definition insert (t : bbstree) (k : IPv4Network) (v : string) : bbstree :=
  if negb (is_nil (root t))
  then mkTree (__split (__skew (__insert (root t) k v)))
  else mkTree (Node 1 k v NIL_NODE NIL_NODE).

(** [__chk_ip], with [q] the value of [IPNetwork(my_ip)]. *)
Fixpoint __chk_ip (tnode : bbsnode) (q : IPv4Network) : option bbsnode :=
  match tnode with
  | NIL_NODE => None
  | Node _ key _ l r =>
      if net_contains key q then Some tnode
      else
        let sub := if net_gt q key then r else l in
        if negb (is_nil sub) then
          match sub with
          | NIL_NODE => None
          | Node _ _ _ _ _ =>
              if net_gt q key then __chk_ip r q else __chk_ip l q
          end
        else None
  end.

(** [bbstree.chk_ip]: the empty tree answers [None] without looking at
    [my_ip]; otherwise [IPNetwork(my_ip)] is evaluated at the root and may
    raise.  An IPv6 network is [in] no key, which are IPv4 networks in
    this module, and its comparison [>] with the key of the root raises
    [TypeError]. *)
Definition chk_ip `{IPv6Parser} (t : bbstree) (my_ip : string)
  : result (option bbsnode) :=
  if negb (is_nil (root t)) then
    match IPNetwork my_ip with
    | Some (V4 q) => Returned (__chk_ip (root t) q)
    | Some (V6 _) => Raised TypeError
    | None => Raised ValueError
    end
  else Returned None.

(** The tree after a sequence of [insert] calls on a new tree. *)
Definition build (ins : list (IPv4Network * string)) : bbstree :=
  fold_left (fun t kv => insert t (fst kv) (snd kv)) ins empty.

(** In-order contents (what [forward] yields). *)
Fixpoint bindings (t : bbsnode) : list (IPv4Network * string) :=
  match t with
  | NIL_NODE => []
  | Node _ k v l r => (bindings l ++ (k, v) :: bindings r)%list
  end.

Definition keys (t : bbsnode) : list IPv4Network := map fst (bindings t).

(** The search-tree ordering under the comparison [>] of the keys. *)
Fixpoint bst (t : bbsnode) : Prop :=
  match t with
  | NIL_NODE => True
  | Node _ k _ l r =>
      bst l /\ bst r
      /\ Forall (fun a => net_gt k a = true) (keys l)
      /\ Forall (fun a => net_gt a k = true) (keys r)
  end.

End BlkTree.

(** ** cfg.py *)

Module Cfg.

Definition nl : string := String "010"%char EmptyString.
Definition cr : string := String "013"%char EmptyString.

Definition SEP : string := " | ".
Definition DELIM : string := (cr ++ nl)%string.

Definition DEBUG_OFF : Z := 0.
Definition DEBUG_ON : Z := 1.
Definition DEBUG_ON_LIST : Z := 2.
Definition DEBUG_VERBOSE : Z := 3.

Definition CYMRU_CMD_FIRST : string :=
  ("begin " ++ nl ++ "countrycode " ++ nl)%string.
Definition CYMRU_CMD_LAST : string := ("end " ++ nl)%string.

(** The module attributes an installation edits. *)
Record config : Type := mkConfig {
  debug : Z;
  rteserv_list : list string;
  as_search_list : list string;
  sanity_ip : string;
  sanity_as : string;
  ip_prob_max : Z;
  ip_prob_retry : Z;
  cyrmu_max : Z;
  cymru_delay : Z
}.

(** The values of [cfg.py] as distributed. *)
Definition default : config := {|
  debug := DEBUG_OFF;
  rteserv_list := ["route-views.on.bb.telus.com"; "route-views.optus.net.au";
                   "route-server.ip.tiscali.net"];
  as_search_list := ["nnn1"; "nnn2"; "nnn3"; "nnn4"; "nnn5"];
  sanity_ip := "xxx.yyy.zzz.www";
  sanity_as := "nnnn";
  ip_prob_max := 3;
  ip_prob_retry := 60 * 4;
  cyrmu_max := 20;
  cymru_delay := 60 * 5
|}.

End Cfg.

(** ** Python strings *)

Module PyStr.

(** The characters [str.strip()] removes and [\s] matches. *)
Definition is_space (c : ascii) : bool :=
  let n := nat_of_ascii c in
  ((9 <=? n)%nat && (n <=? 13)%nat) || (n =? 32)%nat.

Definition is_digit (c : ascii) : bool :=
  let n := nat_of_ascii c in (48 <=? n)%nat && (n <=? 57)%nat.

Fixpoint lstrip (s : string) : string :=
  match s with
  | EmptyString => EmptyString
  | String c s' => if is_space c then lstrip s' else s
  end.

Fixpoint rstrip (s : string) : string :=
  match s with
  | EmptyString => EmptyString
  | String c s' =>
      match rstrip s' with
      | EmptyString => if is_space c then EmptyString else String c EmptyString
      | r => String c r
      end
  end.

(** [s.strip()] *)
Definition strip (s : string) : string := rstrip (lstrip s).

(** The truth value of a string: it is not empty. *)
Definition truthy (s : string) : bool :=
  match s with EmptyString => false | String _ _ => true end.

(** [s.startswith(p)] *)
Definition startswith (s p : string) : bool := String.prefix p s.

(** [sub in s] for two strings: [sub] occurs in [s]. *)
Fixpoint str_in (sub s : string) : bool :=
  String.prefix sub s
  || match s with
     | EmptyString => false
     | String _ s' => str_in sub s'
     end.

(** [s.split(sep, maxsplit)] for a one-character separator; [cur] is the
    piece being read. *)
Fixpoint split_max (sep : ascii) (maxsplit : nat) (cur s : string)
  : list string :=
  match s with
  | EmptyString => [cur]
  | String c s' =>
      match maxsplit with
      | O => [(cur ++ s)%string]
      | S m =>
          if Ascii.eqb c sep then cur :: split_max sep m EmptyString s'
          else split_max sep maxsplit (cur ++ String c EmptyString)%string s'
      end
  end.

(** [sep.join(l)] *)
Fixpoint join (sep : string) (l : list string) : string :=
  match l with
  | [] => EmptyString
  | [a] => a
  | a :: l' => (a ++ sep ++ join sep l')%string
  end.

Fixpoint drop_chars (n : nat) (s : string) : string :=
  match n, s with
  | O, _ => s
  | S n', String _ s' => drop_chars n' s'
  | S _, EmptyString => EmptyString
  end.

(** The longest prefix of characters satisfying [p], and the rest. *)
Fixpoint span (p : ascii -> bool) (s : string) : string * string :=
  match s with
  | EmptyString => (EmptyString, EmptyString)
  | String c s' =>
      if p c then let '(a, b) := span p s' in (String c a, b)
      else (EmptyString, s)
  end.

(** The elements of a field kept as a [SEP]-joined string: the reading of
    section 3 of the specification, where every field is a set. *)
Fixpoint split_sep (fuel : nat) (cur s : string) : list string :=
  match fuel with
  | O => [(cur ++ s)%string]
  | S fuel' =>
      match s with
      | EmptyString => [cur]
      | String c s' =>
          if String.prefix Cfg.SEP s
          then cur :: split_sep fuel' EmptyString
                        (drop_chars (String.length Cfg.SEP) s)
          else split_sep fuel' (cur ++ String c EmptyString)%string s'
      end
  end.

Definition members (field : string) : list string :=
  if truthy field then split_sep (String.length field) EmptyString field
  else [].

End PyStr.

(** ** The regular expressions of blk_ipdict.py *)

Module Re.
Import PyStr.

(** One [\s]. *)
Definition eat_space1 (s : string) : option string :=
  match s with
  | String c s' => if is_space c then Some s' else None
  | EmptyString => None
  end.

(** A literal. *)
Definition eat_lit (lit s : string) : option string :=
  if String.prefix lit s then Some (drop_chars (String.length lit) s)
  else None.

(** [.*$] at the end of a pattern compiled without MULTILINE: everything up
    to the end of the string, or up to a newline that is its last
    character; no match when a newline comes earlier. *)
Fixpoint dot_star_eol (s : string) : option string :=
  match s with
  | EmptyString => Some EmptyString
  | String c s' =>
      if Ascii.eqb c "010"%char then
        match s' with EmptyString => Some EmptyString | _ => None end
      else match dot_star_eol s' with
           | Some d => Some (String c d)
           | None => None
           end
  end.

(** [\d{1,3}\.]: the digits directly before the dot are one to three. *)
Definition digits_dot (s : string) : option string :=
  let '(d, r) := span is_digit s in
  if (1 <=? String.length d)%nat && (String.length d <=? 3)%nat then
    match r with
    | String c r' => if Ascii.eqb c "."%char then Some r' else None
    | EmptyString => None
    end
  else None.

(** [re_ipv4.match(s)] as a truth value.  [match] anchors the pattern
    [\d{1,3}\.\d{1,3}\.\d{1,3}\.\d{1,3}\s*] at the start of [s] only. *)
Definition re_ipv4_match (s : string) : bool :=
  match digits_dot s with
  | Some r1 =>
      match digits_dot r1 with
      | Some r2 =>
          match digits_dot r2 with
          | Some r3 =>
              match r3 with
              | String c _ => is_digit c
              | EmptyString => false
              end
          | None => false
          end
      | None => false
      end
  | None => false
  end.

(** [re_addr.match(s)]: the groups [addr] and [desc] of
    [(?P<addr>\S+)\s*(?P<desc>.*$)]. *)
Definition re_addr_match (s : string) : option (string * string) :=
  let '(a, r) := span (fun c => negb (is_space c)) s in
  if truthy a then
    let '(_, r') := span is_space r in
    match dot_star_eol r' with
    | Some d => Some (a, d)
    | None => None
    end
  else None.

(** [re_acl.match(s)]: the groups [addr] and [desc] of
    [deny\sip\shost\s(?P<addr>\S+)\sany\slog\s*(?P<desc>.*$)]. *)
Definition re_acl_match (s : string) : option (string * string) :=
  r ← eat_lit "deny" s; r ← eat_space1 r;
  r ← eat_lit "ip" r; r ← eat_space1 r;
  r ← eat_lit "host" r; r ← eat_space1 r;
  let '(a, r) := span (fun c => negb (is_space c)) r in
  if truthy a then
    r ← eat_space1 r; r ← eat_lit "any" r; r ← eat_space1 r;
    r ← eat_lit "log" r;
    let '(_, r) := span is_space r in
    d ← dot_star_eol r;
    Some (a, d)
  else None.

End Re.

(** ** blk_ipdict.py: the dictionary of hostile IPs *)

Module IpDict.
Import PyStr Re.

(** A dictionary element, the tuple [(as, cc, org, desc)].  Each component
    is one string; several values are kept joined by [cfg.SEP]. *)
Record elt : Type := mkElt {
  e_as : string;
  e_cc : string;
  e_org : string;
  e_desc : string
}.

(** [hostileIPs.ip_dict] *)
Abbreviation ip_dict := (gmap string elt).

Definition PAT_HTTP : string := "http".
Definition PAT_FTP : string := "ftp".
Definition PAT_ACL : string := "deny ".

Section Methods.
(** [cfg.debug] *)
Variable debug : Z.

(** [if cfg.debug >= lvl: log.msg(...)] *)
Definition dbg (lvl : Z) (s : string) : list log_entry :=
  if lvl <=? debug then [LogMsg s] else [].

(** [hostileIPs.insert_ip] *)
Definition insert_ip (d : ip_dict) (__ip desc as_ org cc : string)
  : ip_dict * list log_entry :=
  let desc := strip desc in
  match d !! __ip with
  | Some (mkElt as_tmp cc_tmp org_tmp desc_tmp) =>
      let as_tmp :=
        if truthy as_ then
          if negb (truthy as_tmp) then as_
          else if negb (str_in as_ as_tmp) then join Cfg.SEP [as_tmp; as_]
          else as_tmp
        else as_tmp in
      let cc_tmp :=
        if truthy cc then
          if negb (truthy cc_tmp) then cc
          else if negb (str_in cc cc_tmp) then join Cfg.SEP [cc_tmp; cc]
          else cc_tmp
        else cc_tmp in
      let org_tmp :=
        if truthy org then
          if negb (str_in org org_tmp) then join Cfg.SEP [org_tmp; org]
          else org_tmp
        else org_tmp in
      let desc_tmp :=
        if truthy desc then
          if negb (str_in desc desc_tmp) then join Cfg.SEP [desc_tmp; desc]
          else desc_tmp
        else desc_tmp in
      (<[__ip := mkElt as_tmp cc_tmp org_tmp desc_tmp]> d, [])
  | None =>
      if negb (truthy org && re_ipv4_match __ip) then
        (d, [LogErr ("ipdict: Invalid input - ignored " ++ __ip)%string])
      else (<[__ip := mkElt as_ cc org desc]> d, [])
  end.

(** [hostileIPs.updt_whois] *)
Definition updt_whois (d : ip_dict) (line : string)
  : ip_dict * list log_entry :=
  let log0 := dbg Cfg.DEBUG_VERBOSE ("ipdict: whois: " ++ strip line)%string in
  match split_max "|"%char 3 EmptyString (strip line) with
  | [myas; myip; mycc; mydesc] =>
      let myip := strip myip in
      match d !! myip with
      | Some _ =>
          let '(d', l) :=
            insert_ip d myip (strip mydesc) (strip myas) EmptyString
                      (strip mycc) in
          (d', (log0 ++ l)%list)
      | None =>
          (d, (log0 ++ [LogErr ("ipdict: unknown ip from whois - ignored: "
                                ++ line)%string])%list)
      end
  | _ =>
      (d, (log0 ++ [LogErr ("ipdict: whois line invalid format: "
                            ++ line)%string])%list)
  end.

(** [hostileIPs.list_all]: the keys in the order of enumeration. *)
Definition list_all (d : ip_dict) : list string := (map_to_list d).*1.

(** [hostileIPs.list_elt] *)
Definition list_elt (d : ip_dict) (__ip : string)
  : option elt * list log_entry :=
  match d !! __ip with
  | None =>
      (None, [LogMsg ("ipdict: IP not in list of hostile IPs: "
                      ++ __ip)%string])
  | Some e => (Some e, [])
  end.

(** [hostileIPs.list_grp]: what the generator yields, in order. *)
Definition list_grp (d : ip_dict) (as_ org cc : string)
  : list (string * elt) :=
  List.filter
    (fun kv =>
       (negb (truthy as_) || str_in as_ (e_as (snd kv)))
       && (negb (truthy org) || str_in org (e_org (snd kv)))
       && (negb (truthy cc) || str_in cc (e_cc (snd kv))))
    (map_to_list d).

(** [hostileIPs.del_all] *)
Definition del_all (d : ip_dict) : ip_dict := ∅.

Section Parser.
(** The state the DNS scheduler works on and the callback
    [dns_lookup_fn(name, flag, mydesc, myorg)] handed to the parser. *)
Variable W : Type.
Variable dns_lookup_fn : string -> bool -> string -> string -> W -> W.
(** [urlparse] of the Python library: the scheme and the network location,
    or the exception it raises. *)
Variable urlparse : string -> result (string * string).

(** What a call of [insert_blklst_line] leaves behind. *)
Record parsed : Type := mkParsed {
  p_result : result unit;
  p_dict : ip_dict;
  p_sched : W;
  p_log : list log_entry
}.

(** [hostileIPs.insert_blklst_line] *)
Definition insert_blklst_line (d : ip_dict) (w : W) (line myorg : string)
  : parsed :=
  let line := strip line in
  let log0 := dbg Cfg.DEBUG_VERBOSE ("ipdict: input: " ++ line)%string in
  match line with
  | EmptyString =>
      mkParsed (Returned tt) d w
        (log0 ++ dbg Cfg.DEBUG_VERBOSE "ipdict:  --blank line")%list
  | String c0 _ =>
      if str_in (String c0 EmptyString) "#!" then
        mkParsed (Returned tt) d w
          (log0 ++ dbg Cfg.DEBUG_VERBOSE "ipdict: --comment")%list
      else if startswith line PAT_HTTP || startswith line PAT_FTP then
        match urlparse line with
        | Raised e => mkParsed (Raised e) d w log0
        | Returned (scheme, netloc) =>
            if existsb (String.eqb scheme) ["http"; "https"; "ftp"] then
              let myip := netloc in
              let mydesc := strip line in
              let log1 :=
                (log0 ++ dbg Cfg.DEBUG_VERBOSE
                           ("ipdict: --url: " ++ myip)%string)%list in
              if re_ipv4_match myip then
                let '(d', l) :=
                  insert_ip d myip mydesc EmptyString myorg EmptyString in
                mkParsed (Returned tt) d' w (log1 ++ l)%list
              else
                mkParsed (Returned tt) d
                  (dns_lookup_fn myip false mydesc myorg w)
                  (log1 ++ dbg Cfg.DEBUG_VERBOSE
                             "ipdict:   do dns lookup")%list
            else mkParsed (Returned tt) d w log0
        end
      else if startswith line PAT_ACL then
        match re_acl_match line with
        | Some (myip, mydesc) =>
            if truthy myip then
              let log1 :=
                (log0 ++ dbg Cfg.DEBUG_VERBOSE
                           ("ipdict: --acl addr:" ++ myip ++ " desc: |"
                            ++ mydesc ++ "|")%string)%list in
              if re_ipv4_match myip then
                let '(d', l) :=
                  insert_ip d myip mydesc EmptyString myorg EmptyString in
                mkParsed (Returned tt) d' w (log1 ++ l)%list
              else mkParsed (Raised AssertionError) d w log1
            else mkParsed (Returned tt) d w log0
        | None => mkParsed (Returned tt) d w log0
        end
      else
        match re_addr_match line with
        | None => mkParsed (Raised AttributeError) d w log0
        | Some (myip, mydesc) =>
            if truthy myip then
              let log1 :=
                (log0 ++ dbg Cfg.DEBUG_VERBOSE
                           ("ipdict: --addr: " ++ myip ++ ", descr: |"
                            ++ mydesc ++ "|")%string)%list in
              if re_ipv4_match myip then
                let '(d', l) :=
                  insert_ip d myip mydesc EmptyString myorg EmptyString in
                mkParsed (Returned tt) d' w
                  (log1 ++ dbg Cfg.DEBUG_VERBOSE
                             ("ipdict: --ip addr: " ++ myip)%string
                        ++ l)%list
              else
                mkParsed (Returned tt) d
                  (dns_lookup_fn myip false mydesc myorg w)
                  (log1 ++ dbg Cfg.DEBUG_VERBOSE
                             "ipdict:   and do dns lookup")%list
            else
              mkParsed (Returned tt) d w
                (log0 ++ dbg Cfg.DEBUG_VERBOSE
                           "ipdict: --line ignored, unknown format")%list
        end
  end.

End Parser.
End Methods.

(** One call of [insert_ip], and a sequence of calls on one dictionary. *)
Record call : Type := mkCall {
  c_ip : string;
  c_desc : string;
  c_as : string;
  c_org : string;
  c_cc : string
}.

Definition run_insert (d : ip_dict) (c : call) : ip_dict :=
  fst (insert_ip d (c_ip c) (c_desc c) (c_as c) (c_org c) (c_cc c)).

Definition run_inserts (cs : list call) (d : ip_dict) : ip_dict :=
  fold_left run_insert cs d.

Definition calls_for (k : string) (cs : list call) : list call :=
  List.filter (fun c => String.eqb (c_ip c) k) cs.

(** The field of the whois line that names the record to update. *)
Definition whois_ip (line : string) : option string :=
  match split_max "|"%char 3 EmptyString (strip line) with
  | [_; myip; _; _] => Some (strip myip)
  | _ => None
  end.


(** *** The fields read as sets

    What [insert_ip] does to one field of a record that exists: [as] and
    [cc] are replaced when empty, [org] and [desc] are appended to
    without that test. *)
Definition merge_opt (tmp v : string) : string :=
  if truthy v then
    if negb (truthy tmp) then v
    else if negb (str_in v tmp) then join Cfg.SEP [tmp; v]
    else tmp
  else tmp.

Definition merge_req (tmp v : string) : string :=
  if truthy v then
    if negb (str_in v tmp) then join Cfg.SEP [tmp; v] else tmp
  else tmp.

(** The members of a field that are not the empty string. *)
Definition nonempty_members (field : string) : list string :=
  List.filter truthy (members field).

(** The parts of a field: its members, after an empty one if the field
    was empty when the first value was appended. *)
Definition lead_parts (lead : bool) (ms : list string) : list string :=
  if lead then EmptyString :: ms else ms.

(** A value that reads back as one member: no ["|"] in it and no space
    at either end. *)
Fixpoint no_pipe (s : string) : bool :=
  match s with
  | EmptyString => true
  | String c s' => negb (Ascii.eqb c "|") && no_pipe s'
  end.

Fixpoint ends_space (s : string) : bool :=
  match s with
  | EmptyString => false
  | String c EmptyString => Ascii.eqb c " "
  | String _ s' => ends_space s'
  end.

Definition atomic (v : string) : bool :=
  no_pipe v && negb (String.prefix " " v) && negb (ends_space v).

(** The value [u] is empty, or does not occur inside [v], or is [v]:
    the test [u in field] then answers as membership does. *)
Definition apart (u v : string) : bool :=
  negb (truthy u) || negb (str_in u v) || String.eqb u v.

Definition call_atomic (c : call) : bool :=
  atomic (c_as c) && atomic (c_cc c) && atomic (c_org c)
  && atomic (strip (c_desc c)).

Definition calls_apart (c1 c2 : call) : bool :=
  negb (String.eqb (c_ip c1) (c_ip c2))
  || (apart (c_as c1) (c_as c2) && apart (c_cc c1) (c_cc c2)
      && apart (c_org c1) (c_org c2)
      && apart (strip (c_desc c1)) (strip (c_desc c2))).

(** The values of the calls read back as members, and among the calls
    for one address no value occurs inside another. *)
Definition separable (cs : list call) : bool :=
  forallb call_atomic cs
  && forallb (fun c1 => forallb (calls_apart c1) cs) cs.

(** The record that the call [c0], which creates it, and the calls
    [rest] after it leave. *)
Definition record_of (c0 : call) (rest : list call) : elt :=
  mkElt (fold_left merge_opt (map c_as (c0 :: rest)) "")
        (fold_left merge_opt (map c_cc (c0 :: rest)) "")
        (fold_left merge_req (map c_org rest) (c_org c0))
        (fold_left merge_req (map (fun c => strip (c_desc c)) rest)
                   (strip (c_desc c0))).

Definition has_record (d : ip_dict) (ip : string) : bool :=
  match d !! ip with Some _ => true | None => false end.

(** The calls for an address without a record in [d] all name a
    blocklist, or none does: a call that names none is rejected while
    the address is new. *)
Definition org_rule (d : ip_dict) (cs : list call) : bool :=
  forallb (fun c1 =>
             has_record d (c_ip c1)
             || forallb (fun c2 =>
                           negb (String.eqb (c_ip c1) (c_ip c2))
                           || Bool.eqb (truthy (c_org c1))
                                       (truthy (c_org c2)))
                        cs) cs.

(** A set of values that read as members: atomic, and none inside
    another. *)
Definition member_values (U : list string) : Prop :=
  Forall (fun v => atomic v = true) U
  /\ forall u v, In u U -> In v U -> apart u v = true.

End IpDict.

(** ** blk_state.py: the global container *)

Module State.
Import BlkTree IpDict.

(** The attributes of [BlkState] other than the pointer to the worker
    service, which is passed where it is used. *)
Record BlkState : Type := mkState {
  mytree : option bbstree;
  mydict : option ip_dict;
  my_rte_srv : Z;
  ip_prob_cnt : Z
}.

(** [BlkState()] *)
Definition init : BlkState := mkState None None (-1) 0.

(** [init_tree] *)
Definition init_tree (st : BlkState) : bbstree * BlkState :=
  (empty, mkState (Some empty) (mydict st) (my_rte_srv st) (ip_prob_cnt st)).

(** [get_tree] *)
Definition get_tree (st : BlkState) : option bbstree := mytree st.

(** [init_dict] *)
Definition init_dict (st : BlkState) : BlkState :=
  mkState (mytree st) (Some ∅) (my_rte_srv st) (ip_prob_cnt st).

(** [get_dict] *)
Definition get_dict (st : BlkState) : option ip_dict := mydict st.

(** [get_next_rte_srv] *)
Definition get_next_rte_srv (c : Cfg.config) (st : BlkState)
  : result string * BlkState :=
  let i := my_rte_srv st + 1 in
  let i := if i =? Z.of_nat (length (Cfg.rteserv_list c)) then 0 else i in
  let st' := mkState (mytree st) (mydict st) i (ip_prob_cnt st) in
  match Cfg.rteserv_list c !! Z.to_nat i with
  | Some h => (Returned h, st')
  | None => (Raised IndexError, st')
  end.

(** [bump_ip_prob_cnt] *)
Definition bump_ip_prob_cnt (c : Cfg.config) (st : BlkState)
  : bool * BlkState :=
  let cnt := ip_prob_cnt st + 1 in
  let max_cnt_exceeded := cnt >=? Cfg.ip_prob_max c in
  (max_cnt_exceeded,
   mkState (mytree st) (mydict st) (my_rte_srv st)
           (if max_cnt_exceeded then 0 else cnt)).

(** [reset_ip_prob_cnt] *)
Definition reset_ip_prob_cnt (st : BlkState) : BlkState :=
  mkState (mytree st) (mydict st) (my_rte_srv st) 0.

End State.

(** ** blk_rteserv.py: the two public functions *)

Module Rteserv.
Import BlkTree State.

Definition PORT : Z := 23.

(** [blk_check_ip].  The bare [except] turns every exception of the lookup,
    also the one of calling [chk_ip] on [None], into a logged [None].  The
    [log.msg] lines guarded by [cfg.debug] are not kept in this module and
    the next. *)
Definition blk_check_ip `{IPAddr.IPv6Parser} (x : string)
  (mytree : option bbstree) : option string * list log_entry :=
  match mytree with
  | None => (None, [LogErr ("Lookup failed for IP: " ++ x)%string])
  | Some t =>
      match chk_ip t x with
      | Returned (Some n) => (value_of n, [])
      | Returned None => (None, [])
      | Raised _ => (None, [LogErr ("Lookup failed for IP: " ++ x)%string])
      end
  end.

(** [blk_rteserv_read], with [read_rtesrv] up to the opening of the
    connection. *)
Definition blk_rteserv_read (c : Cfg.config) (st : BlkState)
  : result (list action) * BlkState * list log_entry :=
  match get_next_rte_srv c st with
  | (Raised e, st') => (Raised e, st', [])
  | (Returned my_rteserver, st') =>
      let '(_, st'') := init_tree st' in
      (Returned [ConnectTCP my_rteserver PORT], st'',
       [LogMsg ("Initiating download of subnets for all AS's from "
                ++ my_rteserver)%string;
        LogMsg "Routeserver mainline rtn starting."])
  end.

End Rteserv.

(** ** blk_wk_msg.py: the counters of the DNS throttle *)

Module WkMsg.

Record WorkerService : Type := mkWorker {
  max_x : Z;
  num_x : Z;
  num_wait : Z
}.

(** [lkps_in_progress] *)
Definition lkps_in_progress (w : WorkerService) : bool :=
  (num_x w >? 0) || (num_wait w >? 0).

End WkMsg.

(** ** blk_main.py: the orchestrator *)

Module Main.
Import BlkTree IpDict State Rteserv WkMsg.

Definition CYMRU_PORT : Z := 43.
Definition CYMRU_IP : string := "whois.cymru.com".

(** The names bound in the module [blk_main]: what its [import] statements
    bring in and what it defines. *)
Definition module_names : list string :=
  ["get_blklst"; "cymru_get_whois"; "blk_check_ip"; "BlkState"; "cfg";
   "defer"; "reactor"; "log";
   "read_blklsts"; "blklsts_done"; "cymru_chk"; "cymru_done"; "blklst_Main"].

(** Evaluation of a global name inside [blk_main]. *)
Definition global_lookup (name : string) : result unit :=
  if existsb (String.eqb name) module_names then Returned tt
  else Raised (NameError name).

(** The loop of [cymru_chk] over the enumerated keys: [n] counts the
    addresses put into [data]. *)
Fixpoint cymru_loop `{IPAddr.IPv6Parser} (c : Cfg.config)
  (my_tree : option bbstree)
  (ips : list string) (n : Z) (data : string) (lg : list log_entry)
  : Z * string * list log_entry :=
  match ips with
  | [] => (n, data, lg)
  | myip :: rest =>
      let '(myas, l) := blk_check_ip myip my_tree in
      match myas with
      | Some _ =>
          if n >? Cfg.cyrmu_max c then (n, data, (lg ++ l)%list)
          else cymru_loop c my_tree rest (n + 1)
                 (data ++ myip ++ " " ++ Cfg.nl)%string (lg ++ l)%list
      | None => cymru_loop c my_tree rest n data (lg ++ l)%list
      end
  end.

(** [cymru_chk] *)
Definition cymru_chk `{IPAddr.IPv6Parser} (c : Cfg.config)
  (wk_serv : WorkerService) (bstate : BlkState)
  : result (list action) * list log_entry :=
  if lkps_in_progress wk_serv then
    (Returned [CallLater (Cfg.cymru_delay c) "cymru_chk"], [])
  else
    let log0 := [LogMsg (Cfg.nl ++ "bulk whois lookup is starting now")%string] in
    match get_dict bstate with
    | None => (Raised AttributeError, log0)
    | Some my_dict =>
        let my_tree := get_tree bstate in
        let '(n, data, lg) :=
          cymru_loop c my_tree (list_all my_dict) 0 Cfg.CYMRU_CMD_FIRST log0 in
        if n >? 0 then
          (Returned [CymruGetWhois CYMRU_IP CYMRU_PORT
                       (data ++ Cfg.CYMRU_CMD_LAST)%string], lg)
        else
          (Returned [SetStatus "No hostile IPs found in ASNs of interest"], lg)
    end.

Definition show_option (o : option string) : string :=
  match o with None => "None" | Some s => s end.

(** [blklst_Main] *)
Definition blklst_Main `{IPAddr.IPv6Parser} (c : Cfg.config)
  (bstate : BlkState) : result (list action) * BlkState * list log_entry :=
  let '(chk_as, l0) := blk_check_ip (Cfg.sanity_ip c) (get_tree bstate) in
  if match chk_as with
     | Some a => String.eqb a (Cfg.sanity_as c)
     | None => false
     end
  then
    (Returned [ReadBlklsts], init_dict (reset_ip_prob_cnt bstate),
     (l0 ++ [LogMsg "Sanity check of IP address lookup OK"])%list)
  else
    let l1 :=
      (l0 ++ [LogErr ("Sanity check of IP address lookup failed. IP: "
                      ++ Cfg.sanity_ip c ++ ", AS:" ++ show_option chk_as)%string])%list in
    let '(exceeded, bstate') := bump_ip_prob_cnt c bstate in
    if exceeded then
      match global_lookup "blk_rteserv_read" with
      | Raised e => (Raised e, bstate', l1)
      | Returned _ =>
          let '(r, bstate'', l2) := blk_rteserv_read c bstate' in
          (r, bstate'', (l1 ++ l2)%list)
      end
    else
      (Returned [CallLater (Cfg.ip_prob_retry c) "blklst_Main"], bstate', l1).

End Main.

(** ** Concrete data used by the examples below *)

Module Examples.
Import IPAddr BlkTree IpDict State WkMsg.

(** A tree holding 10.0.0.0/8 for AS 64500. *)
Definition tree10 : bbstree := build [(mkNet 167772160 8, "64500")].

Definition hostile (ip : string) : string * elt :=
  (ip, mkElt EmptyString EmptyString "dshield" EmptyString).

(** Twenty-two blocklisted addresses, all inside 10.0.0.0/8. *)
Definition hostile22 : ip_dict :=
  list_to_map
    (map hostile
       ["10.0.0.1"; "10.0.0.2"; "10.0.0.3"; "10.0.0.4"; "10.0.0.5";
        "10.0.0.6"; "10.0.0.7"; "10.0.0.8"; "10.0.0.9"; "10.0.0.10";
        "10.0.0.11"; "10.0.0.12"; "10.0.0.13"; "10.0.0.14"; "10.0.0.15";
        "10.0.0.16"; "10.0.0.17"; "10.0.0.18"; "10.0.0.19"; "10.0.0.20";
        "10.0.0.21"; "10.0.0.22"]).

Definition state22 : BlkState := mkState (Some tree10) (Some hostile22) 0 0.

(** No DNS lookup outstanding. *)
Definition idle : WorkerService := mkWorker 30 0 0.

(** A registry with one record, of AS 1234. *)
Definition registry1234 : ip_dict :=
  {["10.0.0.1" := mkElt "1234" "CA" "dshield" "scanner"]}.

(** A registry with one record, of AS 64500. *)
Definition registry64500 : ip_dict :=
  {["198.51.100.9" := mkElt "64500" "US" "dshield" "scanner"]}.

(** Two calls of [insert_ip] for one address, the first without [org]. *)
Definition call_a : call :=
  mkCall "10.0.0.1" "a" EmptyString EmptyString EmptyString.
Definition call_b : call :=
  mkCall "10.0.0.1" "b" EmptyString "dshield" EmptyString.
(** Two calls for one address, each with its blocklist. *)
Definition call_d : call := mkCall "10.0.0.1" "a" "111" "dshield" "CA".
Definition call_e : call := mkCall "10.0.0.1" "b" "222" "openbl" "US".
(** A call for the same address that names no blocklist. *)
Definition call_f : call := mkCall "10.0.0.1" "f" "333" "" "FR".
(** A call for another address. *)
Definition call_c : call :=
  mkCall "10.0.0.2" "c" EmptyString "dshield" EmptyString.

(** The IPv6 texts of the examples and the networks the library makes of
    them: [2001:db8::/32] and the single address [2001:db8::1]. *)
Definition ipv6_table : IPv6Parser :=
  fun address =>
    if String.eqb address "2001:db8::/32"
    then Some (mkNet6 42540766411282592856903984951653826560 32)
    else if String.eqb address "2001:db8::1"
    then Some (mkNet6 42540766411282592856903984951653826561 128)
    else None.

(** The request lines of [cymru_chk] for a list of addresses. *)
Definition request_lines (ips : list string) : string :=
  fold_left (fun data myip => (data ++ myip ++ " " ++ Cfg.nl)%string) ips
            EmptyString.

End Examples.

(** ** blk_tree.py: exact lookup and the two scans *)

Module TreeOps.
Import IPAddr BlkTree.

(** [__lookup]; like [__insert] it is only called on a node that is not
    the sentinel. *)
Fixpoint __lookup (tnode : bbsnode) (k : IPv4Network) : option bbsnode :=
  match tnode with
  | NIL_NODE => None
  | Node _ key _ l r =>
      if net_eq key k then Some tnode
      else if net_gt k key then
        match r with
        | NIL_NODE => None
        | Node _ _ _ _ _ => __lookup r k
        end
      else
        match l with
        | NIL_NODE => None
        | Node _ _ _ _ _ => __lookup l k
        end
  end.

(** [bbstree.lookup] *)
Definition lookup (t : bbstree) (k : IPv4Network) : option bbsnode :=
  if negb (is_nil (root t)) then __lookup (root t) k else None.

(** [tnode.subs[side]], with [false] for index 0 and [true] for index 1. *)
Definition sub (side : bool) (t : bbsnode) : bbsnode :=
  if side then sub1_of t else sub0_of t.

(** The inner loop of [__scan]: go down the [first] side, stacking the
    nodes passed.  The top of the stack is the head of the list. *)
Fixpoint descend (first : bool) (tnode : bbsnode) (stack : list bbsnode)
  : bbsnode * list bbsnode :=
  match tnode with
  | NIL_NODE => (tnode, stack)
  | Node _ _ _ l r =>
      match (if first then r else l) with
      | NIL_NODE => (tnode, stack)
      | Node _ _ _ _ _ =>
          descend first (if first then r else l) (tnode :: stack)
      end
  end.

(** How a run of the generator ends: its loop is left, the fuel of the
    model is used up, or an exception is raised. *)
Inductive scan_end : Type :=
  | ScanDone
  | ScanFuel
  | ScanError (e : exn).

(** The outer loop of [__scan], one iteration per unit of fuel: the nodes
    yielded and the way the run ends.  [direction] is [false] for 0 and
    [true] for 1; [stack.pop()] on an empty list raises [IndexError]. *)
Fixpoint scan_loop (fuel : nat) (first second : bool) (tnode : bbsnode)
  (direction : bool) (stack : list bbsnode) : list bbsnode * scan_end :=
  match fuel with
  | O => ([], ScanFuel)
  | S fuel' =>
      if is_nil tnode then ([], ScanDone)
      else
        let '(tnode, stack) :=
          if negb direction then descend first tnode stack
          else (tnode, stack) in
        let '(out, e) :=
          if negb (is_nil (sub second tnode)) then
            scan_loop fuel' first second (sub second tnode) false stack
          else
            match stack with
            | top :: stack' => scan_loop fuel' first second top true stack'
            | [] => ([], ScanError IndexError)
            end in
        (tnode :: out, e)
  end.

Fixpoint size (t : bbsnode) : nat :=
  match t with
  | NIL_NODE => O
  | Node _ _ _ l r => S (size l + size r)
  end.

(** [__scan], run for one step more than the tree has nodes. *)
Definition __scan (tnode : bbsnode) (first second : bool)
  : list bbsnode * scan_end :=
  scan_loop (S (size tnode)) first second tnode false [NIL_NODE].

(** [bbstree.forward] and [bbstree.reverse] *)
Definition forward (t : bbstree) : list bbsnode * scan_end :=
  __scan (root t) false true.

Definition reverse (t : bbstree) : list bbsnode * scan_end :=
  __scan (root t) true false.

(** The nodes of a tree from left to right. *)
Fixpoint nodes (t : bbsnode) : list bbsnode :=
  match t with
  | NIL_NODE => []
  | Node _ _ _ l r => (nodes l ++ t :: nodes r)%list
  end.

(** The nodes in the order of a scan that takes the [first] side of every
    node before the node and the other side after it. *)
Fixpoint walk (first : bool) (t : bbsnode) : list bbsnode :=
  match t with
  | NIL_NODE => []
  | Node _ _ _ l r =>
      (walk first (if first then r else l)
       ++ t :: walk first (if first then l else r))%list
  end.

(** What the stacked nodes still owe to a scan: each one itself, then the
    side of it not yet visited. *)
Fixpoint pending (first : bool) (stack : list bbsnode) : list bbsnode :=
  match stack with
  | [] => []
  | s :: stack' =>
      (s :: walk first (sub (negb first) s) ++ pending first stack')%list
  end.

(** What a run of the outer loop yields from a state whose stack holds
    the nodes [ss] above the sentinel. *)
Definition owed (first : bool) (t : bbsnode) (direction : bool)
  (ss : list bbsnode) : list bbsnode :=
  ((if direction then t :: walk first (sub (negb first) t) else walk first t)
   ++ pending first ss)%list.

(** The value given by the last [insert] whose key equals [k]. *)
Fixpoint latest (ins : list (IPv4Network * string)) (k : IPv4Network)
  : option string :=
  match ins with
  | [] => None
  | (a, v) :: rest =>
      match latest rest k with
      | Some w => Some w
      | None => if net_eq a k then Some v else None
      end
  end.

(** The first binding of a list whose key equals [k]. *)
Fixpoint find_binding (bs : list (IPv4Network * string)) (k : IPv4Network)
  : option string :=
  match bs with
  | [] => None
  | (a, v) :: rest => if net_eq a k then Some v else find_binding rest k
  end.

End TreeOps.

(** ** blk_main.py: the final report *)

Module Report.
Import IpDict State.

(** The inner loop of [cymru_done]: one record of the report for each
    element that [list_grp] yields. *)
Definition add_records (status_msg : string) (recs : list (string * elt))
  : string :=
  fold_left
    (fun msg r =>
       PyStr.join " " [msg; fst r; e_as (snd r); e_cc (snd r);
                       e_org (snd r); e_desc (snd r); Cfg.DELIM])
    recs status_msg.

(** The message [cymru_done] builds from the dictionary. *)
Definition status_of (c : Cfg.config) (my_dict : ip_dict) : string :=
  fold_left
    (fun msg as_tmp => add_records msg (list_grp my_dict as_tmp "" ""))
    (Cfg.as_search_list c) EmptyString.

(** [cymru_done]; with no dictionary the first [list_grp] raises. *)
Definition cymru_done (c : Cfg.config) (bstate : BlkState)
  : result (list action) * list log_entry :=
  let log0 := [LogMsg "cymru_done: cymru whois download completed."] in
  match get_dict bstate with
  | None =>
      match Cfg.as_search_list c with
      | [] => (Returned [], log0)
      | _ :: _ => (Raised AttributeError, log0)
      end
  | Some my_dict =>
      let status_msg := status_of c my_dict in
      if (0 <? String.length status_msg)%nat
      then (Returned [SetStatus status_msg], log0)
      else (Returned [], log0)
  end.

(** What [cymru_done] adds to the message for one record. *)
Definition record_line (ip : string) (e : elt) : string :=
  PyStr.join " " [ip; e_as e; e_cc e; e_org e; e_desc e; Cfg.DELIM].

End Report.

(** ** More of Python's strings and lists *)

Module PyLines.
Import PyStr.

Definition LF : ascii := "010"%char.
Definition CR : ascii := "013"%char.

(** Put a character in front of the first piece. *)
Definition cons_head (c : ascii) (l : list string) : list string :=
  match l with
  | [] => [String c EmptyString]
  | x :: l' => String c x :: l'
  end.

(** [s.splitlines()] of a byte string: lines end at ["\n"], ["\r"] or
    ["\r\n"]; the line ends are not kept and a final line end opens no
    further line. *)
Fixpoint splitlines (s : string) : list string :=
  match s with
  | EmptyString => []
  | String c s' =>
      if Ascii.eqb c LF then EmptyString :: splitlines s'
      else if Ascii.eqb c CR then
        match s' with
        | String c' s'' =>
            if Ascii.eqb c' LF then EmptyString :: splitlines s''
            else EmptyString :: splitlines s'
        | EmptyString => [EmptyString]
        end
      else cons_head c (splitlines s')
  end.

(** [re.sub(r"(\r\n|\n)", cfg.DELIM, s)] *)
Fixpoint sub_newlines (s : string) : string :=
  match s with
  | EmptyString => EmptyString
  | String c s' =>
      if Ascii.eqb c LF then (Cfg.DELIM ++ sub_newlines s')%string
      else if Ascii.eqb c CR then
        match s' with
        | String c' s'' =>
            if Ascii.eqb c' LF then (Cfg.DELIM ++ sub_newlines s'')%string
            else String c (sub_newlines s')
        | EmptyString => String c EmptyString
        end
      else String c (sub_newlines s')
  end.

(** [s.split(cfg.DELIM)]: the pieces between the occurrences of
    ["\r\n"], found from the left. *)
Fixpoint split_delim (s : string) : list string :=
  match s with
  | EmptyString => [EmptyString]
  | String c s' =>
      if Ascii.eqb c CR then
        match s' with
        | String c' s'' =>
            if Ascii.eqb c' LF then EmptyString :: split_delim s''
            else cons_head c (split_delim s')
        | EmptyString => [String c EmptyString]
        end
      else cons_head c (split_delim s')
  end.

(** [s.split()]: the runs of characters that are not white space. *)
Fixpoint split_ws (s : string) : list string :=
  match s with
  | EmptyString => []
  | String c s' =>
      if is_space c then split_ws s'
      else
        match s' with
        | EmptyString => [String c EmptyString]
        | String c' _ =>
            if is_space c' then String c EmptyString :: split_ws s'
            else cons_head c (split_ws s')
        end
  end.

(** [s.endswith(p)] *)
Definition endswith (s p : string) : bool :=
  (String.length p <=? String.length s)%nat
  && String.eqb (drop_chars (String.length s - String.length p) s) p.

(** [l[i]]: an index below zero counts from the end; [None] stands for
    the [IndexError]. *)
Definition py_index {A : Type} (l : list A) (i : Z) : option A :=
  let n := Z.of_nat (length l) in
  if (0 <=? i) && (i <? n) then l !! Z.to_nat i
  else if (- n <=? i) && (i <? 0) then l !! Z.to_nat (n + i)
  else None.

(** [range(i, j)] *)
Definition range (i j : Z) : list Z :=
  map (fun k => i + Z.of_nat k) (seq 0 (Z.to_nat (j - i))).

(** The string ends with ["\r"]; the string starts with ["\n"]. *)
Fixpoint ends_cr (s : string) : bool :=
  match s with
  | EmptyString => false
  | String c EmptyString => Ascii.eqb c CR
  | String _ s' => ends_cr s'
  end.

Definition starts_lf (s : string) : bool :=
  match s with
  | EmptyString => false
  | String c _ => Ascii.eqb c LF
  end.

End PyLines.

(** ** blk_wk_msg.py: the DNS throttle and the sending of the status

    The functions of this module write to the log at a debug level only,
    apart from the entry ["All dns lookups done"]; the debug entries are
    left out. *)

Module Throttle.
Import PyStr IpDict State WkMsg.

(** What [do_lookup] asks for: a lookup by the resolver, another call of
    itself after [secs] seconds, or nothing because the division by
    [max_x] raised [ZeroDivisionError]. *)
Inductive dns_call : Type :=
  | GetHostByName (name mydesc myorg : string)
  | DeferLater (secs : Z) (name mydesc myorg : string)
  | ZeroDivisionError.

(** [WorkerService.do_lookup] *)
Definition do_lookup (w : WorkerService) (name : string) (flag : bool)
  (mydesc myorg : string) : WorkerService * dns_call :=
  let num_wait1 := if flag then Z.max 0 (num_wait w - 1) else num_wait w in
  if num_x w <? max_x w then
    (mkWorker (max_x w) (num_x w + 1) num_wait1,
     GetHostByName name mydesc myorg)
  else
    let num_wait2 := num_wait1 + 1 in
    let w' := mkWorker (max_x w) (num_x w) num_wait2 in
    if max_x w =? 0 then (w', ZeroDivisionError)
    else (w', DeferLater ((max_x w + num_wait2) / max_x w) name mydesc myorg).

Definition all_done (w : WorkerService) : list log_entry :=
  if negb (lkps_in_progress w) then [LogMsg "All dns lookups done"] else [].

(** [WorkerService.lookup_done]: the callback of a lookup that gave the
    address [answer]. *)
Definition lookup_done (w : WorkerService) (bstate : BlkState)
  (answer name mydesc myorg : string)
  : result unit * WorkerService * BlkState * list log_entry :=
  let w' := mkWorker (max_x w) (Z.max 0 (num_x w - 1)) (num_wait w) in
  match get_dict bstate with
  | None => (Raised AttributeError, w', bstate, [])
  | Some ip_dict =>
      let mydesc1 := join Cfg.SEP [name; mydesc] in
      let '(d', l) :=
        insert_ip ip_dict answer mydesc1 EmptyString myorg EmptyString in
      (Returned tt, w',
       mkState (mytree bstate) (Some d') (my_rte_srv bstate)
               (ip_prob_cnt bstate),
       (l ++ all_done w')%list)
  end.

(** [WorkerService.lookup_err]: the callback of a lookup that failed. *)
Definition lookup_err (w : WorkerService) : WorkerService * list log_entry :=
  let w' := mkWorker (max_x w) (Z.max 0 (num_x w - 1)) (num_wait w) in
  (w', all_done w').

(** The calls the reactor makes on one service. *)
Inductive event : Type :=
  | Lookup (name : string) (flag : bool) (mydesc myorg : string)
  | Answer (answer name mydesc myorg : string)
  | Failure.

Definition step (s : WorkerService * BlkState) (ev : event)
  : WorkerService * BlkState * list dns_call :=
  match ev with
  | Lookup name flag mydesc myorg =>
      let '(w', call) := do_lookup (fst s) name flag mydesc myorg in
      (w', snd s, [call])
  | Answer answer name mydesc myorg =>
      let '(_, w', bstate', _) :=
        lookup_done (fst s) (snd s) answer name mydesc myorg in
      (w', bstate', [])
  | Failure => (fst (lookup_err (fst s)), snd s, [])
  end.

Fixpoint run (s : WorkerService * BlkState) (evs : list event)
  : WorkerService * BlkState * list dns_call :=
  match evs with
  | [] => (s, [])
  | ev :: evs' =>
      let '(s', calls) := step s ev in
      let '(s'', calls') := run s' evs' in
      (s'', (calls ++ calls')%list)
  end.

Definition is_fired (c : dns_call) : bool :=
  match c with GetHostByName _ _ _ => true | _ => false end.

Definition is_deferred (c : dns_call) : bool :=
  match c with DeferLater _ _ _ _ => true | _ => false end.

Definition is_completion (ev : event) : bool :=
  match ev with Lookup _ _ _ _ => false | _ => true end.

Definition is_retry (ev : event) : bool :=
  match ev with Lookup _ true _ _ => true | _ => false end.

(** How many elements satisfy [p]. *)
Definition count {A : Type} (p : A -> bool) (l : list A) : Z :=
  Z.of_nat (length (List.filter p l)).

(** The counters are in their ranges. *)
Definition in_range (w : WorkerService) : Prop :=
  0 <= num_x w <= max_x w /\ 0 <= num_wait w.

End Throttle.

Module StatBot.
Import PyStr PyLines.

(** How the loop of [sendMsgUID] ends. *)
Inductive send_end : Type :=
  | SendDone
  | SendTooMany
  | SendFuel
  | SendError (e : exn).

(** The loop of [sendMsgUID], one iteration per unit of fuel: the bodies
    of the messages sent and the way the loop ends.  [SendTooMany] is the
    [break] after the entry ["Too many xmpp msgs - ignoring rest"] of the
    error log. *)
Fixpoint send_loop (fuel : nat) (maxmsgs numgrp : Z) (lines : list string)
  (i msg_cnt : Z) : list string * send_end :=
  match fuel with
  | O => ([], SendFuel)
  | S fuel' =>
      if i <? Z.of_nat (length lines) then
        let msg_cnt := msg_cnt + 1 in
        if msg_cnt >? maxmsgs then ([], SendTooMany)
        else
          let j := Z.min (i + numgrp) (Z.of_nat (length lines)) in
          match mapM (py_index lines) (range i j) with
          | None => ([], SendError IndexError)
          | Some group =>
              let '(out, e) :=
                send_loop fuel' maxmsgs numgrp lines (i + numgrp) msg_cnt in
              (join " || " group :: out, e)
          end
      else ([], SendDone)
  end.

(** [StatBotProtocol.sendMsgUID], with [cfg.maxmsgs] and [cfg.numgrp];
    the condition of the loop is tested [maxmsgs + 1] times at most. *)
Definition sendMsgUID (maxmsgs numgrp : Z) (msg : string)
  : list string * send_end :=
  send_loop (S (Z.to_nat maxmsgs)) maxmsgs numgrp (splitlines msg) 0 0.

End StatBot.

(** ** blk_rdblk.py: a page of a blocklist and the whois session *)

Module Rdblk.
Import PyStr PyLines IpDict State.

Section Page.
Variable debug : Z.
Variable W : Type.
Variable dns_lookup_fn : string -> bool -> string -> string -> W -> W.
Variable urlparse : string -> result (string * string).

(** The loop of [blklst_page_read_ok] over the lines of a page: an
    exception of [insert_blklst_line] ends it. *)
Fixpoint page_loop (d : ip_dict) (w : W) (lines : list string)
  (org_name : string) : result unit * ip_dict * W * list log_entry :=
  match lines with
  | [] => (Returned tt, d, w, [])
  | line :: rest =>
      let out :=
        insert_blklst_line debug W dns_lookup_fn urlparse d w line org_name in
      match p_result W out with
      | Raised e => (Raised e, p_dict W out, p_sched W out, p_log W out)
      | Returned _ =>
          let '(r, d', w', l) :=
            page_loop (p_dict W out) (p_sched W out) rest org_name in
          (r, d', w', (p_log W out ++ l)%list)
      end
  end.

(** [blklst_page_read_ok]; [wrk_serv] is what [bstate.get_wrk_serv()]
    returns, [None] before [set_wrk_serv]. *)
Definition blklst_page_read_ok (data org_name url : string)
  (bstate : BlkState) (wrk_serv : option W)
  : result unit * BlkState * option W * list log_entry :=
  let log0 :=
    dbg debug Cfg.DEBUG_ON
        ("rdblk: Read page from " ++ org_name ++ ", url: " ++ url)%string in
  match splitlines data with
  | [] => (Returned tt, bstate, wrk_serv, log0)
  | lines =>
      match get_dict bstate, wrk_serv with
      | Some my_dict, Some w =>
          let '(r, d', w', l) := page_loop my_dict w lines org_name in
          (r,
           mkState (mytree bstate) (Some d') (my_rte_srv bstate)
                   (ip_prob_cnt bstate),
           Some w', (log0 ++ l)%list)
      | _, _ => (Raised AttributeError, bstate, wrk_serv, log0)
      end
  end.

End Page.

(** [BulkDataProtocol.MAX_LENGTH] *)
Definition MAX_LENGTH : Z := 16384.

Section Whois.
Variable debug : Z.

(** [BulkDataProtocol.lineReceived] *)
Definition lineReceived (d : ip_dict) (line : string)
  : ip_dict * list log_entry :=
  let log0 :=
    if debug =? Cfg.DEBUG_VERBOSE
    then [LogMsg ("BDprot: whois line read: " ++ line)%string] else [] in
  let '(d', l) := updt_whois debug d line in
  (d', (log0 ++ l)%list).

(** The loop of [dataReceived] over the complete lines. *)
Fixpoint lines_loop (d : ip_dict) (lines : list string)
  : ip_dict * list log_entry :=
  match lines with
  | [] => (d, [])
  | line :: rest =>
      let '(d', l) :=
        if MAX_LENGTH <? Z.of_nat (String.length line)
        then (d, [LogErr ("BDprot: Error - line too long: " ++ line)%string])
        else lineReceived d line in
      let '(d'', l') := lines_loop d' rest in
      (d'', (l ++ l')%list)
  end.

(** [BulkDataProtocol.dataReceived] on the buffer of the protocol and the
    dictionary of its factory: the result, the new buffer, the
    dictionary and the log.  The last statement names the variable of
    the loop, which is unbound when the loop had nothing to run over:
    the [UnboundLocalError], a [NameError], of the name [line]. *)
Definition dataReceived (buffer : string) (d : ip_dict) (data : string)
  : result unit * string * ip_dict * list log_entry :=
  let data := sub_newlines data in
  let log0 :=
    if debug =? Cfg.DEBUG_VERBOSE
    then [LogMsg ("BDprot: data rec'd: " ++ data)%string] else [] in
  let pieces := split_delim (buffer ++ data) in
  let lines := removelast pieces in
  let buffer' := List.last pieces EmptyString in
  let '(d', l) := lines_loop d lines in
  if MAX_LENGTH <? Z.of_nat (String.length buffer') then
    match lines with
    | [] => (Raised (NameError "line"), buffer', d', (log0 ++ l)%list)
    | _ :: _ =>
        (Returned tt, buffer', d',
         (log0 ++ l
          ++ [LogErr ("BDprot: Error - line too long: "
                      ++ List.last lines EmptyString)%string])%list)
    end
  else (Returned tt, buffer', d', (log0 ++ l)%list).

End Whois.

End Rdblk.

(** ** blk_tree.py: insertion with keys of both versions

    The tree that the route-server client fills takes whatever networks
    the library made of the lines of the server.  The functions are those
    of [BlkTree], with keys that may be of either version: the test
    [k == tnode.key] is false across versions and [k > tnode.key] raises
    [TypeError] there. *)

Module MixedTree.
Import IPAddr.

Inductive bbsnode : Type :=
  | NIL_NODE
  | Node (level : nat) (key : IPNet) (value : string)
         (sub0 sub1 : bbsnode).

Definition level (t : bbsnode) : nat :=
  match t with NIL_NODE => 0%nat | Node lv _ _ _ _ => lv end.

Definition is_nil (t : bbsnode) : bool :=
  match t with NIL_NODE => true | Node _ _ _ _ _ => false end.

Definition sub1_of (t : bbsnode) : bbsnode :=
  match t with NIL_NODE => NIL_NODE | Node _ _ _ _ r => r end.

Record bbstree : Type := mkTree { root : bbsnode }.

(** [bbstree()] *)
Definition empty : bbstree := mkTree NIL_NODE.

(** [__skew] *)
Definition __skew (t : bbsnode) : bbsnode :=
  if negb (level t =? 0)%nat then
    match t with
    | Node lv k v (Node llv lk lval ll lr) r =>
        if (llv =? lv)%nat
        then Node llv lk lval ll (Node lv k v lr r)
        else t
    | _ => t
    end
  else t.

(** [__split] *)
Definition __split (t : bbsnode) : bbsnode :=
  if negb (level t =? 0)%nat then
    if (level t =? level (sub1_of (sub1_of t)))%nat then
      match t with
      | Node lv k v l (Node rlv rk rval rl rr) =>
          Node (rlv + 1) rk rval (Node lv k v l rl) rr
      | _ => t
      end
    else t
  else t.

(** [__insert]; an exception of the comparison leaves before any node is
    written. *)
Fixpoint __insert (tnode : bbsnode) (k : IPNet) (v : string)
  : result bbsnode :=
  match tnode with
  | NIL_NODE => Returned NIL_NODE
  | Node lv key val l r =>
      if ipnet_eq k key then Returned (Node lv key v l r)
      else
        match ipnet_gt k key with
        | Raised e => Raised e
        | Returned true =>
            match r with
            | NIL_NODE =>
                Returned (Node lv key val l (Node 1 k v NIL_NODE NIL_NODE))
            | Node _ _ _ _ _ =>
                match __insert r k v with
                | Raised e => Raised e
                | Returned r' =>
                    Returned (Node lv key val l (__split (__skew r')))
                end
            end
        | Returned false =>
            match l with
            | NIL_NODE =>
                Returned (Node lv key val (Node 1 k v NIL_NODE NIL_NODE) r)
            | Node _ _ _ _ _ =>
                match __insert l k v with
                | Raised e => Raised e
                | Returned l' =>
                    Returned (Node lv key val (__split (__skew l')) r)
                end
            end
        end
  end.

(** [bbstree.insert] *)
Definition insert (t : bbstree) (k : IPNet) (v : string) : result bbstree :=
  if negb (is_nil (root t)) then
    match __insert (root t) k v with
    | Raised e => Raised e
    | Returned r => Returned (mkTree (__split (__skew r)))
    end
  else Returned (mkTree (Node 1 k v NIL_NODE NIL_NODE)).

(** A tree of [BlkTree] seen as a tree of this module. *)
Fixpoint lift_node (t : BlkTree.bbsnode) : bbsnode :=
  match t with
  | BlkTree.NIL_NODE => NIL_NODE
  | BlkTree.Node lv k v l r => Node lv (V4 k) v (lift_node l) (lift_node r)
  end.

Definition lift (t : BlkTree.bbstree) : bbstree :=
  mkTree (lift_node (BlkTree.root t)).

(** The keys from left to right. *)
Fixpoint keys (t : bbsnode) : list IPNet :=
  match t with
  | NIL_NODE => []
  | Node _ k _ l r => (keys l ++ k :: keys r)%list
  end.

(** All keys of the list are of version [ver], if one is given, and of
    one version in any case. *)
Fixpoint one_version (ver : option Z) (ks : list IPNet) : bool :=
  match ks with
  | [] => true
  | k :: rest =>
      match ver with
      | None => one_version (Some (version k)) rest
      | Some v => (version k =? v) && one_version ver rest
      end
  end.

(** The version of the key of the root, if there is one. *)
Definition root_version (t : bbstree) : option Z :=
  match root t with
  | NIL_NODE => None
  | Node _ k _ _ _ => Some (version k)
  end.

(** All keys are of the version of the key of the root: what [insert]
    keeps, since a key of the other version is refused at the root. *)
Definition uniform (t : bbstree) : Prop :=
  Forall (fun k => Some (version k) = root_version t) (keys (root t)).

End MixedTree.

(** ** blk_rteserv.py: the telnet client of the route server

    The methods of the client write to the log at a debug level only;
    these entries are left out. *)

Module RteClient.
Import IPAddr PyStr PyLines.

(** The attributes of [TelnetClient] read or written by the methods
    below. *)
Record TelnetClient : Type := mkClient {
  state_more : bool;
  my_addr_list : list IPNet
}.

(** [TelnetClient()] *)
Definition new_client : TelnetClient := mkClient false [].

Definition prompt_cmd : string := ">".
Definition prompt_more : string := "--More--".
Definition valid_route : string := "*".

(** The attributes of [TelnetFactory] other than the deferred.  [Tree] is
    the tree that [read_rtesrv] has made with [bstate.init_tree()]; it
    takes the networks of the session, of whichever version. *)
Record TelnetFactory : Type := mkFactory {
  Tree : MixedTree.bbstree;
  as_ptr : Z;
  cmd_prompt_cnt : Z
}.

(** [TelnetFactory(deferred, mytree)] *)
Definition new_factory (mytree : MixedTree.bbstree) : TelnetFactory :=
  mkFactory mytree (-1) 0.

(** What the client writes to its transport. *)
Inductive sent : Type :=
  | Write (s : string)
  | SendLine (s : string).

(** [cfg.RTESRV_CMD.replace('nnnn', myas)] for the command
    ["show ip bgp regexp _nnnn$"] of [cfg.py]. *)
Definition rtesrv_cmd (myas : string) : string :=
  ("show ip bgp regexp _" ++ myas ++ "$")%string.

(** The loop [for subnet in collapsed_addr_lst: Tree.insert(subnet, myas)]:
    the tree is returned as the exception, if any, leaves it. *)
Fixpoint insert_all (t : MixedTree.bbstree) (subnets : list IPNet)
  (myas : string) : result unit * MixedTree.bbstree :=
  match subnets with
  | [] => (Returned tt, t)
  | subnet :: rest =>
      match MixedTree.insert t subnet myas with
      | Raised e => (Raised e, t)
      | Returned t' => insert_all t' rest myas
      end
  end.

Section Client.
(** [cfg.as_search_list], [cfg.rs_as_cmd_throttle], the constructor of
    IPv6 networks and the function [collapse_address_list] of the ipaddr
    library, which raises [TypeError] on networks of different
    versions. *)
Variable as_search_list : list string.
Variable rs_as_cmd_throttle : Z.
Context `{IPv6Parser}.
Variable collapse_address_list : list IPNet -> result (list IPNet).

(** [TelnetClient.processAddr] *)
Definition processAddr (cl : TelnetClient) (myIP : string) : TelnetClient :=
  match IPNetwork myIP with
  | Some myaddr =>
      if ipnet_numhosts myaddr =? 1 then cl
      else mkClient (state_more cl) (my_addr_list cl ++ [myaddr])%list
  | None => cl
  end.

(** [TelnetClient.build_send_rteserv_cmd] *)
Definition build_send_rteserv_cmd (cl : TelnetClient) (f : TelnetFactory)
  : result (list sent) * TelnetClient * TelnetFactory :=
  if cmd_prompt_cnt f >? 0 then
    (Returned [], cl, mkFactory (Tree f) (as_ptr f) (cmd_prompt_cnt f - 1))
  else
    let f0 := mkFactory (Tree f) (as_ptr f) rs_as_cmd_throttle in
    match collapse_address_list (my_addr_list cl) with
    | Raised e => (Raised e, cl, f0)
    | Returned collapsed_addr_lst =>
        let cl' := mkClient (state_more cl) [] in
        match py_index as_search_list (as_ptr f) with
        | None => (Raised IndexError, cl', f0)
        | Some myas =>
            match insert_all (Tree f) collapsed_addr_lst myas with
            | (Raised e, tree') =>
                (Raised e, cl',
                 mkFactory tree' (as_ptr f) rs_as_cmd_throttle)
            | (Returned _, tree') =>
                let as_ptr' := as_ptr f + 1 in
                let f' := mkFactory tree' as_ptr' rs_as_cmd_throttle in
                if as_ptr' >=? Z.of_nat (length as_search_list) then
                  (Returned [SendLine "exit"], cl', f')
                else
                  match py_index as_search_list as_ptr' with
                  | None => (Raised IndexError, cl', f')
                  | Some next_as =>
                      (Returned [SendLine (rtesrv_cmd next_as)], cl', f')
                  end
            end
        end
    end.

(** [TelnetClient.lineReceived] *)
Definition lineReceived (cl : TelnetClient) (f : TelnetFactory)
  (line : string) : result (list sent) * TelnetClient * TelnetFactory :=
  let tokens := split_ws line in
  match tokens with
  | [] => (Returned [], cl, f)
  | tok0 :: _ =>
      let '(r, cl1, f1) :=
        if state_more cl
           && endswith (List.last tokens EmptyString) prompt_cmd
        then build_send_rteserv_cmd cl f
        else (Returned [], cl, f) in
      match r with
      | Raised e => (Raised e, cl1, f1)
      | Returned out =>
          if String.eqb tok0 prompt_more then
            (Returned (out ++ [Write " "])%list,
             mkClient true (my_addr_list cl1), f1)
          else if startswith tok0 valid_route then
            match tokens !! 1%nat with
            | None => (Raised IndexError, cl1, f1)
            | Some tok1 =>
                if (1 <? String.length tok1)%nat then
                  let myIP :=
                    if startswith tok1 "i" then drop_chars 1 tok1 else tok1 in
                  (Returned out, processAddr cl1 myIP, f1)
                else (Returned out, cl1, f1)
            end
          else (Returned out, cl1, f1)
      end
  end.

(** The lines of a session one after the other, up to the first
    exception. *)
Fixpoint session (cl : TelnetClient) (f : TelnetFactory) (lines : list string)
  : result (list sent) * TelnetClient * TelnetFactory :=
  match lines with
  | [] => (Returned [], cl, f)
  | line :: rest =>
      match lineReceived cl f line with
      | (Raised e, cl', f') => (Raised e, cl', f')
      | (Returned out, cl', f') =>
          match session cl' f' rest with
          | (Raised e, cl'', f'') => (Raised e, cl'', f'')
          | (Returned out', cl'', f'') =>
              (Returned (out ++ out')%list, cl'', f'')
          end
      end
  end.

End Client.

(** [collapse_address_list] on lists that are collapsed already, no
    network lying inside or next to another: the list comes back as it
    is, and networks of different versions raise [TypeError]. *)
Definition collapse_collapsed (addresses : list IPNet)
  : result (list IPNet) :=
  if MixedTree.one_version None addresses then Returned addresses
  else Raised TypeError.

End RteClient.

(** ** blk_tree.py: the levels of the nodes *)

Module Balance.
Import BlkTree.

(** The rules the levels obey in the tree of Andersson that [__skew] and
    [__split] maintain: the left subtree is one level below its parent,
    the right subtree is on the level of its parent or one below, and
    the right subtree of the right subtree is below the parent. *)
Fixpoint aa (t : bbsnode) : Prop :=
  match t with
  | NIL_NODE => True
  | Node lv _ _ l r =>
      aa l /\ aa r
      /\ lv = S (level l)
      /\ (level r = lv \/ S (level r) = lv)
      /\ (level (sub1_of r) < lv)%nat
  end.

(** The number of nodes on the longest way down from a node. *)
Fixpoint depth (t : bbsnode) : nat :=
  match t with
  | NIL_NODE => O
  | Node _ _ _ l r => S (Nat.max (depth l) (depth r))
  end.

(** The number of nodes [__lookup] visits. *)
Fixpoint visited (tnode : bbsnode) (k : IPAddr.IPv4Network) : nat :=
  match tnode with
  | NIL_NODE => O
  | Node _ key _ l r =>
      if IPAddr.net_eq key k then 1%nat
      else if IPAddr.net_gt k key then S (visited r k)
      else S (visited l k)
  end.

(** What a deletion may do to a subtree [t], with [t'] what is left of
    it: the rules hold, the level is the same or one less, and where the
    level is the same no link to the right on that level has come up. *)
Definition shrunk (t t' : bbsnode) : Prop :=
  aa t'
  /\ (level t' = level t \/ S (level t') = level t)
  /\ (level t' = level t ->
      (level (sub1_of t) < level t)%nat ->
      (level (sub1_of t') < level t')%nat).

End Balance.

(** ** blk_web.py: the answer to a query for one address *)

Module Web.
Import PyStr Re IpDict State.

(** [s[:n]] *)
Fixpoint take_chars (n : nat) (s : string) : string :=
  match n, s with
  | S n', String c s' => String c (take_chars n' s')
  | _, _ => EmptyString
  end.

(** [\d{1,3}\.] at the start of [s]: the digits, and the rest after the
    dot. *)
Definition octet_dot (s : string) : option (string * string) :=
  match digits_dot s with
  | Some r => Some (fst (span is_digit s), r)
  | None => None
  end.

(** The last [\d{1,3}] of the pattern: up to three of the digits at the
    start of [s]. *)
Definition octet_last (s : string) : option string :=
  let d := fst (span is_digit s) in
  if truthy d then Some (take_chars 3 d) else None.

(** The group [addr] of [re_ipv4] matched at the start of [s]. *)
Definition ipv4_at (s : string) : option string :=
  match octet_dot s with
  | Some (a, r1) =>
      match octet_dot r1 with
      | Some (b, r2) =>
          match octet_dot r2 with
          | Some (c, r3) =>
              match octet_last r3 with
              | Some d => Some (a ++ "." ++ b ++ "." ++ c ++ "." ++ d)%string
              | None => None
              end
          | None => None
          end
      | None => None
      end
  | None => None
  end.

(** [re_ipv4.search(s).group('addr')]: the match that starts first. *)
Fixpoint re_ipv4_search (s : string) : option string :=
  match ipv4_at s with
  | Some m => Some m
  | None =>
      match s with
      | EmptyString => None
      | String _ s' => re_ipv4_search s'
      end
  end.

(** The message [IPStatusPage.render_POST] puts on the page.  [my_ip] is
    [request.args["my_ip"]] when the key is there.  The bare [except]
    turns the [KeyError] and the [IndexError] of a missing argument and
    the [TypeError] of unpacking the [None] of [list_elt] into one
    message. *)
Definition render_POST (bstate : BlkState) (my_ip : option (list string))
  : string :=
  match my_ip with
  | Some (value :: _) =>
      match get_dict bstate with
      | Some ip_dict =>
          if truthy value then
            match re_ipv4_search (take_chars 16 value) with
            | Some myip =>
                match fst (list_elt ip_dict myip) with
                | Some e =>
                    join " " ["Hostile IP: "; myip; e_as e; e_cc e; e_org e;
                              e_desc e]
                | None => "Information not available for this IP."
                end
            | None => "IP address - invalid format"
            end
          else "Hostile IP info currently not available."
      | None => "Hostile IP info currently not available."
      end
  | _ => "Information not available for this IP."
  end.

End Web.

(** ** blk_tree.py: deletion *)

Module TreeDelete.
Import IPAddr BlkTree.

(** [t.level = lv]; the sentinel is never written to. *)
Definition set_level (lv : nat) (t : bbsnode) : bbsnode :=
  match t with
  | NIL_NODE => NIL_NODE
  | Node _ k v l r => Node lv k v l r
  end.

(** [t.subs[1] = f(t.subs[1])]; on the sentinel, whose [subs[1]] is the
    sentinel, this writes back what was there. *)
Definition map_sub1 (f : bbsnode -> bbsnode) (t : bbsnode) : bbsnode :=
  match t with
  | NIL_NODE => NIL_NODE
  | Node lv k v l r => Node lv k v l (f r)
  end.

(** The loop [while heir.subs[1] != NIL_NODE: heir = heir.subs[1]]. *)
Fixpoint heir (t : bbsnode) : bbsnode :=
  match t with
  | NIL_NODE => t
  | Node _ _ _ _ r =>
      match r with
      | NIL_NODE => t
      | Node _ _ _ _ _ => heir r
      end
  end.

(** The end of [__delete]: the level is lowered and the node is skewed
    and split when a subtree is more than one level below. *)
Definition after_delete (tnode : bbsnode) : bbsnode :=
  match tnode with
  | NIL_NODE => NIL_NODE
  | Node lv0 k v l r =>
      let lv := (lv0 - 1)%nat in
      if (level l <? lv)%nat || (level r <? lv)%nat then
        let r := if (lv <? level r)%nat then set_level lv r else r in
        let tnode := __skew (Node lv k v l r) in
        let tnode := map_sub1 __skew tnode in
        let tnode := map_sub1 (map_sub1 __skew) tnode in
        let tnode := __split tnode in
        map_sub1 __split tnode
      else tnode
  end.

(** [__delete] *)
Fixpoint __delete (tnode : bbsnode) (k : IPv4Network) : bbsnode :=
  match tnode with
  | NIL_NODE => NIL_NODE
  | Node lv key val l r =>
      after_delete
        (if net_eq k key then
           if negb (is_nil l) && negb (is_nil r) then
             match heir l with
             | Node _ hk hv _ _ => Node lv hk hv (__delete l hk) r
             | NIL_NODE => tnode
             end
           else if is_nil l then r else l
         else if net_lt key k then Node lv key val l (__delete r k)
         else Node lv key val (__delete l k) r)
  end.

(** [bbstree.delete] *)
Definition delete (t : bbstree) (k : IPv4Network) : bbstree :=
  if negb (is_nil (root t)) then mkTree (__delete (root t) k) else t.

(** A sequence of calls of [insert] and [delete] on one tree. *)
Inductive tree_op : Type :=
  | Ins (k : IPv4Network) (v : string)
  | Del (k : IPv4Network).

Definition apply_op (t : bbstree) (op : tree_op) : bbstree :=
  match op with
  | Ins k v => insert t k v
  | Del k => delete t k
  end.

Definition apply_ops (ops : list tree_op) (t : bbstree) : bbstree :=
  fold_left apply_op ops t.

(** The same calls on a map from keys to values. *)
Definition map_op (m : IPv4Network -> option string) (op : tree_op)
  : IPv4Network -> option string :=
  fun q =>
    match op with
    | Ins k v => if net_eq k q then Some v else m q
    | Del k => if net_eq k q then None else m q
    end.

Definition map_ops (ops : list tree_op) (m : IPv4Network -> option string)
  : IPv4Network -> option string :=
  fold_left map_op ops m.

(** The bindings under keys other than [k]. *)
Definition remove_key (k : IPv4Network) (bs : list (IPv4Network * string))
  : list (IPv4Network * string) :=
  List.filter (fun kv => negb (net_eq (fst kv) k)) bs.

End TreeDelete.

(** * Properties *)

(** ** Address ranges *)

Section RangeFacts.
Import IPAddr.

Lemma land_le (a b : Z) : 0 <= a -> Z.land a b <= a.
Proof.
  intros Ha.
  pose proof (Z.lor_ldiff_and a b) as Hsplit.
  pose proof (Z.add_lor_land (Z.ldiff a b) (Z.land a b)) as Hadd.
  assert (Hdisj : Z.land (Z.ldiff a b) (Z.land a b) = 0).
  { apply Z.bits_inj'. intros n Hn.
    rewrite !Z.land_spec, Z.ldiff_spec, Z.bits_0.
    destruct (Z.testbit a n), (Z.testbit b n); reflexivity. }
  assert (0 <= Z.ldiff a b) by (apply Z.ldiff_nonneg; left; exact Ha).
  lia.
Qed.

Lemma lor_ge (a b : Z) : 0 <= a -> 0 <= b -> a <= Z.lor a b.
Proof.
  intros Ha Hb.
  pose proof (Z.add_lor_land a b) as Hadd.
  pose proof (land_le b a Hb) as Hle.
  rewrite Z.land_comm in Hle. lia.
Qed.

Lemma hostmask_nonneg (n : IPv4Network) : 0 <= prefixlen n -> 0 <= hostmask n.
Proof.
  intros Hn. unfold hostmask, netmask.
  assert (HA : 0 <= ALL_ONES) by (vm_compute; discriminate).
  assert (HS : 0 <= Z.shiftr ALL_ONES (prefixlen n))
    by (apply Z.shiftr_nonneg; exact HA).
  apply Z.lxor_nonneg. split; intros _; [exact HA|].
  apply Z.lxor_nonneg. tauto.
Qed.

Lemma network_le_ip (n : IPv4Network) : wf n -> network n <= ip n <= broadcast n.
Proof.
  intros [[Hlo _] [Hp _]]. unfold network, broadcast. split.
  - apply land_le; exact Hlo.
  - apply lor_ge; [exact Hlo | apply hostmask_nonneg; exact Hp].
Qed.

(** The masks as powers of two. *)
Lemma netmask_ldiff (n : IPv4Network) :
  0 <= prefixlen n <= 32 ->
  netmask n = Z.ldiff (Z.ones 32) (Z.ones (32 - prefixlen n)).
Proof.
  intros Hp. unfold netmask. change ALL_ONES with (Z.ones 32).
  apply Z.bits_inj'. intros i Hi.
  rewrite Z.lxor_spec, Z.ldiff_spec, Z.shiftr_spec by exact Hi.
  rewrite !Z.testbit_ones_nonneg by lia.
  destruct (Z.ltb_spec i 32), (Z.ltb_spec (i + prefixlen n) 32),
    (Z.ltb_spec i (32 - prefixlen n)); simpl; try reflexivity; lia.
Qed.

Lemma hostmask_ones (n : IPv4Network) :
  0 <= prefixlen n <= 32 -> hostmask n = Z.ones (32 - prefixlen n).
Proof.
  intros Hp. unfold hostmask. rewrite netmask_ldiff by exact Hp.
  change ALL_ONES with (Z.ones 32).
  apply Z.bits_inj'. intros i Hi.
  rewrite Z.lxor_spec, Z.ldiff_spec.
  rewrite !Z.testbit_ones_nonneg by lia.
  destruct (Z.ltb_spec i 32), (Z.ltb_spec i (32 - prefixlen n)); simpl;
    try reflexivity; lia.
Qed.

Lemma network_div (n : IPv4Network) :
  wf n ->
  network n = ip n / 2 ^ (32 - prefixlen n) * 2 ^ (32 - prefixlen n).
Proof.
  intros [Hip Hp]. unfold network. rewrite netmask_ldiff by exact Hp.
  rewrite <- Z.shiftr_div_pow2, <- Z.shiftl_mul_pow2 by lia.
  rewrite <- Z.ldiff_ones_r by lia.
  apply Z.bits_inj'. intros i Hi.
  rewrite Z.land_spec, !Z.ldiff_spec.
  rewrite !Z.testbit_ones_nonneg by lia.
  destruct (Z.ltb_spec i 32); simpl.
  - reflexivity.
  - rewrite andb_false_r.
    assert (Hhigh : Z.testbit (ip n) i = false).
    { destruct (Z.eq_dec (ip n) 0) as [->|Hnz]; [apply Z.bits_0|].
      apply Z.bits_above_log2; [lia|].
      apply Z.log2_lt_pow2; [lia|].
      apply Z.lt_le_trans with (2 ^ 32); [lia|].
      apply Z.pow_le_mono_r; lia. }
    rewrite Hhigh. reflexivity.
Qed.

Lemma broadcast_div (n : IPv4Network) :
  wf n ->
  broadcast n = network n + 2 ^ (32 - prefixlen n) - 1.
Proof.
  intros Hwf. pose proof Hwf as [Hip Hp].
  rewrite network_div by exact Hwf.
  unfold broadcast. rewrite hostmask_ones by exact Hp.
  pose proof (Z.add_lor_land (ip n) (Z.ones (32 - prefixlen n))) as Hadd.
  rewrite Z.land_ones in Hadd by lia.
  rewrite Z.ones_equiv in *.
  pose proof (Z.div_mod (ip n) (2 ^ (32 - prefixlen n))) as Hdm.
  assert (0 < 2 ^ (32 - prefixlen n)) by (apply Z.pow_pos_nonneg; lia).
  lia.
Qed.

(** Section 3 of the specification: a prefix contains [x] iff the top
    [prefixlen] bits of [x] and of the network agree. *)
Lemma covers_top_bits (p : IPv4Network) (x : Z) :
  wf p ->
  covers p x <-> x / 2 ^ (32 - prefixlen p) = ip p / 2 ^ (32 - prefixlen p).
Proof.
  intros Hwf. pose proof Hwf as [Hip Hp]. unfold covers.
  rewrite broadcast_div, network_div by exact Hwf.
  assert (Hpos : 0 < 2 ^ (32 - prefixlen p)) by (apply Z.pow_pos_nonneg; lia).
  set (h := 2 ^ (32 - prefixlen p)) in *. set (q := ip p / h).
  split.
  - intros [H1 H2]. apply Z.diveq. right. left. lia.
  - intros H. apply Z.diveq_iff in H. lia.
Qed.

Lemma covers_network (n : IPv4Network) : wf n -> covers n (network n).
Proof. intros H. pose proof (network_le_ip n H). unfold covers. lia. Qed.

Lemma network_host (x : Z) : 0 <= x < 2 ^ 32 -> network (host x) = x.
Proof.
  intros Hx. unfold network, netmask, host; simpl.
  change (Z.lxor ALL_ONES (Z.shiftr ALL_ONES 32)) with (Z.ones 32).
  rewrite Z.land_ones by lia. apply Z.mod_small; exact Hx.
Qed.

Lemma broadcast_host (x : Z) : broadcast (host x) = x.
Proof.
  unfold broadcast, hostmask, netmask, host; simpl.
  change (Z.lxor (Z.lxor ALL_ONES (Z.shiftr ALL_ONES 32)) ALL_ONES) with 0.
  apply Z.lor_0_r.
Qed.

Lemma net_contains_host (p : IPv4Network) (x : Z) :
  0 <= x < 2 ^ 32 -> net_contains p (host x) = true <-> covers p x.
Proof.
  intros Hx. unfold net_contains, covers.
  rewrite network_host, broadcast_host by exact Hx.
  rewrite andb_true_iff, Z.leb_le, Z.geb_le. tauto.
Qed.

Lemma net_gt_trans (a b c : IPv4Network) :
  net_gt a b = true -> net_gt b c = true -> net_gt a c = true.
Proof.
  unfold net_gt. rewrite !Z.gtb_ltb.
  repeat match goal with
         | |- context [Z.eqb ?u ?v] => destruct (Z.eqb_spec u v)
         | |- context [Z.ltb ?u ?v] => destruct (Z.ltb_spec u v)
         end; simpl; intros; try discriminate; try reflexivity; lia.
Qed.

Lemma net_gt_total (a b : IPv4Network) :
  net_eq a b = false -> net_gt a b = false -> net_gt b a = true.
Proof.
  unfold net_eq, net_gt. rewrite !Z.gtb_ltb.
  repeat match goal with
         | |- context [Z.eqb ?u ?v] => destruct (Z.eqb_spec u v)
         | |- context [Z.ltb ?u ?v] => destruct (Z.ltb_spec u v)
         end; simpl; intros; try discriminate; try reflexivity; lia.
Qed.

Lemma net_gt_network (a b : IPv4Network) :
  net_gt a b = true -> network b <= network a.
Proof.
  unfold net_gt. rewrite !Z.gtb_ltb.
  repeat match goal with
         | |- context [Z.eqb ?u ?v] => destruct (Z.eqb_spec u v)
         | |- context [Z.ltb ?u ?v] => destruct (Z.ltb_spec u v)
         end; simpl; intros; try discriminate; lia.
Qed.

Lemma net_gt_irrefl (a : IPv4Network) : net_gt a a = false.
Proof. unfold net_gt. rewrite !Z.eqb_refl. reflexivity. Qed.

Lemma net_eq_overlap (a b : IPv4Network) :
  wf a -> wf b -> net_eq a b = true -> overlap a b.
Proof.
  intros Ha Hb H. unfold net_eq in H.
  apply andb_true_iff in H as [H _]. apply Z.eqb_eq in H.
  exists (network a). split; [apply covers_network; exact Ha|].
  rewrite H. apply covers_network; exact Hb.
Qed.

Lemma overlap_sym (a b : IPv4Network) : overlap a b -> overlap b a.
Proof. intros [x [H1 H2]]. exists x. tauto. Qed.

End RangeFacts.

(** ** The tree: rotations, insertion and search *)

Section TreeFacts.
Import IPAddr BlkTree.

Lemma keys_node lv k v l r :
  keys (Node lv k v l r) = (keys l ++ k :: keys r)%list.
Proof. unfold keys; simpl. rewrite map_app. reflexivity. Qed.

Lemma bindings_skew t : bindings (__skew t) = bindings t.
Proof.
  unfold __skew. destruct (negb (level t =? 0)%nat); [|reflexivity].
  destruct t as [|lv k v [|llv lk lval ll lr] r]; try reflexivity.
  destruct (llv =? lv)%nat; [|reflexivity].
  simpl. rewrite <- app_assoc. reflexivity.
Qed.

Lemma bindings_split t : bindings (__split t) = bindings t.
Proof.
  unfold __split. destruct (negb (level t =? 0)%nat); [|reflexivity].
  destruct (level t =? level (sub1_of (sub1_of t)))%nat; [|reflexivity].
  destruct t as [|lv k v l [|rlv rk rval rl rr]]; try reflexivity.
  simpl. rewrite <- app_assoc. reflexivity.
Qed.

Lemma keys_rebalance t : keys (__split (__skew t)) = keys t.
Proof. unfold keys. rewrite bindings_split, bindings_skew. reflexivity. Qed.

Lemma bindings_rebalance t : bindings (__split (__skew t)) = bindings t.
Proof. rewrite bindings_split, bindings_skew. reflexivity. Qed.

Lemma bst_skew t : bst t -> bst (__skew t).
Proof.
  unfold __skew. destruct (negb (level t =? 0)%nat); [|tauto].
  destruct t as [|lv k v [|llv lk lval ll lr] r]; try tauto.
  destruct (llv =? lv)%nat; [|tauto].
  intros (Hl & Hr & Fl & Fr). destruct Hl as (Hll & Hlr & Fll & Flr).
  rewrite keys_node in Fl.
  apply Forall_app in Fl as [Fl1 Fl2]. apply Forall_cons in Fl2 as [Hk Fl2].
  simpl. rewrite keys_node. repeat split; try assumption.
  apply Forall_app. split; [exact Flr|].
  apply Forall_cons. split; [exact Hk|].
  eapply List.Forall_impl; [|exact Fr]. simpl.
  intros a Ha. eapply net_gt_trans; eassumption.
Qed.

Lemma bst_split t : bst t -> bst (__split t).
Proof.
  unfold __split. destruct (negb (level t =? 0)%nat); [|tauto].
  destruct (level t =? level (sub1_of (sub1_of t)))%nat; [|tauto].
  destruct t as [|lv k v l [|rlv rk rval rl rr]]; try tauto.
  intros (Hl & Hr & Fl & Fr). destruct Hr as (Hrl & Hrr & Frl & Frr).
  rewrite keys_node in Fr.
  apply Forall_app in Fr as [Fr1 Fr2]. apply Forall_cons in Fr2 as [Hk Fr2].
  simpl. rewrite keys_node. repeat split; try assumption.
  apply Forall_app. split.
  - eapply List.Forall_impl; [|exact Fl]. simpl.
    intros a Ha. eapply net_gt_trans; eassumption.
  - apply Forall_cons. split; assumption.
Qed.

Lemma keys_insert_rec t k v a :
  In a (keys (__insert t k v)) -> a = k \/ In a (keys t).
Proof.
  revert a. induction t as [|lv key val l IHl r IHr]; intros a; simpl.
  - tauto.
  - destruct (net_eq k key).
    { rewrite !keys_node. tauto. }
    destruct (net_gt k key).
    + destruct r as [|rlv rk rval rl rr].
      * rewrite !keys_node. change (keys NIL_NODE) with (@nil IPv4Network).
        rewrite ?in_app_iff. simpl. rewrite ?in_app_iff. simpl.
        intuition auto.
      * rewrite (keys_node lv key val l (Node rlv rk rval rl rr)).
        rewrite keys_node, keys_rebalance, !in_app_iff. simpl.
        intros [H|[H|H]]; auto. apply IHr in H. tauto.
    + destruct l as [|llv lk lval ll lr].
      * rewrite !keys_node. change (keys NIL_NODE) with (@nil IPv4Network).
        rewrite ?in_app_iff. simpl. rewrite ?in_app_iff. simpl.
        intuition auto.
      * rewrite (keys_node lv key val (Node llv lk lval ll lr) r).
        rewrite keys_node, keys_rebalance, !in_app_iff. simpl.
        intros [H|[H|H]]; auto. apply IHl in H. tauto.
Qed.

Lemma Forall_keys_insert_rec (P : IPv4Network -> Prop) t k v :
  P k -> Forall P (keys t) -> Forall P (keys (__insert t k v)).
Proof.
  intros Hk HF. apply List.Forall_forall. intros a Ha.
  apply keys_insert_rec in Ha as [->|Ha]; [exact Hk|].
  rewrite List.Forall_forall in HF. auto.
Qed.

Lemma bst_insert_rec t k v : bst t -> bst (__insert t k v).
Proof.
  induction t as [|lv key val l IHl r IHr]; simpl; [tauto|].
  intros (Hl & Hr & Fl & Fr).
  destruct (net_eq k key) eqn:Heq; [simpl; tauto|].
  destruct (net_gt k key) eqn:Hgt.
  - destruct r as [|rlv rk rval rl rr].
    + simpl. repeat split; auto; repeat constructor; auto.
    + cbn [bst]. rewrite keys_rebalance. repeat split; auto.
      * apply bst_split, bst_skew, IHr, Hr.
      * apply Forall_keys_insert_rec; assumption.
  - pose proof (net_gt_total k key Heq Hgt) as Hlt.
    destruct l as [|llv lk lval ll lr].
    + simpl. repeat split; auto; repeat constructor; auto.
    + cbn [bst]. rewrite keys_rebalance. repeat split; auto.
      * apply bst_split, bst_skew, IHl, Hl.
      * apply Forall_keys_insert_rec; assumption.
Qed.

Lemma bindings_insert_rec_fresh t k v kv :
  is_nil t = false ->
  Forall (fun a => net_eq k a = false) (keys t) ->
  In kv (bindings (__insert t k v)) <-> kv = (k, v) \/ In kv (bindings t).
Proof.
  induction t as [|lv key val l IHl r IHr]; [discriminate|].
  intros _ HF. rewrite keys_node in HF.
  apply Forall_app in HF as [HFl HFr]. apply Forall_cons in HFr as [Hk HFr].
  simpl. rewrite Hk.
  destruct (net_gt k key).
  - destruct r as [|rlv rk rval rl rr].
    + simpl. rewrite !in_app_iff. simpl. intuition congruence.
    + cbn [bindings]. rewrite bindings_rebalance, !in_app_iff.
      cbn [In]. rewrite (IHr eq_refl HFr). cbn [bindings].
      rewrite ?in_app_iff. cbn [In]. clear. tauto.
  - destruct l as [|llv lk lval ll lr].
    + simpl. intuition congruence.
    + cbn [bindings]. rewrite bindings_rebalance, !in_app_iff.
      cbn [In]. rewrite (IHl eq_refl HFl). cbn [bindings].
      rewrite ?in_app_iff. cbn [In]. clear. tauto.
Qed.

Lemma bst_insert t k v : bst (root t) -> bst (root (insert t k v)).
Proof.
  intros H. unfold insert. destruct (is_nil (root t)); simpl.
  - repeat split; constructor.
  - apply bst_split, bst_skew, bst_insert_rec, H.
Qed.

Lemma bindings_insert_fresh t k v kv :
  Forall (fun a => net_eq k a = false) (keys (root t)) ->
  In kv (bindings (root (insert t k v)))
  <-> kv = (k, v) \/ In kv (bindings (root t)).
Proof.
  intros HF. unfold insert. destruct (is_nil (root t)) eqn:Hnil; simpl.
  - destruct (root t); [|discriminate]. simpl. intuition congruence.
  - rewrite bindings_rebalance. apply bindings_insert_rec_fresh; assumption.
Qed.

Lemma in_keys_bindings t a :
  In a (keys t) <-> exists v, In (a, v) (bindings t).
Proof.
  unfold keys. rewrite in_map_iff. split.
  - intros [[k v] [<- H]]. exists v. exact H.
  - intros [v H]. exists (a, v). auto.
Qed.

End TreeFacts.

(** ** Coverage of the prefix index *)

Section CoverageFacts.
Import IPAddr BlkTree.

Lemma chk_ip_rec_node lv key val l r q :
  __chk_ip (Node lv key val l r) q =
  if net_contains key q then Some (Node lv key val l r)
  else __chk_ip (if net_gt q key then r else l) q.
Proof.
  simpl. destruct (net_contains key q); [reflexivity|].
  destruct (net_gt q key).
  - destruct r; reflexivity.
  - destruct l; reflexivity.
Qed.

Lemma search_goes_right key x :
  wf key -> 0 <= x < 2 ^ 32 -> ~ covers key x ->
  net_gt (host x) key = true -> broadcast key < x.
Proof.
  intros Hwf Hx Hnc. pose proof (network_le_ip key Hwf) as Hb.
  unfold net_gt. rewrite network_host by exact Hx. unfold covers in Hnc.
  rewrite !Z.gtb_ltb.
  destruct (Z.eqb_spec x (network key)); simpl; [lia|].
  destruct (Z.ltb_spec (network key) x); [lia | discriminate].
Qed.

Lemma search_goes_left key x :
  wf key -> 0 <= x < 2 ^ 32 -> ~ covers key x ->
  net_gt (host x) key = false -> x < network key.
Proof.
  intros Hwf Hx Hnc. pose proof (network_le_ip key Hwf) as Hb.
  unfold net_gt. rewrite network_host by exact Hx. unfold covers in Hnc.
  rewrite !Z.gtb_ltb.
  destruct (Z.eqb_spec x (network key)); simpl; [lia|].
  destruct (Z.ltb_spec (network key) x); [discriminate | lia].
Qed.

Lemma chk_ip_rec_spec t x :
  0 <= x < 2 ^ 32 ->
  bst t ->
  Forall wf (keys t) ->
  (forall a b, In a (keys t) -> In b (keys t) -> a <> b -> ~ overlap a b) ->
  match __chk_ip t (host x) with
  | Some n =>
      exists k v, key_of n = Some k /\ value_of n = Some v
                  /\ In (k, v) (bindings t) /\ covers k x
  | None => forall a, In a (keys t) -> ~ covers a x
  end.
Proof.
  intros Hx. induction t as [|lv key val l IHl r IHr].
  - simpl. intros _ _ _ a [].
  - intros (Hl & Hr & Fl & Fr) Hwf Hdis.
    rewrite keys_node in Hwf, Hdis.
    apply Forall_app in Hwf as [Hwl Hwr].
    apply Forall_cons in Hwr as [Hwk Hwr].
    rewrite chk_ip_rec_node.
    destruct (net_contains key (host x)) eqn:Hc.
    { exists key, val. split; [reflexivity|]. split; [reflexivity|]. split.
      - simpl. apply in_app_iff. right. left. reflexivity.
      - apply net_contains_host; assumption. }
    assert (Hnc : ~ covers key x).
    { intros Hcov. apply (net_contains_host key x Hx) in Hcov. congruence. }
    destruct (net_gt (host x) key) eqn:Hgt.
    + pose proof (search_goes_right key x Hwk Hx Hnc Hgt) as Hright.
      assert (Hleft_out : forall a, In a (keys l) -> ~ covers a x).
      { intros a Ha Hcov.
        rewrite List.Forall_forall in Fl. pose proof (Fl a Ha) as Hka.
        pose proof (net_gt_network key a Hka) as Hnet.
        pose proof (network_le_ip key Hwk) as Hbk.
        apply (Hdis a key).
        - apply in_app_iff. left. exact Ha.
        - apply in_app_iff. right. left. reflexivity.
        - intros ->. rewrite net_gt_irrefl in Hka. discriminate.
        - exists (network key). split.
          + unfold covers in *. lia.
          + apply covers_network. exact Hwk. }
      specialize (IHr Hr Hwr).
      assert (Hdr : forall a b, In a (keys r) -> In b (keys r) ->
                                a <> b -> ~ overlap a b).
      { intros a b Ha Hb. apply Hdis; apply in_app_iff; right; right;
          assumption. }
      specialize (IHr Hdr).
      destruct (__chk_ip r (host x)) as [n|].
      * destruct IHr as (k & v & Hk & Hv & Hin & Hcov).
        exists k, v. split; [exact Hk|]. split; [exact Hv|].
        split; [|exact Hcov].
        simpl. apply in_app_iff. right. right. exact Hin.
      * rewrite keys_node. intros a Ha.
        apply in_app_iff in Ha as [Ha|[<-|Ha]]; auto.
    + pose proof (search_goes_left key x Hwk Hx Hnc Hgt) as Hleft.
      assert (Hright_out : forall a, In a (keys r) -> ~ covers a x).
      { intros a Ha Hcov.
        rewrite List.Forall_forall in Fr. pose proof (Fr a Ha) as Hka.
        pose proof (net_gt_network a key Hka) as Hnet.
        unfold covers in Hcov. lia. }
      specialize (IHl Hl Hwl).
      assert (Hdl : forall a b, In a (keys l) -> In b (keys l) ->
                                a <> b -> ~ overlap a b).
      { intros a b Ha Hb. apply Hdis; apply in_app_iff; left; assumption. }
      specialize (IHl Hdl).
      destruct (__chk_ip l (host x)) as [n|].
      * destruct IHl as (k & v & Hk & Hv & Hin & Hcov).
        exists k, v. split; [exact Hk|]. split; [exact Hv|].
        split; [|exact Hcov].
        simpl. apply in_app_iff. left. exact Hin.
      * rewrite keys_node. intros a Ha.
        apply in_app_iff in Ha as [Ha|[<-|Ha]]; auto.
Qed.

Lemma keys_insert t k v a :
  In a (keys (root (insert t k v))) -> a = k \/ In a (keys (root t)).
Proof.
  unfold insert. destruct (is_nil (root t)); simpl.
  - intros [<-|[]]. left. reflexivity.
  - rewrite keys_rebalance. apply keys_insert_rec.
Qed.

Lemma fold_insert_spec ins :
  forall t,
    bst (root t) ->
    (forall kv a, In kv ins -> In a (keys (root t)) ->
                  net_eq (fst kv) a = false) ->
    ForallOrdPairs (fun p q => net_eq (fst q) (fst p) = false) ins ->
    let t' := fold_left (fun t kv => insert t (fst kv) (snd kv)) ins t in
    bst (root t')
    /\ forall kv, In kv (bindings (root t'))
                  <-> In kv (bindings (root t)) \/ In kv ins.
Proof.
  induction ins as [|[k v] rest IH]; intros t Hbst Hfresh Hord; simpl.
  - split; [exact Hbst | intros kv; tauto].
  - inversion Hord as [|? ? Hhd Htl]; subst.
    assert (Hk : Forall (fun a => net_eq k a = false) (keys (root t))).
    { apply List.Forall_forall. intros a Ha.
      apply (Hfresh (k, v)); [left; reflexivity | exact Ha]. }
    destruct (IH (insert t k v)) as [Hb Hin].
    + apply bst_insert. exact Hbst.
    + intros kv a Hkv Ha. apply keys_insert in Ha as [->|Ha].
      * rewrite List.Forall_forall in Hhd. apply (Hhd kv Hkv).
      * apply Hfresh; [right; exact Hkv | exact Ha].
    + exact Htl.
    + split; [exact Hb|]. intros kv. rewrite Hin.
      rewrite (bindings_insert_fresh t k v kv Hk). clear. intuition auto.
Qed.

Lemma disjoint_fresh (ins : list (IPv4Network * string)) :
  Forall (fun kv => wf (fst kv)) ins ->
  ForallOrdPairs (fun p q => ~ overlap (fst p) (fst q)) ins ->
  ForallOrdPairs (fun p q => net_eq (fst q) (fst p) = false) ins.
Proof.
  induction ins as [|kv rest IH]; intros Hwf Hd; [constructor|].
  inversion Hd as [|? ? Hhd Htl]; subst.
  apply Forall_cons in Hwf as [Hw Hwf].
  constructor; [|apply IH; assumption].
  rewrite List.Forall_forall in *. intros q Hq.
  destruct (net_eq (fst q) (fst kv)) eqn:E; [|reflexivity].
  exfalso. apply (Hhd q Hq). apply overlap_sym.
  apply net_eq_overlap; auto.
Qed.

Lemma build_spec (ins : list (IPv4Network * string)) :
  Forall (fun kv => wf (fst kv)) ins ->
  ForallOrdPairs (fun p q => ~ overlap (fst p) (fst q)) ins ->
  bst (root (build ins))
  /\ forall kv, In kv (bindings (root (build ins))) <-> In kv ins.
Proof.
  intros Hwf Hd. unfold build.
  destruct (fold_insert_spec ins empty) as [Hb Hin].
  - exact I.
  - intros kv a _ [].
  - apply disjoint_fresh; assumption.
  - split; [exact Hb|]. intros kv. rewrite Hin. simpl. tauto.
Qed.

End CoverageFacts.

Section Coverage.
Import IPAddr BlkTree.

(** Evaluate the two constant bounds of a range hypothesis. *)
Ltac eval_range H :=
  match type of H with
  | ?a <= ?y <= ?b =>
      let a' := eval vm_compute in a in
      let b' := eval vm_compute in b in
      change (a' <= y <= b') in H
  end.

(** C1. Prefix index coverage.  Insert into a new tree any list of
    well-formed prefixes, each with its ASN, no two of which overlap, and
    let [my_ip] be the text of an IPv4 address [x].  If an inserted prefix
    contains [x], [chk_ip] returns a node whose key is that prefix and whose
    value is its ASN; if no inserted prefix contains [x], [chk_ip] returns
    [None]. *)
Theorem chk_ip_coverage `{IPv6Parser}
  (ins : list (IPv4Network * string)) (my_ip : string) (x : Z) :
  Forall (fun kv => wf (fst kv)) ins ->
  ForallOrdPairs (fun p q => ~ overlap (fst p) (fst q)) ins ->
  0 <= x < 2 ^ 32 ->
  IPNetwork my_ip = Some (V4 (host x)) ->
  (forall p a, In (p, a) ins -> covers p x ->
     exists n, chk_ip (build ins) my_ip = Returned (Some n)
               /\ key_of n = Some p /\ value_of n = Some a)
  /\ ((forall p a, In (p, a) ins -> ~ covers p x) ->
      chk_ip (build ins) my_ip = Returned None).
Proof.
  intros Hwf Hdis Hx Hparse.
  destruct (build_spec ins Hwf Hdis) as [Hbst Hin].
  assert (Hkeys : forall a, In a (keys (root (build ins))) ->
                            exists v, In (a, v) ins).
  { intros a Ha. apply in_keys_bindings in Ha as [v Hv].
    exists v. apply Hin. exact Hv. }
  assert (Hwk : Forall wf (keys (root (build ins)))).
  { apply List.Forall_forall. intros a Ha.
    destruct (Hkeys a Ha) as [v Hv].
    rewrite List.Forall_forall in Hwf. apply (Hwf (a, v) Hv). }
  assert (Hpair : forall p a q b, In (p, a) ins -> In (q, b) ins ->
                                  overlap p q -> p = q /\ a = b).
  { intros p a q b Hp Hq Hov.
    destruct (ForallOrdPairs_In Hdis _ _ Hp Hq) as [E|[E|E]].
    - inversion E. split; reflexivity.
    - simpl in E. contradiction.
    - simpl in E. apply overlap_sym in Hov. contradiction. }
  assert (Hdk : forall a b, In a (keys (root (build ins))) ->
                            In b (keys (root (build ins))) ->
                            a <> b -> ~ overlap a b).
  { intros a b Ha Hb Hne Hov.
    destruct (Hkeys a Ha) as [va Hva]. destruct (Hkeys b Hb) as [vb Hvb].
    destruct (Hpair a va b vb Hva Hvb Hov) as [E _]. contradiction. }
  pose proof (chk_ip_rec_spec (root (build ins)) x Hx Hbst Hwk Hdk) as Hspec.
  unfold chk_ip. rewrite Hparse.
  destruct (is_nil (root (build ins))) eqn:Hnil; simpl.
  - assert (Hempty : forall kv, ~ In kv ins).
    { intros kv Hkv. apply Hin in Hkv.
      destruct (root (build ins)); [exact Hkv | discriminate]. }
    split; [|reflexivity].
    intros p a Hp _. exfalso. exact (Hempty _ Hp).
  - split.
    + intros p a Hp Hcov.
      destruct (__chk_ip (root (build ins)) (host x)) as [n|].
      * destruct Hspec as (k & v & Hk & Hv & Hkv & Hck).
        apply Hin in Hkv.
        assert (Hov : overlap k p) by (exists x; split; assumption).
        destruct (Hpair k v p a Hkv Hp Hov) as [-> ->].
        exists n. repeat split; assumption.
      * exfalso. apply (Hspec p); [|exact Hcov].
        apply in_keys_bindings. exists a. apply Hin. exact Hp.
    + intros Hnone.
      destruct (__chk_ip (root (build ins)) (host x)) as [n|];
        [|reflexivity].
      destruct Hspec as (k & v & Hk & Hv & Hkv & Hck).
      apply Hin in Hkv. exfalso. exact (Hnone k v Hkv Hck).
Qed.

Lemma chk_ip_coverage_witness :
  exists n,
    chk_ip (H := Examples.ipv6_table)
      (build [(mkNet 167772160 24, "64500"); (mkNet 167772416 24, "64501");
              (mkNet 3232235520 16, "64502")]) "10.0.1.77"
    = Returned (Some n)
    /\ key_of n = Some (mkNet 167772416 24) /\ value_of n = Some "64501".
Proof.
  refine (proj1 (chk_ip_coverage (H := Examples.ipv6_table)
                   [(mkNet 167772160 24, "64500"); (mkNet 167772416 24, "64501");
                    (mkNet 3232235520 16, "64502")]
                   "10.0.1.77" 167772493 _ _ _ _)
                (mkNet 167772416 24) "64501" _ _).
  - repeat constructor; simpl; lia.
  - once (repeat constructor); simpl; intros [y [H1 H2]];
      unfold covers in H1, H2; eval_range H1; eval_range H2; lia.
  - lia.
  - vm_compute. reflexivity.
  - right. left. reflexivity.
  - unfold covers. vm_compute. split; discriminate.
Defined.

(** What is not the text of an IPv4 address: with a leading zero in an
    octet the library raises [ValueError], and so does [chk_ip] on a
    tree that is not empty; the text of an IPv6 network raises
    [TypeError] at the comparison with the key of the root.
    [blk_check_ip] turns both into [None]. *)
Lemma chk_ip_not_ipv4 :
  chk_ip (H := Examples.ipv6_table) Examples.tree10 "10.0.1.077"
  = Raised ValueError
  /\ chk_ip (H := Examples.ipv6_table) Examples.tree10 "2001:db8::1"
     = Raised TypeError
  /\ (Rteserv.blk_check_ip (H := Examples.ipv6_table) "10.0.1.077"
        (Some Examples.tree10)).1 = None
  /\ IPNetwork (H := Examples.ipv6_table) "10.0.0.0/255.0.0.0"
     = Some (V4 (mkNet 167772160 8)).
Proof. vm_compute. repeat split; reflexivity. Qed.

End Coverage.

(** ** The dictionary of hostile IPs *)

Section DictFacts.
Import PyStr Re IpDict Examples.

Lemma prefix_refl (s : string) : String.prefix s s = true.
Proof.
  induction s as [|c s IH]; simpl; [reflexivity|].
  destruct (Ascii.ascii_dec c c); [exact IH | contradiction].
Qed.

Lemma prefix_empty (s : string) : String.prefix EmptyString s = true.
Proof. destruct s; reflexivity. Qed.

Lemma prefix_app (s t : string) : String.prefix s (s ++ t) = true.
Proof.
  induction s as [|c s IH]; simpl; [apply prefix_empty|].
  destruct (Ascii.ascii_dec c c); [exact IH | contradiction].
Qed.

(** A call of [insert_ip] reads and writes the record of its own address
    only. *)
Lemma insert_ip_other (d : ip_dict) ip desc as_ org cc k :
  k <> ip -> (insert_ip d ip desc as_ org cc).1 !! k = d !! k.
Proof.
  intros Hne. unfold insert_ip.
  destruct (d !! ip) as [[a c o ds]|]; simpl.
  - apply lookup_insert_ne. congruence.
  - destruct (negb (truthy org && re_ipv4_match ip)); simpl; [reflexivity|].
    apply lookup_insert_ne. congruence.
Qed.

Lemma insert_ip_congr (d1 d2 : ip_dict) ip desc as_ org cc :
  d1 !! ip = d2 !! ip ->
  (insert_ip d1 ip desc as_ org cc).1 !! ip
  = (insert_ip d2 ip desc as_ org cc).1 !! ip.
Proof.
  intros H. unfold insert_ip. rewrite <- H.
  destruct (d1 !! ip) as [[a c o ds]|] eqn:E; simpl.
  - rewrite !lookup_insert_eq. reflexivity.
  - destruct (negb (truthy org && re_ipv4_match ip)); simpl.
    + congruence.
    + rewrite !lookup_insert_eq. reflexivity.
Qed.

(** The new-record rule as the code applies it. *)
Lemma insert_ip_new_record (d : ip_dict) ip desc as_ org cc :
  d !! ip = None ->
  (insert_ip d ip desc as_ org cc).1 =
  if truthy org && re_ipv4_match ip
  then <[ip := mkElt as_ cc org (strip desc)]> d
  else d.
Proof.
  intros H. unfold insert_ip. rewrite H.
  destruct (truthy org && re_ipv4_match ip); reflexivity.
Qed.

(** Every dotted quad passes the test [re_ipv4.match] of [insert_ip]. *)
Lemma append_empty_r (s : string) : (s ++ "")%string = s.
Proof.
  induction s as [|a s IH]; [reflexivity|].
  change (String a (s ++ "") = String a s). rewrite IH. reflexivity.
Qed.

Lemma append_snoc (cur a : string) (c : ascii) :
  ((cur ++ String c "") ++ a)%string = (cur ++ String c a)%string.
Proof.
  induction cur as [|b cur IH]; [reflexivity|].
  change (String b ((cur ++ String c "") ++ a) = String b (cur ++ String c a)).
  rewrite IH. reflexivity.
Qed.

Lemma split_on_not_nil sep : forall s cur, IPAddr.split_on sep cur s <> [].
Proof.
  induction s as [|c s IH]; intros cur; simpl; [discriminate|].
  destruct (Ascii.eqb c sep); [discriminate | apply IH].
Qed.

Lemma split_on_single sep : forall s cur x,
  IPAddr.split_on sep cur s = [x] -> x = (cur ++ s)%string.
Proof.
  induction s as [|c s IH]; intros cur x; simpl.
  - intros H. inversion H. symmetry. apply append_empty_r.
  - destruct (Ascii.eqb c sep).
    + intros H. inversion H as [[H1 H2]].
      exfalso. exact (split_on_not_nil sep s "" H2).
    + intros H. apply IH in H. subst x. apply append_snoc.
Qed.

Lemma split_on_cons sep : forall s cur x y l,
  IPAddr.split_on sep cur s = x :: y :: l ->
  exists a s', x = (cur ++ a)%string /\ s = (a ++ String sep s')%string
               /\ IPAddr.split_on sep "" s' = y :: l.
Proof.
  induction s as [|c s IH]; intros cur x y l; simpl; [discriminate|].
  destruct (Ascii.eqb_spec c sep) as [->|Hc].
  - intros H. inversion H. subst. exists "", s.
    split; [symmetry; apply append_empty_r|]. split; reflexivity.
  - intros H. apply IH in H as (a & s' & -> & -> & H).
    exists (String c a), s'.
    split; [apply append_snoc|]. split; [reflexivity | exact H].
Qed.

Lemma span_digits_dot (a s : string) :
  IPAddr.all_digits a = true ->
  span is_digit (a ++ String "." s) = (a, String "."%char s).
Proof.
  induction a as [|c a IH]; simpl; [reflexivity|].
  intros H. apply andb_true_iff in H as [Hc Ha].
  change (IPAddr.is_digit c) with (is_digit c) in Hc. rewrite Hc.
  rewrite (IH Ha). reflexivity.
Qed.

Lemma parse_number_digits (s : string) (v : Z) :
  IPAddr.parse_number 3 255 s = Some v ->
  IPAddr.all_digits s = true
  /\ (1 <= String.length s)%nat /\ (String.length s <= 3)%nat.
Proof.
  unfold IPAddr.parse_number.
  destruct (0 <? String.length s)%nat eqn:E1; simpl; [|discriminate].
  destruct (String.length s <=? 3)%nat eqn:E2; simpl; [|discriminate].
  destruct (IPAddr.all_digits s) eqn:E3; [|discriminate].
  intros _. apply Nat.ltb_lt in E1. apply Nat.leb_le in E2.
  repeat split; [lia | exact E2].
Qed.

Lemma digits_dot_octet (a s : string) (v : Z) :
  IPAddr.parse_number 3 255 a = Some v ->
  digits_dot (a ++ String "." s) = Some s.
Proof.
  intros H. apply parse_number_digits in H as (Hd & H1 & H3).
  unfold digits_dot. rewrite (span_digits_dot a s Hd).
  apply Nat.leb_le in H1, H3. rewrite H1, H3. reflexivity.
Qed.

Lemma re_ipv4_match_dotted_quad (s : string) (x : Z) :
  IPAddr.parse_address s = Some x -> re_ipv4_match s = true.
Proof.
  unfold IPAddr.parse_address.
  destruct (IPAddr.split_on "." "" s) as [|a [|b [|c [|d [|e l]]]]] eqn:E;
    try discriminate.
  destruct (IPAddr.parse_number 3 255 a) as [va|] eqn:Ha; [|discriminate].
  destruct (IPAddr.parse_number 3 255 b) as [vb|] eqn:Hb; [|discriminate].
  destruct (IPAddr.parse_number 3 255 c) as [vc|] eqn:Hc; [|discriminate].
  destruct (IPAddr.parse_number 3 255 d) as [vd|] eqn:Hd; [|discriminate].
  intros _.
  apply split_on_cons in E as (a' & s1 & Ea & -> & E).
  change (a = a') in Ea. subst a'.
  apply split_on_cons in E as (b' & s2 & Eb & -> & E).
  change (b = b') in Eb. subst b'.
  apply split_on_cons in E as (c' & s3 & Ec & -> & E).
  change (c = c') in Ec. subst c'.
  apply split_on_single in E. change (d = s3) in E. subst s3.
  unfold re_ipv4_match.
  rewrite (digits_dot_octet a _ va Ha), (digits_dot_octet b _ vb Hb),
    (digits_dot_octet c _ vc Hc).
  apply parse_number_digits in Hd as (Hdd & H1 & _).
  destruct d as [|ch d]; simpl in *; [lia|].
  apply andb_true_iff in Hdd as [Hch _]. exact Hch.
Qed.

(** An existing record keeps its [org] when the call carries none, and
    every field keeps what it held, as a prefix of the new string. *)
Lemma insert_ip_existing (d : ip_dict) ip desc as_ cc r :
  d !! ip = Some r ->
  exists r',
    (insert_ip d ip desc as_ EmptyString cc).1 !! ip = Some r'
    /\ e_org r' = e_org r
    /\ String.prefix (e_as r) (e_as r') = true
    /\ String.prefix (e_cc r) (e_cc r') = true
    /\ String.prefix (e_desc r) (e_desc r') = true.
Proof.
  intros H. unfold insert_ip. rewrite H. destruct r as [a c o ds]. simpl.
  rewrite lookup_insert_eq. eexists. split; [reflexivity|]. simpl.
  split; [reflexivity|].
  repeat split.
  - destruct (truthy as_); [|apply prefix_refl].
    destruct a; simpl; [apply prefix_empty|].
    destruct (negb _); [apply (prefix_app (String _ _))|apply prefix_refl].
  - destruct (truthy cc); [|apply prefix_refl].
    destruct c; simpl; [apply prefix_empty|].
    destruct (negb _); [apply (prefix_app (String _ _))|apply prefix_refl].
  - destruct (truthy (strip desc)); [|apply prefix_refl].
    destruct (negb _); [apply prefix_app|apply prefix_refl].
Qed.

Lemma run_insert_congr (d1 d2 : ip_dict) c :
  d1 !! c_ip c = d2 !! c_ip c ->
  run_insert d1 c !! c_ip c = run_insert d2 c !! c_ip c.
Proof. apply insert_ip_congr. Qed.

Lemma run_insert_other (d : ip_dict) c k :
  k <> c_ip c -> run_insert d c !! k = d !! k.
Proof. apply insert_ip_other. Qed.

(** The record of [k] after a sequence of calls depends on the calls for
    [k] only. *)
Lemma run_inserts_local (l : list call) :
  forall (d1 d2 : ip_dict) k,
    d1 !! k = d2 !! k ->
    run_inserts (calls_for k l) d1 !! k = run_inserts l d2 !! k.
Proof.
  induction l as [|c l IH]; intros d1 d2 k H; simpl; [exact H|].
  unfold calls_for. simpl. destruct (String.eqb_spec (c_ip c) k) as [E|E].
  - simpl. apply IH. subst k. apply run_insert_congr. exact H.
  - apply IH. rewrite run_insert_other by congruence. exact H.
Qed.

(** The three cases of [updt_whois]. *)
Lemma updt_whois_malformed (debug : Z) (d : ip_dict) (line : string) :
  length (split_max "|" 3 "" (strip line)) <> 4%nat ->
  updt_whois debug d line
  = (d, (dbg debug Cfg.DEBUG_VERBOSE ("ipdict: whois: " ++ strip line)%string
         ++ [LogErr ("ipdict: whois line invalid format: " ++ line)%string])%list).
Proof.
  intros H. unfold updt_whois.
  destruct (split_max "|" 3 "" (strip line))
    as [|myas [|myip [|mycc [|mydesc [|x rest]]]]]; try reflexivity.
  simpl in H. congruence.
Qed.

Lemma updt_whois_unknown (debug : Z) (d : ip_dict) line myas myip mycc mydesc :
  split_max "|" 3 "" (strip line) = [myas; myip; mycc; mydesc] ->
  d !! strip myip = None ->
  updt_whois debug d line
  = (d, (dbg debug Cfg.DEBUG_VERBOSE ("ipdict: whois: " ++ strip line)%string
         ++ [LogErr ("ipdict: unknown ip from whois - ignored: "
                     ++ line)%string])%list).
Proof. intros H1 H2. unfold updt_whois. rewrite H1, H2. reflexivity. Qed.

Lemma updt_whois_known (debug : Z) (d : ip_dict) line myas myip mycc mydesc :
  split_max "|" 3 "" (strip line) = [myas; myip; mycc; mydesc] ->
  is_Some (d !! strip myip) ->
  (updt_whois debug d line).1
  = (insert_ip d (strip myip) (strip mydesc) (strip myas) "" (strip mycc)).1.
Proof.
  intros H1 [r H2]. unfold updt_whois. rewrite H1, H2.
  destruct (insert_ip d (strip myip) (strip mydesc) (strip myas) ""
              (strip mycc)) as [d' l].
  reflexivity.
Qed.

(** What [list_grp] yields: the records in which every filter that is
    given occurs, as a string, inside the field. *)
Lemma list_grp_spec (d : ip_dict) (as_ org cc ip : string) (e : elt) :
  In (ip, e) (list_grp d as_ org cc)
  <-> d !! ip = Some e
      /\ (truthy as_ = true -> str_in as_ (e_as e) = true)
      /\ (truthy org = true -> str_in org (e_org e) = true)
      /\ (truthy cc = true -> str_in cc (e_cc e) = true).
Proof.
  unfold list_grp. rewrite filter_In, <- list_elem_of_In, elem_of_map_to_list.
  simpl. rewrite !andb_true_iff, !orb_true_iff, !negb_true_iff.
  destruct (truthy as_), (truthy org), (truthy cc); intuition congruence.
Qed.

Lemma calls_for_Permutation (k : string) (l1 l2 : list call) :
  l1 ≡ₚ l2 -> calls_for k l1 ≡ₚ calls_for k l2.
Proof.
  unfold calls_for.
  induction 1 as [|c l l' _ IH|c c' l|l l' l'' _ IH1 _ IH2]; simpl.
  - constructor.
  - destruct (String.eqb (c_ip c) k); [constructor|]; exact IH.
  - destruct (String.eqb (c_ip c) k), (String.eqb (c_ip c') k);
      try reflexivity. apply Permutation_swap.
  - etransitivity; eassumption.
Qed.

Lemma calls_for_NoDup (k : string) (l : list call) :
  List.NoDup (map c_ip l) -> (length (calls_for k l) <= 1)%nat.
Proof.
  unfold calls_for. induction l as [|c l IH]; simpl; [lia|].
  intros H. apply List.NoDup_cons_iff in H as [Hc Hl]. specialize (IH Hl).
  destruct (String.eqb_spec (c_ip c) k) as [E|E]; [|exact IH].
  simpl. destruct (List.filter _ l) as [|c' r] eqn:F; [simpl; lia|].
  exfalso. apply Hc.
  assert (Hin : In c' (List.filter (fun c => String.eqb (c_ip c) k) l))
    by (rewrite F; left; reflexivity).
  apply filter_In in Hin as [Hin Hk]. apply String.eqb_eq in Hk.
  apply in_map_iff. exists c'. split; congruence.
Qed.

(** Calls for pairwise different addresses may be permuted at will. *)
Lemma run_inserts_distinct_ips (l1 l2 : list call) :
  l1 ≡ₚ l2 -> List.NoDup (map c_ip l1) ->
  forall k, calls_for k l1 = calls_for k l2.
Proof.
  intros Hp Hnd k.
  assert (Hnd2 : List.NoDup (map c_ip l2)).
  { eapply Permutation_NoDup; [|exact Hnd]. apply Permutation_map.
    exact Hp. }
  pose proof (calls_for_Permutation k l1 l2 Hp) as Hk.
  pose proof (calls_for_NoDup k l1 Hnd) as H1.
  pose proof (calls_for_NoDup k l2 Hnd2) as H2.
  destruct (calls_for k l1) as [|a [|b r]]; simpl in H1; try lia.
  - apply Permutation_nil in Hk. congruence.
  - apply Permutation_singleton_l in Hk. exact Hk.
Qed.

End DictFacts.

Section Registry.
Import PyStr Re IpDict Examples.

(** C3, as stated, fails.  The calls [call_a] (no [org]) and [call_b] are
    for the same address.  Applied in the order a, b to the empty
    dictionary, the first is rejected and the record holds the description
    ["b"] alone; in the order b, a the record holds ["b | a"].  The two
    orders are permutations of each other and the final records differ,
    also when each field is read as the set of its [SEP]-separated
    members. *)
Lemma insert_order_counterexample :
  [call_a; call_b] ≡ₚ [call_b; call_a]
  /\ run_inserts [call_a; call_b] ∅ !! "10.0.0.1"
     = Some (mkElt "" "" "dshield" "b")
  /\ run_inserts [call_b; call_a] ∅ !! "10.0.0.1"
     = Some (mkElt "" "" "dshield" "b | a")
  /\ members "b" = ["b"] /\ members "b | a" = ["b"; "a"]
  /\ run_inserts [call_a; call_b] ∅ <> run_inserts [call_b; call_a] ∅.
Proof.
  split; [apply Permutation_swap|].
  split; [vm_compute; reflexivity|].
  split; [vm_compute; reflexivity|].
  split; [reflexivity|]. split; [reflexivity|].
  intros H. apply (f_equal (fun m : ip_dict => m !! "10.0.0.1")) in H.
  vm_compute in H. discriminate H.
Qed.

(** Two sequences of [insert_ip] calls that list, for every address, the
    calls for that address in the same order leave identical
    dictionaries, whatever the dictionary they start from. *)
Lemma run_inserts_order (l1 l2 : list call) (d : ip_dict) :
  (forall k, calls_for k l1 = calls_for k l2) ->
  run_inserts l1 d = run_inserts l2 d.
Proof.
  intros H. apply map_eq. intros k.
  rewrite <- (run_inserts_local l1 d d k eq_refl).
  rewrite <- (run_inserts_local l2 d d k eq_refl).
  rewrite H. reflexivity.
Qed.

(** C5, on the input where the code departs from it.  [insert_ip] on the
    empty dictionary with the key ["1.2.3.4.evil.example.com"] and a
    non-empty [org] creates a record, because [re_ipv4.match] looks at the
    start of the key only; the key is not a dotted quad. *)
Theorem insert_ip_accepts_non_ipv4 :
  (insert_ip ∅ "1.2.3.4.evil.example.com" "" "" "dshield" "").1
    !! "1.2.3.4.evil.example.com"
  = Some (mkElt "" "" "dshield" "")
  /\ (insert_ip ∅ "1.2.3.4.evil.example.com" "" "" "dshield" "").2 = []
  /\ IPAddr.parse_address "1.2.3.4.evil.example.com" = None.
Proof. vm_compute. repeat split; reflexivity. Qed.

(** C6, on the input where the code departs from it.  The record of
    198.51.100.9 holds the ASN 64500; the whois line announces the ASN
    6450 for it.  The line is well formed and the address is a key, yet
    the call leaves the [as] field at ["64500"]: 6450 is not added,
    because it occurs inside the string already there. *)
Theorem updt_whois_drops_asn :
  forall debug,
    (updt_whois debug registry64500
       "6450 | 198.51.100.9 | US | ExampleNet").1 !! "198.51.100.9"
    = Some (mkElt "64500" "US" "dshield" "scanner | ExampleNet")
    /\ members "64500" = ["64500"].
Proof.
  intros debug. split; [|reflexivity].
  unfold updt_whois.
  change (split_max "|" 3 "" (strip "6450 | 198.51.100.9 | US | ExampleNet"))
    with ["6450 "; " 198.51.100.9 "; " US "; " ExampleNet"].
  cbv beta iota.
  change (strip " 198.51.100.9 ") with "198.51.100.9".
  change (registry64500 !! "198.51.100.9")
    with (Some (mkElt "64500" "US" "dshield" "scanner")).
  cbv beta iota.
  destruct (insert_ip registry64500 "198.51.100.9" (strip " ExampleNet")
              (strip "6450 ") "" (strip " US ")) as [d' l] eqn:E.
  simpl. apply (f_equal fst) in E. simpl in E. subst d'.
  vm_compute. reflexivity.
Qed.

(** C9, on the input where the code departs from it.  The only record has
    the ASN 1234.  [list_grp] with the filter [as_ = "123"] yields it,
    although 123 is not a member of the set of its ASNs. *)
Theorem list_grp_matches_substring :
  list_grp registry1234 "123" "" ""
  = [("10.0.0.1", mkElt "1234" "CA" "dshield" "scanner")]
  /\ members "1234" = ["1234"].
Proof. split; vm_compute; reflexivity. Qed.

(** C10. Frame of the whois update.  For every line, every dictionary and
    every address: a record exists after [updt_whois] exactly when it
    existed before; its [org] field is unchanged; its [as], [cc] and
    [desc] fields keep what they held, as a prefix of the new string; and
    unless the address is the one named by the line, the whole record is
    unchanged. *)
Theorem updt_whois_frame (debug : Z) (d : ip_dict) (line ip : string) :
  match d !! ip, (updt_whois debug d line).1 !! ip with
  | Some r, Some r' =>
      e_org r' = e_org r
      /\ String.prefix (e_as r) (e_as r') = true
      /\ String.prefix (e_cc r) (e_cc r') = true
      /\ String.prefix (e_desc r) (e_desc r') = true
      /\ (whois_ip line <> Some ip -> r' = r)
  | None, None => True
  | _, _ => False
  end.
Proof.
  assert (Hsame : forall (Q : Prop) (r : elt),
             e_org r = e_org r
             /\ String.prefix (e_as r) (e_as r) = true
             /\ String.prefix (e_cc r) (e_cc r) = true
             /\ String.prefix (e_desc r) (e_desc r) = true
             /\ (Q -> r = r)).
  { intros Q r. rewrite !prefix_refl. tauto. }
  assert (Hid : forall Q : Prop,
             match d !! ip, d !! ip with
             | Some r, Some r' =>
                 e_org r' = e_org r
                 /\ String.prefix (e_as r) (e_as r') = true
                 /\ String.prefix (e_cc r) (e_cc r') = true
                 /\ String.prefix (e_desc r) (e_desc r') = true
                 /\ (Q -> r' = r)
             | None, None => True
             | _, _ => False
             end).
  { intros Q. destruct (d !! ip); [apply Hsame | exact I]. }
  unfold updt_whois, whois_ip.
  destruct (split_max "|" 3 "" (strip line))
    as [|myas [|myip [|mycc [|mydesc [|x rest]]]]]; simpl; try apply Hid.
  destruct (d !! strip myip) as [r0|] eqn:Hk; simpl; [|apply Hid].
  destruct (insert_ip d (strip myip) (strip mydesc) (strip myas) ""
              (strip mycc)) as [d' l] eqn:E.
  apply (f_equal fst) in E. simpl in E. subst d'. simpl.
  destruct (String.eqb_spec (strip myip) ip) as [Heq|Hne].
  - subst ip. rewrite Hk.
    destruct (insert_ip_existing d (strip myip) (strip mydesc) (strip myas)
                (strip mycc) r0 Hk) as (r' & -> & Ho & Ha & Hc & Hd).
    repeat split; try assumption. intros Hx. congruence.
  - rewrite insert_ip_other by congruence.
    destruct (d !! ip); [apply Hsame | exact I].
Qed.

End Registry.

(** ** The blocklist line parser *)

Section ParserFacts.
Import PyStr Re IpDict.
Variable debug : Z.
Variable W : Type.
Variable dns_lookup_fn : string -> bool -> string -> string -> W -> W.
Variable urlparse : string -> result (string * string).

(** C2, on the input where the code departs from it.  The line is a Cisco
    ACE whose host field is a host name.  [re_acl] matches it, the
    [assert] on [re_ipv4.match] fails, and the call ends with an
    [AssertionError]; dictionary and scheduler are as before. *)
Theorem insert_blklst_line_assertion (d : ip_dict) (w : W) (myorg : string) :
  let out := insert_blklst_line debug W dns_lookup_fn urlparse d w
               "deny ip host evil.example.com any log botnet-cc" myorg in
  p_result W out = Raised AssertionError
  /\ p_dict W out = d /\ p_sched W out = w.
Proof. repeat split; reflexivity. Qed.

(** C4, on the input where the code departs from it.  The line starts
    with ["deny "] and is not an ACE.  The call returns with the
    dictionary and the scheduler untouched and, below the verbose debug
    level, with nothing logged: no insertion, no DNS lookup and no
    "unknown format" entry. *)
Theorem insert_blklst_line_silent_drop (d : ip_dict) (w : W) (myorg : string) :
  insert_blklst_line debug W dns_lookup_fn urlparse d w "deny 10.0.0.1" myorg
  = mkParsed W (Returned tt) d w
      (dbg debug Cfg.DEBUG_VERBOSE "ipdict: input: deny 10.0.0.1").
Proof. reflexivity. Qed.

(** The same happens to a host name that begins with "ftp" or "http":
    [urlparse] finds no scheme in it and the line is dropped. *)
Lemma insert_blklst_line_drops_ftp_host (d : ip_dict) (w : W) (myorg : string) :
  urlparse "ftp.example.com bad host"
  = Returned ("", "") ->
  insert_blklst_line debug W dns_lookup_fn urlparse d w
    "ftp.example.com bad host" myorg
  = mkParsed W (Returned tt) d w
      (dbg debug Cfg.DEBUG_VERBOSE "ipdict: input: ftp.example.com bad host").
Proof.
  intros H. unfold insert_blklst_line.
  change (strip "ftp.example.com bad host") with "ftp.example.com bad host".
  cbv beta iota zeta.
  change (str_in "f" "#!") with false.
  change (startswith "ftp.example.com bad host" PAT_HTTP
          || startswith "ftp.example.com bad host" PAT_FTP) with true.
  cbv beta iota. rewrite H. reflexivity.
Qed.

(** The branch that logs "unknown format" cannot be taken: on a stripped
    line that is not empty, [re_addr] never yields an empty address. *)
Lemma re_addr_match_addr (s a desc : string) :
  re_addr_match s = Some (a, desc) -> truthy a = true.
Proof.
  unfold re_addr_match.
  destruct (span (fun c => negb (is_space c)) s) as [a0 r].
  destruct (truthy a0) eqn:E; [|discriminate].
  destruct (span is_space r) as [x r'].
  destruct (dot_star_eol r'); [|discriminate].
  intros H. inversion H. subst. exact E.
Qed.

(** The only ways out of the parser by an exception. *)
Lemma insert_blklst_line_raises (d : ip_dict) (w : W) (line myorg : string)
  (e : exn) :
  p_result W (insert_blklst_line debug W dns_lookup_fn urlparse d w line myorg)
  = Raised e ->
  (exists myip mydesc,
      re_acl_match (strip line) = Some (myip, mydesc)
      /\ re_ipv4_match myip = false /\ e = AssertionError)
  \/ urlparse (strip line) = Raised e
  \/ (strip line <> "" /\ re_addr_match (strip line) = None
      /\ e = AttributeError).
Proof.
  unfold insert_blklst_line. generalize (strip line). intros s.
  destruct s as [|c0 s]; cbv beta iota zeta; [discriminate|].
  assert (Hne : String c0 s <> "") by discriminate.
  remember (String c0 s) as ln eqn:Hln. clear Hln.
  repeat case_match; cbn [p_result]; intros Hres; try discriminate Hres;
    inversion Hres; subst; clear Hres.
  - right. left. reflexivity.
  - left. eexists _, _. repeat split; eassumption.
  - right. right. split; [exact Hne|]. split; reflexivity.
Qed.

Lemma lstrip_head (s : string) c r :
  lstrip s = String c r -> is_space c = false.
Proof.
  induction s as [|a s IH]; simpl; [discriminate|].
  destruct (is_space a) eqn:E; [exact IH|].
  intros H. inversion H. subst. exact E.
Qed.

Lemma strip_head (s : string) c r :
  strip s = String c r -> is_space c = false.
Proof.
  unfold strip. destruct (lstrip s) as [|a t] eqn:E; simpl; [discriminate|].
  pose proof (lstrip_head s a t E) as Ha.
  destruct (rstrip t); [rewrite Ha|]; intros H; inversion H; subst; exact Ha.
Qed.

Lemma dot_star_eol_no_newline (s : string) :
  str_in Cfg.nl s = false -> dot_star_eol s = Some s.
Proof.
  induction s as [|c s IH]; [reflexivity|].
  cbn [str_in dot_star_eol]. intros H. apply orb_false_iff in H as [H1 H2].
  destruct (Ascii.eqb_spec c "010"%char) as [->|Hc].
  - unfold Cfg.nl in H1. simpl in H1. destruct s; discriminate H1.
  - rewrite (IH H2). reflexivity.
Qed.

Lemma span_rest_no_newline (p : ascii -> bool) (s : string) :
  str_in Cfg.nl s = false -> str_in Cfg.nl (span p s).2 = false.
Proof.
  induction s as [|c s IH]; [reflexivity|].
  intros H. cbn [span]. destruct (p c); [|exact H].
  cbn [str_in] in H. apply orb_false_iff in H as [_ H2].
  specialize (IH H2). destruct (span p s) as [a b]. exact IH.
Qed.

(** A stripped line that is not empty and holds no newline always matches
    [re_addr]. *)
Lemma re_addr_match_some (line : string) c0 r :
  strip line = String c0 r ->
  str_in Cfg.nl (strip line) = false ->
  is_Some (re_addr_match (strip line)).
Proof.
  intros Hs Hnl. pose proof (strip_head line c0 r Hs) as Hc.
  pose proof (span_rest_no_newline (fun c => negb (is_space c)) _ Hnl) as H1.
  unfold re_addr_match. rewrite Hs in *. cbn [span] in *. rewrite Hc in *.
  cbn [negb] in *.
  destruct (span (fun c => negb (is_space c)) r) as [a b]. cbn [truthy].
  simpl in H1.
  pose proof (span_rest_no_newline is_space b H1) as H2.
  destruct (span is_space b) as [x b']. simpl in H2.
  rewrite (dot_star_eol_no_newline b' H2). eexists. reflexivity.
Qed.

(** Outside those cases the parser returns: on a line without a newline,
    when [urlparse] does not raise on it and the host of a matching ACE
    starts like a dotted quad. *)
Lemma insert_blklst_line_returns (d : ip_dict) (w : W) (line myorg : string) :
  str_in Cfg.nl (strip line) = false ->
  (forall e, urlparse (strip line) <> Raised e) ->
  (forall myip mydesc, re_acl_match (strip line) = Some (myip, mydesc) ->
                       re_ipv4_match myip = true) ->
  p_result W (insert_blklst_line debug W dns_lookup_fn urlparse d w line myorg)
  = Returned tt.
Proof.
  intros Hnl Hurl Hacl.
  destruct (p_result W (insert_blklst_line debug W dns_lookup_fn urlparse
                          d w line myorg)) as [[]|e] eqn:E; [reflexivity|].
  exfalso.
  apply insert_blklst_line_raises in E
    as [(myip & mydesc & Hm & Hv & _)|[Hu|(Hne & Hm & _)]].
  - rewrite (Hacl myip mydesc Hm) in Hv. discriminate Hv.
  - exact (Hurl e Hu).
  - destruct (strip line) as [|c0 r] eqn:Hs; [congruence|].
    rewrite <- Hs in Hm, Hnl.
    destruct (re_addr_match_some line c0 r Hs Hnl) as [x Hx]. congruence.
Qed.

(** Every call that returns either went through [insert_ip] once, or
    handed one lookup to the scheduler, or left dictionary and scheduler as
    they were. *)
Lemma insert_blklst_line_cases (d : ip_dict) (w : W) (line myorg : string) :
  let out := insert_blklst_line debug W dns_lookup_fn urlparse d w line myorg in
  (exists myip mydesc,
      p_dict W out = (insert_ip d myip mydesc "" myorg "").1
      /\ p_sched W out = w)
  \/ (exists myip mydesc,
         p_dict W out = d
         /\ p_sched W out = dns_lookup_fn myip false mydesc myorg w)
  \/ (p_dict W out = d /\ p_sched W out = w).
Proof.
  unfold insert_blklst_line. generalize (strip line). intros s.
  destruct s as [|c0 s]; cbv beta iota zeta;
    [right; right; split; reflexivity|].
  remember (String c0 s) as ln eqn:Hln. clear Hln.
  repeat case_match; cbn [p_dict p_sched];
    try (right; right; split; reflexivity);
    try (right; left; eexists _, _; split; reflexivity);
    left; eexists _, _;
    match goal with
    | H : insert_ip _ _ _ _ _ _ = _ |- _ => rewrite H
    end; split; reflexivity.
Qed.

End ParserFacts.

(** ** The orchestrator *)

Section MainFacts.
Import BlkTree IpDict State Rteserv WkMsg Main Examples.
Context {ipv6 : IPAddr.IPv6Parser}.

(** C7, on the input where the code departs from it.  With the limit
    [cyrmu_max = 20] of [cfg.py], an idle resolver, and a dictionary of
    twenty-two addresses that all lie in a monitored prefix, the request
    handed to the whois client lists twenty-one addresses: the loop
    leaves only when the count is already above the limit. *)
Theorem cymru_chk_exceeds_max :
  Cfg.cyrmu_max Cfg.default = 20
  /\ length (list_all hostile22) = 22%nat
  /\ length (take 21 (list_all hostile22)) = 21%nat
  /\ (cymru_chk Cfg.default idle state22).1
     = Returned [CymruGetWhois "whois.cymru.com" 43
                   (Cfg.CYMRU_CMD_FIRST
                    ++ request_lines (take 21 (list_all hostile22))
                    ++ Cfg.CYMRU_CMD_LAST)%string].
Proof. vm_compute. repeat split; reflexivity. Qed.

(** The count of [cymru_loop] stops at [cyrmu_max + 1]. *)
Lemma cymru_loop_bound (c : Cfg.config) my_tree ips :
  forall n data lg,
    n <= Cfg.cyrmu_max c + 1 ->
    (cymru_loop c my_tree ips n data lg).1.1 <= Cfg.cyrmu_max c + 1.
Proof.
  induction ips as [|myip rest IH]; intros n data lg Hn; simpl; [exact Hn|].
  destruct (blk_check_ip myip my_tree) as [[a|] l].
  - destruct (Z.gtb_spec n (Cfg.cyrmu_max c)); simpl; [exact Hn|].
    apply IH. lia.
  - apply IH. exact Hn.
Qed.

(** Without a hit the whois client is not called. *)
Lemma cymru_loop_no_hits (c : Cfg.config) my_tree ips :
  Forall (fun myip => (blk_check_ip myip my_tree).1 = None) ips ->
  forall n data lg,
    (cymru_loop c my_tree ips n data lg).1 = (n, data).
Proof.
  induction 1 as [|myip rest Hhd Htl IH]; intros n data lg; simpl;
    [reflexivity|].
  destruct (blk_check_ip myip my_tree) as [a l]. simpl in Hhd. subst a.
  apply IH.
Qed.

Lemma cymru_chk_no_hits (c : Cfg.config) wk_serv bstate (my_dict : ip_dict) :
  lkps_in_progress wk_serv = false ->
  get_dict bstate = Some my_dict ->
  Forall (fun myip => (blk_check_ip myip (get_tree bstate)).1 = None)
         (list_all my_dict) ->
  (cymru_chk c wk_serv bstate).1
  = Returned [SetStatus "No hostile IPs found in ASNs of interest"].
Proof.
  intros Hidle Hd Hnone. unfold cymru_chk. rewrite Hidle, Hd.
  pose proof (cymru_loop_no_hits c (get_tree bstate) (list_all my_dict) Hnone
                0 Cfg.CYMRU_CMD_FIRST
                [LogMsg (Cfg.nl ++ "bulk whois lookup is starting now")%string])
    as Hloop.
  destruct (cymru_loop c (get_tree bstate) (list_all my_dict) 0
              Cfg.CYMRU_CMD_FIRST _) as [[n data] lg].
  simpl in Hloop. inversion Hloop. subst. reflexivity.
Qed.

(** [bump_ip_prob_cnt] keeps the counter below the limit. *)
Lemma bump_ip_prob_cnt_bound (c : Cfg.config) (st : BlkState) :
  0 < Cfg.ip_prob_max c ->
  0 <= ip_prob_cnt st < Cfg.ip_prob_max c ->
  0 <= ip_prob_cnt (bump_ip_prob_cnt c st).2 < Cfg.ip_prob_max c
  /\ ((bump_ip_prob_cnt c st).1 = true
      <-> ip_prob_cnt st + 1 = Cfg.ip_prob_max c).
Proof.
  intros Hmax Hcnt. unfold bump_ip_prob_cnt. simpl.
  rewrite Z.geb_leb.
  destruct (Z.leb_spec (Cfg.ip_prob_max c) (ip_prob_cnt st + 1)); simpl.
  - split; [lia|]. split; [lia | reflexivity].
  - split; [lia|]. split; [discriminate | lia].
Qed.

(** Below the limit a failed sanity check reschedules [blklst_Main] after
    [ip_prob_retry] seconds and counts the failure. *)
Lemma blklst_Main_retry (c : Cfg.config) (st : BlkState) :
  (blk_check_ip (Cfg.sanity_ip c) (get_tree st)).1 <> Some (Cfg.sanity_as c) ->
  ip_prob_cnt st + 1 < Cfg.ip_prob_max c ->
  (blklst_Main c st).1.1
  = Returned [CallLater (Cfg.ip_prob_retry c) "blklst_Main"]
  /\ ip_prob_cnt (blklst_Main c st).1.2 = ip_prob_cnt st + 1
  /\ mytree (blklst_Main c st).1.2 = mytree st
  /\ my_rte_srv (blklst_Main c st).1.2 = my_rte_srv st.
Proof.
  intros Hbad Hlt. unfold blklst_Main.
  destruct (blk_check_ip (Cfg.sanity_ip c) (get_tree st)) as [chk l0].
  simpl in Hbad.
  assert (E : match chk with
              | Some a => String.eqb a (Cfg.sanity_as c)
              | None => false
              end = false).
  { destruct chk as [a|]; [|reflexivity].
    destruct (String.eqb_spec a (Cfg.sanity_as c)); [congruence|reflexivity]. }
  rewrite E. unfold bump_ip_prob_cnt. rewrite Z.geb_leb.
  destruct (Z.leb_spec (Cfg.ip_prob_max c) (ip_prob_cnt st + 1)); [lia|].
  simpl. repeat split; reflexivity.
Qed.

(** A successful sanity check resets the counter and starts the reads. *)
Lemma blklst_Main_ok (c : Cfg.config) (st : BlkState) :
  (blk_check_ip (Cfg.sanity_ip c) (get_tree st)).1 = Some (Cfg.sanity_as c) ->
  (blklst_Main c st).1.1 = Returned [ReadBlklsts]
  /\ ip_prob_cnt (blklst_Main c st).1.2 = 0
  /\ mydict (blklst_Main c st).1.2 = Some ∅.
Proof.
  intros Hok. unfold blklst_Main.
  destruct (blk_check_ip (Cfg.sanity_ip c) (get_tree st)) as [chk l0].
  simpl in Hok. subst chk. rewrite String.eqb_refl. simpl.
  repeat split; reflexivity.
Qed.

(** At the limit the counter is reset, and the call of the refresh fails:
    [blk_rteserv_read] is not a name of the module. *)
Lemma blklst_Main_at_limit (c : Cfg.config) (st : BlkState) :
  (blk_check_ip (Cfg.sanity_ip c) (get_tree st)).1 <> Some (Cfg.sanity_as c) ->
  Cfg.ip_prob_max c <= ip_prob_cnt st + 1 ->
  (blklst_Main c st).1.1 = Raised (NameError "blk_rteserv_read")
  /\ ip_prob_cnt (blklst_Main c st).1.2 = 0
  /\ mytree (blklst_Main c st).1.2 = mytree st
  /\ my_rte_srv (blklst_Main c st).1.2 = my_rte_srv st.
Proof.
  intros Hbad Hge. unfold blklst_Main.
  destruct (blk_check_ip (Cfg.sanity_ip c) (get_tree st)) as [chk l0].
  simpl in Hbad.
  assert (E : match chk with
              | Some a => String.eqb a (Cfg.sanity_as c)
              | None => false
              end = false).
  { destruct chk as [a|]; [|reflexivity].
    destruct (String.eqb_spec a (Cfg.sanity_as c)); [congruence|reflexivity]. }
  rewrite E. unfold bump_ip_prob_cnt. rewrite Z.geb_leb.
  destruct (Z.leb_spec (Cfg.ip_prob_max c) (ip_prob_cnt st + 1)); [|lia].
  simpl. repeat split; reflexivity.
Qed.

(** C8, on the input where the code departs from it.  Start from a new
    [BlkState] (no tree yet, counter 0) with the values of [cfg.py]
    ([ip_prob_max = 3], [ip_prob_retry = 240]).  The first two calls of
    [blklst_Main] fail the sanity check, count 1 and 2, and reschedule the
    call after 240 seconds.  The third resets the counter to 0 and then
    raises [NameError]: no route-server refresh is started, the tree is
    still missing and the rotation has not moved. *)
Theorem blklst_Main_refresh_raises :
  let '(r1, s1, _) := blklst_Main Cfg.default State.init in
  let '(r2, s2, _) := blklst_Main Cfg.default s1 in
  let '(r3, s3, _) := blklst_Main Cfg.default s2 in
  r1 = Returned [CallLater 240 "blklst_Main"] /\ ip_prob_cnt s1 = 1
  /\ r2 = Returned [CallLater 240 "blklst_Main"] /\ ip_prob_cnt s2 = 2
  /\ r3 = Raised (NameError "blk_rteserv_read") /\ ip_prob_cnt s3 = 0
  /\ mytree s3 = None /\ my_rte_srv s3 = -1.
Proof. vm_compute. repeat split; reflexivity. Qed.

End MainFacts.

(** * Further properties of the code *)

(** ** Merging in the dictionary *)

Section MergeFacts.
Import PyStr Re IpDict.

Lemma str_in_refl (s : string) : str_in s s = true.
Proof.
  destruct s as [|c s]; [reflexivity|].
  cbn [str_in]. rewrite prefix_refl. reflexivity.
Qed.

Lemma str_in_app_r (a s : string) : str_in s (a ++ s) = true.
Proof.
  induction a as [|c a IH]; [apply str_in_refl|].
  change (str_in s (String c (a ++ s)) = true).
  cbn [str_in]. rewrite IH. apply orb_true_r.
Qed.

Lemma str_in_join (a s : string) : str_in s (join Cfg.SEP [a; s]) = true.
Proof.
  change (join Cfg.SEP [a; s]) with (a ++ (Cfg.SEP ++ s))%string.
  assert (E : (a ++ (Cfg.SEP ++ s))%string = ((a ++ Cfg.SEP) ++ s)%string).
  { induction a as [|c a IH]; [reflexivity|].
    change (String c (a ++ (Cfg.SEP ++ s)) = String c ((a ++ Cfg.SEP) ++ s)).
    rewrite IH. reflexivity. }
  rewrite E. apply str_in_app_r.
Qed.

Lemma truthy_app (a b : string) : truthy a = true -> truthy (a ++ b) = true.
Proof. destruct a; [discriminate | reflexivity]. Qed.

(** The merge of one value into a field that may be empty ([as], [cc]). *)
Lemma merge_opt_stable (new old : string) :
  let m := if truthy new then
             if negb (truthy old) then new
             else if negb (str_in new old) then join Cfg.SEP [old; new]
             else old
           else old in
  (if truthy new then
     if negb (truthy m) then new
     else if negb (str_in new m) then join Cfg.SEP [m; new]
     else m
   else m) = m
  /\ (truthy new = true -> str_in new m = true)
  /\ String.prefix old m = true.
Proof.
  cbv zeta. destruct (truthy new) eqn:Hn.
  - destruct (truthy old) eqn:Ho; simpl.
    + destruct (str_in new old) eqn:Hi; simpl.
      * rewrite Ho, Hi. simpl. repeat split; auto using prefix_refl.
      * change (join Cfg.SEP [old; new]) with (old ++ (Cfg.SEP ++ new))%string.
        rewrite (truthy_app old _ Ho). simpl.
        change (old ++ (Cfg.SEP ++ new))%string with (join Cfg.SEP [old; new]).
        rewrite str_in_join. simpl.
        repeat split; auto. apply prefix_app.
    + rewrite Hn, str_in_refl. simpl. repeat split; auto.
      destruct old; [apply prefix_empty | discriminate].
  - repeat split; [discriminate | apply prefix_refl].
Qed.

(** The merge of one value into a field that is never tested for
    emptiness ([org], [desc]). *)
Lemma merge_req_stable (new old : string) :
  let m := if truthy new then
             if negb (str_in new old) then join Cfg.SEP [old; new] else old
           else old in
  (if truthy new then
     if negb (str_in new m) then join Cfg.SEP [m; new] else m
   else m) = m
  /\ (truthy new = true -> str_in new m = true)
  /\ String.prefix old m = true
  /\ (truthy old = true -> truthy m = true).
Proof.
  cbv zeta. destruct (truthy new) eqn:Hn.
  - destruct (str_in new old) eqn:Hi; cbn [negb].
    + rewrite Hi. cbn [negb]. repeat split; auto using prefix_refl.
    + rewrite str_in_join. cbn [negb]. repeat split; auto.
      * change (join Cfg.SEP [old; new]) with (old ++ (Cfg.SEP ++ new))%string.
        apply prefix_app.
      * intros Ho.
        change (join Cfg.SEP [old; new]) with (old ++ (Cfg.SEP ++ new))%string.
        apply truthy_app. exact Ho.
  - repeat split; auto using prefix_refl. discriminate.
Qed.

(** What [insert_ip] leaves under its own key, when it accepts the call. *)
Lemma insert_ip_result (d : ip_dict) ip desc as_ org cc :
  (is_Some (d !! ip) \/ (truthy org && re_ipv4_match ip = true)) ->
  exists r',
    (insert_ip d ip desc as_ org cc).1 !! ip = Some r'
    /\ (truthy as_ = true -> str_in as_ (e_as r') = true)
    /\ (truthy cc = true -> str_in cc (e_cc r') = true)
    /\ (truthy org = true -> str_in org (e_org r') = true)
    /\ (truthy (strip desc) = true -> str_in (strip desc) (e_desc r') = true).
Proof.
  intros H. unfold insert_ip.
  destruct (d !! ip) as [[a c o ds]|] eqn:E.
  - cbn [fst]. rewrite lookup_insert_eq. eexists. split; [reflexivity|].
    cbn [e_as e_cc e_org e_desc].
    pose proof (merge_opt_stable as_ a) as (_ & Ha & _).
    pose proof (merge_opt_stable cc c) as (_ & Hc & _).
    pose proof (merge_req_stable org o) as (_ & Ho & _).
    pose proof (merge_req_stable (strip desc) ds) as (_ & Hd & _).
    cbv zeta in Ha, Hc, Ho, Hd. auto.
  - destruct H as [[x Hx]|H]; [discriminate|]. rewrite H. cbn [negb fst].
    rewrite lookup_insert_eq. eexists. split; [reflexivity|].
    cbn [e_as e_cc e_org e_desc]. auto using str_in_refl.
Qed.

(** [insert_ip] keeps every record and only extends its fields. *)
Lemma insert_ip_keeps (d : ip_dict) ip desc as_ org cc k r :
  d !! k = Some r ->
  exists r',
    (insert_ip d ip desc as_ org cc).1 !! k = Some r'
    /\ String.prefix (e_as r) (e_as r') = true
    /\ String.prefix (e_cc r) (e_cc r') = true
    /\ String.prefix (e_org r) (e_org r') = true
    /\ String.prefix (e_desc r) (e_desc r') = true
    /\ (truthy (e_org r) = true -> truthy (e_org r') = true).
Proof.
  intros Hk. destruct (String.eqb_spec k ip) as [->|Hne].
  - unfold insert_ip. rewrite Hk. destruct r as [a c o ds]. cbn [fst].
    rewrite lookup_insert_eq. eexists. split; [reflexivity|].
    cbn [e_as e_cc e_org e_desc].
    pose proof (merge_opt_stable as_ a) as (_ & _ & Ha).
    pose proof (merge_opt_stable cc c) as (_ & _ & Hc).
    pose proof (merge_req_stable org o) as (_ & _ & Ho & Ht).
    pose proof (merge_req_stable (strip desc) ds) as (_ & _ & Hd & _).
    cbv zeta in Ha, Hc, Ho, Hd, Ht. auto 10.
  - rewrite insert_ip_other by exact Hne. exists r.
    rewrite !prefix_refl. auto 10.
Qed.

(** Every record has a source tag and a key that [re_ipv4] matches. *)
Lemma insert_ip_sourced (d : ip_dict) ip desc as_ org cc :
  map_Forall (fun k e => truthy (e_org e) = true /\ re_ipv4_match k = true) d ->
  map_Forall (fun k e => truthy (e_org e) = true /\ re_ipv4_match k = true)
             (insert_ip d ip desc as_ org cc).1.
Proof.
  intros Hd k e Hk.
  destruct (String.eqb_spec k ip) as [->|Hne].
  - unfold insert_ip in Hk.
    destruct (d !! ip) as [[a c o ds]|] eqn:E.
    + cbn [fst] in Hk. rewrite lookup_insert_eq in Hk. inversion Hk. subst e.
      destruct (Hd ip _ E) as [Ho Hm]. cbn [e_org] in *. split; [|exact Hm].
      pose proof (merge_req_stable org o) as (_ & _ & _ & Ht).
      cbv zeta in Ht. auto.
    + destruct (truthy org && re_ipv4_match ip) eqn:Hok; cbn [negb fst] in Hk.
      * rewrite lookup_insert_eq in Hk. inversion Hk. subst e.
        apply andb_true_iff in Hok. exact Hok.
      * congruence.
  - rewrite insert_ip_other in Hk by exact Hne. exact (Hd k e Hk).
Qed.

End MergeFacts.

Section RegistryMore.
Import PyStr Re IpDict.
Variable debug : Z.
Variable W : Type.
Variable dns_lookup_fn : string -> bool -> string -> string -> W -> W.
Variable urlparse : string -> result (string * string).

(** X1. Merge idempotence: a call of [insert_ip] repeated with the same
    arguments changes nothing the second time, whatever the dictionary and
    the arguments. *)
Theorem insert_ip_idempotent (d : ip_dict) (ip desc as_ org cc : string) :
  (insert_ip (insert_ip d ip desc as_ org cc).1 ip desc as_ org cc).1
  = (insert_ip d ip desc as_ org cc).1.
Proof.
  unfold insert_ip at 2 3.
  destruct (d !! ip) as [[a c o ds]|] eqn:E.
  - cbn [fst]. unfold insert_ip. rewrite lookup_insert_eq.
    pose proof (merge_opt_stable as_ a) as [Ha _].
    pose proof (merge_opt_stable cc c) as [Hc _].
    pose proof (merge_req_stable org o) as [Ho _].
    pose proof (merge_req_stable (strip desc) ds) as [Hd _].
    cbv zeta in Ha, Hc, Ho, Hd. rewrite Ha, Hc, Ho, Hd.
    cbn [fst]. apply insert_insert_eq.
  - destruct (truthy org && re_ipv4_match ip) eqn:Hok; cbn [negb fst].
    + unfold insert_ip. rewrite lookup_insert_eq.
      apply andb_true_iff in Hok as [Ho _].
      rewrite Ho, !str_in_refl. cbn [negb].
      destruct (truthy as_) eqn:Ha, (truthy cc) eqn:Hc,
        (truthy (strip desc)) eqn:Hd; cbn [negb fst];
        apply insert_insert_eq.
    + unfold insert_ip. rewrite E, Hok. reflexivity.
Qed.

(** X2. Every record has a source tag and a key accepted by [re_ipv4]:
    when this holds of a dictionary, it holds after [insert_ip], after
    [updt_whois] and after [insert_blklst_line], for all their arguments.
    It holds of the empty dictionary, so whois data alone never creates a
    record. *)
Theorem registry_sourced (d : ip_dict) :
  map_Forall (fun k e => truthy (e_org e) = true /\ re_ipv4_match k = true) d ->
  (forall ip desc as_ org cc,
      map_Forall (fun k e => truthy (e_org e) = true /\ re_ipv4_match k = true)
                 (insert_ip d ip desc as_ org cc).1)
  /\ (forall line,
         map_Forall (fun k e => truthy (e_org e) = true
                                /\ re_ipv4_match k = true)
                    (updt_whois debug d line).1)
  /\ (forall w line myorg,
         map_Forall (fun k e => truthy (e_org e) = true
                                /\ re_ipv4_match k = true)
                    (p_dict W (insert_blklst_line debug W dns_lookup_fn
                                 urlparse d w line myorg))).
Proof.
  intros Hd. split; [|split].
  - intros. apply insert_ip_sourced. exact Hd.
  - intros line. unfold updt_whois.
    destruct (split_max "|" 3 "" (strip line))
      as [|myas [|myip [|mycc [|mydesc [|x rest]]]]]; try exact Hd.
    destruct (d !! strip myip); [|exact Hd].
    pose proof (insert_ip_sourced d (strip myip) (strip mydesc) (strip myas)
                  "" (strip mycc) Hd) as H.
    destruct (insert_ip d (strip myip) (strip mydesc) (strip myas) ""
                (strip mycc)) as [d' l]. exact H.
  - intros w line myorg.
    destruct (insert_blklst_line_cases debug W dns_lookup_fn urlparse d w
                line myorg) as [(myip & mydesc & -> & _)|[(myip & mydesc & -> & _)|[-> _]]];
      try exact Hd.
    apply insert_ip_sourced. exact Hd.
Qed.

(** X3. Nothing is ever removed or replaced: a record present before a
    call of [insert_ip], [updt_whois] or [insert_blklst_line] is present
    after it, and each of its four fields starts with what it held. *)
Theorem registry_only_grows (d : ip_dict) (k : string) (r : elt) :
  d !! k = Some r ->
  (forall ip desc as_ org cc,
      exists r', (insert_ip d ip desc as_ org cc).1 !! k = Some r'
                 /\ String.prefix (e_as r) (e_as r') = true
                 /\ String.prefix (e_cc r) (e_cc r') = true
                 /\ String.prefix (e_org r) (e_org r') = true
                 /\ String.prefix (e_desc r) (e_desc r') = true)
  /\ (forall line,
         exists r', (updt_whois debug d line).1 !! k = Some r'
                    /\ String.prefix (e_as r) (e_as r') = true
                    /\ String.prefix (e_cc r) (e_cc r') = true
                    /\ String.prefix (e_org r) (e_org r') = true
                    /\ String.prefix (e_desc r) (e_desc r') = true)
  /\ (forall w line myorg,
         exists r',
           p_dict W (insert_blklst_line debug W dns_lookup_fn urlparse
                       d w line myorg) !! k = Some r'
           /\ String.prefix (e_as r) (e_as r') = true
           /\ String.prefix (e_cc r) (e_cc r') = true
           /\ String.prefix (e_org r) (e_org r') = true
           /\ String.prefix (e_desc r) (e_desc r') = true).
Proof.
  intros Hk.
  assert (Hsame : exists r', d !! k = Some r'
                    /\ String.prefix (e_as r) (e_as r') = true
                    /\ String.prefix (e_cc r) (e_cc r') = true
                    /\ String.prefix (e_org r) (e_org r') = true
                    /\ String.prefix (e_desc r) (e_desc r') = true).
  { exists r. rewrite !prefix_refl. auto. }
  assert (Hins : forall ip desc as_ org cc,
      exists r', (insert_ip d ip desc as_ org cc).1 !! k = Some r'
                 /\ String.prefix (e_as r) (e_as r') = true
                 /\ String.prefix (e_cc r) (e_cc r') = true
                 /\ String.prefix (e_org r) (e_org r') = true
                 /\ String.prefix (e_desc r) (e_desc r') = true).
  { intros.
    destruct (insert_ip_keeps d ip desc as_ org cc k r Hk)
      as (r' & H1 & H2 & H3 & H4 & H5 & _).
    exists r'. auto. }
  split; [exact Hins|split].
  - intros line. unfold updt_whois.
    destruct (split_max "|" 3 "" (strip line))
      as [|myas [|myip [|mycc [|mydesc [|x rest]]]]]; try exact Hsame.
    destruct (d !! strip myip); [|exact Hsame].
    pose proof (Hins (strip myip) (strip mydesc) (strip myas) ""
                  (strip mycc)) as H.
    destruct (insert_ip d (strip myip) (strip mydesc) (strip myas) ""
                (strip mycc)) as [d' l]. exact H.
  - intros w line myorg.
    destruct (insert_blklst_line_cases debug W dns_lookup_fn urlparse d w
                line myorg) as [(myip & mydesc & -> & _)|[(myip & mydesc & -> & _)|[-> _]]];
      try exact Hsame.
    apply Hins.
Qed.

(** X4. Insert, then enumerate: after a call of [insert_ip] that is not
    rejected (the address is already a key, or [org] is given and the
    address passes [re_ipv4]), [list_grp] filtered by the [as_], [org] and
    [cc] of that call yields the address. *)
Theorem insert_ip_then_list_grp (d : ip_dict) (ip desc as_ org cc : string) :
  (is_Some (d !! ip) \/ (truthy org && re_ipv4_match ip = true)) ->
  exists r',
    In (ip, r') (list_grp (insert_ip d ip desc as_ org cc).1 as_ org cc).
Proof.
  intros H.
  destruct (insert_ip_result d ip desc as_ org cc H)
    as (r' & Hr & Ha & Hc & Ho & _).
  exists r'. apply list_grp_spec. auto.
Qed.

(** X5. Whois merge, then enumerate: when a whois line has four fields and
    names an address that is a key, [list_grp] filtered by the trimmed ASN
    and country code of the line yields that address afterwards. *)
Theorem updt_whois_then_list_grp (d : ip_dict) line myas myip mycc mydesc :
  split_max "|" 3 "" (strip line) = [myas; myip; mycc; mydesc] ->
  is_Some (d !! strip myip) ->
  exists r',
    In (strip myip, r')
       (list_grp (updt_whois debug d line).1 (strip myas) "" (strip mycc)).
Proof.
  intros Hs Hk.
  rewrite (updt_whois_known debug d line myas myip mycc mydesc Hs Hk).
  destruct (insert_ip_result d (strip myip) (strip mydesc) (strip myas) ""
              (strip mycc) (or_introl Hk)) as (r' & Hr & Ha & Hc & _).
  exists r'. apply list_grp_spec. repeat split; auto. discriminate.
Qed.

End RegistryMore.

Lemma registry_sourced_witness :
  map_Forall (fun k e => PyStr.truthy (IpDict.e_org e) = true
                         /\ Re.re_ipv4_match k = true)
             (IpDict.updt_whois 0 Examples.registry64500
                "701 | 198.51.100.9 | CA | ExampleNet").1
  /\ map_Forall (fun k e => PyStr.truthy (IpDict.e_org e) = true
                            /\ Re.re_ipv4_match k = true)
                (IpDict.insert_ip Examples.registry64500
                   "10.0.0.9" "scanner" "" "openbl" "").1
  /\ (IpDict.updt_whois 0 Examples.registry64500
        "701 | 198.51.100.9 | CA | ExampleNet").1 !! "198.51.100.9"
     = Some (IpDict.mkElt "64500 | 701" "US | CA" "dshield"
               "scanner | ExampleNet")
  /\ (IpDict.insert_ip Examples.registry64500
        "10.0.0.9" "scanner" "" "openbl" "").1 !! "10.0.0.9"
     = Some (IpDict.mkElt "" "" "openbl" "scanner").
Proof.
  destruct (registry_sourced 0 unit (fun _ _ _ _ w => w)
              (fun _ => Raised ValueError) Examples.registry64500)
    as (H1 & H2 & _).
  { apply map_Forall_singleton. split; reflexivity. }
  split; [apply H2|]. split; [apply H1|].
  split; vm_compute; reflexivity.
Defined.

Lemma registry_only_grows_witness :
  exists r',
    (IpDict.insert_ip Examples.registry1234 "10.0.0.1" "again" "5678" "openbl" "US").1
      !! "10.0.0.1" = Some r'
    /\ String.prefix "1234" (IpDict.e_as r') = true
    /\ String.prefix "CA" (IpDict.e_cc r') = true
    /\ String.prefix "dshield" (IpDict.e_org r') = true
    /\ String.prefix "scanner" (IpDict.e_desc r') = true.
Proof.
  apply (proj1 (registry_only_grows 0 unit (fun _ _ _ _ w => w)
                  (fun _ => Raised ValueError) Examples.registry1234 "10.0.0.1"
                  (IpDict.mkElt "1234" "CA" "dshield" "scanner") eq_refl)).
Defined.

Lemma insert_ip_then_list_grp_witness :
  exists r',
    In ("10.0.0.9", r')
       (IpDict.list_grp (IpDict.insert_ip ∅ "10.0.0.9" "x" "64500" "dshield" "CA").1
                 "64500" "dshield" "CA").
Proof.
  apply (insert_ip_then_list_grp ∅ "10.0.0.9" "x" "64500" "dshield" "CA").
  right. vm_compute. reflexivity.
Defined.

Lemma updt_whois_then_list_grp_witness :
  exists r',
    In ("198.51.100.9", r')
       (IpDict.list_grp (IpDict.updt_whois 0 Examples.registry64500
                    "701 | 198.51.100.9 | CA | ExampleNet").1 "701" "" "CA").
Proof.
  apply (updt_whois_then_list_grp 0 Examples.registry64500
           "701 | 198.51.100.9 | CA | ExampleNet"
           "701 " " 198.51.100.9 " " CA " " ExampleNet").
  - vm_compute. reflexivity.
  - vm_compute. eexists. reflexivity.
Defined.

(** ** Rotation of the route servers, whois request and final report *)

Section OrchestratorMore.
Import BlkTree IpDict State Rteserv WkMsg Main Report.
Context {ipv6 : IPAddr.IPv6Parser}.

(** X6. Round robin: with a list of route servers that is not empty and a
    pointer between -1 and the last index, [get_next_rte_srv] does not
    raise, moves the pointer to the next index, wrapping to 0 after the
    last, returns the server at that index, and touches nothing else. *)
Theorem get_next_rte_srv_rotates (c : Cfg.config) (st : BlkState) :
  Cfg.rteserv_list c <> [] ->
  -1 <= my_rte_srv st < Z.of_nat (length (Cfg.rteserv_list c)) ->
  let i := (my_rte_srv st + 1) mod Z.of_nat (length (Cfg.rteserv_list c)) in
  exists h,
    Cfg.rteserv_list c !! Z.to_nat i = Some h
    /\ get_next_rte_srv c st
       = (Returned h, mkState (mytree st) (mydict st) i (ip_prob_cnt st)).
Proof.
  intros Hne Hidx. cbv zeta.
  set (n := Z.of_nat (length (Cfg.rteserv_list c))) in *.
  assert (Hn : 0 < n).
  { subst n. destruct (Cfg.rteserv_list c); [congruence | simpl; lia]. }
  unfold get_next_rte_srv. fold n.
  assert (Hi : (if my_rte_srv st + 1 =? n then 0 else my_rte_srv st + 1)
               = (my_rte_srv st + 1) mod n).
  { destruct (Z.eqb_spec (my_rte_srv st + 1) n) as [E|E].
    - rewrite E. symmetry. apply Z.mod_same. lia.
    - symmetry. apply Z.mod_small. lia. }
  rewrite Hi.
  assert (Hr : 0 <= (my_rte_srv st + 1) mod n < n) by (apply Z.mod_pos_bound; lia).
  destruct (Cfg.rteserv_list c !! Z.to_nat ((my_rte_srv st + 1) mod n))
    as [h|] eqn:E.
  - exists h. split; reflexivity.
  - exfalso. apply lookup_ge_None in E. subst n. lia.
Qed.

Lemma get_next_rte_srv_rotates_witness :
  exists h,
    Cfg.rteserv_list Cfg.default !! Z.to_nat ((2 + 1) mod 3) = Some h
    /\ State.get_next_rte_srv Cfg.default (State.mkState None None 2 0)
       = (Returned h, State.mkState None None ((2 + 1) mod 3) 0).
Proof.
  apply (get_next_rte_srv_rotates Cfg.default (State.mkState None None 2 0)).
  - discriminate.
  - simpl. lia.
Defined.

Lemma request_lines_from (data : string) (ips : list string) :
  fold_left (fun data myip => (data ++ myip ++ " " ++ Cfg.nl)%string) ips data
  = (data ++ Examples.request_lines ips)%string.
Proof.
  unfold Examples.request_lines. revert data.
  induction ips as [|ip ips IH] using rev_ind; intros data.
  - simpl. symmetry. apply append_empty_r.
  - rewrite !fold_left_app. simpl. rewrite IH.
    generalize (fold_left (fun data0 myip =>
                  (data0 ++ myip ++ " " ++ Cfg.nl)%string) ips ""%string).
    intros x. generalize (ip ++ " " ++ Cfg.nl)%string. intros y.
    change ("" ++ x)%string with x.
    induction data as [|ch data IHd]; [reflexivity|].
    change (String ch ((data ++ x) ++ y) = String ch (data ++ (x ++ y))).
    rewrite IHd. reflexivity.
Qed.

(** The loop of [cymru_chk] in closed form: it adds the first hits, up to
    the position where the count passes [cyrmu_max]. *)
Lemma cymru_loop_spec (c : Cfg.config) my_tree (ips : list string) :
  forall n data lg,
    let hits := List.filter
                  (fun myip => bool_decide
                                 (is_Some (blk_check_ip myip my_tree).1)) ips in
    let sent := take (Z.to_nat (Cfg.cyrmu_max c + 1 - n)) hits in
    (cymru_loop c my_tree ips n data lg).1
    = (n + Z.of_nat (length sent),
       fold_left (fun data myip => (data ++ myip ++ " " ++ Cfg.nl)%string)
                 sent data).
Proof.
  induction ips as [|myip rest IH]; intros n data lg; cbv zeta.
  - simpl. rewrite take_nil. simpl. f_equal. lia.
  - cbn [cymru_loop List.filter].
    destruct (blk_check_ip myip my_tree) as [[a|] l] eqn:E; cbn [fst].
    + rewrite bool_decide_eq_true_2 by (eexists; reflexivity).
      destruct (Z.gtb_spec n (Cfg.cyrmu_max c)) as [Hgt|Hle].
      * replace (Z.to_nat (Cfg.cyrmu_max c + 1 - n)) with 0%nat by lia.
        simpl. f_equal. lia.
      * rewrite IH. cbv zeta.
        replace (Z.to_nat (Cfg.cyrmu_max c + 1 - n))
          with (S (Z.to_nat (Cfg.cyrmu_max c + 1 - (n + 1)))) by lia.
        cbn [take length fold_left]. f_equal. lia.
    + rewrite bool_decide_eq_false_2 by (intros [x Hx]; discriminate).
      apply IH.
Qed.

(** X7. The whois request in closed form.  When no DNS lookup is in
    progress and a dictionary is installed, let [sent] be the first
    [cyrmu_max + 1] of the enumerated addresses for which [blk_check_ip]
    finds an ASN.  If [sent] is empty [cymru_chk] reports "No hostile IPs
    found" and starts no whois session; otherwise it hands the whois
    client the first command, one line per address of [sent] in order, and
    the last command. *)
Theorem cymru_chk_request (c : Cfg.config) (wk_serv : WorkerService)
  (bstate : BlkState) (my_dict : ip_dict) :
  lkps_in_progress wk_serv = false ->
  get_dict bstate = Some my_dict ->
  let hits := List.filter
                (fun myip => bool_decide
                               (is_Some (blk_check_ip myip (get_tree bstate)).1))
                (list_all my_dict) in
  let sent := take (Z.to_nat (Cfg.cyrmu_max c + 1)) hits in
  (cymru_chk c wk_serv bstate).1
  = match sent with
    | [] => Returned [SetStatus "No hostile IPs found in ASNs of interest"]
    | _ :: _ =>
        Returned [CymruGetWhois CYMRU_IP CYMRU_PORT
                    (Cfg.CYMRU_CMD_FIRST ++ Examples.request_lines sent
                     ++ Cfg.CYMRU_CMD_LAST)%string]
    end.
Proof.
  intros Hidle Hd. cbv zeta. unfold cymru_chk. rewrite Hidle, Hd.
  pose proof (cymru_loop_spec c (get_tree bstate) (list_all my_dict) 0
                Cfg.CYMRU_CMD_FIRST
                [LogMsg (Cfg.nl ++ "bulk whois lookup is starting now")%string])
    as Hloop.
  cbv zeta in Hloop. rewrite Z.sub_0_r in Hloop.
  destruct (cymru_loop c (get_tree bstate) (list_all my_dict) 0
              Cfg.CYMRU_CMD_FIRST _) as [[n data] lg].
  cbn [fst] in Hloop. inversion Hloop as [[Hn Hdata]]. clear Hloop.
  rewrite request_lines_from.
  destruct (take (Z.to_nat (Cfg.cyrmu_max c + 1)) _) as [|x sent].
  - reflexivity.
  - replace (0 + Z.of_nat (length (x :: sent)) >? 0) with true
      by (symmetry; apply Z.gtb_lt; simpl; lia).
    cbn [fst]. do 3 f_equal.
Qed.

Lemma add_records_truthy (recs : list (string * elt)) :
  forall msg,
    PyStr.truthy (add_records msg recs)
    = PyStr.truthy msg || negb (bool_decide (recs = [])).
Proof.
  unfold add_records.
  induction recs as [|r recs IH]; intros msg; simpl.
  - rewrite orb_false_r. reflexivity.
  - rewrite IH.
    assert (E : PyStr.truthy
                  (msg ++ " " ++ r.1 ++ " " ++ e_as r.2 ++ " " ++ e_cc r.2
                   ++ " " ++ e_org r.2 ++ " " ++ e_desc r.2 ++ " " ++ Cfg.DELIM)
                = true).
    { destruct msg; reflexivity. }
    rewrite E. simpl. rewrite orb_true_r. reflexivity.
Qed.

Lemma status_of_truthy (my_dict : ip_dict) (asns : list string) :
  forall msg,
    PyStr.truthy
      (fold_left (fun msg as_tmp => add_records msg (list_grp my_dict as_tmp "" ""))
                 asns msg)
    = PyStr.truthy msg
      || existsb (fun as_tmp =>
                    negb (bool_decide (list_grp my_dict as_tmp "" "" = []))) asns.
Proof.
  induction asns as [|a asns IH]; intros msg; simpl.
  - rewrite orb_false_r. reflexivity.
  - rewrite IH, add_records_truthy, orb_assoc. reflexivity.
Qed.

(** X8. The final report.  With a dictionary installed, [cymru_done]
    calls [set_status] exactly when [list_grp] yields something for at
    least one monitored ASN; when nothing is listed it does nothing at
    all, so the status of the previous cycle stays in place. *)
Theorem cymru_done_reports (c : Cfg.config) (bstate : BlkState)
  (my_dict : ip_dict) :
  get_dict bstate = Some my_dict ->
  (cymru_done c bstate).1
  = if existsb (fun as_tmp =>
                  negb (bool_decide (list_grp my_dict as_tmp "" "" = [])))
               (Cfg.as_search_list c)
    then Returned [SetStatus (status_of c my_dict)]
    else Returned [].
Proof.
  intros Hd. unfold cymru_done. rewrite Hd.
  pose proof (status_of_truthy my_dict (Cfg.as_search_list c) "") as H.
  simpl in H. fold (status_of c my_dict) in H.
  assert (E : (0 <? String.length (status_of c my_dict))%nat
              = PyStr.truthy (status_of c my_dict)).
  { destruct (status_of c my_dict); reflexivity. }
  rewrite E, H.
  destruct (existsb _ (Cfg.as_search_list c)); reflexivity.
Qed.

Lemma cymru_done_reports_witness :
  (Report.cymru_done Cfg.default Examples.state22).1 = Returned [].
Proof.
  exact (cymru_done_reports Cfg.default Examples.state22 Examples.hostile22
           eq_refl).
Defined.

End OrchestratorMore.

Lemma cymru_chk_request_witness :
  (Main.cymru_chk (H := Examples.ipv6_table) Cfg.default Examples.idle
     (State.mkState (Some Examples.tree10)
        (Some (<["10.0.1.077" := IpDict.mkElt "" "" "dshield" ""]>
                 {["10.1.2.3" := IpDict.mkElt "" "" "dshield" ""]})) 0 0)).1
  = Returned [CymruGetWhois Main.CYMRU_IP Main.CYMRU_PORT
                (Cfg.CYMRU_CMD_FIRST ++ Examples.request_lines ["10.1.2.3"]
                 ++ Cfg.CYMRU_CMD_LAST)%string].
Proof.
  exact (cymru_chk_request (ipv6 := Examples.ipv6_table) Cfg.default
           Examples.idle
           (State.mkState (Some Examples.tree10)
              (Some (<["10.0.1.077" := IpDict.mkElt "" "" "dshield" ""]>
                       {["10.1.2.3" := IpDict.mkElt "" "" "dshield" ""]}))
              0 0)
           (<["10.0.1.077" := IpDict.mkElt "" "" "dshield" ""]>
              {["10.1.2.3" := IpDict.mkElt "" "" "dshield" ""]})
           eq_refl eq_refl).
Defined.

(** ** Exact lookup and the scans of the tree *)

Section TreeMore.
Import IPAddr BlkTree TreeOps.

Lemma net_eq_parts (a b : IPv4Network) :
  net_eq a b = true -> network a = network b /\ netmask a = netmask b.
Proof.
  unfold net_eq. intros H. apply andb_prop in H as [H1 H2].
  split; apply Z.eqb_eq; assumption.
Qed.

Lemma net_eq_refl (a : IPv4Network) : net_eq a a = true.
Proof. unfold net_eq. rewrite !Z.eqb_refl. reflexivity. Qed.

Lemma net_eq_sym (a b : IPv4Network) : net_eq a b = net_eq b a.
Proof. unfold net_eq. rewrite (Z.eqb_sym (network a)), (Z.eqb_sym (netmask a)). reflexivity. Qed.

Lemma net_eq_congr_l (a b c : IPv4Network) :
  net_eq a b = true -> net_eq a c = net_eq b c.
Proof. intros H. apply net_eq_parts in H as [H1 H2]. unfold net_eq. rewrite H1, H2. reflexivity. Qed.

Lemma net_gt_congr_l (a b c : IPv4Network) :
  net_eq a b = true -> net_gt a c = net_gt b c.
Proof. intros H. apply net_eq_parts in H as [H1 H2]. unfold net_gt. rewrite H1, H2. reflexivity. Qed.

Lemma net_gt_congr_r (a b c : IPv4Network) :
  net_eq a b = true -> net_gt c a = net_gt c b.
Proof. intros H. apply net_eq_parts in H as [H1 H2]. unfold net_gt. rewrite H1, H2. reflexivity. Qed.

Lemma net_gt_not_eq (a b : IPv4Network) :
  net_gt a b = true -> net_eq a b = false /\ net_eq b a = false.
Proof.
  intros H. rewrite (net_eq_sym b a).
  destruct (net_eq a b) eqn:E; [|split; reflexivity].
  rewrite (net_gt_congr_l a b b E), net_gt_irrefl in H. discriminate.
Qed.

Lemma find_binding_app (xs ys : list (IPv4Network * string)) q :
  find_binding (xs ++ ys) q
  = match find_binding xs q with
    | Some w => Some w
    | None => find_binding ys q
    end.
Proof.
  induction xs as [|[a v] xs IH]; simpl; [reflexivity|].
  destruct (net_eq a q); [reflexivity | exact IH].
Qed.

Lemma find_binding_none (xs : list (IPv4Network * string)) q :
  Forall (fun a => net_eq a q = false) (map fst xs) ->
  find_binding xs q = None.
Proof.
  induction xs as [|[a v] xs IH]; simpl; [reflexivity|].
  intros H. apply List.Forall_cons_iff in H as [Ha H].
  simpl in Ha. rewrite Ha. apply IH, H.
Qed.

Lemma find_binding_some (xs : list (IPv4Network * string)) q w :
  find_binding xs q = Some w ->
  exists a, In (a, w) xs /\ net_eq a q = true.
Proof.
  induction xs as [|[a v] xs IH]; simpl; [discriminate|].
  destruct (net_eq a q) eqn:E.
  - intros [= ->]. exists a. auto.
  - intros H. destruct (IH H) as (b & Hb & Eb). exists b. auto.
Qed.

(** Below a key that is less than [q] nothing equals [q]; likewise above
    a key that is greater. *)
Lemma below_none (t : bbsnode) key q :
  Forall (fun a => net_gt key a = true) (keys t) ->
  net_gt q key = true \/ net_eq key q = true ->
  find_binding (bindings t) q = None.
Proof.
  intros HF Hq. apply find_binding_none. fold (keys t).
  eapply List.Forall_impl; [|exact HF]. cbv beta. intros a Ha.
  assert (Hqa : net_gt q a = true).
  { destruct Hq as [Hq|Hq].
    - eapply net_gt_trans; eassumption.
    - rewrite <- (net_gt_congr_l key q a Hq). exact Ha. }
  apply net_gt_not_eq in Hqa. tauto.
Qed.

Lemma above_none (t : bbsnode) key q :
  Forall (fun a => net_gt a key = true) (keys t) ->
  net_gt key q = true \/ net_eq key q = true ->
  find_binding (bindings t) q = None.
Proof.
  intros HF Hq. apply find_binding_none. fold (keys t).
  eapply List.Forall_impl; [|exact HF]. cbv beta. intros a Ha.
  assert (Haq : net_gt a q = true).
  { destruct Hq as [Hq|Hq].
    - eapply net_gt_trans; eassumption.
    - rewrite <- (net_gt_congr_r key q a Hq). exact Ha. }
  apply net_gt_not_eq in Haq. tauto.
Qed.

(** On a search tree the descent of [__lookup] finds the binding of the
    in-order list. *)
Lemma lookup_rec_spec (t : bbsnode) q :
  bst t ->
  (__lookup t q ≫= value_of) = find_binding (bindings t) q.
Proof.
  induction t as [|lv key val l IHl r IHr]; [reflexivity|].
  intros (Hl & Hr & Fl & Fr).
  cbn [__lookup bindings]. rewrite find_binding_app. cbn [find_binding].
  destruct (net_eq key q) eqn:Heq.
  - rewrite (below_none l key q Fl) by auto. reflexivity.
  - destruct (net_gt q key) eqn:Hgt.
    + rewrite (below_none l key q Fl) by auto.
      destruct r as [|rlv rk rval rl rr]; [reflexivity|]. apply IHr, Hr.
    + assert (Hlt : net_gt key q = true).
      { apply net_gt_total; [|exact Hgt]. rewrite net_eq_sym. exact Heq. }
      rewrite (above_none r key q Fr) by auto.
      destruct l as [|llv lk lval ll lr]; [reflexivity|].
      specialize (IHl Hl). rewrite IHl.
      destruct (find_binding (bindings (Node llv lk lval ll lr)) q);
        reflexivity.
Qed.

Lemma lookup_rec_key (t : bbsnode) q n :
  __lookup t q = Some n ->
  exists key, key_of n = Some key /\ net_eq key q = true.
Proof.
  induction t as [|lv key val l IHl r IHr]; [discriminate|].
  cbn [__lookup]. destruct (net_eq key q) eqn:Heq.
  - intros [= <-]. exists key. auto.
  - destruct (net_gt q key).
    + destruct r; [discriminate | exact IHr].
    + destruct l; [discriminate | exact IHl].
Qed.

(** [__insert] replaces the value under an equal key and adds the pair
    otherwise. *)
Lemma find_binding_insert_rec (t : bbsnode) k v q :
  is_nil t = false -> bst t ->
  find_binding (bindings (__insert t k v)) q
  = if net_eq k q then Some v else find_binding (bindings t) q.
Proof.
  induction t as [|lv key val l IHl r IHr]; [discriminate|].
  intros _ (Hl & Hr & Fl & Fr). cbn [__insert].
  destruct (net_eq k key) eqn:Heq.
  - cbn [bindings]. rewrite !find_binding_app. cbn [find_binding].
    rewrite <- (net_eq_congr_l k key q Heq).
    destruct (net_eq k q) eqn:Hkq; [|reflexivity].
    rewrite (below_none l key q Fl); [reflexivity|].
    right. rewrite <- (net_eq_congr_l k key q Heq). exact Hkq.
  - destruct (net_gt k key) eqn:Hgt.
    + assert (Hq : net_eq k q = true ->
                   find_binding (bindings l) q = None /\ net_eq key q = false).
      { intros Hkq. split.
        - apply (below_none l key q Fl). left.
          rewrite <- (net_gt_congr_l k q key Hkq). exact Hgt.
        - rewrite net_eq_sym, <- (net_eq_congr_l k q key Hkq). exact Heq. }
      destruct r as [|rlv rk rval rl rr].
      * cbn [bindings app]. rewrite !find_binding_app. cbn [find_binding].
        destruct (net_eq k q) eqn:Hkq.
        -- destruct (Hq eq_refl) as [-> ->]. reflexivity.
        -- reflexivity.
      * specialize (IHr eq_refl Hr). cbv iota.
        remember (Node rlv rk rval rl rr) as r0.
        cbn [bindings]. rewrite bindings_rebalance, !find_binding_app.
        cbn [find_binding]. rewrite IHr.
        destruct (net_eq k q) eqn:Hkq.
        -- destruct (Hq eq_refl) as [-> ->]. reflexivity.
        -- reflexivity.
    + destruct l as [|llv lk lval ll lr].
      * cbn [bindings app find_binding]. reflexivity.
      * specialize (IHl eq_refl Hl). cbv iota.
        remember (Node llv lk lval ll lr) as l0.
        cbn [bindings]. rewrite bindings_rebalance, !find_binding_app.
        rewrite IHl.
        destruct (net_eq k q); reflexivity.
Qed.

Lemma find_binding_insert (t : bbstree) k v q :
  bst (root t) ->
  find_binding (bindings (root (insert t k v))) q
  = if net_eq k q then Some v else find_binding (bindings (root t)) q.
Proof.
  intros H. unfold insert. destruct (is_nil (root t)) eqn:Hnil; cbn [negb root].
  - destruct (root t); [|discriminate]. reflexivity.
  - rewrite bindings_rebalance. apply find_binding_insert_rec; assumption.
Qed.

Lemma fold_insert_bst (ins : list (IPv4Network * string)) :
  forall t, bst (root t) ->
    bst (root (fold_left (fun t kv => insert t (fst kv) (snd kv)) ins t)).
Proof.
  induction ins as [|[a v] ins IH]; intros t H; simpl; [exact H|].
  apply IH, bst_insert, H.
Qed.

Lemma fold_insert_find (ins : list (IPv4Network * string)) q :
  forall t, bst (root t) ->
    find_binding
      (bindings (root (fold_left (fun t kv => insert t (fst kv) (snd kv)) ins t)))
      q
    = match latest ins q with
      | Some w => Some w
      | None => find_binding (bindings (root t)) q
      end.
Proof.
  induction ins as [|[a v] ins IH]; intros t H; cbn [fold_left latest fst snd].
  - reflexivity.
  - rewrite IH by (apply bst_insert, H).
    rewrite find_binding_insert by exact H.
    destruct (latest ins q); [reflexivity|].
    destruct (net_eq a q); reflexivity.
Qed.

Lemma build_find (ins : list (IPv4Network * string)) q :
  find_binding (bindings (root (build ins))) q = latest ins q.
Proof.
  unfold build. rewrite fold_insert_find by exact I.
  destruct (latest ins q); reflexivity.
Qed.

Lemma build_bst (ins : list (IPv4Network * string)) : bst (root (build ins)).
Proof. apply fold_insert_bst. exact I. Qed.

Lemma walk_length (first : bool) (t : bbsnode) :
  length (walk first t) = size t.
Proof.
  induction t as [|lv key val l IHl r IHr]; [reflexivity|].
  cbn [walk size]. rewrite length_app. cbn [length].
  destruct first; rewrite IHl, IHr; lia.
Qed.

Lemma walk_nodes (t : bbsnode) :
  walk false t = nodes t /\ walk true t = rev (nodes t).
Proof.
  induction t as [|lv key val l [IHl1 IHl2] r [IHr1 IHr2]]; [split; reflexivity|].
  cbn [walk nodes]. rewrite IHl1, IHr1, IHl2, IHr2. split; [reflexivity|].
  rewrite rev_app_distr. cbn [rev]. rewrite <- app_assoc. reflexivity.
Qed.

Lemma pending_app (first : bool) (xs ys : list bbsnode) :
  pending first (xs ++ ys) = (pending first xs ++ pending first ys)%list.
Proof.
  induction xs as [|x xs IH]; [reflexivity|].
  cbn [pending app]. rewrite IH, <- app_assoc. reflexivity.
Qed.

(** The inner loop stops at the end of the [first] spine, with the nodes
    of the spine stacked. *)
Lemma descend_spec (first : bool) (t : bbsnode) :
  is_nil t = false ->
  forall stack, exists t' sp,
    descend first t stack = (t', (sp ++ stack)%list)
    /\ is_nil t' = false
    /\ Forall (fun s => is_nil s = false) sp
    /\ walk first t
       = (t' :: walk first (sub (negb first) t') ++ pending first sp)%list.
Proof.
  induction t as [|lv key val l IHl r IHr]; [discriminate|].
  intros _ stack. cbn [descend].
  destruct first.
  - destruct r as [|rlv rk rval rl rr].
    + exists (Node lv key val l NIL_NODE), []. cbn [app walk pending sub negb sub0_of].
      rewrite app_nil_r. repeat split; constructor.
    + destruct (IHr eq_refl (Node lv key val l (Node rlv rk rval rl rr) :: stack))
        as (t' & sp & Hd & Hn & Hsp & Hw).
      exists t', (sp ++ [Node lv key val l (Node rlv rk rval rl rr)])%list.
      rewrite <- app_assoc. cbn [app]. split; [exact Hd|]. split; [exact Hn|].
      split.
      * apply Forall_app. split; [exact Hsp|]. repeat constructor.
      * remember (Node rlv rk rval rl rr) as r0.
        cbn [walk]. rewrite Hw, pending_app. cbn [pending sub negb sub0_of].
        rewrite app_nil_r. cbn [app]. rewrite <- ?app_assoc. reflexivity.
  - destruct l as [|llv lk lval ll lr].
    + exists (Node lv key val NIL_NODE r), []. cbn [app walk pending sub negb sub1_of].
      rewrite app_nil_r. repeat split; constructor.
    + destruct (IHl eq_refl (Node lv key val (Node llv lk lval ll lr) r :: stack))
        as (t' & sp & Hd & Hn & Hsp & Hw).
      exists t', (sp ++ [Node lv key val (Node llv lk lval ll lr) r])%list.
      rewrite <- app_assoc. cbn [app]. split; [exact Hd|]. split; [exact Hn|].
      split.
      * apply Forall_app. split; [exact Hsp|]. repeat constructor.
      * remember (Node llv lk lval ll lr) as l0.
        cbn [walk]. rewrite Hw, pending_app. cbn [pending sub negb sub1_of].
        rewrite app_nil_r. cbn [app]. rewrite <- ?app_assoc. reflexivity.
Qed.

Lemma scan_loop_spec (first : bool) (fuel : nat) :
  forall t direction ss,
    is_nil t = false ->
    Forall (fun s => is_nil s = false) ss ->
    (length (owed first t direction ss) < fuel)%nat ->
    scan_loop fuel first (negb first) t direction (ss ++ [NIL_NODE])
    = (owed first t direction ss, ScanDone).
Proof.
  induction fuel as [|fuel IH]; intros t direction ss Ht Hss Hlen; [lia|].
  assert (Up : forall t' st,
             is_nil t' = false ->
             Forall (fun s => is_nil s = false) st ->
             (length (owed first t' true st) < S fuel)%nat ->
             (let '(out, e) :=
                if negb (is_nil (sub (negb first) t')) then
                  scan_loop fuel first (negb first) (sub (negb first) t') false
                            (st ++ [NIL_NODE])
                else
                  match (st ++ [NIL_NODE])%list with
                  | top :: stack' =>
                      scan_loop fuel first (negb first) top true stack'
                  | [] => ([], ScanError IndexError)
                  end in
              (t' :: out, e)) = (owed first t' true st, ScanDone)).
  { intros t' st Ht' Hst Hl. unfold owed in Hl |- *. cbn [length app] in Hl.
    destruct (is_nil (sub (negb first) t')) eqn:Hsub; cbn [negb].
    - assert (Hw : walk first (sub (negb first) t') = []).
      { destruct (sub (negb first) t'); [reflexivity | discriminate]. }
      rewrite Hw in Hl |- *. cbn [app] in Hl |- *.
      destruct st as [|s st]; cbn [app].
      + destruct fuel; [cbn [pending length] in Hl; lia|]. reflexivity.
      + apply List.Forall_cons_iff in Hst as [Hs Hst].
        rewrite (IH s true st Hs Hst).
        * unfold owed. reflexivity.
        * unfold owed. cbn [pending length app] in Hl |- *. lia.
    - rewrite (IH (sub (negb first) t') false st Hsub Hst).
      + unfold owed. reflexivity.
      + unfold owed. lia. }
  cbn [scan_loop]. rewrite Ht. destruct direction; cbn [negb].
  - apply Up; assumption.
  - destruct (descend_spec first t Ht (ss ++ [NIL_NODE])%list)
      as (t' & sp & Hd & Hn & Hsp & Hw).
    rewrite Hd, app_assoc.
    assert (E : owed first t false ss = owed first t' true (sp ++ ss)).
    { unfold owed. rewrite Hw, pending_app. cbn [app].
      rewrite <- !app_assoc. reflexivity. }
    rewrite E in Hlen |- *. apply Up; [exact Hn | | exact Hlen].
    apply Forall_app. split; assumption.
Qed.

Lemma scan_spec (first : bool) (t : bbsnode) :
  __scan t first (negb first) = (walk first t, ScanDone).
Proof.
  unfold __scan. destruct (is_nil t) eqn:Hnil.
  - destruct t; [reflexivity | discriminate].
  - change [NIL_NODE] with ([] ++ [NIL_NODE])%list.
    rewrite scan_loop_spec; [| exact Hnil | constructor |].
    + unfold owed. cbn [pending]. rewrite app_nil_r. reflexivity.
    + unfold owed. cbn [pending]. rewrite app_nil_r, walk_length. lia.
Qed.

(** X9. The two generators on any tree.  [forward] yields every node
    once, from left to right, and [reverse] yields the same nodes in the
    opposite order; both leave their loop through the sentinel at the
    bottom of the stack, within one iteration more than the tree has
    nodes, and neither pops an empty stack. *)
Theorem scan_in_order (t : bbstree) :
  forward t = (nodes (root t), ScanDone)
  /\ reverse t = (rev (nodes (root t)), ScanDone).
Proof.
  unfold forward, reverse.
  pose proof (scan_spec false (root t)) as Hf.
  pose proof (scan_spec true (root t)) as Hr.
  cbn [negb] in Hf, Hr. rewrite Hf, Hr.
  destruct (walk_nodes (root t)) as [-> ->]. split; reflexivity.
Qed.

Lemma bst_sorted (t : bbsnode) :
  bst t -> StronglySorted (fun a b => net_gt b a = true) (keys t).
Proof.
  induction t as [|lv key val l IHl r IHr]; [constructor|].
  intros (Hl & Hr & Fl & Fr). rewrite keys_node.
  apply StronglySorted_app. split; [|split].
  - intros a b Ha Hb. rewrite List.Forall_forall in Fl, Fr.
    apply list_elem_of_In in Ha. apply list_elem_of_In in Hb.
    destruct Hb as [<-|Hb]; [apply Fl, Ha|].
    eapply net_gt_trans; [apply Fr, Hb | apply Fl, Ha].
  - apply IHl, Hl.
  - apply StronglySorted_cons. split; [exact Fr | apply IHr, Hr].
Qed.

Lemma keys_of_nodes (t : bbsnode) : omap key_of (nodes t) = keys t.
Proof.
  induction t as [|lv key val l IHl r IHr]; [reflexivity|].
  rewrite keys_node. cbn [nodes]. rewrite omap_app, IHl.
  change (omap key_of (Node lv key val l r :: nodes r))
    with (key :: omap key_of (nodes r)).
  rewrite IHr. reflexivity.
Qed.

Lemma nodes_bindings (t : bbsnode) a v :
  In (a, v) (bindings t)
  <-> exists n, In n (nodes t) /\ key_of n = Some a /\ value_of n = Some v.
Proof.
  induction t as [|lv key val l IHl r IHr].
  - simpl. split; [tauto | intros (n & [] & _)].
  - cbn [bindings nodes]. rewrite in_app_iff. cbn [In]. rewrite IHl, IHr.
    split.
    + intros [(n & Hn & Hk)|[[= <- <-]|(n & Hn & Hk)]].
      * exists n. rewrite in_app_iff. tauto.
      * exists (Node lv key val l r). rewrite in_app_iff. cbn [In]. auto.
      * exists n. rewrite in_app_iff. cbn [In]. tauto.
    + intros (n & Hn & Hk & Hv). apply in_app_iff in Hn.
      destruct Hn as [Hn|[<-|Hn]].
      * left. exists n. auto.
      * right. left. cbn in Hk, Hv. congruence.
      * right. right. exists n. auto.
Qed.

(** On a search tree every binding is the one found under its key. *)
Lemma find_binding_in (t : bbsnode) a v :
  bst t -> In (a, v) (bindings t) -> find_binding (bindings t) a = Some v.
Proof.
  induction t as [|lv key val l IHl r IHr]; [intros _ []|].
  intros (Hl & Hr & Fl & Fr). cbn [bindings]. rewrite in_app_iff.
  rewrite find_binding_app. cbn [In find_binding].
  intros [Hin|[[= <- <-]|Hin]].
  - rewrite (IHl Hl Hin). reflexivity.
  - rewrite (below_none l key key Fl) by (right; apply net_eq_refl).
    rewrite net_eq_refl. reflexivity.
  - assert (Hgt : net_gt a key = true).
    { rewrite List.Forall_forall in Fr. apply Fr, in_keys_bindings.
      exists v. exact Hin. }
    rewrite (below_none l key a Fl) by (left; exact Hgt).
    apply net_gt_not_eq in Hgt as [_ ->]. apply IHr; assumption.
Qed.

Lemma keys_build (ins : list (IPv4Network * string)) a :
  In a (keys (root (build ins))) -> In a (map fst ins).
Proof.
  unfold build.
  assert (H : forall t,
             In a (keys (root (fold_left
                                 (fun t kv => insert t (fst kv) (snd kv)) ins t))) ->
             In a (keys (root t)) \/ In a (map fst ins)).
  { induction ins as [|[k v] ins IH]; intros t; cbn [fold_left map In fst snd].
    - tauto.
    - intros Hin. destruct (IH _ Hin) as [Hk|Hk]; [|tauto].
      apply keys_insert in Hk. destruct Hk as [->|Hk]; tauto. }
  intros Hin. destruct (H empty Hin) as [[]|Hk]. exact Hk.
Qed.

Lemma latest_inserted (ins : list (IPv4Network * string)) k :
  In k (map fst ins) -> exists v, latest ins k = Some v.
Proof.
  induction ins as [|[a v] ins IH]; [intros []|].
  cbn [map In fst latest]. intros Hin.
  destruct (latest ins k) as [w|] eqn:E; [exists w; reflexivity|].
  destruct Hin as [->|Hin].
  - rewrite net_eq_refl. exists v. reflexivity.
  - destruct (IH Hin) as [w Hw]. discriminate.
Qed.

(** X10. The forward scan of a tree built by inserts.  Whatever the
    calls [ins], the keys come out in strictly ascending order; every
    node yielded carries a key that was inserted, with the value of the
    last insert under an equal key; and every inserted key is
    represented by a node with an equal key. *)
Theorem forward_build (ins : list (IPv4Network * string)) :
  let out := (forward (build ins)).1 in
  StronglySorted (fun a b => net_gt b a = true) (omap key_of out)
  /\ (forall n, In n out ->
        exists key v, key_of n = Some key /\ value_of n = Some v
                      /\ In key (map fst ins) /\ latest ins key = Some v)
  /\ (forall k, In k (map fst ins) ->
        exists n key, In n out /\ key_of n = Some key
                      /\ net_eq key k = true /\ value_of n = latest ins k).
Proof.
  cbv zeta. unfold forward.
  pose proof (scan_spec false (root (build ins))) as Hf. cbn [negb] in Hf.
  rewrite Hf. cbn [fst]. destruct (walk_nodes (root (build ins))) as [-> _].
  pose proof (build_bst ins) as Hb.
  split; [|split].
  - rewrite keys_of_nodes. apply bst_sorted, Hb.
  - intros n Hn.
    assert (Hkv : exists key v, key_of n = Some key /\ value_of n = Some v).
    { clear -Hn. induction (root (build ins)) as [|lv key val l IHl r IHr];
        [destruct Hn|].
      cbn [nodes] in Hn. apply in_app_iff in Hn.
      destruct Hn as [Hn|[<-|Hn]]; [auto | | auto].
      exists key, val. split; reflexivity. }
    destruct Hkv as (key & v & Hk & Hv). exists key, v.
    assert (Hin : In (key, v) (bindings (root (build ins)))).
    { apply nodes_bindings. exists n. auto. }
    split; [exact Hk|]. split; [exact Hv|]. split.
    + apply keys_build, in_keys_bindings. exists v. exact Hin.
    + rewrite <- build_find. apply find_binding_in; assumption.
  - intros k Hk. destruct (latest_inserted ins k Hk) as [v Hv].
    pose proof (build_find ins k) as Hfind. rewrite Hv in Hfind.
    apply find_binding_some in Hfind as (a & Ha & Eq).
    apply nodes_bindings in Ha as (n & Hn & Hkey & Hval).
    exists n, a. rewrite Hv. auto.
Qed.

End TreeMore.

(** ** The DNS throttle *)

Section ThrottleFacts.
Import IpDict State WkMsg Throttle.

Lemma count_app {A : Type} (p : A -> bool) (xs ys : list A) :
  count p (xs ++ ys) = count p xs + count p ys.
Proof. unfold count. rewrite List.filter_app, length_app. lia. Qed.

Lemma count_cons {A : Type} (p : A -> bool) (x : A) (xs : list A) :
  count p (x :: xs) = (if p x then 1 else 0) + count p xs.
Proof. unfold count. simpl. destruct (p x); simpl; lia. Qed.

Lemma step_counts (w : WorkerService) (bstate : BlkState) (ev : event) :
  in_range w ->
  let w' := (step (w, bstate) ev).1.1 in
  let calls := (step (w, bstate) ev).2 in
  in_range w' /\ max_x w' = max_x w
  /\ num_x w + count is_fired calls - (if is_completion ev then 1 else 0)
     <= num_x w'
  /\ num_wait w + count is_deferred calls - (if is_retry ev then 1 else 0)
     <= num_wait w'
  /\ Forall (fun c => match c with
                      | DeferLater secs _ _ _ =>
                          secs = 1 + num_wait w' / max_x w'
                      | GetHostByName _ _ _ => num_x w < max_x w
                      | ZeroDivisionError => max_x w = 0
                      end) calls.
Proof.
  intros [Hx Hw]. cbv zeta. destruct ev as [name flag mydesc myorg|answer name mydesc myorg|];
    unfold step, in_range; cbn [fst snd].
  - unfold do_lookup.
    destruct (Z.ltb_spec (num_x w) (max_x w)) as [Hlt|Hge].
    + cbn [fst snd max_x num_x num_wait]. rewrite count_cons.
      cbn [is_fired is_deferred is_completion is_retry]. unfold count. cbn.
      destruct flag; repeat split; try lia; repeat constructor; lia.
    + destruct (Z.eqb_spec (max_x w) 0) as [Hz|Hnz];
        cbn [fst snd max_x num_x num_wait]; rewrite !count_cons;
        cbn [is_fired is_deferred is_completion is_retry]; unfold count; cbn.
      * destruct flag; repeat split; try lia; repeat constructor; lia.
      * assert (Hdiv : forall n, (max_x w + n) / max_x w = 1 + n / max_x w).
        { intros n. replace (max_x w + n) with (n + 1 * max_x w) by lia.
          rewrite Z.div_add by exact Hnz. lia. }
        destruct flag; repeat split; try lia; repeat constructor; apply Hdiv.
  - unfold lookup_done. destruct (get_dict bstate) as [d|].
    + destruct (insert_ip d answer _ "" myorg "") as [d' l].
      cbn [fst snd max_x num_x num_wait is_completion is_retry].
      unfold count. cbn. repeat split; try lia. constructor.
    + cbn [fst snd max_x num_x num_wait is_completion is_retry].
      unfold count. cbn. repeat split; try lia. constructor.
  - unfold lookup_err.
    cbn [fst snd max_x num_x num_wait is_completion is_retry].
    unfold count. cbn. repeat split; try lia. constructor.
Qed.

Lemma run_counts (evs : list event) :
  forall (w : WorkerService) (bstate : BlkState),
    in_range w ->
    let w' := (run (w, bstate) evs).1.1 in
    let calls := (run (w, bstate) evs).2 in
    in_range w' /\ max_x w' = max_x w
    /\ num_x w + count is_fired calls - count is_completion evs <= num_x w'
    /\ num_wait w + count is_deferred calls - count is_retry evs
       <= num_wait w'
    /\ Forall (fun c => match c with
                        | DeferLater secs _ _ _ => 1 <= secs
                        | GetHostByName _ _ _ => True
                        | ZeroDivisionError => max_x w = 0
                        end) calls.
Proof.
  induction evs as [|ev evs IH]; intros w bstate Hin; cbv zeta.
  - cbn [run fst snd]. unfold count. cbn. repeat split; try apply Hin; try lia.
    constructor.
  - cbn [run].
    pose proof (step_counts w bstate ev Hin) as Hs. cbv zeta in Hs.
    destruct (step (w, bstate) ev) as [[w1 b1] calls1].
    cbn [fst snd] in Hs. destruct Hs as (Hin1 & Hm1 & Hx1 & Hw1 & Hc1).
    specialize (IH w1 b1 Hin1). cbv zeta in IH.
    destruct (run (w1, b1) evs) as [[w2 b2] calls2].
    cbn [fst snd] in IH |- *. destruct IH as (Hin2 & Hm2 & Hx2 & Hw2 & Hc2).
    rewrite !count_app, !count_cons.
    split; [exact Hin2|]. split; [congruence|].
    split; [lia|]. split; [lia|].
    apply Forall_app. split.
    + eapply List.Forall_impl; [|exact Hc1]. intros [name d o|secs name d o|];
        cbv beta iota; [tauto | | tauto].
      intros ->. destruct Hin1 as [Hx Hw].
      destruct (Z.eq_dec (max_x w1) 0) as [E|E].
      * rewrite E, Z.div_0_r. lia.
      * assert (0 <= num_wait w1 / max_x w1)
          by (apply Z.div_pos; lia). lia.
    + eapply List.Forall_impl; [|exact Hc2]. intros [name d o|secs name d o|];
        cbv beta iota; [tauto | tauto | congruence].
Qed.

(** X11. The limit on simultaneous DNS lookups.  Over any sequence of
    calls of [do_lookup], [lookup_done] and [lookup_err] on a service
    whose counters are in range, [max_x] never changes and the counters
    stay in range, so the lookups handed to the resolver and not yet
    answered never exceed [max_x]; every deferral waits one second or
    more, and the division by [max_x] raises only when [max_x] is 0. *)
Theorem throttle_limit (w : WorkerService) (bstate : BlkState)
  (evs : list event) :
  0 <= num_x w <= max_x w -> 0 <= num_wait w ->
  let w' := (run (w, bstate) evs).1.1 in
  let calls := (run (w, bstate) evs).2 in
  max_x w' = max_x w
  /\ 0 <= num_x w' <= max_x w /\ 0 <= num_wait w'
  /\ num_x w + count is_fired calls - count is_completion evs <= max_x w
  /\ Forall (fun c => match c with
                      | DeferLater secs _ _ _ => 1 <= secs
                      | GetHostByName _ _ _ => True
                      | ZeroDivisionError => max_x w = 0
                      end) calls.
Proof.
  intros Hx Hw. cbv zeta.
  pose proof (run_counts evs w bstate (conj Hx Hw)) as H. cbv zeta in H.
  destruct H as ([Hx' Hw'] & Hm & Hf & Hd & Hc).
  rewrite Hm in Hx'. repeat split; try lia; assumption.
Qed.

(** X12. What "no lookups in progress" means.  On a service that starts
    with both counters at 0, when [lkps_in_progress] answers [False]
    after any sequence of calls, every lookup handed to the resolver has
    had its callback and every deferred request has come back. *)
Theorem lkps_in_progress_sound (w : WorkerService) (bstate : BlkState)
  (evs : list event) :
  num_x w = 0 -> num_wait w = 0 -> 0 <= max_x w ->
  let w' := (run (w, bstate) evs).1.1 in
  let calls := (run (w, bstate) evs).2 in
  lkps_in_progress w' = false ->
  count is_fired calls <= count is_completion evs
  /\ count is_deferred calls <= count is_retry evs.
Proof.
  intros Hx Hw Hm. cbv zeta.
  assert (Hin : in_range w) by (unfold in_range; lia).
  pose proof (run_counts evs w bstate Hin) as H. cbv zeta in H.
  destruct H as ([Hx' Hw'] & _ & Hf & Hd & _).
  unfold lkps_in_progress. intros Hidle.
  apply orb_false_elim in Hidle as [H1 H2].
  rewrite Z.gtb_ltb in H1, H2. apply Z.ltb_ge in H1, H2. lia.
Qed.

End ThrottleFacts.

Lemma throttle_limit_witness :
  let w := WkMsg.mkWorker 1 0 0 in
  let evs := [Throttle.Lookup "a.example" false "" "dshield";
              Throttle.Lookup "b.example" false "" "dshield";
              Throttle.Failure] in
  let w' := (Throttle.run (w, State.init) evs).1.1 in
  let calls := (Throttle.run (w, State.init) evs).2 in
  WkMsg.max_x w' = 1
  /\ 0 <= WkMsg.num_x w' <= 1 /\ 0 <= WkMsg.num_wait w'
  /\ 0 + Throttle.count Throttle.is_fired calls
     - Throttle.count Throttle.is_completion evs <= 1
  /\ Forall (fun c => match c with
                      | Throttle.DeferLater secs _ _ _ => 1 <= secs
                      | Throttle.GetHostByName _ _ _ => True
                      | Throttle.ZeroDivisionError => 1 = 0
                      end) calls.
Proof.
  apply (throttle_limit (WkMsg.mkWorker 1 0 0) State.init); simpl; lia.
Defined.

Lemma lkps_in_progress_sound_witness :
  let w := WkMsg.mkWorker 1 0 0 in
  let evs := [Throttle.Lookup "a.example" false "" "dshield";
              Throttle.Lookup "b.example" false "" "dshield";
              Throttle.Failure;
              Throttle.Lookup "b.example" true "" "dshield";
              Throttle.Failure] in
  let calls := (Throttle.run (w, State.init) evs).2 in
  Throttle.count Throttle.is_fired calls
  <= Throttle.count Throttle.is_completion evs
  /\ Throttle.count Throttle.is_deferred calls
     <= Throttle.count Throttle.is_retry evs.
Proof.
  apply (lkps_in_progress_sound (WkMsg.mkWorker 1 0 0) State.init);
    [reflexivity | reflexivity | simpl; lia | reflexivity].
Defined.

(** ** The status message in pieces *)

Section StatBotFacts.
Import PyStr PyLines StatBot.

Lemma mapM_range (lines : list string) (i j : Z) :
  0 <= i -> j <= Z.of_nat (length lines) ->
  mapM (py_index lines) (range i j)
  = Some (take (Z.to_nat (j - i)) (drop (Z.to_nat i) lines)).
Proof.
  intros Hi Hj. apply mapM_Some_2. unfold range.
  apply Forall2_same_length_lookup_2.
  - rewrite length_map, length_seq, length_take, length_drop. lia.
  - intros t x y Hx Hy. rewrite list_lookup_fmap in Hx.
    destruct (seq 0 (Z.to_nat (j - i)) !! t) as [k|] eqn:Hk; [|discriminate].
    apply lookup_seq in Hk as [-> Ht]. cbn in Hx. injection Hx as <-.
    apply lookup_take_Some in Hy as [Hy _]. rewrite lookup_drop in Hy.
    unfold py_index.
    assert (H1 : ((0 <=? i + Z.of_nat t)
                  && (i + Z.of_nat t <? Z.of_nat (length lines))) = true).
    { apply andb_true_intro. split; [apply Z.leb_le | apply Z.ltb_lt]; lia. }
    rewrite H1. rewrite <- Hy. f_equal. lia.
Qed.

Lemma range_empty (i j : Z) : j <= i -> range i j = [].
Proof. intros H. unfold range. replace (Z.to_nat (j - i)) with 0%nat by lia. reflexivity. Qed.

(** From any state of the loop with fuel for the messages still allowed,
    the loop ends by its condition or by the limit. *)
Lemma send_loop_ends (maxmsgs numgrp : Z) (lines : list string) (fuel : nat) :
  forall i msg_cnt,
    (Z.to_nat (maxmsgs - msg_cnt) < fuel)%nat ->
    numgrp <= 0 \/ 0 <= i ->
    let r := send_loop fuel maxmsgs numgrp lines i msg_cnt in
    (r.2 = SendDone \/ r.2 = SendTooMany)
    /\ (length r.1 <= Z.to_nat (maxmsgs - msg_cnt))%nat.
Proof.
  induction fuel as [|fuel IH]; intros i msg_cnt Hf Hi; [lia|].
  cbv zeta. cbn [send_loop].
  destruct (Z.ltb_spec i (Z.of_nat (length lines))) as [Hlt|Hge];
    [|cbn; split; [auto | lia]].
  destruct (Z.gtb_spec (msg_cnt + 1) maxmsgs) as [Hgt|Hle];
    [cbn; split; [auto | lia]|].
  assert (Hg : exists group,
             mapM (py_index lines)
                  (range i (Z.min (i + numgrp) (Z.of_nat (length lines))))
             = Some group).
  { destruct (Z.le_gt_cases numgrp 0) as [Hn|Hn].
    - rewrite range_empty by lia. exists []. reflexivity.
    - eexists. apply mapM_range; lia. }
  destruct Hg as [group ->].
  specialize (IH (i + numgrp) (msg_cnt + 1)). cbv zeta in IH.
  destruct (send_loop fuel maxmsgs numgrp lines (i + numgrp) (msg_cnt + 1))
    as [out e].
  cbn [fst snd length] in IH |- *.
  destruct IH as [He Hl]; [lia | lia |]. split; [exact He | lia].
Qed.

(** With a positive group size the loop cuts the lines from [i] on into
    groups, as many as the limit leaves room for. *)
Lemma send_loop_groups (maxmsgs numgrp : Z) (lines : list string)
  (fuel : nat) :
  0 < numgrp ->
  forall i msg_cnt,
    0 <= i -> msg_cnt <= maxmsgs ->
    (Z.to_nat (maxmsgs - msg_cnt) < fuel)%nat ->
    exists groups,
      send_loop fuel maxmsgs numgrp lines i msg_cnt
      = (map (join " || ") groups,
         if (maxmsgs - msg_cnt) * numgrp <? Z.of_nat (length lines) - i
         then SendTooMany else SendDone)
      /\ concat groups
         = take (Z.to_nat ((maxmsgs - msg_cnt) * numgrp))
                (drop (Z.to_nat i) lines)
      /\ Forall (fun g => 1 <= Z.of_nat (length g) <= numgrp) groups
      /\ Z.of_nat (length groups) <= maxmsgs - msg_cnt.
Proof.
  intros Hn. induction fuel as [|fuel IH]; intros i msg_cnt Hi Hm Hf; [lia|].
  cbn [send_loop].
  destruct (Z.ltb_spec i (Z.of_nat (length lines))) as [Hlt|Hge].
  - destruct (Z.gtb_spec (msg_cnt + 1) maxmsgs) as [Hgt|Hle].
    + exists []. replace (maxmsgs - msg_cnt) with 0 by lia.
      rewrite Z.mul_0_l. cbn [map concat length Z.to_nat take].
      destruct (Z.ltb_spec 0 (Z.of_nat (length lines) - i)); [|lia].
      repeat split; [constructor | lia].
    + rewrite mapM_range by lia.
      destruct (IH (i + numgrp) (msg_cnt + 1)) as (groups & Hs & Hc & Hg & Hl);
        [lia | lia | lia |].
      rewrite Hs.
      set (g := take (Z.to_nat (Z.min (i + numgrp) (Z.of_nat (length lines)) - i))
                     (drop (Z.to_nat i) lines)).
      exists (g :: groups). cbn [map concat length].
      assert (Hlen : Z.of_nat (length g)
                     = Z.min numgrp (Z.of_nat (length lines) - i)).
      { subst g. rewrite length_take, length_drop. lia. }
      split; [|split; [|split]].
      * f_equal.
        destruct (Z.ltb_spec ((maxmsgs - (msg_cnt + 1)) * numgrp)
                             (Z.of_nat (length lines) - (i + numgrp)));
          destruct (Z.ltb_spec ((maxmsgs - msg_cnt) * numgrp)
                               (Z.of_nat (length lines) - i));
          try reflexivity; nia.
      * rewrite Hc.
        replace (Z.to_nat (i + numgrp))
          with (Z.to_nat i + Z.to_nat numgrp)%nat by lia.
        rewrite <- drop_drop.
        replace (Z.to_nat ((maxmsgs - msg_cnt) * numgrp))
          with (Z.to_nat numgrp
                + Z.to_nat ((maxmsgs - (msg_cnt + 1)) * numgrp))%nat by nia.
        rewrite <- take_take_drop. f_equal. subst g.
        assert (Hll : Z.of_nat (length (drop (Z.to_nat i) lines))
                      = Z.of_nat (length lines) - i)
          by (rewrite length_drop; lia).
        destruct (Z.le_gt_cases (i + numgrp) (Z.of_nat (length lines))).
        -- f_equal. lia.
        -- rewrite !take_ge by lia. reflexivity.
      * constructor; [lia | exact Hg].
      * lia.
  - exists []. cbn [map concat length].
    rewrite drop_ge by lia. rewrite take_nil.
    destruct (Z.ltb_spec ((maxmsgs - msg_cnt) * numgrp)
                         (Z.of_nat (length lines) - i)); [nia|].
    repeat split; [constructor | lia].
Qed.

(** X13. The pieces of a status message.  With a positive [numgrp] and a
    [maxmsgs] that is not negative, [sendMsgUID] sends the lines of the
    message in order and without change, in groups of one to [numgrp]
    lines, each group joined by [" || "]; it stops after [maxmsgs]
    messages, having sent the first [maxmsgs * numgrp] lines, and it
    logs "Too many xmpp msgs" exactly when lines are left over. *)
Theorem sendMsgUID_groups (maxmsgs numgrp : Z) (msg : string) :
  0 < numgrp -> 0 <= maxmsgs ->
  exists groups,
    sendMsgUID maxmsgs numgrp msg
    = (map (join " || ") groups,
       if maxmsgs * numgrp <? Z.of_nat (length (splitlines msg))
       then SendTooMany else SendDone)
    /\ concat groups
       = take (Z.to_nat (maxmsgs * numgrp)) (splitlines msg)
    /\ Forall (fun g => 1 <= Z.of_nat (length g) <= numgrp) groups
    /\ Z.of_nat (length groups) <= maxmsgs.
Proof.
  intros Hn Hm. unfold sendMsgUID.
  destruct (send_loop_groups maxmsgs numgrp (splitlines msg)
              (S (Z.to_nat maxmsgs)) Hn 0 0)
    as (groups & Hs & Hc & Hg & Hl); [lia | lia | lia |].
  rewrite !Z.sub_0_r in *. cbn [Z.to_nat drop] in Hc.
  exists groups. auto.
Qed.

(** X14. [sendMsgUID] comes to an end for every configuration.  Whatever
    [maxmsgs], [numgrp] and the message, the loop stops by its condition
    or by the limit within [maxmsgs + 1] tests of the condition, no
    index is out of range, and no more than [maxmsgs] messages are sent;
    a [numgrp] of 0 or less does not keep it running. *)
Theorem sendMsgUID_ends (maxmsgs numgrp : Z) (msg : string) :
  let r := sendMsgUID maxmsgs numgrp msg in
  (r.2 = SendDone \/ r.2 = SendTooMany)
  /\ Z.of_nat (length r.1) <= Z.max 0 maxmsgs.
Proof.
  cbv zeta. unfold sendMsgUID.
  pose proof (send_loop_ends maxmsgs numgrp (splitlines msg)
                (S (Z.to_nat maxmsgs)) 0 0) as H.
  cbv zeta in H. destruct H as [He Hl]; [lia | lia |].
  split; [exact He | lia].
Qed.

End StatBotFacts.

Lemma sendMsgUID_groups_witness :
  exists groups,
    StatBot.sendMsgUID 8 9 "one line"
    = (map (PyStr.join " || ") groups,
       if 8 * 9 <? Z.of_nat (length (PyLines.splitlines "one line"))
       then StatBot.SendTooMany else StatBot.SendDone)
    /\ concat groups
       = take (Z.to_nat (8 * 9)) (PyLines.splitlines "one line")
    /\ Forall (fun g => 1 <= Z.of_nat (length g) <= 9) groups
    /\ Z.of_nat (length groups) <= 8.
Proof. apply (sendMsgUID_groups 8 9 "one line"); lia. Defined.

(** ** A page of a blocklist *)

Section PageFacts.
Import PyStr PyLines Re IpDict State Rdblk.
Variable debug : Z.
Variable W : Type.
Variable dns_lookup_fn : string -> bool -> string -> string -> W -> W.
Variable urlparse : string -> result (string * string).

Lemma str_in_nl_cons (c : ascii) (s : string) :
  str_in Cfg.nl (String c s) = Ascii.eqb c LF || str_in Cfg.nl s.
Proof.
  cbn [str_in]. f_equal. unfold Cfg.nl, LF. cbn [String.prefix].
  destruct (ascii_dec "010" c) as [<-|Hne]; [destruct s; reflexivity|].
  destruct (Ascii.eqb_spec c "010"%char); [congruence | reflexivity].
Qed.

Lemma lstrip_no_newline (s : string) :
  str_in Cfg.nl s = false -> str_in Cfg.nl (lstrip s) = false.
Proof.
  induction s as [|c s IH]; [auto|]. intros H. cbn [lstrip].
  destruct (is_space c); [|exact H].
  rewrite str_in_nl_cons in H. apply orb_false_iff in H as [_ H]. auto.
Qed.

Lemma rstrip_no_newline (s : string) :
  str_in Cfg.nl s = false -> str_in Cfg.nl (rstrip s) = false.
Proof.
  induction s as [|c s IH]; [auto|]. intros H.
  rewrite str_in_nl_cons in H. apply orb_false_iff in H as [Hc H].
  specialize (IH H). cbn [rstrip].
  destruct (rstrip s) as [|a r].
  - destruct (is_space c); [reflexivity|].
    rewrite str_in_nl_cons, Hc. reflexivity.
  - rewrite str_in_nl_cons, Hc, IH. reflexivity.
Qed.

Lemma cons_head_no_newline (c : ascii) (l : list string) :
  Ascii.eqb c LF = false ->
  Forall (fun x => str_in Cfg.nl x = false) l ->
  Forall (fun x => str_in Cfg.nl x = false) (cons_head c l).
Proof.
  intros Hc Hl. destruct l as [|x l]; cbn [cons_head].
  - repeat constructor. rewrite str_in_nl_cons, Hc. reflexivity.
  - apply List.Forall_cons_iff in Hl as [Hx Hl].
    constructor; [|exact Hl]. rewrite str_in_nl_cons, Hc, Hx. reflexivity.
Qed.

(** No line of [splitlines] holds a newline. *)
Lemma splitlines_no_newline (s : string) :
  Forall (fun x => str_in Cfg.nl x = false) (splitlines s).
Proof.
  enough (H : Forall (fun x => str_in Cfg.nl x = false) (splitlines s)
              /\ forall c, Forall (fun x => str_in Cfg.nl x = false)
                                  (splitlines (String c s))) by apply H.
  induction s as [|a s [IH1 IH2]].
  - split; [constructor|]. intros c. cbn [splitlines].
    destruct (Ascii.eqb c LF) eqn:E1; [repeat constructor|].
    destruct (Ascii.eqb c CR); [repeat constructor|].
    apply cons_head_no_newline; [exact E1 | constructor].
  - split; [apply IH2|]. intros c.
    change (splitlines (String c (String a s)))
      with (if Ascii.eqb c LF then EmptyString :: splitlines (String a s)
            else if Ascii.eqb c CR then
              if Ascii.eqb a LF then EmptyString :: splitlines s
              else EmptyString :: splitlines (String a s)
            else cons_head c (splitlines (String a s))).
    destruct (Ascii.eqb c LF) eqn:E1; [constructor; [reflexivity | apply IH2]|].
    destruct (Ascii.eqb c CR).
    + destruct (Ascii.eqb a LF); constructor;
        [reflexivity | exact IH1 | reflexivity | apply IH2].
    + apply cons_head_no_newline; [exact E1 | apply IH2].
Qed.

Lemma page_loop_raises (lines : list string) (org_name : string) (e : exn) :
  forall d w,
    (page_loop debug W dns_lookup_fn urlparse d w lines org_name).1.1.1
    = Raised e ->
    exists line d' w',
      In line lines
      /\ p_result W (insert_blklst_line debug W dns_lookup_fn urlparse
                       d' w' line org_name) = Raised e.
Proof.
  induction lines as [|line rest IH]; intros d w; cbn [page_loop fst].
  - discriminate.
  - destruct (p_result W (insert_blklst_line debug W dns_lookup_fn urlparse
                            d w line org_name)) as [[]|e'] eqn:E.
    + specialize (IH (p_dict W (insert_blklst_line debug W dns_lookup_fn
                                  urlparse d w line org_name))
                     (p_sched W (insert_blklst_line debug W dns_lookup_fn
                                   urlparse d w line org_name))).
      destruct (page_loop debug W dns_lookup_fn urlparse _ _ rest org_name)
        as [[[r d'] w'] l].
      cbn [fst] in IH |- *. intros Hr.
      destruct (IH Hr) as (ln & d1 & w1 & Hin & Hres).
      exists ln, d1, w1. split; [right; exact Hin | exact Hres].
    + cbn [fst]. intros [= ->]. exists line, d, w. split; [left; reflexivity|].
      exact E.
Qed.

(** X15. The exceptions of a page.  [blklst_page_read_ok] with a
    dictionary and a worker service in place ends with an exception only
    at a line that is an ACE whose host does not start like a dotted
    quad, which is the failed [assert], or at a line on which
    [urlparse] raises.  The [AttributeError] of a line that matches no
    pattern cannot come from a page: no line of [splitlines] holds a
    newline. *)
Theorem blklst_page_read_ok_raises (data org_name url : string)
  (bstate : BlkState) (my_dict : ip_dict) (w : W) (e : exn) :
  get_dict bstate = Some my_dict ->
  (blklst_page_read_ok debug W dns_lookup_fn urlparse data org_name url
     bstate (Some w)).1.1.1 = Raised e ->
  exists line,
    In line (splitlines data)
    /\ ((exists myip mydesc,
            re_acl_match (strip line) = Some (myip, mydesc)
            /\ re_ipv4_match myip = false /\ e = AssertionError)
        \/ urlparse (strip line) = Raised e).
Proof.
  intros Hd. unfold blklst_page_read_ok. rewrite Hd.
  pose proof (splitlines_no_newline data) as Hnl.
  destruct (splitlines data) as [|l0 ls] eqn:Hs; [discriminate|].
  pose proof (page_loop_raises (l0 :: ls) org_name e my_dict w) as Hp.
  destruct (page_loop debug W dns_lookup_fn urlparse my_dict w (l0 :: ls)
              org_name) as [[[r d'] w'] l].
  cbn [fst] in Hp |- *. intros Hr.
  destruct (Hp Hr) as (line & d1 & w1 & Hin & Hres).
  exists line. split; [exact Hin|].
  apply insert_blklst_line_raises in Hres
    as [Hacl|[Hu|(Hne & Hm & _)]]; [left; exact Hacl | right; exact Hu|].
  exfalso. rewrite List.Forall_forall in Hnl. specialize (Hnl line Hin).
  assert (Hstrip : str_in Cfg.nl (strip line) = false)
    by (apply rstrip_no_newline, lstrip_no_newline, Hnl).
  destruct (strip line) as [|c0 r0] eqn:Hsl; [congruence|].
  rewrite <- Hsl in Hm, Hstrip.
  destruct (re_addr_match_some line c0 r0 Hsl Hstrip) as [x Hx]. congruence.
Qed.

End PageFacts.

Lemma blklst_page_read_ok_raises_witness :
  exists line,
    In line (PyLines.splitlines
               "deny ip host evil.example.com any log botnet-cc")
    /\ ((exists myip mydesc,
           Re.re_acl_match (PyStr.strip line) = Some (myip, mydesc)
           /\ Re.re_ipv4_match myip = false
           /\ AssertionError = AssertionError)
        \/ (fun _ : string => @Raised (string * string) ValueError)
             (PyStr.strip line) = Raised AssertionError).
Proof.
  apply (blklst_page_read_ok_raises 0 unit (fun _ _ _ _ w => w)
           (fun _ => Raised ValueError)
           "deny ip host evil.example.com any log botnet-cc" "acl" "url"
           (State.mkState None (Some ∅) 0 0) ∅ tt AssertionError);
    reflexivity.
Defined.

(** ** The telnet client of the route server *)

Section RteClientFacts.
Import IPAddr BlkTree TreeOps PyStr PyLines RteClient.
Variable as_search_list : list string.
Variable rs_as_cmd_throttle : Z.
Context {ipv6 : IPv6Parser}.
Variable collapse_address_list : list IPNet -> result (list IPNet).

Lemma decimal_acc_nonneg (s : string) :
  forall acc, 0 <= acc -> all_digits s = true -> 0 <= decimal_acc acc s.
Proof.
  induction s as [|c s IH]; intros acc Hacc Hd; [exact Hacc|].
  cbn [all_digits decimal_acc] in *. apply andb_prop in Hd as [Hc Hd].
  apply IH; [|exact Hd].
  unfold IPAddr.is_digit in Hc. apply andb_prop in Hc as [H1 H2].
  apply Nat.leb_le in H1. unfold digit_val. lia.
Qed.

Lemma parse_number_range (maxlen : nat) (bound : Z) (s : string) (v : Z) :
  parse_number maxlen bound s = Some v -> 0 <= v <= bound.
Proof.
  unfold parse_number.
  destruct ((0 <? String.length s)%nat && (String.length s <=? maxlen)%nat
            && all_digits s) eqn:E; [|discriminate].
  apply andb_prop in E as [_ Hd].
  destruct (Z.leb_spec (decimal_acc 0 s) bound) as [Hle|]; [|discriminate].
  intros [= <-]. split; [|exact Hle].
  apply decimal_acc_nonneg; [lia | exact Hd].
Qed.

Lemma parse_address_range (s : string) (x : Z) :
  parse_address s = Some x -> 0 <= x < 2 ^ 32.
Proof.
  unfold parse_address.
  destruct (split_on "." "" s) as [|a [|b [|c [|d [|? ?]]]]]; try discriminate.
  destruct (parse_number 3 255 a) as [va|] eqn:Ea; [|discriminate].
  destruct (parse_number 3 255 b) as [vb|] eqn:Eb; [|discriminate].
  destruct (parse_number 3 255 c) as [vc|] eqn:Ec; [|discriminate].
  destruct (parse_number 3 255 d) as [vd|] eqn:Ed; [|discriminate].
  apply parse_number_range in Ea, Eb, Ec, Ed. intros [= <-].
  change (2 ^ 32) with 4294967296. lia.
Qed.

(** The parser of the library. *)
Lemma parse_octet_range (s : string) (v : Z) :
  _parse_octet s = Some v -> 0 <= v <= 255.
Proof.
  unfold _parse_octet. destruct (all_digits s) eqn:Hd; [|discriminate].
  destruct s as [|c s]; [discriminate|].
  destruct (Z.gtb_spec (decimal_acc 0 (String c s)) 255) as [|Hle];
    [discriminate|].
  cbn [orb]. destruct (_ && _); [discriminate|].
  intros [= <-]. split; [|exact Hle].
  apply (decimal_acc_nonneg (String c s) 0); [lia | exact Hd].
Qed.

Lemma lor_shiftl_octet (p v : Z) :
  0 <= p -> 0 <= v <= 255 -> Z.lor (Z.shiftl p 8) v = p * 256 + v.
Proof.
  intros Hp Hv. rewrite Z.shiftl_mul_pow2 by lia. change (2 ^ 8) with 256.
  symmetry. apply Z.add_nocarry_lor.
  apply Z.bits_inj'. intros i Hi. rewrite Z.land_spec, Z.bits_0.
  destruct (Z.ltb_spec i 8) as [Hlt|Hge].
  - change 256 with (2 ^ 8). rewrite Z.mul_pow2_bits_low by lia. reflexivity.
  - assert (Hz : Z.testbit v i = false).
    { destruct (Z.eq_dec v 0) as [->|Hnz]; [apply Z.bits_0|].
      apply Z.bits_above_log2; [lia|].
      apply Z.lt_le_trans with 8; [|exact Hge].
      apply Z.log2_lt_pow2; [lia|]. change (2 ^ 8) with 256. lia. }
    rewrite Hz. apply andb_false_r.
Qed.

Lemma pack_octets_range (octets : list string) :
  forall packed_ip bound x,
    0 <= packed_ip < bound ->
    pack_octets octets packed_ip = Some x ->
    0 <= x < bound * 256 ^ Z.of_nat (length octets).
Proof.
  induction octets as [|oc rest IH]; intros packed_ip bound x Hb.
  - cbn [pack_octets length]. intros [= <-]. cbn. lia.
  - cbn [pack_octets]. destruct (_parse_octet oc) as [v|] eqn:Ev;
      [|discriminate].
    apply parse_octet_range in Ev. intros Hx.
    rewrite lor_shiftl_octet in Hx by lia.
    apply (IH _ (bound * 256)) in Hx; [|lia].
    cbn [length]. rewrite Nat2Z.inj_succ, Z.pow_succ_r by lia. lia.
Qed.

Lemma ip_int_from_string_range (s : string) (x : Z) :
  _ip_int_from_string s = Some x -> 0 <= x < 2 ^ 32.
Proof.
  unfold _ip_int_from_string.
  destruct (Nat.eqb_spec (length (split_on "." "" s)) 4) as [Hl|];
    [|discriminate].
  intros Hx. apply (pack_octets_range _ 0 1) in Hx; [|lia].
  rewrite Hl in Hx. exact Hx.
Qed.

Lemma prefix_from_prefix_string_range (m : Z) (s : string) (n : Z) :
  _prefix_from_prefix_string m s = Some n -> 0 <= n <= m.
Proof.
  unfold _prefix_from_prefix_string.
  destruct (all_digits s) eqn:Hd; [|discriminate].
  destruct s as [|c s]; [discriminate|].
  destruct (Z.leb_spec (decimal_acc 0 (String c s)) m) as [Hle|];
    [|discriminate].
  intros [= <-]. split; [|exact Hle].
  apply (decimal_acc_nonneg (String c s) 0); [lia | exact Hd].
Qed.

Lemma shift_zeroes_le (prefixlen : nat) :
  forall ip_int, ((shift_zeroes prefixlen ip_int).2 <= prefixlen)%nat.
Proof.
  induction prefixlen as [|p IH]; intros ip_int; cbn [shift_zeroes].
  - cbn. lia.
  - destruct (Z.land ip_int 1 =? 1); cbn [snd]; [lia|].
    specialize (IH (Z.shiftr ip_int 1)). lia.
Qed.

Lemma prefix_from_ip_int_range (ip_int n : Z) :
  _prefix_from_ip_int ip_int = Some n -> 0 <= n <= 32.
Proof.
  unfold _prefix_from_ip_int.
  pose proof (shift_zeroes_le 32 ip_int) as Hle.
  destruct (shift_zeroes 32 ip_int) as [rest p]. cbn [snd] in Hle.
  destruct (_ =? _); [|discriminate]. intros [= <-]. lia.
Qed.

Lemma prefix_from_ip_string_range (s : string) (n : Z) :
  _prefix_from_ip_string s = Some n -> 0 <= n <= 32.
Proof.
  unfold _prefix_from_ip_string.
  destruct (_ip_int_from_string s) as [ip_int|]; [|discriminate].
  destruct (_prefix_from_ip_int ip_int) as [p|] eqn:E.
  - intros [= <-]. apply (prefix_from_ip_int_range _ _ E).
  - apply prefix_from_ip_int_range.
Qed.

Lemma IPv4Network_of_string_wf (s : string) (n : IPv4Network) :
  IPv4Network_of_string s = Some n -> wf n.
Proof.
  unfold IPv4Network_of_string.
  destruct (split_on "/" "" s) as [|a [|m [|? ?]]]; try discriminate.
  - destruct (_ip_int_from_string a) as [x|] eqn:Ea; [|discriminate].
    intros [= <-]. apply ip_int_from_string_range in Ea.
    unfold wf. cbn [ip prefixlen]. lia.
  - destruct (_ip_int_from_string a) as [x|] eqn:Ea; [|discriminate].
    apply ip_int_from_string_range in Ea.
    destruct (_prefix_from_prefix_string 32 m) as [p|] eqn:Ep.
    + intros [= <-]. apply prefix_from_prefix_string_range in Ep.
      unfold wf. cbn [ip prefixlen]. lia.
    + destruct (_prefix_from_ip_string m) as [p|] eqn:Eq; [|discriminate].
      intros [= <-]. apply prefix_from_ip_string_range in Eq.
      unfold wf. cbn [ip prefixlen]. lia.
Qed.

Lemma IPNetwork_wf (s : string) (n : IPv4Network) :
  IPNetwork s = Some (V4 n) -> wf n.
Proof.
  unfold IPNetwork.
  destruct (IPv4Network_of_string s) as [m|] eqn:E.
  - intros [= <-]. apply (IPv4Network_of_string_wf _ _ E).
  - destruct (IPv6Network_of_string s); discriminate.
Qed.

Lemma numhosts_pow (n : IPv4Network) :
  wf n -> numhosts n = 2 ^ (32 - prefixlen n).
Proof. intros H. unfold numhosts. rewrite broadcast_div by exact H. lia. Qed.

Lemma numhosts_one (n : IPv4Network) :
  wf n -> (numhosts n =? 1) = (prefixlen n =? 32).
Proof.
  intros H. rewrite numhosts_pow by exact H. destruct H as [_ Hp].
  destruct (Z.eqb_spec (prefixlen n) 32) as [->|Hne].
  - reflexivity.
  - apply Z.eqb_neq.
    assert (2 ^ 1 <= 2 ^ (32 - prefixlen n))
      by (apply Z.pow_le_mono_r; lia).
    change (2 ^ 1) with 2 in *. lia.
Qed.

Lemma netmask6_ldiff (n : IPv6Network) :
  0 <= prefixlen6 n <= 128 ->
  netmask6 n = Z.ldiff (Z.ones 128) (Z.ones (128 - prefixlen6 n)).
Proof.
  intros Hp. unfold netmask6. change ALL_ONES6 with (Z.ones 128).
  apply Z.bits_inj'. intros i Hi.
  rewrite Z.lxor_spec, Z.ldiff_spec, Z.shiftr_spec by exact Hi.
  rewrite !Z.testbit_ones_nonneg by lia.
  destruct (Z.ltb_spec i 128), (Z.ltb_spec (i + prefixlen6 n) 128),
    (Z.ltb_spec i (128 - prefixlen6 n)); simpl; try reflexivity; lia.
Qed.

Lemma hostmask6_ones (n : IPv6Network) :
  0 <= prefixlen6 n <= 128 -> hostmask6 n = Z.ones (128 - prefixlen6 n).
Proof.
  intros Hp. unfold hostmask6. rewrite netmask6_ldiff by exact Hp.
  change ALL_ONES6 with (Z.ones 128).
  apply Z.bits_inj'. intros i Hi.
  rewrite Z.lxor_spec, Z.ldiff_spec.
  rewrite !Z.testbit_ones_nonneg by lia.
  destruct (Z.ltb_spec i 128), (Z.ltb_spec i (128 - prefixlen6 n)); simpl;
    try reflexivity; lia.
Qed.

Lemma numhosts6_pow (n : IPv6Network) :
  wf6 n -> numhosts6 n = 2 ^ (128 - prefixlen6 n).
Proof.
  intros [Hip Hp]. unfold numhosts6, broadcast6, network6.
  rewrite hostmask6_ones, netmask6_ldiff by exact Hp.
  set (k := 128 - prefixlen6 n).
  assert (Hk : 0 <= k) by (subst k; lia).
  assert (Hnet : Z.land (ip6 n) (Z.ldiff (Z.ones 128) (Z.ones k))
                 = ip6 n / 2 ^ k * 2 ^ k).
  { rewrite <- Z.shiftr_div_pow2, <- Z.shiftl_mul_pow2 by lia.
    rewrite <- Z.ldiff_ones_r by lia.
    apply Z.bits_inj'. intros i Hi.
    rewrite Z.land_spec, !Z.ldiff_spec.
    rewrite !Z.testbit_ones_nonneg by lia.
    destruct (Z.ltb_spec i 128); simpl; [reflexivity|].
    rewrite andb_false_r.
    assert (Hhigh : Z.testbit (ip6 n) i = false).
    { destruct (Z.eq_dec (ip6 n) 0) as [->|Hnz]; [apply Z.bits_0|].
      apply Z.bits_above_log2; [lia|].
      apply Z.log2_lt_pow2; [lia|].
      apply Z.lt_le_trans with (2 ^ 128); [lia|].
      apply Z.pow_le_mono_r; lia. }
    rewrite Hhigh. reflexivity. }
  rewrite Hnet.
  pose proof (Z.add_lor_land (ip6 n) (Z.ones k)) as Hadd.
  rewrite Z.land_ones in Hadd by lia.
  rewrite Z.ones_equiv in *.
  pose proof (Z.div_mod (ip6 n) (2 ^ k)) as Hdm.
  assert (0 < 2 ^ k) by (apply Z.pow_pos_nonneg; lia).
  lia.
Qed.

Lemma numhosts6_one (n : IPv6Network) :
  wf6 n -> (numhosts6 n =? 1) = (prefixlen6 n =? 128).
Proof.
  intros H. rewrite numhosts6_pow by exact H. destruct H as [_ Hp].
  destruct (Z.eqb_spec (prefixlen6 n) 128) as [->|Hne].
  - reflexivity.
  - apply Z.eqb_neq.
    assert (2 ^ 1 <= 2 ^ (128 - prefixlen6 n))
      by (apply Z.pow_le_mono_r; lia).
    change (2 ^ 1) with 2 in *. lia.
Qed.

Lemma processAddr_state (cl : TelnetClient) (myIP : string) :
  state_more (processAddr cl myIP) = state_more cl.
Proof.
  unfold processAddr. destruct (IPNetwork myIP) as [n|]; [|reflexivity].
  destruct (ipnet_numhosts n =? 1); reflexivity.
Qed.

(** X16. What [processAddr] keeps.  The text is added to the list of
    networks exactly when the library makes a network of it that is not
    a single address: an IPv4 network whose prefix length is not 32, a
    /24 as well, or an IPv6 network whose prefix length is not 128.  The
    flag [state_more] is left alone. *)
Theorem processAddr_keeps (cl : TelnetClient) (myIP : string) :
  (forall n, IPNetwork myIP = Some (V6 n) -> wf6 n) ->
  my_addr_list (processAddr cl myIP)
  = match IPNetwork myIP with
    | Some (V4 n) =>
        if prefixlen n =? 32 then my_addr_list cl
        else (my_addr_list cl ++ [V4 n])%list
    | Some (V6 n) =>
        if prefixlen6 n =? 128 then my_addr_list cl
        else (my_addr_list cl ++ [V6 n])%list
    | None => my_addr_list cl
    end
  /\ state_more (processAddr cl myIP) = state_more cl.
Proof.
  intros Hwf. unfold processAddr.
  destruct (IPNetwork myIP) as [[n|n]|] eqn:E; cbn [ipnet_numhosts].
  - rewrite (numhosts_one n (IPNetwork_wf myIP n E)).
    destruct (prefixlen n =? 32); split; reflexivity.
  - rewrite (numhosts6_one n (Hwf n eq_refl)).
    destruct (prefixlen6 n =? 128); split; reflexivity.
  - split; reflexivity.
Qed.

(** *** The tree with keys of both versions *)

Lemma lift_level (t : bbsnode) :
  MixedTree.level (MixedTree.lift_node t) = level t.
Proof. destruct t; reflexivity. Qed.

Lemma lift_skew (t : bbsnode) :
  MixedTree.__skew (MixedTree.lift_node t) = MixedTree.lift_node (__skew t).
Proof.
  destruct t as [|lv k v [|llv lk lval ll lr] r]; try reflexivity;
    unfold MixedTree.__skew, __skew;
    cbn [MixedTree.lift_node MixedTree.level level];
    destruct (negb (lv =? 0)%nat); try reflexivity.
  destruct (llv =? lv)%nat; reflexivity.
Qed.

Lemma lift_split (t : bbsnode) :
  MixedTree.__split (MixedTree.lift_node t) = MixedTree.lift_node (__split t).
Proof.
  destruct t as [|lv k v l [|rlv rk rval rl rr]]; try reflexivity;
    unfold MixedTree.__split, __split;
    cbn [MixedTree.lift_node MixedTree.level level MixedTree.sub1_of sub1_of];
    destruct (negb (lv =? 0)%nat); try reflexivity.
  - destruct (lv =? 0)%nat; reflexivity.
  - rewrite lift_level. destruct (lv =? level rr)%nat; reflexivity.
Qed.

Lemma lift_insert_rec (t : bbsnode) (k : IPv4Network) (v : string) :
  MixedTree.__insert (MixedTree.lift_node t) (V4 k) v
  = Returned (MixedTree.lift_node (__insert t k v)).
Proof.
  induction t as [|lv key val l IHl r IHr]; [reflexivity|].
  cbn [MixedTree.lift_node MixedTree.__insert __insert ipnet_eq ipnet_gt].
  destruct (net_eq k key); [reflexivity|].
  destruct (net_gt k key).
  - destruct r as [|rlv rk rval rl rr]; [reflexivity|].
    rewrite IHr. rewrite lift_skew, lift_split. reflexivity.
  - destruct l as [|llv lk lval ll lr]; [reflexivity|].
    rewrite IHl. rewrite lift_skew, lift_split. reflexivity.
Qed.

Lemma lift_insert (t : bbstree) (k : IPv4Network) (v : string) :
  MixedTree.insert (MixedTree.lift t) (V4 k) v
  = Returned (MixedTree.lift (insert t k v)).
Proof.
  unfold MixedTree.insert, insert, MixedTree.lift. cbn [MixedTree.root].
  destruct (root t) as [|lv key val l r] eqn:E; [reflexivity|].
  cbn [MixedTree.lift_node MixedTree.is_nil is_nil negb].
  change (MixedTree.Node lv (V4 key) val (MixedTree.lift_node l)
            (MixedTree.lift_node r))
    with (MixedTree.lift_node (Node lv key val l r)).
  rewrite lift_insert_rec, lift_skew, lift_split. reflexivity.
Qed.

Lemma insert_all_lift (myas : string) (subnets : list IPv4Network) :
  forall t,
    insert_all (MixedTree.lift t) (map V4 subnets) myas
    = (Returned tt,
       MixedTree.lift (fold_left (fun t subnet => insert t subnet myas)
                                 subnets t)).
Proof.
  induction subnets as [|a subnets IH]; intros t; [reflexivity|].
  cbn [map insert_all fold_left]. rewrite lift_insert. apply IH.
Qed.

Lemma mixed_keys_skew (t : MixedTree.bbsnode) :
  MixedTree.keys (MixedTree.__skew t) = MixedTree.keys t.
Proof.
  destruct t as [|lv k v [|llv lk lval ll lr] r]; try reflexivity;
    unfold MixedTree.__skew; destruct (negb _); try reflexivity.
  destruct (llv =? lv)%nat; [|reflexivity].
  cbn [MixedTree.keys]. rewrite <- app_assoc. reflexivity.
Qed.

Lemma mixed_keys_split (t : MixedTree.bbsnode) :
  MixedTree.keys (MixedTree.__split t) = MixedTree.keys t.
Proof.
  destruct t as [|lv k v l [|rlv rk rval rl rr]]; try reflexivity;
    unfold MixedTree.__split; destruct (negb _); try reflexivity;
    destruct (_ =? _)%nat; try reflexivity.
  cbn [MixedTree.keys]. rewrite <- app_assoc. reflexivity.
Qed.

Lemma mixed_skew_nil (t : MixedTree.bbsnode) :
  MixedTree.is_nil (MixedTree.__skew t) = MixedTree.is_nil t.
Proof.
  destruct t as [|lv k v [|llv lk lval ll lr] r]; try reflexivity;
    unfold MixedTree.__skew; destruct (negb _); try reflexivity.
  destruct (llv =? lv)%nat; reflexivity.
Qed.

Lemma mixed_split_nil (t : MixedTree.bbsnode) :
  MixedTree.is_nil (MixedTree.__split t) = MixedTree.is_nil t.
Proof.
  destruct t as [|lv k v l [|rlv rk rval rl rr]]; try reflexivity;
    unfold MixedTree.__split; destruct (negb _); try reflexivity;
    destruct (_ =? _)%nat; reflexivity.
Qed.

Lemma ipnet_gt_same (a b : IPNet) :
  version a = version b -> exists side, ipnet_gt a b = Returned side.
Proof.
  destruct a, b; cbn [version ipnet_gt]; intros E; try discriminate;
    eexists; reflexivity.
Qed.

Lemma ipnet_other (a b : IPNet) :
  version a <> version b ->
  ipnet_eq a b = false /\ ipnet_gt a b = Raised TypeError.
Proof.
  destruct a, b; cbn [version ipnet_gt ipnet_eq]; intros E;
    try (exfalso; apply E; reflexivity); split; reflexivity.
Qed.

Lemma mixed_insert_rec_same (ver : Z) (k : IPNet) (v : string)
  (t : MixedTree.bbsnode) :
  version k = ver ->
  Forall (fun a => version a = ver) (MixedTree.keys t) ->
  exists t',
    MixedTree.__insert t k v = Returned t'
    /\ Forall (fun a => version a = ver) (MixedTree.keys t')
    /\ MixedTree.is_nil t' = MixedTree.is_nil t.
Proof.
  intros Hk. induction t as [|lv key val l IHl r IHr]; intros Hall.
  - exists MixedTree.NIL_NODE. repeat split. constructor.
  - cbn [MixedTree.keys] in Hall. apply Forall_app in Hall as [Hl Hr].
    apply Forall_cons in Hr as [Hkey Hr].
    cbn [MixedTree.__insert].
    destruct (ipnet_eq k key).
    { eexists. split; [reflexivity|]. split; [|reflexivity].
      cbn [MixedTree.keys]. apply Forall_app. split; [exact Hl|].
      constructor; assumption. }
    destruct (ipnet_gt_same k key) as [side ->]; [congruence|].
    destruct side.
    + destruct r as [|rlv rk rval rl rr].
      * eexists. split; [reflexivity|]. split; [|reflexivity].
        cbn [MixedTree.keys app]. apply Forall_app. split; [exact Hl|].
        repeat constructor; assumption.
      * destruct (IHr Hr) as (r' & -> & Hr' & _).
        eexists. split; [reflexivity|]. split; [|reflexivity].
        cbn [MixedTree.keys]. rewrite mixed_keys_split, mixed_keys_skew.
        apply Forall_app. split; [exact Hl|]. constructor; assumption.
    + destruct l as [|llv lk lval ll lr].
      * eexists. split; [reflexivity|]. split; [|reflexivity].
        cbn [MixedTree.keys app]. constructor; [exact Hk|].
        constructor; assumption.
      * destruct (IHl Hl) as (l' & -> & Hl' & _).
        eexists. split; [reflexivity|]. split; [|reflexivity].
        cbn [MixedTree.keys]. rewrite mixed_keys_split, mixed_keys_skew.
        apply Forall_app. split; [exact Hl'|]. constructor; assumption.
Qed.

Lemma uniform_version (t : MixedTree.bbstree) (ver : Z) :
  MixedTree.is_nil (MixedTree.root t) = false ->
  Forall (fun a => version a = ver) (MixedTree.keys (MixedTree.root t)) ->
  MixedTree.uniform t /\ MixedTree.root_version t = Some ver.
Proof.
  unfold MixedTree.uniform, MixedTree.root_version.
  destruct (MixedTree.root t) as [|lv key val l r]; [discriminate|].
  intros _ Hall.
  assert (Hkey : version key = ver).
  { cbn [MixedTree.keys] in Hall. apply Forall_app in Hall as [_ Hr].
    apply Forall_cons in Hr as [Hkey _]. exact Hkey. }
  split; [|congruence].
  eapply Forall_impl; [exact Hall|]. cbn. intros a ->. congruence.
Qed.

(** What [insert] does with a key, by the version of the key of the
    root. *)
Lemma mixed_insert_spec (t : MixedTree.bbstree) (k : IPNet) (v : string) :
  MixedTree.uniform t ->
  match MixedTree.root_version t with
  | Some ver =>
      if version k =? ver
      then exists t', MixedTree.insert t k v = Returned t'
                      /\ MixedTree.uniform t'
                      /\ MixedTree.root_version t' = Some ver
      else MixedTree.insert t k v = Raised TypeError
  | None =>
      exists t', MixedTree.insert t k v = Returned t'
                 /\ MixedTree.uniform t'
                 /\ MixedTree.root_version t' = Some (version k)
  end.
Proof.
  unfold MixedTree.uniform at 1, MixedTree.root_version at 1 2,
    MixedTree.insert.
  destruct (MixedTree.root t) as [|lv key val l r] eqn:E;
    cbn [MixedTree.is_nil negb].
  - intros _. eexists. split; [reflexivity|].
    apply uniform_version; [reflexivity|]. repeat constructor.
  - intros Hall. destruct (Z.eqb_spec (version k) (version key)) as [Hv|Hv].
    + assert (Hall' : Forall (fun a => version a = version key)
                             (MixedTree.keys (MixedTree.Node lv key val l r))).
      { eapply Forall_impl; [exact Hall|]. cbn. intros a [= ->].
        reflexivity. }
      destruct (mixed_insert_rec_same (version key) k v _ Hv Hall')
        as (t' & -> & Ht' & Hnil).
      eexists. split; [reflexivity|].
      apply uniform_version; cbn [MixedTree.root].
      * rewrite mixed_split_nil, mixed_skew_nil. exact Hnil.
      * rewrite mixed_keys_split, mixed_keys_skew. exact Ht'.
    + cbn [MixedTree.__insert].
      destruct (ipnet_other k key Hv) as [-> ->]. reflexivity.
Qed.

(** The loop over the collapsed networks returns exactly when they are
    of one version, that of the tree if it has a key; otherwise it
    raises [TypeError] at the first network of another version. *)
Lemma insert_all_spec (myas : string) (subnets : list IPNet) :
  forall t,
    MixedTree.uniform t ->
    MixedTree.uniform (insert_all t subnets myas).2
    /\ (insert_all t subnets myas).1
       = if MixedTree.one_version (MixedTree.root_version t) subnets
         then Returned tt else Raised TypeError.
Proof.
  induction subnets as [|k rest IH]; intros t Hu.
  - cbn. split; [exact Hu|].
    destruct (MixedTree.root_version t); reflexivity.
  - pose proof (mixed_insert_spec t k myas Hu) as Hi.
    cbn [insert_all MixedTree.one_version].
    destruct (MixedTree.root_version t) as [ver|].
    + destruct (version k =? ver).
      * destruct Hi as (t' & -> & Hu' & Hv').
        cbn [andb]. rewrite <- Hv'. apply IH, Hu'.
      * rewrite Hi. cbn. split; [exact Hu | reflexivity].
    + destruct Hi as (t' & -> & Hu' & Hv'). rewrite <- Hv'. apply IH, Hu'.
Qed.

(** *** The client *)

Lemma route_token_not_more (tok0 : string) :
  startswith tok0 valid_route = true -> String.eqb tok0 prompt_more = false.
Proof.
  unfold startswith, valid_route, prompt_more.
  destruct tok0 as [|c t]; [discriminate|].
  cbn [String.prefix]. destruct (ascii_dec "*" c) as [<-|]; [|discriminate].
  reflexivity.
Qed.

(** X17. A line with a single token that starts with ["*"].  Whatever
    the state of the client and of the factory, [lineReceived] ends with
    an exception on such a line.  It is the [IndexError] of the second
    token, which does not exist, unless the token also ends like a
    prompt after a ["--More--"] and [build_send_rteserv_cmd], which then
    runs first, raises: then it is the exception of that call. *)
Theorem lineReceived_lone_route_token (cl : TelnetClient) (f : TelnetFactory)
  (line tok0 : string) :
  split_ws line = [tok0] ->
  startswith tok0 valid_route = true ->
  exists e,
    (lineReceived as_search_list rs_as_cmd_throttle collapse_address_list
       cl f line).1.1 = Raised e
    /\ (e = IndexError
        \/ (state_more cl = true /\ endswith tok0 prompt_cmd = true
            /\ (build_send_rteserv_cmd as_search_list rs_as_cmd_throttle
                  collapse_address_list cl f).1.1 = Raised e)).
Proof.
  intros Hs Hv. unfold lineReceived. rewrite Hs.
  cbn [List.last].
  destruct (state_more cl) eqn:Hm; cbn [andb].
  - destruct (endswith tok0 prompt_cmd) eqn:Hp.
    + destruct (build_send_rteserv_cmd as_search_list rs_as_cmd_throttle
                  collapse_address_list cl f) as [[r cl1] f1].
      destruct r as [out|e].
      * rewrite (route_token_not_more tok0 Hv), Hv.
        exists IndexError. split; [reflexivity | left; reflexivity].
      * exists e. split; [reflexivity|]. right. auto.
    + rewrite (route_token_not_more tok0 Hv), Hv.
      exists IndexError. split; [reflexivity | left; reflexivity].
  - rewrite (route_token_not_more tok0 Hv), Hv.
    exists IndexError. split; [reflexivity | left; reflexivity].
Qed.

Lemma lineReceived_before_more (cl : TelnetClient) (f : TelnetFactory)
  (line : string) :
  state_more cl = false ->
  head (split_ws line) <> Some prompt_more ->
  let out := lineReceived as_search_list rs_as_cmd_throttle
               collapse_address_list cl f line in
  out.2 = f /\ state_more out.1.2 = false
  /\ (out.1.1 = Returned [] \/ out.1.1 = Raised IndexError).
Proof.
  intros Hm Hh. cbv zeta. unfold lineReceived. rewrite Hm. cbn [andb].
  destruct (split_ws line) as [|tok0 toks]; [cbn; auto|].
  destruct (String.eqb_spec tok0 prompt_more) as [->|Hne];
    [exfalso; apply Hh; reflexivity|].
  destruct (startswith tok0 valid_route); [|cbn; auto].
  destruct ((tok0 :: toks) !! 1%nat) as [tok1|]; [|cbn; auto].
  destruct (1 <? String.length tok1)%nat; [|cbn; auto].
  cbn [fst snd]. split; [reflexivity|]. split; [|auto].
  rewrite processAddr_state. exact Hm.
Qed.

(** X18. Prompts before the first ["--More--"].  While no line has
    started with ["--More--"], the command prompts are not acted upon:
    over any sequence of lines without such a line, the client sends
    nothing, the factory keeps its tree, its ASN pointer and its
    countdown, and the session ends either at the end of the lines or at
    an [IndexError].  The listing of an ASN that fits on one page is
    never closed. *)
Theorem session_before_more (cl : TelnetClient) (f : TelnetFactory)
  (lines : list string) :
  state_more cl = false ->
  Forall (fun line => head (split_ws line) <> Some prompt_more) lines ->
  let out := session as_search_list rs_as_cmd_throttle collapse_address_list
               cl f lines in
  out.2 = f /\ state_more out.1.2 = false
  /\ (out.1.1 = Returned [] \/ out.1.1 = Raised IndexError).
Proof.
  revert cl. induction lines as [|line rest IH]; intros cl Hm Hl; cbv zeta.
  - cbn. auto.
  - apply List.Forall_cons_iff in Hl as [Hline Hrest]. cbn [session].
    pose proof (lineReceived_before_more cl f line Hm Hline) as H1.
    cbv zeta in H1.
    destruct (lineReceived as_search_list rs_as_cmd_throttle
                collapse_address_list cl f line) as [[r cl1] f1].
    cbn [fst snd] in H1. destruct H1 as (-> & Hm1 & Hr).
    destruct r as [out|e].
    + destruct Hr as [[= ->]|Hr]; [|discriminate].
      specialize (IH cl1 Hm1 Hrest). cbv zeta in IH.
      destruct (session as_search_list rs_as_cmd_throttle
                  collapse_address_list cl1 f rest) as [[r2 cl2] f2].
      cbn [fst snd] in IH. destruct IH as (-> & Hm2 & Hr2).
      destruct r2 as [out2|e2]; cbn [fst snd app].
      * destruct Hr2 as [[= ->]|Hr2]; [auto | discriminate].
      * destruct Hr2 as [Hr2|[= ->]]; [discriminate | auto].
    + cbn [fst snd]. destruct Hr as [Hr|[= ->]]; [discriminate | auto].
Qed.

Lemma lookup_find (t : bbstree) (q : IPv4Network) :
  bst (root t) ->
  (lookup t q ≫= value_of) = find_binding (bindings (root t)) q.
Proof.
  intros Hb. unfold lookup. destruct (is_nil (root t)) eqn:Hnil; cbn [negb].
  - destruct (root t); [reflexivity | discriminate].
  - apply lookup_rec_spec, Hb.
Qed.

Lemma fold_insert_same_value (myas : string) (subnets : list IPv4Network) :
  forall t,
    fold_left (fun t subnet => insert t subnet myas) subnets t
    = fold_left (fun t kv => insert t (fst kv) (snd kv))
                (map (fun subnet => (subnet, myas)) subnets) t.
Proof.
  induction subnets as [|a subnets IH]; intros t; [reflexivity|].
  cbn [fold_left map fst snd]. apply IH.
Qed.

Lemma latest_same_value (myas : string) (subnets : list IPv4Network)
  (q : IPv4Network) :
  latest (map (fun subnet => (subnet, myas)) subnets) q
  = if existsb (fun a => net_eq a q) subnets then Some myas else None.
Proof.
  induction subnets as [|a subnets IH]; [reflexivity|].
  cbn [map latest existsb]. rewrite IH.
  destruct (existsb (fun a => net_eq a q) subnets).
  - rewrite orb_true_r. reflexivity.
  - rewrite orb_false_r. reflexivity.
Qed.

Lemma py_index_none {A : Type} (l : list A) (i : Z) :
  py_index l i = None
  <-> i < - Z.of_nat (length l) \/ Z.of_nat (length l) <= i.
Proof.
  unfold py_index.
  destruct (Z.leb_spec 0 i) as [H0|H0];
    destruct (Z.ltb_spec i (Z.of_nat (length l))) as [H1|H1]; cbn [andb].
  - rewrite lookup_ge_None. lia.
  - destruct (Z.leb_spec (- Z.of_nat (length l)) i);
      destruct (Z.ltb_spec i 0); cbn [andb]; try (split; [lia | reflexivity]).
    lia.
  - destruct (Z.leb_spec (- Z.of_nat (length l)) i) as [H2|H2];
      destruct (Z.ltb_spec i 0) as [H3|H3]; cbn [andb];
      try (split; [lia | reflexivity]).
    rewrite lookup_ge_None. lia.
  - lia.
Qed.

(** X19. The networks of an ASN go into the tree.  When the countdown
    has run out, the ASN pointer is a valid index, the collapsed
    networks are IPv4 networks and the tree holds IPv4 keys in search
    order, [build_send_rteserv_cmd] leaves such a tree again, in which
    [lookup] gives the ASN under the pointer for every key equal to one
    of the collapsed networks and gives what it gave before for every
    other key; the list of networks is emptied, the pointer moves on by
    one and the countdown is set again. *)
Theorem build_send_rteserv_cmd_inserts (cl : TelnetClient)
  (f : TelnetFactory) (myas : string) (t : bbstree)
  (subnets : list IPv4Network) :
  cmd_prompt_cnt f <= 0 ->
  py_index as_search_list (as_ptr f) = Some myas ->
  collapse_address_list (my_addr_list cl) = Returned (map V4 subnets) ->
  Tree f = MixedTree.lift t ->
  bst (root t) ->
  let out := build_send_rteserv_cmd as_search_list rs_as_cmd_throttle
               collapse_address_list cl f in
  exists t',
    Tree out.2 = MixedTree.lift t'
    /\ bst (root t')
    /\ (forall q,
          (lookup t' q ≫= value_of)
          = if existsb (fun a => net_eq a q) subnets
            then Some myas
            else lookup t q ≫= value_of)
    /\ my_addr_list out.1.2 = []
    /\ as_ptr out.2 = as_ptr f + 1
    /\ cmd_prompt_cnt out.2 = rs_as_cmd_throttle.
Proof.
  intros Hc Hidx Hcol Ht Hb. cbv zeta. unfold build_send_rteserv_cmd.
  destruct (Z.gtb_spec (cmd_prompt_cnt f) 0) as [Hgt|_]; [lia|].
  rewrite Hcol, Hidx, Ht, insert_all_lift.
  exists (fold_left (fun t subnet => insert t subnet myas) subnets t).
  rewrite fold_insert_same_value.
  set (ins := map (fun subnet => (subnet, myas)) subnets).
  assert (Hb' : bst (root (fold_left (fun t kv => insert t (fst kv) (snd kv))
                                     ins t)))
    by (apply fold_insert_bst, Hb).
  assert (Hl : forall q,
             (lookup (fold_left (fun t kv => insert t (fst kv) (snd kv))
                                ins t) q ≫= value_of)
             = if existsb (fun a => net_eq a q) subnets
               then Some myas
               else lookup t q ≫= value_of).
  { intros q. rewrite !lookup_find by assumption.
    rewrite fold_insert_find by exact Hb. subst ins.
    rewrite latest_same_value.
    destruct (existsb _ subnets); reflexivity. }
  destruct (as_ptr f + 1 >=? Z.of_nat (length as_search_list)).
  - cbn [fst snd Tree as_ptr cmd_prompt_cnt my_addr_list]. auto 10.
  - destruct (py_index as_search_list (as_ptr f + 1));
      cbn [fst snd Tree as_ptr cmd_prompt_cnt my_addr_list]; auto 10.
Qed.

(** X20. When [build_send_rteserv_cmd] raises.  On a tree whose keys
    are of one version, the call ends with an exception exactly when the
    countdown has run out and one of three things happens:
    [collapse_address_list] raises; or the ASN pointer is not an index
    of [as_search_list] (a new factory with an empty list, a prompt
    after the ["exit"] command), which gives [IndexError] with the tree
    untouched; or the collapsed networks are not all of the version of
    the keys of the tree, which gives the [TypeError] of [insert].  The
    pointer does not move, the countdown has been set again, and the
    networks collected so far are dropped unless it was
    [collapse_address_list] that raised. *)
Theorem build_send_rteserv_cmd_raises (cl : TelnetClient)
  (f : TelnetFactory) :
  MixedTree.uniform (Tree f) ->
  let out := build_send_rteserv_cmd as_search_list rs_as_cmd_throttle
               collapse_address_list cl f in
  let bad_ptr := as_ptr f < - Z.of_nat (length as_search_list)
                 \/ Z.of_nat (length as_search_list) <= as_ptr f in
  ((exists e, out.1.1 = Raised e)
   <-> cmd_prompt_cnt f <= 0
       /\ match collapse_address_list (my_addr_list cl) with
          | Raised _ => True
          | Returned subnets =>
              bad_ptr
              \/ MixedTree.one_version (MixedTree.root_version (Tree f))
                   subnets = false
          end)
  /\ (forall e, out.1.1 = Raised e ->
        as_ptr out.2 = as_ptr f
        /\ cmd_prompt_cnt out.2 = rs_as_cmd_throttle
        /\ match collapse_address_list (my_addr_list cl) with
           | Raised e' => e = e' /\ out.1.2 = cl /\ Tree out.2 = Tree f
           | Returned subnets =>
               my_addr_list out.1.2 = []
               /\ ((bad_ptr /\ e = IndexError /\ Tree out.2 = Tree f)
                   \/ (~ bad_ptr /\ e = TypeError))
           end).
Proof.
  intros Hu. cbv zeta. unfold build_send_rteserv_cmd.
  destruct (Z.gtb_spec (cmd_prompt_cnt f) 0) as [Hgt|Hle].
  { cbn [fst snd]. split; [|discriminate].
    split; [intros [e He]; discriminate | lia]. }
  destruct (collapse_address_list (my_addr_list cl)) as [subnets|e0].
  2:{ cbn [fst snd as_ptr cmd_prompt_cnt Tree]. split.
      - split; [auto | intros _; eexists; reflexivity].
      - intros e [= <-]. auto. }
  destruct (py_index as_search_list (as_ptr f)) as [myas|] eqn:Hidx.
  - assert (Hin : ~ (as_ptr f < - Z.of_nat (length as_search_list)
                     \/ Z.of_nat (length as_search_list) <= as_ptr f)).
    { rewrite <- py_index_none, Hidx. discriminate. }
    destruct (insert_all_spec myas subnets (Tree f) Hu) as [_ Hres].
    destruct (insert_all (Tree f) subnets myas) as [r tree'].
    cbn [fst] in Hres. subst r.
    destruct (MixedTree.one_version _ subnets).
    + assert (Hret : forall (cl' : TelnetClient) (f' : TelnetFactory),
                 exists out : list sent,
                   (if as_ptr f + 1 >=? Z.of_nat (length as_search_list)
                    then (Returned [SendLine "exit"], cl', f')
                    else match py_index as_search_list (as_ptr f + 1) with
                         | Some next_as =>
                             (Returned [SendLine (rtesrv_cmd next_as)],
                              cl', f')
                         | None => (Raised IndexError, cl', f')
                         end) = (Returned out, cl', f')).
      { intros cl' f'.
        destruct (Z.geb_spec (as_ptr f + 1)
                    (Z.of_nat (length as_search_list)));
          [eexists; reflexivity|].
        destruct (py_index as_search_list (as_ptr f + 1)) eqn:Hn;
          [eexists; reflexivity|].
        exfalso. apply py_index_none in Hn. lia. }
      destruct (Hret (mkClient (state_more cl) [])
                  (mkFactory tree' (as_ptr f + 1) rs_as_cmd_throttle))
        as [out ->].
      cbn [fst snd]. split; [|discriminate].
      split; [intros [e He]; discriminate|].
      intros [_ [H1|H1]]; [tauto | discriminate].
    + cbn [fst snd as_ptr cmd_prompt_cnt my_addr_list Tree]. split.
      * split; [intros _; auto | intros _; eexists; reflexivity].
      * intros e [= <-]. auto 10.
  - cbn [fst snd my_addr_list Tree as_ptr cmd_prompt_cnt].
    apply py_index_none in Hidx. split.
    + split; [intros _; auto | intros _; eexists; reflexivity].
    + intros e [= <-]. auto 10.
Qed.

End RteClientFacts.

Lemma processAddr_keeps_witness :
  RteClient.my_addr_list
    (RteClient.processAddr (H := Examples.ipv6_table) RteClient.new_client
       "2001:db8::/32")
  = [IPAddr.V6 (IPAddr.mkNet6 42540766411282592856903984951653826560 32)]
  /\ RteClient.state_more
       (RteClient.processAddr (H := Examples.ipv6_table) RteClient.new_client
          "2001:db8::/32") = false.
Proof.
  apply (processAddr_keeps (ipv6 := Examples.ipv6_table)
           RteClient.new_client "2001:db8::/32").
  intros n E. vm_compute in E. injection E as <-.
  repeat split; vm_compute; congruence.
Defined.

Lemma lineReceived_lone_route_token_witness :
  let cl := RteClient.mkClient true
              [IPAddr.V4 (IPAddr.mkNet 3221225984 24);
               IPAddr.V6 (IPAddr.mkNet6
                            42540766411282592856903984951653826560 32)] in
  let f := RteClient.mkFactory MixedTree.empty 0 0 in
  exists e,
    (RteClient.lineReceived (H := Examples.ipv6_table) ["64500"] 2
       RteClient.collapse_collapsed cl f "*>").1.1 = Raised e
    /\ (e = IndexError
        \/ (RteClient.state_more cl = true
            /\ PyLines.endswith "*>" RteClient.prompt_cmd = true
            /\ (RteClient.build_send_rteserv_cmd ["64500"] 2
                  RteClient.collapse_collapsed cl f).1.1 = Raised e)).
Proof.
  apply (lineReceived_lone_route_token ["64500"] 2
           (ipv6 := Examples.ipv6_table) RteClient.collapse_collapsed
           _ _ "*>" "*>"); reflexivity.
Defined.

Lemma session_before_more_witness :
  let out := RteClient.session (H := Examples.ipv6_table) ["64500"] 2
               RteClient.collapse_collapsed RteClient.new_client
               (RteClient.new_factory MixedTree.empty)
               ["*> 192.0.2.0/24 198.51.100.1 0 64500 i"; "rs>"] in
  out.2 = RteClient.new_factory MixedTree.empty
  /\ RteClient.state_more out.1.2 = false
  /\ (out.1.1 = Returned [] \/ out.1.1 = Raised IndexError).
Proof.
  apply (session_before_more ["64500"] 2 (ipv6 := Examples.ipv6_table)
           RteClient.collapse_collapsed RteClient.new_client
           (RteClient.new_factory MixedTree.empty)
           ["*> 192.0.2.0/24 198.51.100.1 0 64500 i"; "rs>"]).
  - reflexivity.
  - repeat constructor; discriminate.
Defined.

Lemma build_send_rteserv_cmd_inserts_witness :
  let cl := RteClient.mkClient true
              [IPAddr.V4 (IPAddr.mkNet 3221225984 24)] in
  let f := RteClient.mkFactory MixedTree.empty 0 0 in
  let out := RteClient.build_send_rteserv_cmd ["64500"] 2
               RteClient.collapse_collapsed cl f in
  exists t',
    RteClient.Tree out.2 = MixedTree.lift t'
    /\ BlkTree.bst (BlkTree.root t')
    /\ (forall q,
          (TreeOps.lookup t' q ≫= BlkTree.value_of)
          = if existsb (fun a => IPAddr.net_eq a q)
                       [IPAddr.mkNet 3221225984 24]
            then Some "64500"
            else TreeOps.lookup BlkTree.empty q ≫= BlkTree.value_of)
    /\ RteClient.my_addr_list out.1.2 = []
    /\ RteClient.as_ptr out.2 = 0 + 1
    /\ RteClient.cmd_prompt_cnt out.2 = 2.
Proof.
  apply (build_send_rteserv_cmd_inserts ["64500"] 2
           RteClient.collapse_collapsed
           (RteClient.mkClient true [IPAddr.V4 (IPAddr.mkNet 3221225984 24)])
           (RteClient.mkFactory MixedTree.empty 0 0) "64500"
           BlkTree.empty [IPAddr.mkNet 3221225984 24]).
  - simpl. lia.
  - reflexivity.
  - reflexivity.
  - reflexivity.
  - exact I.
Defined.

Lemma build_send_rteserv_cmd_raises_witness :
  let cl := RteClient.mkClient true
              [IPAddr.V4 (IPAddr.mkNet 3221225984 24);
               IPAddr.V6 (IPAddr.mkNet6
                            42540766411282592856903984951653826560 32)] in
  let f := RteClient.mkFactory MixedTree.empty 0 0 in
  let out := RteClient.build_send_rteserv_cmd ["64500"] 2
               RteClient.collapse_collapsed cl f in
  out.1.1 = Raised TypeError
  /\ out.1.2 = cl
  /\ RteClient.Tree out.2 = MixedTree.empty
  /\ RteClient.as_ptr out.2 = 0
  /\ RteClient.cmd_prompt_cnt out.2 = 2.
Proof.
  intros cl f out.
  destruct (build_send_rteserv_cmd_raises ["64500"] 2
              RteClient.collapse_collapsed cl f) as [_ H].
  { constructor. }
  specialize (H TypeError eq_refl).
  destruct H as (Hp & Hc & _ & Hcl & Ht).
  split; [reflexivity|]. auto.
Defined.

(** ** The blocks of the whois session *)

Section WhoisFacts.
Import PyStr PyLines IpDict Rdblk.
Variable debug : Z.

Lemma append_assoc (a b c : string) :
  ((a ++ b) ++ c)%string = (a ++ (b ++ c))%string.
Proof.
  induction a as [|ch a IH]; [reflexivity|].
  change (String ch ((a ++ b) ++ c) = String ch (a ++ (b ++ c))).
  rewrite IH. reflexivity.
Qed.

Lemma sub_newlines_cons (c : ascii) (s : string) :
  sub_newlines (String c s)
  = if Ascii.eqb c LF then (Cfg.DELIM ++ sub_newlines s)%string
    else if Ascii.eqb c CR && starts_lf s
         then (Cfg.DELIM ++ sub_newlines (drop_chars 1 s))%string
         else String c (sub_newlines s).
Proof.
  cbn [sub_newlines]. destruct (Ascii.eqb c LF); [reflexivity|].
  destruct (Ascii.eqb c CR); [|reflexivity].
  destruct s as [|c' s']; [reflexivity|]. cbn [starts_lf andb drop_chars].
  destruct (Ascii.eqb c' LF); reflexivity.
Qed.

(** The substitution works block by block, unless a block ends between
    the two characters of a line end. *)
Lemma sub_newlines_app (a b : string) :
  ends_cr a && starts_lf b = false ->
  sub_newlines (a ++ b) = (sub_newlines a ++ sub_newlines b)%string.
Proof.
  enough (H : (ends_cr a && starts_lf b = false ->
               sub_newlines (a ++ b)
               = (sub_newlines a ++ sub_newlines b)%string)
              /\ forall c, ends_cr (String c a) && starts_lf b = false ->
                           sub_newlines (String c a ++ b)
                           = (sub_newlines (String c a)
                              ++ sub_newlines b)%string) by apply H.
  induction a as [|x a [IH1 IH2]].
  - split; [reflexivity|]. intros c Hc.
    change (String c "" ++ b)%string with (String c b).
    rewrite !sub_newlines_cons. cbn [ends_cr starts_lf andb] in *.
    destruct (Ascii.eqb c LF); [reflexivity|].
    rewrite Hc, andb_false_r. reflexivity.
  - split; [apply IH2|]. intros c Hc.
    change (String c (String x a) ++ b)%string
      with (String c (String x a ++ b)).
    rewrite (sub_newlines_cons c (String x a ++ b)),
      (sub_newlines_cons c (String x a)).
    change (ends_cr (String c (String x a))) with (ends_cr (String x a)) in Hc.
    specialize (IH2 x Hc).
    change (starts_lf (String x a ++ b)) with (starts_lf (String x a)).
    change (drop_chars 1 (String x a ++ b)) with (a ++ b)%string.
    change (drop_chars 1 (String x a)) with a.
    destruct (Ascii.eqb c LF).
    + rewrite IH2, append_assoc. reflexivity.
    + destruct (Ascii.eqb c CR && starts_lf (String x a)) eqn:E.
      * rewrite append_assoc. f_equal.
        apply IH1. destruct a as [|y a]; [|exact Hc].
        cbn [starts_lf] in E. cbn [ends_cr] in Hc |- *.
        apply andb_prop in E as [_ E].
        destruct b as [|z b]; [apply andb_false_r|]. reflexivity.
      * rewrite IH2. reflexivity.
Qed.

Lemma starts_lf_sub_newlines (s : string) : starts_lf (sub_newlines s) = false.
Proof.
  destruct s as [|c s]; [reflexivity|]. rewrite sub_newlines_cons.
  destruct (Ascii.eqb c LF) eqn:E; [reflexivity|].
  destruct (Ascii.eqb c CR && starts_lf s); [reflexivity|].
  cbn [starts_lf]. exact E.
Qed.

Lemma split_delim_cons (c : ascii) (s : string) :
  split_delim (String c s)
  = if Ascii.eqb c CR && starts_lf s
    then EmptyString :: split_delim (drop_chars 1 s)
    else cons_head c (split_delim s).
Proof.
  cbn [split_delim]. destruct (Ascii.eqb c CR); [|reflexivity].
  destruct s as [|c' s']; [reflexivity|]. cbn [starts_lf andb drop_chars].
  destruct (Ascii.eqb c' LF); reflexivity.
Qed.

Lemma split_delim_not_nil (s : string) : split_delim s <> [].
Proof.
  destruct s as [|c s]; [discriminate|]. rewrite split_delim_cons.
  destruct (Ascii.eqb c CR && starts_lf s); [discriminate|].
  destruct (split_delim s); discriminate.
Qed.

(** The first piece starts like the string. *)
Lemma split_delim_head (s p : string) (ps : list string) :
  split_delim s = p :: ps -> starts_lf p = true -> starts_lf s = true.
Proof.
  destruct s as [|c s]; [intros [= <- <-]; discriminate|].
  rewrite split_delim_cons.
  destruct (Ascii.eqb c CR && starts_lf s); [intros [= <- <-]; discriminate|].
  destruct (split_delim s) as [|x xs]; cbn [cons_head];
    intros [= <- <-]; cbn [starts_lf]; auto.
Qed.

(** Splitting a string that is given in two parts: the pieces completed
    by the first part, then the pieces of what the first part left over
    followed by the second part. *)
Lemma split_delim_app (x y : string) :
  starts_lf y = false ->
  split_delim (x ++ y)
  = (removelast (split_delim x)
     ++ split_delim (List.last (split_delim x) EmptyString ++ y))%list.
Proof.
  intros Hy.
  enough (H : split_delim (x ++ y)
              = (removelast (split_delim x)
                 ++ split_delim (List.last (split_delim x) EmptyString
                                 ++ y))%list
              /\ forall c,
                  split_delim (String c x ++ y)
                  = (removelast (split_delim (String c x))
                     ++ split_delim (List.last (split_delim (String c x))
                                               EmptyString ++ y))%list)
    by apply H.
  induction x as [|x0 a [IH1 IH2]].
  - split; [reflexivity|]. intros c.
    change (String c "" ++ y)%string with (String c y).
    rewrite (split_delim_cons c ""). cbn [starts_lf]. rewrite andb_false_r.
    cbn [split_delim cons_head removelast List.last app].
    reflexivity.
  - split; [apply IH2|]. intros c.
    change (String c (String x0 a) ++ y)%string
      with (String c (String x0 a ++ y)).
    rewrite (split_delim_cons c (String x0 a ++ y)),
      (split_delim_cons c (String x0 a)).
    change (starts_lf (String x0 a ++ y)) with (starts_lf (String x0 a)).
    change (drop_chars 1 (String x0 a ++ y)) with (a ++ y)%string.
    change (drop_chars 1 (String x0 a)) with a.
    destruct (Ascii.eqb c CR && starts_lf (String x0 a)) eqn:E.
    + rewrite IH1. pose proof (split_delim_not_nil a) as Hne.
      destruct (split_delim a) as [|p ps]; [congruence|]. reflexivity.
    + rewrite IH2. pose proof (split_delim_not_nil (String x0 a)) as Hne.
      destruct (split_delim (String x0 a)) as [|p [|q rest]] eqn:Hs;
        [congruence | |reflexivity].
      cbn [cons_head removelast List.last app].
      change (String c p ++ y)%string with (String c (p ++ y)).
      rewrite split_delim_cons.
      assert (Hp : Ascii.eqb c CR && starts_lf (p ++ y) = false).
      { destruct (Ascii.eqb c CR); [|reflexivity]. cbn [andb] in E |- *.
        destruct p as [|p0 p']; [exact Hy|].
        change (starts_lf (String p0 p' ++ y)) with (starts_lf (String p0 p')).
        destruct (starts_lf (String p0 p')) eqn:Hp0; [|reflexivity].
        rewrite (split_delim_head _ _ _ Hs Hp0) in E. discriminate. }
      rewrite Hp. reflexivity.
Qed.

Lemma lines_loop_app (d : ip_dict) (l1 l2 : list string) :
  (lines_loop debug d (l1 ++ l2)).1
  = (lines_loop debug (lines_loop debug d l1).1 l2).1.
Proof.
  revert d. induction l1 as [|line l1 IH]; intros d; [reflexivity|].
  cbn [app lines_loop].
  destruct (if MAX_LENGTH <? Z.of_nat (String.length line)
            then (d, [LogErr ("BDprot: Error - line too long: " ++ line)])
            else Rdblk.lineReceived debug d line) as [d' l].
  specialize (IH d').
  destruct (lines_loop debug d' (l1 ++ l2)) as [da la].
  destruct (lines_loop debug d' l1) as [db lb]. cbn [fst] in IH |- *.
  exact IH.
Qed.

(** The buffer and the dictionary a call of [dataReceived] leaves. *)
Lemma dataReceived_state (buffer : string) (d : ip_dict) (data : string) :
  let pieces := split_delim (buffer ++ sub_newlines data) in
  (dataReceived debug buffer d data).1.1.2 = List.last pieces EmptyString
  /\ (dataReceived debug buffer d data).1.2
     = (lines_loop debug d (removelast pieces)).1.
Proof.
  cbv zeta. unfold dataReceived.
  destruct (lines_loop debug d
              (removelast (split_delim (buffer ++ sub_newlines data))))
    as [d' l].
  destruct (MAX_LENGTH <? _); [|split; reflexivity].
  destruct (removelast (split_delim (buffer ++ sub_newlines data)));
    split; reflexivity.
Qed.

Lemma list_last_app {A : Type} (l1 l2 : list A) (x : A) :
  l2 <> [] -> List.last (l1 ++ l2) x = List.last l2 x.
Proof.
  intros Hne. induction l1 as [|a l1 IH]; [reflexivity|].
  cbn [app]. destruct (l1 ++ l2)%list eqn:E; [|exact IH].
  apply app_eq_nil in E as [_ E]. congruence.
Qed.

(** X21. The whois answer in blocks.  Handing [dataReceived] a piece of
    the answer in two blocks leaves the same buffer and the same
    dictionary as handing it over in one block, wherever the cut is,
    provided it does not fall between the carriage return and the line
    feed of a line end. *)
Theorem dataReceived_blocks (buffer : string) (d : ip_dict)
  (data1 data2 : string) :
  ends_cr data1 && starts_lf data2 = false ->
  let r1 := dataReceived debug buffer d data1 in
  let r2 := dataReceived debug r1.1.1.2 r1.1.2 data2 in
  let r := dataReceived debug buffer d (data1 ++ data2) in
  r2.1.1.2 = r.1.1.2 /\ r2.1.2 = r.1.2.
Proof.
  intros Hcut. cbv zeta.
  destruct (dataReceived_state buffer d data1) as [Hb1 Hd1].
  destruct (dataReceived_state (dataReceived debug buffer d data1).1.1.2
              (dataReceived debug buffer d data1).1.2 data2) as [Hb2 Hd2].
  destruct (dataReceived_state buffer d (data1 ++ data2)) as [Hb Hd].
  rewrite Hb2, Hd2, Hb, Hd, Hb1, Hd1.
  rewrite (sub_newlines_app data1 data2 Hcut), <- append_assoc.
  rewrite (split_delim_app (buffer ++ sub_newlines data1)
             (sub_newlines data2) (starts_lf_sub_newlines data2)).
  set (p1 := split_delim (buffer ++ sub_newlines data1)).
  set (p2 := split_delim (List.last p1 "" ++ sub_newlines data2)).
  assert (Hne : p2 <> []) by apply split_delim_not_nil.
  split.
  - rewrite list_last_app by exact Hne. reflexivity.
  - rewrite removelast_app by exact Hne. apply eq_sym, lines_loop_app.
Qed.

Lemma prefix_delim (c : ascii) (s : string) :
  String.prefix Cfg.DELIM (String c s) = Ascii.eqb c CR && starts_lf s.
Proof.
  change Cfg.DELIM with (String "013" (String "010" "")).
  destruct s as [|c' s]; cbn [String.prefix starts_lf]; unfold CR, LF.
  - destruct (ascii_dec "013" c); rewrite andb_false_r; reflexivity.
  - destruct (ascii_dec "013" c) as [<-|Hne].
    + change (Ascii.eqb "013" "013") with true. cbn [andb].
      destruct (ascii_dec "010" c') as [<-|Hne']; [destruct s; reflexivity|].
      destruct (Ascii.eqb_spec c' "010"%char); [congruence | reflexivity].
    + destruct (Ascii.eqb_spec c "013"%char); [congruence | reflexivity].
Qed.

(** A string without a line end is one piece; with one it is two or
    more. *)
Lemma split_delim_single (s : string) :
  if str_in Cfg.DELIM s then (2 <= length (split_delim s))%nat
  else split_delim s = [s].
Proof.
  induction s as [|c s IH]; [reflexivity|].
  cbn [str_in]. rewrite prefix_delim, split_delim_cons.
  destruct (Ascii.eqb c CR && starts_lf s); cbn [orb].
  - pose proof (split_delim_not_nil (drop_chars 1 s)) as Hne.
    destruct (split_delim (drop_chars 1 s)); [congruence|]. cbn [length]. lia.
  - destruct (str_in Cfg.DELIM s).
    + destruct (split_delim s) as [|p ps]; cbn [cons_head length] in *; lia.
    + rewrite IH. reflexivity.
Qed.

(** X22. When [dataReceived] raises.  The call ends with an exception
    exactly when the buffer with the new block holds no line end and is
    longer than [MAX_LENGTH]: the statement that reports the overlong
    buffer names the variable of a loop that did not run.  The exception
    is the [UnboundLocalError] of [line]; the buffer has been replaced
    by the overlong text. *)
Theorem dataReceived_raises (buffer : string) (d : ip_dict) (data : string) :
  let out := dataReceived debug buffer d data in
  let text := (buffer ++ sub_newlines data)%string in
  ((exists e, out.1.1.1 = Raised e)
   <-> str_in Cfg.DELIM text = false
       /\ MAX_LENGTH < Z.of_nat (String.length text))
  /\ (forall e, out.1.1.1 = Raised e ->
        e = NameError "line" /\ out.1.1.2 = text /\ out.1.2 = d).
Proof.
  cbv zeta. unfold dataReceived.
  pose proof (split_delim_single (buffer ++ sub_newlines data)) as Hs.
  destruct (str_in Cfg.DELIM (buffer ++ sub_newlines data)).
  - assert (Hl : exists x xs,
               removelast (split_delim (buffer ++ sub_newlines data))
               = x :: xs).
    { destruct (split_delim (buffer ++ sub_newlines data)) as [|p [|q rest]];
        cbn [length] in Hs; [lia | lia |]. eexists _, _. reflexivity. }
    destruct Hl as (x & xs & ->).
    destruct (lines_loop debug d (x :: xs)) as [d' l].
    destruct (MAX_LENGTH <? _); cbn [fst snd].
    + split; [|discriminate]. split; [intros [e He]|intros [He _]]; discriminate.
    + split; [|discriminate]. split; [intros [e He]|intros [He _]]; discriminate.
  - rewrite Hs. cbn [removelast List.last lines_loop].
    destruct (Z.ltb_spec MAX_LENGTH
                (Z.of_nat (String.length (buffer ++ sub_newlines data))))
      as [Hlong|Hshort]; cbn [fst snd].
    + split.
      * split; [auto | intros _; eexists; reflexivity].
      * intros e [= <-]. auto.
    + split; [|discriminate].
      split; [intros [e He]; discriminate | lia].
Qed.

End WhoisFacts.

Lemma dataReceived_blocks_witness :
  let r1 := Rdblk.dataReceived 0 "" Examples.registry1234 "1234 | 10.0" in
  let r2 := Rdblk.dataReceived 0 r1.1.1.2 r1.1.2
              (".0.1 | CA | x" ++ Cfg.nl)%string in
  let r := Rdblk.dataReceived 0 "" Examples.registry1234
             ("1234 | 10.0" ++ (".0.1 | CA | x" ++ Cfg.nl))%string in
  r2.1.1.2 = r.1.1.2 /\ r2.1.2 = r.1.2.
Proof.
  apply (dataReceived_blocks 0 "" Examples.registry1234 "1234 | 10.0"
           (".0.1 | CA | x" ++ Cfg.nl)%string).
  reflexivity.
Defined.

(** ** The balance of the tree *)

Section BalanceFacts.
Import IPAddr BlkTree TreeOps Balance.

Lemma skew_node lv k v l r :
  lv <> 0%nat ->
  __skew (Node lv k v l r)
  = match l with
    | Node llv lk lval ll lr =>
        if (llv =? lv)%nat then Node llv lk lval ll (Node lv k v lr r)
        else Node lv k v l r
    | NIL_NODE => Node lv k v l r
    end.
Proof.
  intros H. unfold __skew. cbn [level].
  destruct (Nat.eqb_spec lv 0); [lia|]. cbn [negb]. destruct l; reflexivity.
Qed.

Lemma split_node lv k v l r :
  lv <> 0%nat ->
  __split (Node lv k v l r)
  = if (lv =? level (sub1_of r))%nat then
      match r with
      | Node rlv rk rval rl rr => Node (rlv + 1) rk rval (Node lv k v l rl) rr
      | NIL_NODE => Node lv k v l r
      end
    else Node lv k v l r.
Proof.
  intros H. unfold __split. cbn [level sub1_of].
  destruct (Nat.eqb_spec lv 0); [lia|]. cbn [negb].
  destruct (lv =? level (sub1_of r))%nat; [|reflexivity].
  destruct r; reflexivity.
Qed.

Lemma aa_right_le (t : bbsnode) : aa t -> (level (sub1_of t) <= level t)%nat.
Proof.
  destruct t as [|lv k v l r]; [reflexivity|].
  cbn [aa level sub1_of]. lia.
Qed.

Lemma aa_level_pos lv k v l r : aa (Node lv k v l r) -> lv <> 0%nat.
Proof. cbn [aa]. lia. Qed.

Lemma aa_rebalance_id (t : bbsnode) : aa t -> __split (__skew t) = t.
Proof.
  destruct t as [|lv k v l r]; [reflexivity|]. intros H.
  pose proof (aa_level_pos _ _ _ _ _ H) as Hlv.
  cbn [aa] in H. destruct H as (Hl & Hr & Hb & Hc & Hd).
  rewrite skew_node by exact Hlv.
  assert (Hs : match l with
               | Node llv lk lval ll lr =>
                   if (llv =? lv)%nat then Node llv lk lval ll (Node lv k v lr r)
                   else Node lv k v l r
               | NIL_NODE => Node lv k v l r
               end = Node lv k v l r).
  { destruct l as [|llv lk lval ll lr]; [reflexivity|].
    cbn [level] in Hb. destruct (Nat.eqb_spec llv lv); [lia | reflexivity]. }
  rewrite Hs, split_node by exact Hlv.
  destruct (Nat.eqb_spec lv (level (sub1_of r))); [lia | reflexivity].
Qed.

Lemma insert_rec_aa (k : IPv4Network) (v : string) (t : bbsnode) :
  is_nil t = false -> aa t ->
  let t' := __split (__skew (__insert t k v)) in
  aa t'
  /\ (level t' = level t
      \/ (level t' = S (level t) /\ (level (sub1_of t') < level t')%nat))
  /\ ((level (sub1_of t) < level t)%nat -> level t' = level t).
Proof.
  induction t as [|lv key val l IHl r IHr]; [discriminate|].
  intros _ Haa. cbv zeta. cbn [__insert].
  pose proof (aa_level_pos _ _ _ _ _ Haa) as Hlv.
  destruct (net_eq k key).
  { rewrite aa_rebalance_id; [cbn [level]; auto|].
    cbn [aa] in Haa |- *. exact Haa. }
  cbn [aa] in Haa. destruct Haa as (Hl & Hr & Hb & Hc & Hd).
  cbn [level sub1_of].
  destruct (net_gt k key).
  - destruct r as [|rlv rk rval rl rr].
    + cbn [level] in Hc.
      destruct l as [|llv lk lval ll lr];
        [|cbn [aa] in Hl; cbn [level] in Hb; lia].
      cbn [level] in Hb. subst lv. cbn. auto 10 with lia.
    + specialize (IHr eq_refl Hr). cbv zeta in IHr.
      destruct IHr as (Hr' & Hgrow & Hsngl).
      remember (__split (__skew (__insert (Node rlv rk rval rl rr) k v))) as r'
        eqn:Er'. clear Er'.
      cbn [level sub1_of aa] in Hc, Hd, Hgrow, Hsngl, Hr.
      destruct r' as [|rlv' rk' rval' rl' rr']; [cbn [level] in Hgrow; lia|].
      pose proof (aa_right_le _ Hr') as Hrr'.
      cbn [aa] in Hr'. destruct Hr' as (Hrl' & Hrr'a & Hb' & Hc' & Hd').
      cbn [level sub1_of] in Hgrow, Hrr', Hsngl.
      pose proof (aa_right_le _ Hrl') as Hrl'r.
      pose proof (aa_right_le _ Hrr'a) as Hrr'r.
      rewrite skew_node by exact Hlv.
      assert (Hs : match l with
                   | Node llv lk lval ll lr =>
                       if (llv =? lv)%nat
                       then Node llv lk lval ll
                              (Node lv key val lr (Node rlv' rk' rval' rl' rr'))
                       else Node lv key val l (Node rlv' rk' rval' rl' rr')
                   | NIL_NODE => Node lv key val l (Node rlv' rk' rval' rl' rr')
                   end = Node lv key val l (Node rlv' rk' rval' rl' rr')).
      { destruct l as [|llv lk lval ll lr]; [reflexivity|].
        cbn [level] in Hb. destruct (Nat.eqb_spec llv lv); [lia | reflexivity]. }
      rewrite Hs, split_node by exact Hlv. cbn [sub1_of].
      destruct (Nat.eqb_spec lv (level rr')) as [E|E].
      * cbn [aa level sub1_of]. 
        repeat split; try assumption; try lia.
      * cbn [aa level sub1_of].
        repeat split; try assumption; try lia.
  - destruct l as [|llv lk lval ll lr].
    + cbn [level] in Hb. subst lv. rewrite skew_node by lia.
      cbn [Nat.eqb]. rewrite split_node by lia. cbn [sub1_of].
      pose proof (aa_right_le _ Hr) as Hrr.
      destruct (Nat.eqb_spec 1 (level r)) as [E|E].
      * destruct r as [|rlv rk rval rl rr]; [discriminate E|].
        cbn [level sub1_of aa] in *.
        repeat split; try tauto; try lia.
      * cbn [aa level sub1_of]. repeat split; try assumption; try lia.
    + specialize (IHl eq_refl Hl). cbv zeta in IHl.
      destruct IHl as (Hl' & Hgrow & Hsngl).
      remember (__split (__skew (__insert (Node llv lk lval ll lr) k v))) as l'
        eqn:El'. clear El'.
      cbn [level sub1_of aa] in Hb, Hgrow, Hsngl, Hl.
      destruct l' as [|llv' lk' lval' ll' lr']; [cbn [level] in Hgrow; lia|].
      pose proof (aa_right_le _ Hl') as Hlr'.
      cbn [aa] in Hl'. destruct Hl' as (Hll' & Hlr'a & Hb' & Hc' & Hd').
      cbn [level sub1_of] in Hgrow, Hlr', Hsngl.
      pose proof (aa_right_le _ Hll') as Hll'r.
      pose proof (aa_right_le _ Hlr'a) as Hlr'r.
      pose proof (aa_right_le _ Hr) as Hrr.
      rewrite skew_node by exact Hlv.
      destruct (Nat.eqb_spec llv' lv) as [E|E].
      * rewrite split_node by lia. cbn [sub1_of].
        destruct (Nat.eqb_spec llv' (level r)) as [E2|E2].
        -- cbn [aa level sub1_of].
           repeat split; try assumption; try lia.
        -- cbn [aa level sub1_of].
           repeat split; try assumption; try lia.
      * rewrite split_node by exact Hlv.
        destruct (Nat.eqb_spec lv (level (sub1_of r))) as [E2|E2]; [lia|].
        cbn [aa level sub1_of].
        repeat split; try assumption; try lia.
Qed.
Lemma insert_aa (t : bbstree) k v : aa (root t) -> aa (root (insert t k v)).
Proof.
  intros H. unfold insert. destruct (is_nil (root t)) eqn:Hnil; cbn [negb root].
  - cbn. auto with lia.
  - apply (insert_rec_aa k v (root t) Hnil H).
Qed.

Lemma aa_depth (t : bbsnode) :
  aa t ->
  (depth t <= 2 * level t)%nat
  /\ ((level (sub1_of t) < level t)%nat -> (S (depth t) <= 2 * level t)%nat).
Proof.
  induction t as [|lv key val l IHl r IHr]; [cbn; lia|].
  intros H. pose proof (aa_right_le _ (proj1 (proj2 H))) as Hrr.
  cbn [aa] in H. destruct H as (Hl & Hr & Hb & Hc & Hd).
  destruct (IHl Hl) as [Hl1 _]. destruct (IHr Hr) as [Hr1 Hr2].
  cbn [depth level sub1_of]. lia.
Qed.

Lemma aa_size (t : bbsnode) : aa t -> (2 ^ level t <= S (size t))%nat.
Proof.
  induction t as [|lv key val l IHl r IHr]; [cbn; lia|].
  intros H. cbn [aa] in H. destruct H as (Hl & Hr & Hb & Hc & Hd).
  specialize (IHl Hl). specialize (IHr Hr). cbn [level size].
  assert (Hp : (2 ^ level l <= 2 ^ level r)%nat)
    by (apply Nat.pow_le_mono_r; lia).
  rewrite Hb. cbn [Nat.pow]. lia.
Qed.

Lemma size_bindings (t : bbsnode) : size t = length (bindings t).
Proof.
  induction t as [|lv key val l IHl r IHr]; [reflexivity|].
  cbn [size bindings]. rewrite length_app. cbn [length]. lia.
Qed.

Lemma size_insert_rec (t : bbsnode) k v :
  (size (__insert t k v) <= S (size t))%nat.
Proof.
  induction t as [|lv key val l IHl r IHr]; [cbn; lia|].
  cbn [__insert]. destruct (net_eq k key); [cbn [size]; lia|].
  destruct (net_gt k key).
  - destruct r as [|rlv rk rval rl rr]; [cbn [size]; lia|].
    remember (Node rlv rk rval rl rr) as r0. cbn [size].
    rewrite (size_bindings (__split _)), bindings_rebalance, <- size_bindings.
    lia.
  - destruct l as [|llv lk lval ll lr]; [cbn [size]; lia|].
    remember (Node llv lk lval ll lr) as l0. cbn [size].
    rewrite (size_bindings (__split _)), bindings_rebalance, <- size_bindings.
    lia.
Qed.

Lemma visited_depth (t : bbsnode) k : (visited t k <= depth t)%nat.
Proof.
  induction t as [|lv key val l IHl r IHr]; [reflexivity|].
  cbn [visited depth]. destruct (net_eq key k); [lia|].
  destruct (net_gt k key); lia.
Qed.

End BalanceFacts.

(** ** The query page *)

Section WebFacts.
Import PyStr Re IpDict State Web.

Lemma span_all_digits (a : string) :
  IPAddr.all_digits a = true -> span is_digit a = (a, EmptyString).
Proof.
  induction a as [|c a IH]; [reflexivity|]. cbn [IPAddr.all_digits span].
  intros H. apply andb_true_iff in H as [Hc Ha].
  change (IPAddr.is_digit c) with (is_digit c) in Hc.
  rewrite Hc, (IH Ha). reflexivity.
Qed.

Lemma take_chars_all (n : nat) (s : string) :
  (String.length s <= n)%nat -> take_chars n s = s.
Proof.
  revert n. induction s as [|c s IH]; intros n H.
  - destruct n; reflexivity.
  - destruct n as [|n]; [cbn in H; lia|]. cbn [take_chars].
    rewrite IH by (cbn in H; lia). reflexivity.
Qed.

Lemma octet_dot_octet (a s : string) (v : Z) :
  IPAddr.parse_number 3 255 a = Some v ->
  octet_dot (a ++ String "." s) = Some (a, s).
Proof.
  intros H. unfold octet_dot. rewrite (digits_dot_octet a s v H).
  apply parse_number_digits in H as (Hd & _).
  rewrite (span_digits_dot a s Hd). reflexivity.
Qed.

Lemma octet_last_octet (a : string) (v : Z) :
  IPAddr.parse_number 3 255 a = Some v -> octet_last a = Some a.
Proof.
  intros H. apply parse_number_digits in H as (Hd & H1 & H3).
  unfold octet_last. rewrite (span_all_digits a Hd). cbn [fst].
  destruct a as [|c a]; [cbn in H1; lia|]. cbn [truthy].
  rewrite take_chars_all by exact H3. reflexivity.
Qed.

Lemma length_append (a b : string) :
  String.length (a ++ b) = (String.length a + String.length b)%nat.
Proof.
  induction a as [|c a IH]; [reflexivity|].
  change (S (String.length (a ++ b)) = S (String.length a + String.length b)).
  rewrite IH. reflexivity.
Qed.

(** A dotted quad is matched as a whole, and it is 15 characters at
    most. *)
Lemma ipv4_at_dotted_quad (s : string) (x : Z) :
  IPAddr.parse_address s = Some x ->
  ipv4_at s = Some s /\ (1 <= String.length s <= 15)%nat.
Proof.
  unfold IPAddr.parse_address.
  destruct (IPAddr.split_on "." "" s) as [|a [|b [|c [|d [|e l]]]]] eqn:E;
    try discriminate.
  destruct (IPAddr.parse_number 3 255 a) as [va|] eqn:Ha; [|discriminate].
  destruct (IPAddr.parse_number 3 255 b) as [vb|] eqn:Hb; [|discriminate].
  destruct (IPAddr.parse_number 3 255 c) as [vc|] eqn:Hc; [|discriminate].
  destruct (IPAddr.parse_number 3 255 d) as [vd|] eqn:Hd; [|discriminate].
  intros _.
  apply split_on_cons in E as (a' & s1 & Ea & -> & E).
  change (a = a') in Ea. subst a'.
  apply split_on_cons in E as (b' & s2 & Eb & -> & E).
  change (b = b') in Eb. subst b'.
  apply split_on_cons in E as (c' & s3 & Ec & -> & E).
  change (c = c') in Ec. subst c'.
  apply split_on_single in E. change (d = s3) in E. subst s3.
  split.
  - unfold ipv4_at.
    rewrite (octet_dot_octet a _ va Ha), (octet_dot_octet b _ vb Hb),
      (octet_dot_octet c _ vc Hc), (octet_last_octet d vd Hd).
    reflexivity.
  - apply parse_number_digits in Ha as (_ & A1 & A3).
    apply parse_number_digits in Hb as (_ & B1 & B3).
    apply parse_number_digits in Hc as (_ & C1 & C3).
    apply parse_number_digits in Hd as (_ & D1 & D3).
    rewrite !length_append.
    change (String.length (String "." ?z)) with (S (String.length z)).
    cbn [String.length]. rewrite !length_append. cbn [String.length].
    rewrite !length_append. cbn [String.length]. lia.
Qed.

(** X23. Query of a stored address.  With a dictionary in place, a
    query whose value is a dotted quad that the dictionary holds is
    answered with the record stored under exactly that address: the
    address, then the ASN, country code, blocklist and description
    fields. *)
Theorem render_POST_stored (bstate : BlkState) (ip_dict : ip_dict)
  (value : string) (others : list string) (x : Z) (e : elt) :
  get_dict bstate = Some ip_dict ->
  IPAddr.parse_address value = Some x ->
  ip_dict !! value = Some e ->
  render_POST bstate (Some (value :: others))
  = join " " ["Hostile IP: "; value; e_as e; e_cc e; e_org e; e_desc e].
Proof.
  intros Hd Hp He. unfold render_POST. rewrite Hd.
  destruct (ipv4_at_dotted_quad value x Hp) as [Hat [H1 H15]].
  destruct value as [|c0 v0] eqn:Ev; [cbn in H1; lia|]. rewrite <- Ev in *.
  replace (truthy value) with true by (rewrite Ev; reflexivity).
  rewrite take_chars_all by lia.
  assert (Hs : re_ipv4_search value = Some value).
  { rewrite Ev in Hat |- *. cbn [re_ipv4_search]. rewrite Hat. reflexivity. }
  rewrite Hs. unfold list_elt. rewrite He. reflexivity.
Qed.

End WebFacts.

Lemma render_POST_stored_witness :
  Web.render_POST
    (State.mkState None (Some Examples.registry1234) 0 0)
    (Some ["10.0.0.1"])
  = PyStr.join " " ["Hostile IP: "; "10.0.0.1"; "1234"; "CA"; "dshield";
                    "scanner"].
Proof.
  exact (render_POST_stored
           (State.mkState None (Some Examples.registry1234) 0 0)
           Examples.registry1234 "10.0.0.1" [] 167772161
           (IpDict.mkElt "1234" "CA" "dshield" "scanner")
           eq_refl eq_refl eq_refl).
Defined.

(** ** Deletion from the tree *)

Section DeleteFacts.
Import IPAddr BlkTree TreeOps TreeDelete.

Lemma net_lt_gt (a b : IPv4Network) : net_lt a b = net_gt b a.
Proof.
  unfold net_lt, net_gt.
  rewrite (Z.eqb_sym (network b)), (Z.eqb_sym (netmask b)), !Z.gtb_ltb.
  reflexivity.
Qed.

Lemma bindings_set_level lv t : bindings (set_level lv t) = bindings t.
Proof. destruct t; reflexivity. Qed.

Lemma bindings_map_sub1 f t :
  (forall x, bindings (f x) = bindings x) ->
  bindings (map_sub1 f t) = bindings t.
Proof. intros H. destruct t; [reflexivity|]. cbn [map_sub1 bindings]. rewrite H. reflexivity. Qed.

Lemma bindings_after_delete t : bindings (after_delete t) = bindings t.
Proof.
  destruct t as [|lv0 k v l r]; [reflexivity|]. unfold after_delete.
  destruct ((level l <? lv0 - 1)%nat || (level r <? lv0 - 1)%nat);
    [|reflexivity].
  rewrite bindings_map_sub1 by apply bindings_split.
  rewrite bindings_split.
  rewrite bindings_map_sub1
    by (intros x; apply bindings_map_sub1, bindings_skew).
  rewrite bindings_map_sub1 by apply bindings_skew.
  rewrite bindings_skew. cbn [bindings].
  destruct (lv0 - 1 <? level r)%nat; [rewrite bindings_set_level|];
    reflexivity.
Qed.

Lemma bst_keys_eq t t' :
  bindings t' = bindings t -> keys t' = keys t.
Proof. unfold keys. intros ->. reflexivity. Qed.

Lemma bst_set_level lv t : bst t -> bst (set_level lv t).
Proof. destruct t; [auto|]. cbn [set_level bst]. auto. Qed.

Lemma bst_map_sub1 f t :
  (forall x, bst x -> bst (f x)) ->
  (forall x, bindings (f x) = bindings x) ->
  bst t -> bst (map_sub1 f t).
Proof.
  intros Hf Hb. destruct t as [|lv k v l r]; [auto|].
  cbn [map_sub1 bst]. intros (Hl & Hr & Fl & Fr).
  rewrite (bst_keys_eq r (f r) (Hb r)). auto.
Qed.

Lemma bst_after_delete t : bst t -> bst (after_delete t).
Proof.
  destruct t as [|lv0 k v l r]; [auto|]. unfold after_delete.
  destruct ((level l <? lv0 - 1)%nat || (level r <? lv0 - 1)%nat);
    [|auto].
  intros (Hl & Hr & Fl & Fr).
  apply bst_map_sub1; [apply bst_split | apply bindings_split |].
  apply bst_split.
  apply bst_map_sub1;
    [intros x Hx; apply bst_map_sub1;
       [apply bst_skew | apply bindings_skew | exact Hx]
    | intros x; apply bindings_map_sub1, bindings_skew |].
  apply bst_map_sub1; [apply bst_skew | apply bindings_skew |].
  apply bst_skew. cbn [bst].
  destruct (lv0 - 1 <? level r)%nat.
  - rewrite (bst_keys_eq r (set_level _ r) (bindings_set_level _ r)).
    auto using bst_set_level.
  - auto.
Qed.

(** The heir is the node of the last binding. *)
Lemma heir_last (t : bbsnode) :
  is_nil t = false ->
  exists hlv hk hv hl hr init,
    heir t = Node hlv hk hv hl hr
    /\ bindings t = (init ++ [(hk, hv)])%list.
Proof.
  induction t as [|lv k v l IHl r IHr]; [discriminate|]. intros _.
  destruct r as [|rlv rk rval rl rr].
  - exists lv, k, v, l, NIL_NODE, (bindings l). split; reflexivity.
  - destruct (IHr eq_refl) as (hlv & hk & hv & hl & hr & init & Hh & Hb).
    exists hlv, hk, hv, hl, hr, (bindings l ++ (k, v) :: init)%list.
    split; [exact Hh|].
    change (bindings (Node lv k v l (Node rlv rk rval rl rr)))
      with (bindings l ++ (k, v) :: bindings (Node rlv rk rval rl rr))%list.
    rewrite Hb, <- app_assoc. reflexivity.
Qed.

Lemma remove_key_app k xs ys :
  remove_key k (xs ++ ys) = (remove_key k xs ++ remove_key k ys)%list.
Proof. unfold remove_key. apply List.filter_app. Qed.

Lemma remove_key_none k (xs : list (IPv4Network * string)) :
  Forall (fun a => net_eq a k = false) (map fst xs) ->
  remove_key k xs = xs.
Proof.
  induction xs as [|[a v] xs IH]; [reflexivity|]. intros H.
  apply List.Forall_cons_iff in H as [Ha H]. cbn [fst] in Ha.
  unfold remove_key in *. cbn [List.filter fst]. rewrite Ha. cbn [negb].
  rewrite IH by exact H. reflexivity.
Qed.

Lemma below_distinct (t : bbsnode) key q :
  Forall (fun a => net_gt key a = true) (keys t) ->
  net_gt q key = true \/ net_eq key q = true ->
  Forall (fun a => net_eq a q = false) (keys t).
Proof.
  intros HF Hq. eapply List.Forall_impl; [|exact HF]. cbv beta. intros a Ha.
  assert (Hqa : net_gt q a = true).
  { destruct Hq as [Hq|Hq].
    - eapply net_gt_trans; eassumption.
    - rewrite <- (net_gt_congr_l key q a Hq). exact Ha. }
  apply net_gt_not_eq in Hqa. tauto.
Qed.

Lemma above_distinct (t : bbsnode) key q :
  Forall (fun a => net_gt a key = true) (keys t) ->
  net_gt key q = true \/ net_eq key q = true ->
  Forall (fun a => net_eq a q = false) (keys t).
Proof.
  intros HF Hq. eapply List.Forall_impl; [|exact HF]. cbv beta. intros a Ha.
  assert (Haq : net_gt a q = true).
  { destruct Hq as [Hq|Hq].
    - eapply net_gt_trans; eassumption.
    - rewrite <- (net_gt_congr_r key q a Hq). exact Ha. }
  apply net_gt_not_eq in Haq. tauto.
Qed.

Lemma keys_remove_key_Forall (P : IPv4Network -> Prop) k bs :
  Forall P (map fst bs) -> Forall P (map fst (remove_key k bs)).
Proof.
  rewrite !List.Forall_forall. intros H a Ha. apply H.
  apply in_map_iff in Ha as ([a' v] & <- & Hin).
  unfold remove_key in Hin. apply filter_In in Hin as [Hin _].
  apply in_map_iff. exists (a', v). auto.
Qed.

(** [__delete] keeps the search order and removes the binding of [k]. *)
Lemma delete_rec_spec (t : bbsnode) :
  forall k,
    bst t ->
    bst (__delete t k)
    /\ bindings (__delete t k) = remove_key k (bindings t).
Proof.
  induction t as [|lv key val l IHl r IHr]; intros k Hb; [split; [exact I|reflexivity]|].
  pose proof Hb as (Hl & Hr & Fl & Fr).
  cbn [__delete].
  match goal with
  | |- bst (after_delete ?u) /\ bindings (after_delete ?u) = _ =>
      enough (H : bst u /\ bindings u = remove_key k (bindings (Node lv key val l r)))
        by (split; [apply bst_after_delete, H
                   | rewrite bindings_after_delete; apply H])
  end.
  cbn [bindings]. rewrite remove_key_app.
  change (remove_key k ((key, val) :: bindings r))
    with (if negb (net_eq key k) then (key, val) :: remove_key k (bindings r)
          else remove_key k (bindings r)).
  rewrite (net_eq_sym key k).
  destruct (net_eq k key) eqn:Heq; cbn [negb].
  - assert (Hkq : net_eq key k = true) by (rewrite net_eq_sym; exact Heq).
    rewrite (remove_key_none k (bindings l))
      by (apply (below_distinct l key k Fl); auto).
    rewrite (remove_key_none k (bindings r))
      by (apply (above_distinct r key k Fr); auto).
    destruct (is_nil l) eqn:Nl; cbn [negb andb].
    { destruct l; [|discriminate]. split; [exact Hr | reflexivity]. }
    destruct (is_nil r) eqn:Nr; cbn [negb andb].
    { destruct r; [|discriminate]. split; [exact Hl|].
      cbn [bindings]. rewrite app_nil_r. reflexivity. }
    destruct (heir_last l Nl) as (hlv & hk & hv & hl & hr & init & Hh & Hbl).
    rewrite Hh. destruct (IHl hk Hl) as [Hbd Hbb].
    pose proof (bst_sorted l Hl) as Hsort. unfold keys in Hsort.
    rewrite Hbl, map_app in Hsort. cbn [map fst] in Hsort.
    apply StronglySorted_app in Hsort as (Hlt & _ & _).
    assert (Hinit : Forall (fun a => net_gt hk a = true) (map fst init)).
    { apply List.Forall_forall. intros a Ha. apply Hlt.
      - apply list_elem_of_In. exact Ha.
      - apply list_elem_of_In. left. reflexivity. }
    assert (Hrem : remove_key hk (bindings l) = init).
    { rewrite Hbl, remove_key_app.
      rewrite (remove_key_none hk init).
      - unfold remove_key. cbn [List.filter fst]. rewrite net_eq_refl.
        cbn [negb]. apply app_nil_r.
      - eapply List.Forall_impl; [|exact Hinit]. cbv beta. intros a Ha.
        apply net_gt_not_eq in Ha. tauto. }
    assert (Hhk : net_gt key hk = true).
    { rewrite List.Forall_forall in Fl. apply Fl. unfold keys.
      rewrite Hbl, map_app. apply in_app_iff. right. left. reflexivity. }
    split.
    + cbn [bst]. split; [exact Hbd|]. split; [exact Hr|]. split.
      * unfold keys. rewrite Hbb, Hrem. exact Hinit.
      * eapply List.Forall_impl; [|exact Fr]. cbv beta. intros a Ha.
        eapply net_gt_trans; eassumption.
    + cbn [bindings]. rewrite Hbb, Hrem, Hbl, <- app_assoc. reflexivity.
  - rewrite net_lt_gt. destruct (net_gt k key) eqn:Hgt.
    + destruct (IHr k Hr) as [Hbd Hbb].
      rewrite (remove_key_none k (bindings l))
        by (apply (below_distinct l key k Fl); auto).
      split.
      * cbn [bst]. split; [exact Hl|]. split; [exact Hbd|]. split; [exact Fl|].
        unfold keys. rewrite Hbb. apply keys_remove_key_Forall. exact Fr.
      * cbn [bindings]. rewrite Hbb. reflexivity.
    + assert (Hlt : net_gt key k = true) by (apply net_gt_total; assumption).
      destruct (IHl k Hl) as [Hbd Hbb].
      rewrite (remove_key_none k (bindings r))
        by (apply (above_distinct r key k Fr); auto).
      split.
      * cbn [bst]. split; [exact Hbd|]. split; [exact Hr|]. split; [|exact Fr].
        unfold keys. rewrite Hbb. apply keys_remove_key_Forall. exact Fl.
      * cbn [bindings]. rewrite Hbb. reflexivity.
Qed.

Lemma find_binding_remove_key k q (bs : list (IPv4Network * string)) :
  find_binding (remove_key k bs) q
  = if net_eq k q then None else find_binding bs q.
Proof.
  induction bs as [|[a v] bs IH]; [destruct (net_eq k q); reflexivity|].
  unfold remove_key in *. cbn [List.filter fst find_binding].
  destruct (net_eq a k) eqn:Eak; cbn [negb].
  - rewrite IH. rewrite (net_eq_congr_l a k q Eak).
    destruct (net_eq k q); reflexivity.
  - cbn [find_binding]. rewrite IH.
    destruct (net_eq a q) eqn:Eaq; [|reflexivity].
    destruct (net_eq k q) eqn:Ekq; [|reflexivity].
    rewrite (net_eq_congr_l a q k Eaq), net_eq_sym in Eak. congruence.
Qed.

Lemma delete_spec (t : bbstree) k :
  bst (root t) ->
  bst (root (delete t k))
  /\ bindings (root (delete t k)) = remove_key k (bindings (root t)).
Proof.
  intros Hb. unfold delete. destruct (is_nil (root t)) eqn:Hnil; cbn [negb].
  - destruct (root t); [|discriminate]. split; [exact I | reflexivity].
  - cbn [root]. apply delete_rec_spec, Hb.
Qed.

Lemma apply_ops_spec (ops : list tree_op) :
  forall t m,
    bst (root t) ->
    (forall q, find_binding (bindings (root t)) q = m q) ->
    bst (root (apply_ops ops t))
    /\ forall q, find_binding (bindings (root (apply_ops ops t))) q
                 = map_ops ops m q.
Proof.
  unfold apply_ops, map_ops.
  induction ops as [|op ops IH]; intros t m Hb Hm; [split; assumption|].
  cbn [fold_left]. apply IH.
  - destruct op as [k v|k]; cbn [apply_op].
    + apply bst_insert, Hb.
    + apply delete_spec, Hb.
  - intros q. destruct op as [k v|k]; cbn [apply_op map_op].
    + rewrite find_binding_insert by exact Hb. rewrite Hm. reflexivity.
    + destruct (delete_spec t k Hb) as [_ ->].
      rewrite find_binding_remove_key, Hm. reflexivity.
Qed.

(** X24. The tree as a map.  After any sequence of calls of [insert] and
    [delete] on a new tree, [lookup] answers as a map from keys to
    values does after the same calls: the value of the last insert under
    an equal key if no delete of that key came after it, [None]
    otherwise; and the forward scan still yields the keys in strictly
    ascending order. *)
Theorem tree_is_map (ops : list tree_op) :
  let t := apply_ops ops empty in
  (forall q, (lookup t q ≫= value_of) = map_ops ops (fun _ => None) q)
  /\ StronglySorted (fun a b => net_gt b a = true)
                    (omap key_of (forward t).1).
Proof.
  cbv zeta.
  destruct (apply_ops_spec ops empty (fun _ => None) I (fun _ => eq_refl))
    as [Hb Hf].
  split.
  - intros q. rewrite lookup_find by exact Hb. apply Hf.
  - unfold forward.
    pose proof (scan_spec false (root (apply_ops ops empty))) as Hs.
    cbn [negb] in Hs. rewrite Hs. cbn [fst].
    destruct (walk_nodes (root (apply_ops ops empty))) as [-> _].
    rewrite keys_of_nodes. apply bst_sorted, Hb.
Qed.

End DeleteFacts.

(** ** The balance under deletion *)

Section DeleteBalance.
Import IPAddr BlkTree TreeOps TreeDelete Balance.

Lemma skew_noop (t : bbsnode) :
  level (sub0_of t) <> level t -> __skew t = t.
Proof.
  destruct t as [|lv k v [|llv lk lval ll lr] r]; try reflexivity.
  - intros _. unfold __skew. destruct (negb _); reflexivity.
  - cbn [level sub0_of]. intros H. unfold __skew.
    destruct (negb _); [|reflexivity].
    destruct (Nat.eqb_spec llv lv); [congruence | reflexivity].
Qed.

Lemma split_noop (t : bbsnode) :
  level (sub1_of (sub1_of t)) <> level t -> __split t = t.
Proof.
  intros H. unfold __split. destruct (negb _); [|reflexivity].
  destruct (Nat.eqb_spec (level t) (level (sub1_of (sub1_of t))));
    [congruence | reflexivity].
Qed.

Lemma skew_rot lv k v lk lval ll lr r :
  lv <> 0%nat ->
  __skew (Node lv k v (Node lv lk lval ll lr) r)
  = Node lv lk lval ll (Node lv k v lr r).
Proof.
  intros H. unfold __skew. cbn [level].
  destruct (Nat.eqb_spec lv 0); [congruence|]. cbn [negb].
  rewrite Nat.eqb_refl. reflexivity.
Qed.

Lemma split_rot lv k v l rlv rk rval rl rr :
  lv <> 0%nat -> level rr = lv ->
  __split (Node lv k v l (Node rlv rk rval rl rr))
  = Node (rlv + 1) rk rval (Node lv k v l rl) rr.
Proof.
  intros H E. unfold __split. cbn [level sub1_of].
  destruct (Nat.eqb_spec lv 0); [congruence|]. cbn [negb].
  rewrite E, Nat.eqb_refl. reflexivity.
Qed.

Lemma aa_skew_id (t : bbsnode) : aa t -> __skew t = t.
Proof.
  destruct t as [|lv k v l r]; [reflexivity|]. intros H.
  apply skew_noop. cbn [aa] in H. cbn [level sub0_of]. lia.
Qed.

Lemma aa_split_id (t : bbsnode) : aa t -> __split t = t.
Proof.
  destruct t as [|lv k v l r]; [reflexivity|]. intros H.
  apply split_noop. cbn [aa] in H. cbn [level sub1_of]. lia.
Qed.

Tactic Notation "aa_open" hyp(H) "as" simple_intropattern(p) :=
  cbn [aa] in H; destruct H as p; cbn [level sub1_of] in *.

Ltac aa_bounds :=
  repeat match goal with
  | H : aa ?t |- _ =>
      lazymatch goal with
      | _ : (level (sub1_of t) <= level t)%nat |- _ => fail
      | _ => pose proof (aa_right_le t H)
      end
  end;
  cbn [level sub1_of] in *.

Ltac tree_done :=
  unfold shrunk; cbn [aa level sub1_of];
  repeat match goal with |- _ /\ _ => split end;
  try assumption; try lia.

Lemma adjust_left lv k v k2 v2 l r l' :
  aa (Node lv k v l r) -> shrunk l l' ->
  shrunk (Node lv k v l r) (after_delete (Node lv k2 v2 l' r)).
Proof.
  intros Ht (Hl' & Hlv' & _). aa_open Ht as (Hl & Hr & Hb & Hc & Hd).
  unfold after_delete. cbv zeta.
  destruct Hlv' as [E|E].
  - (* the left subtree kept its level *)
    replace (level l' <? lv - 1)%nat with false
      by (symmetry; apply Nat.ltb_ge; lia).
    replace (level r <? lv - 1)%nat with false
      by (symmetry; apply Nat.ltb_ge; lia).
    cbn [orb]. aa_bounds. tree_done.
  - replace (level l' <? lv - 1)%nat with true
      by (symmetry; apply Nat.ltb_lt; lia).
    cbn [orb].
    destruct r as [|rlv rk rval rl rr]; [cbn [level] in Hc; lia|].
    aa_open Hr as (Hrl & Hrr & Hrb & Hrc & Hrd).
    rewrite (skew_noop (Node (lv - 1) k2 v2 l' _))
      by (cbn [level sub0_of]; lia).
    cbn [level map_sub1].
    destruct Hc as [Hc|Hc].
    + (* the right subtree was on the level of the node *)
      replace (lv - 1 <? rlv)%nat with true
        by (symmetry; apply Nat.ltb_lt; lia).
      cbn [set_level map_sub1].
      destruct rl as [|rllv rlk rlval rll rlr]; [cbn [level] in Hrb; lia|].
      aa_open Hrl as (Hrll & Hrlr & Hrlb & Hrlc & Hrld).
      replace rllv with (lv - 1)%nat in * by lia.
      rewrite skew_rot by lia. cbn [map_sub1].
      destruct Hrlc as [Hrlc|Hrlc].
      * destruct rlr as [|rlrlv a aval rlrl rlrr]; [cbn [level] in Hrlc; lia|].
        aa_open Hrlr as (Hx1 & Hx2 & Hxb & Hxc & Hxd).
        replace rlrlv with (lv - 1)%nat in * by lia.
        rewrite skew_rot by lia.
        rewrite split_rot by (cbn [level]; lia). cbn [map_sub1].
        rewrite split_rot by lia.
        aa_bounds. tree_done.
      * rewrite (skew_noop (Node (lv - 1) rk rval rlr rr))
          by (cbn [level sub0_of]; lia).
        rewrite split_rot by (cbn [level]; lia). cbn [map_sub1].
        destruct (Nat.eq_dec (level (sub1_of rr)) (lv - 1)%nat) as [E2|E2].
        -- destruct rr as [|rrlv rrk rrval rrl rrr];
             [cbn [level sub1_of] in E2; lia|].
           aa_open Hrr as (Hy1 & Hy2 & Hyb & Hyc & Hyd).
           rewrite split_rot by lia.
           aa_bounds. tree_done.
        -- rewrite split_noop by (cbn [level sub1_of]; lia).
           aa_bounds. tree_done.
    + (* the right subtree was one level below *)
      replace (lv - 1 <? rlv)%nat with false
        by (symmetry; apply Nat.ltb_ge; lia).
      rewrite (aa_skew_id (Node rlv rk rval rl rr))
        by (cbn [aa]; repeat split; try assumption; lia).
      cbn [map_sub1]. rewrite (aa_skew_id rr) by assumption.
      destruct Hrc as [Hrc|Hrc].
      * rewrite split_rot by lia. cbn [map_sub1].
        rewrite (aa_split_id rr) by assumption.
        aa_bounds. tree_done.
      * rewrite split_noop by (cbn [level sub1_of]; lia). cbn [map_sub1].
        rewrite (aa_split_id (Node rlv rk rval rl rr)) by (cbn [aa]; repeat split; try assumption; lia).
        aa_bounds. tree_done.
Qed.

Lemma adjust_right lv k v l r r' :
  aa (Node lv k v l r) -> shrunk r r' ->
  shrunk (Node lv k v l r) (after_delete (Node lv k v l r')).
Proof.
  intros Ht (Hr' & Hlv' & Hs'). aa_open Ht as (Hl & Hr & Hb & Hc & Hd).
  unfold after_delete. cbv zeta.
  replace (level l <? lv - 1)%nat with false
    by (symmetry; apply Nat.ltb_ge; lia).
  cbn [orb].
  destruct (Nat.ltb_spec (level r') (lv - 1)) as [Hlow|Hok].
  - (* the right subtree is now two levels below *)
    replace (lv - 1 <? level r')%nat with false
      by (symmetry; apply Nat.ltb_ge; lia).
    destruct l as [|llv lk lval ll lr]; [cbn [level] in Hb; lia|].
    aa_open Hl as (Hll & Hlr & Hlb & Hlc & Hld).
    replace llv with (lv - 1)%nat in * by lia.
    rewrite skew_rot by lia. cbn [map_sub1].
    destruct Hlc as [Hlc|Hlc].
    + destruct lr as [|lrlv a aval lrl lrr]; [cbn [level] in Hlc; lia|].
      aa_open Hlr as (Hx1 & Hx2 & Hxb & Hxc & Hxd).
      replace lrlv with (lv - 1)%nat in * by lia.
      rewrite skew_rot by lia. cbn [map_sub1].
      rewrite (skew_noop (Node (lv - 1) k v lrr r'))
        by (cbn [level sub0_of]; lia).
      rewrite split_rot by (cbn [level]; lia). cbn [map_sub1].
      aa_bounds.
      rewrite (split_noop (Node (lv - 1) k v lrr r'))
        by (cbn [level sub1_of]; lia).
      tree_done.
    + rewrite (skew_noop (Node (lv - 1) k v lr r'))
        by (cbn [level sub0_of]; lia).
      cbn [map_sub1]. rewrite (aa_skew_id r') by assumption.
      aa_bounds.
      rewrite split_noop by (cbn [level sub1_of]; lia). cbn [map_sub1].
      rewrite (split_noop (Node (lv - 1) k v lr r'))
        by (cbn [level sub1_of]; lia).
      tree_done.
  - aa_bounds. tree_done.
Qed.

Lemma aa_after_delete_id (t : bbsnode) : aa t -> after_delete t = t.
Proof.
  destruct t as [|lv k v l r]; [reflexivity|]. intros H.
  aa_open H as (Hl & Hr & Hb & Hc & Hd). unfold after_delete. cbv zeta.
  replace (level l <? lv - 1)%nat with false
    by (symmetry; apply Nat.ltb_ge; lia).
  replace (level r <? lv - 1)%nat with false
    by (symmetry; apply Nat.ltb_ge; lia).
  reflexivity.
Qed.

Lemma delete_rec_shrunk (t : bbsnode) :
  forall k, aa t -> shrunk t (__delete t k).
Proof.
  induction t as [|lv key val l IHl r IHr]; intros k Ht.
  - cbn [__delete]. unfold shrunk. cbn. repeat split; auto; lia.
  - pose proof Ht as Ht'. aa_open Ht' as (Hl & Hr & Hb & Hc & Hd).
    cbn [__delete]. destruct (net_eq k key).
    + destruct (is_nil l) eqn:Nl; cbn [negb andb].
      { destruct l; [|discriminate]. cbn [level] in Hb.
        rewrite aa_after_delete_id by exact Hr.
        pose proof (aa_right_le r Hr). tree_done. }
      destruct (is_nil r) eqn:Nr; cbn [negb andb].
      { destruct r; [|discriminate]. cbn [level] in Hc.
        destruct l as [|llv lk lval ll lr]; [discriminate|].
        aa_open Hl as (Hll & Hlr & Hlb & Hlc & Hld). lia. }
      destruct (heir_last l Nl) as (hlv & hk & hv & hl & hr & init & Hh & _).
      rewrite Hh. apply adjust_left; [exact Ht | apply IHl, Hl].
    + destruct (net_lt key k).
      * apply adjust_right; [exact Ht | apply IHr, Hr].
      * apply adjust_left; [exact Ht | apply IHl, Hl].
Qed.

Lemma delete_aa (t : bbstree) k : aa (root t) -> aa (root (delete t k)).
Proof.
  intros H. unfold delete. destruct (negb (is_nil (root t))); [|exact H].
  cbn [root]. apply (delete_rec_shrunk (root t) k H).
Qed.

Lemma apply_ops_aa (ops : list tree_op) :
  forall t, aa (root t) -> aa (root (apply_ops ops t)).
Proof.
  unfold apply_ops. induction ops as [|op ops IH]; intros t H; [exact H|].
  cbn [fold_left]. apply IH. destruct op as [k v|k]; cbn [apply_op].
  - apply insert_aa, H.
  - apply delete_aa, H.
Qed.

Lemma size_apply_ops (ops : list tree_op) :
  forall t, bst (root t) ->
    (size (root (apply_ops ops t))
     <= size (root t)
        + length (List.filter (fun op => match op with
                                         | Ins _ _ => true
                                         | Del _ => false
                                         end) ops))%nat.
Proof.
  unfold apply_ops. induction ops as [|op ops IH]; intros t Hb;
    cbn [fold_left List.filter length]; [lia|].
  destruct op as [k v|k]; cbn [apply_op length].
  - specialize (IH (insert t k v) (bst_insert t k v Hb)).
    assert (Hi : (size (root (insert t k v)) <= S (size (root t)))%nat).
    { unfold insert. destruct (is_nil (root t)); cbn [negb root].
      - cbn [size]. lia.
      - rewrite (size_bindings (__split _)), bindings_rebalance,
          <- size_bindings. apply size_insert_rec. }
    lia.
  - destruct (delete_spec t k Hb) as [Hb' Hbind].
    specialize (IH (delete t k) Hb').
    assert (Hd : (size (root (delete t k)) <= size (root t))%nat).
    { rewrite !size_bindings, Hbind. unfold remove_key.
      apply List.filter_length_le. }
    lia.
Qed.

(** X25. The tree stays balanced.  After any sequence of calls of
    [insert] and [delete] on a new tree the levels obey the rules of
    Andersson's tree; the height that [height] reports is at most the
    binary logarithm of the number of nodes plus one, which is at most
    the number of inserts plus one; no way down from the root is longer
    than twice the height, and [lookup] visits no more nodes than
    that. *)
Theorem tree_balanced (ops : list tree_op) :
  let t := apply_ops ops empty in
  let inserts := List.filter (fun op => match op with
                                        | Ins _ _ => true
                                        | Del _ => false
                                        end) ops in
  aa (root t)
  /\ (2 ^ height t <= S (size (root t)))%nat
  /\ (size (root t) <= length inserts)%nat
  /\ (depth (root t) <= 2 * height t)%nat
  /\ forall k, (visited (root t) k <= 2 * height t)%nat.
Proof.
  cbv zeta.
  assert (H : aa (root (apply_ops ops empty))) by (apply apply_ops_aa; exact I).
  pose proof (aa_size _ H) as Hs.
  pose proof (size_apply_ops ops empty I) as Hn. cbn [root size empty] in Hn.
  destruct (aa_depth _ H) as [Hd _]. unfold height.
  split; [exact H|]. split; [exact Hs|]. split; [exact Hn|].
  split; [exact Hd|].
  intros k. pose proof (visited_depth (root (apply_ops ops empty)) k). lia.
Qed.

End DeleteBalance.

(** ** The answer of a DNS lookup and the report *)

Section ReportFacts.
Import PyStr Re IpDict State WkMsg Throttle Report.

(** X26. The answer of a DNS lookup reaches the dictionary.  When a
    lookup handed over for a blocklist with a name is answered with an
    address that starts like a dotted quad, [lookup_done] returns and
    the dictionary holds a record under that address whose [org] field
    contains the blocklist and whose [desc] field contains the host name
    with its description; the count of running lookups goes down by one,
    not below 0. *)
Theorem lookup_done_records (w : WorkerService) (bstate : BlkState)
  (d : ip_dict) (answer name mydesc myorg : string) :
  get_dict bstate = Some d ->
  truthy myorg = true ->
  re_ipv4_match answer = true ->
  let out := lookup_done w bstate answer name mydesc myorg in
  out.1.1.1 = Returned tt
  /\ num_x out.1.1.2 = Z.max 0 (num_x w - 1)
  /\ exists d' r',
       get_dict out.1.2 = Some d'
       /\ d' !! answer = Some r'
       /\ str_in myorg (e_org r') = true
       /\ (truthy (strip (join Cfg.SEP [name; mydesc])) = true ->
           str_in (strip (join Cfg.SEP [name; mydesc])) (e_desc r') = true).
Proof.
  intros Hd Ho Hip. cbv zeta. unfold lookup_done. rewrite Hd.
  destruct (insert_ip_result d answer (join Cfg.SEP [name; mydesc]) "" myorg ""
              (or_intror (andb_true_intro (conj Ho Hip))))
    as (r' & Hr & _ & _ & Horg & Hdesc).
  destruct (insert_ip d answer (join Cfg.SEP [name; mydesc]) "" myorg "")
    as [d' l].
  cbn [fst snd num_x get_dict mydict] in *.
  split; [reflexivity|]. split; [reflexivity|].
  exists d', r'. auto.
Qed.

Lemma str_in_prefix (sub s : string) :
  String.prefix sub s = true -> str_in sub s = true.
Proof. intros H. destruct s; cbn [str_in]; rewrite H; reflexivity. Qed.

Lemma str_in_cons (sub : string) (c : ascii) (s : string) :
  str_in sub s = true -> str_in sub (String c s) = true.
Proof. intros H. cbn [str_in]. rewrite H. apply orb_true_r. Qed.

Lemma str_in_app_l (sub a b : string) :
  str_in sub a = true -> str_in sub (a ++ b) = true.
Proof.
  induction a as [|c a IH].
  - destruct sub; [intros _; apply str_in_prefix, prefix_empty|].
    discriminate.
  - cbn [str_in]. intros H. apply orb_prop in H as [H|H].
    + apply str_in_prefix.
      revert H. generalize (String c a). clear. intros s.
      revert s. induction sub as [|x sub IH]; intros s H.
      * apply prefix_empty.
      * destruct s as [|y s]; [discriminate|].
        change (String y s ++ b)%string with (String y (s ++ b)).
        cbn [String.prefix] in H |- *.
        destruct (ascii_dec x y); [apply IH, H | discriminate].
    + change (String c a ++ b)%string with (String c (a ++ b)).
      apply str_in_cons, IH, H.
Qed.

Lemma str_in_middle (sub a b : string) : str_in sub (a ++ sub ++ b) = true.
Proof.
  induction a as [|c a IH].
  - change (str_in sub (sub ++ b) = true). apply str_in_prefix, prefix_app.
  - change (String c a ++ sub ++ b)%string with (String c (a ++ sub ++ b)).
    apply str_in_cons, IH.
Qed.

Lemma add_records_step (msg ip : string) (e : elt) :
  join " " [msg; ip; e_as e; e_cc e; e_org e; e_desc e; Cfg.DELIM]
  = (msg ++ " " ++ record_line ip e)%string.
Proof. reflexivity. Qed.

Lemma add_records_keeps (sub : string) (recs : list (string * elt)) :
  forall msg, str_in sub msg = true ->
              str_in sub (add_records msg recs) = true.
Proof.
  unfold add_records.
  induction recs as [|[ip e] recs IH]; intros msg H; [exact H|].
  cbn [fold_left fst snd]. apply IH. rewrite add_records_step.
  apply str_in_app_l, H.
Qed.

Lemma add_records_lists (recs : list (string * elt)) (ip : string) (e : elt) :
  forall msg, In (ip, e) recs ->
              str_in (record_line ip e) (add_records msg recs) = true.
Proof.
  induction recs as [|[ip0 e0] recs IH]; intros msg Hin; [destruct Hin|].
  unfold add_records in *. cbn [fold_left fst snd].
  destruct Hin as [[= -> ->]|Hin].
  - apply (add_records_keeps (record_line ip e) recs).
    rewrite add_records_step.
    replace (record_line ip e) with (record_line ip e ++ "")%string at 2
      by apply append_empty_r.
    rewrite <- append_assoc.
    apply (str_in_middle (record_line ip e) (msg ++ " ") "").
  - apply IH, Hin.
Qed.

Lemma status_fold_keeps (d : ip_dict) (sub : string) (asns : list string) :
  forall msg,
    str_in sub msg = true ->
    str_in sub
      (fold_left (fun msg as_tmp => add_records msg (list_grp d as_tmp "" ""))
                 asns msg) = true.
Proof.
  induction asns as [|a asns IH]; intros msg H; [exact H|].
  cbn [fold_left]. apply IH, add_records_keeps, H.
Qed.

Lemma status_fold_lists (d : ip_dict) (asns : list string) (a ip : string)
  (e : elt) :
  In a asns -> In (ip, e) (list_grp d a "" "") ->
  forall msg,
    str_in (record_line ip e)
      (fold_left (fun msg as_tmp => add_records msg (list_grp d as_tmp "" ""))
                 asns msg) = true.
Proof.
  intros Ha Hin. induction asns as [|a0 asns IH]; [destruct Ha|].
  intros msg. cbn [fold_left]. destruct Ha as [->|Ha].
  - apply status_fold_keeps, add_records_lists, Hin.
  - apply IH, Ha.
Qed.

(** X27. The report is complete.  With a dictionary in place, every
    record that [list_grp] yields for an ASN of [as_search_list] is in
    the status message [cymru_done] hands to [set_status], as the
    address followed by the four fields and the line end. *)
Theorem cymru_done_lists (c : Cfg.config) (bstate : BlkState) (d : ip_dict)
  (a ip : string) (e : elt) :
  get_dict bstate = Some d ->
  In a (Cfg.as_search_list c) ->
  In (ip, e) (list_grp d a "" "") ->
  exists msg,
    (cymru_done c bstate).1 = Returned [SetStatus msg]
    /\ str_in (record_line ip e) msg = true.
Proof.
  intros Hd Ha Hin. unfold cymru_done. rewrite Hd.
  pose proof (status_fold_lists d (Cfg.as_search_list c) a ip e Ha Hin "")
    as Hs.
  fold (status_of c d) in Hs.
  destruct (status_of c d) as [|ch msg] eqn:E.
  - exfalso. cbn [str_in] in Hs. rewrite orb_false_r in Hs.
    unfold record_line in Hs. destruct ip; discriminate Hs.
  - cbn [String.length Nat.ltb Nat.leb fst]. eexists. split; [reflexivity|].
    exact Hs.
Qed.

End ReportFacts.

Lemma lookup_done_records_witness :
  let out := Throttle.lookup_done (WkMsg.mkWorker 30 1 0)
               (State.mkState None (Some ∅) 0 0)
               "192.0.2.7" "evil.example.com" "c2" "dshield" in
  out.1.1.1 = Returned tt
  /\ WkMsg.num_x out.1.1.2 = Z.max 0 (1 - 1)
  /\ exists d' r',
       State.get_dict out.1.2 = Some d'
       /\ d' !! "192.0.2.7" = Some r'
       /\ PyStr.str_in "dshield" (IpDict.e_org r') = true
       /\ (PyStr.truthy
             (PyStr.strip (PyStr.join Cfg.SEP ["evil.example.com"; "c2"]))
           = true ->
           PyStr.str_in
             (PyStr.strip (PyStr.join Cfg.SEP ["evil.example.com"; "c2"]))
             (IpDict.e_desc r') = true).
Proof.
  apply (lookup_done_records (WkMsg.mkWorker 30 1 0)
           (State.mkState None (Some ∅) 0 0) ∅
           "192.0.2.7" "evil.example.com" "c2" "dshield");
    reflexivity.
Defined.

Lemma cymru_done_lists_witness :
  exists msg,
    (Report.cymru_done
       (Cfg.mkConfig 0 [] ["1234"] "" "" 3 240 20 300)
       (State.mkState None (Some Examples.registry1234) 0 0)).1
    = Returned [SetStatus msg]
    /\ PyStr.str_in
         (Report.record_line "10.0.0.1"
            (IpDict.mkElt "1234" "CA" "dshield" "scanner")) msg = true.
Proof.
  apply (cymru_done_lists (Cfg.mkConfig 0 [] ["1234"] "" "" 3 240 20 300)
           (State.mkState None (Some Examples.registry1234) 0 0)
           Examples.registry1234 "1234" "10.0.0.1"
           (IpDict.mkElt "1234" "CA" "dshield" "scanner")).
  - reflexivity.
  - left. reflexivity.
  - vm_compute. left. reflexivity.
Defined.

(** ** A blocklist line with an address *)

Section LineFacts.
Import PyStr Re IpDict.
Variable debug : Z.
Variable W : Type.
Variable dns_lookup_fn : string -> bool -> string -> string -> W -> W.
Variable urlparse : string -> result (string * string).

Lemma digit_not_space (c : ascii) : is_digit c = true -> is_space c = false.
Proof.
  unfold is_digit, is_space. generalize (nat_of_ascii c). intros n H.
  apply andb_prop in H as [H1 H2]. apply Nat.leb_le in H1, H2.
  replace (n <=? 13)%nat with false by (symmetry; apply Nat.leb_gt; lia).
  replace (n =? 32)%nat with false by (symmetry; apply Nat.eqb_neq; lia).
  rewrite andb_false_r. reflexivity.
Qed.

Lemma span_app (p : ascii -> bool) (u s : string) :
  span p u = (u, EmptyString) ->
  span p (u ++ s) = ((u ++ (span p s).1)%string, (span p s).2).
Proof.
  induction u as [|c u IH]; intros H.
  - change ("" ++ s)%string with s. destruct (span p s); reflexivity.
  - change (String c u ++ s)%string with (String c (u ++ s)).
    cbn [span] in H |- *. destruct (p c); [|discriminate H].
    destruct (span p u) as [a b] eqn:E. injection H as -> ->.
    rewrite (IH eq_refl). reflexivity.
Qed.

Lemma span_digits_nonspace (a : string) :
  IPAddr.all_digits a = true ->
  span (fun c => negb (is_space c)) a = (a, EmptyString).
Proof.
  induction a as [|c a IH]; [reflexivity|]. cbn [IPAddr.all_digits span].
  intros H. apply andb_true_iff in H as [Hc Ha].
  change (IPAddr.is_digit c) with (is_digit c) in Hc.
  rewrite (digit_not_space c Hc), (IH Ha). reflexivity.
Qed.

Lemma span_nonspace_join (a b : string) :
  span (fun c => negb (is_space c)) a = (a, EmptyString) ->
  span (fun c => negb (is_space c)) b = (b, EmptyString) ->
  span (fun c => negb (is_space c)) (a ++ String "." b)
  = ((a ++ String "." b)%string, EmptyString).
Proof.
  intros Ha Hb. rewrite (span_app _ a _ Ha). cbn [span].
  change (negb (is_space ".")) with true. cbv iota. rewrite Hb. reflexivity.
Qed.

(** A dotted quad holds no white space and starts with a digit. *)
Lemma dotted_quad_chars (ip : string) (x : Z) :
  IPAddr.parse_address ip = Some x ->
  span (fun c => negb (is_space c)) ip = (ip, EmptyString)
  /\ exists c0 ip', ip = String c0 ip' /\ is_digit c0 = true.
Proof.
  unfold IPAddr.parse_address.
  destruct (IPAddr.split_on "." "" ip) as [|a [|b [|c [|d [|e l]]]]] eqn:E;
    try discriminate.
  destruct (IPAddr.parse_number 3 255 a) as [va|] eqn:Ha; [|discriminate].
  destruct (IPAddr.parse_number 3 255 b) as [vb|] eqn:Hb; [|discriminate].
  destruct (IPAddr.parse_number 3 255 c) as [vc|] eqn:Hc; [|discriminate].
  destruct (IPAddr.parse_number 3 255 d) as [vd|] eqn:Hd; [|discriminate].
  intros _.
  apply split_on_cons in E as (a' & s1 & Ea & -> & E).
  change (a = a') in Ea. subst a'.
  apply split_on_cons in E as (b' & s2 & Eb & -> & E).
  change (b = b') in Eb. subst b'.
  apply split_on_cons in E as (c' & s3 & Ec & -> & E).
  change (c = c') in Ec. subst c'.
  apply split_on_single in E. change (d = s3) in E. subst s3.
  apply parse_number_digits in Ha as (Da & A1 & _).
  apply parse_number_digits in Hb as (Db & _).
  apply parse_number_digits in Hc as (Dc & _).
  apply parse_number_digits in Hd as (Dd & _).
  split.
  - repeat apply span_nonspace_join; apply span_digits_nonspace; assumption.
  - destruct a as [|c0 a]; [cbn in A1; lia|].
    exists c0, (a ++ String "." (b ++ String "." (c ++ String "." d)))%string.
    split; [reflexivity|].
    cbn [IPAddr.all_digits] in Da. apply andb_true_iff in Da as [Da _].
    exact Da.
Qed.

Lemma digit_line_kind (c0 : ascii) (s : string) :
  is_digit c0 = true ->
  str_in (String c0 EmptyString) "#!" = false
  /\ startswith (String c0 s) PAT_HTTP = false
  /\ startswith (String c0 s) PAT_FTP = false
  /\ startswith (String c0 s) PAT_ACL = false.
Proof.
  intros H. unfold startswith, PAT_HTTP, PAT_FTP, PAT_ACL.
  cbn [str_in String.prefix].
  repeat split.
  - destruct (ascii_dec c0 "#") as [->|]; [discriminate H|].
    destruct (ascii_dec c0 "!") as [->|]; [discriminate H|].
    reflexivity.
  - destruct (ascii_dec "h" c0) as [<-|]; [discriminate H | reflexivity].
  - destruct (ascii_dec "f" c0) as [<-|]; [discriminate H | reflexivity].
  - destruct (ascii_dec "d" c0) as [<-|]; [discriminate H | reflexivity].
Qed.

(** X28. A line that starts with an address.  When the stripped line is a
    dotted quad followed by nothing or by white space and a description
    without a newline, and the blocklist has a name, [insert_blklst_line]
    returns, asks for no DNS lookup, and leaves a record under that
    address whose [org] field contains the blocklist. *)
Theorem insert_blklst_line_address (d : ip_dict) (w : W)
  (line myorg ip rest : string) (x : Z) :
  strip line = (ip ++ rest)%string ->
  IPAddr.parse_address ip = Some x ->
  span (fun c => negb (is_space c)) rest = (EmptyString, rest) ->
  str_in Cfg.nl rest = false ->
  truthy myorg = true ->
  let out := insert_blklst_line debug W dns_lookup_fn urlparse d w line myorg in
  p_result W out = Returned tt
  /\ p_sched W out = w
  /\ exists r',
       p_dict W out !! ip = Some r' /\ str_in myorg (e_org r') = true.
Proof.
  intros Hs Hp Hrest Hnl Ho. cbv zeta.
  destruct (dotted_quad_chars ip x Hp) as (Hspan & c0 & ip' & Hip & Hc0).
  assert (Hm : re_addr_match (ip ++ rest)
               = Some (ip, (span is_space rest).2)).
  { unfold re_addr_match. rewrite (span_app _ ip rest Hspan), Hrest.
    cbn [fst snd]. rewrite append_empty_r.
    replace (truthy ip) with true by (rewrite Hip; reflexivity).
    pose proof (span_rest_no_newline is_space rest Hnl) as H2.
    destruct (span is_space rest) as [sp r']. cbn [snd] in H2 |- *.
    rewrite (dot_star_eol_no_newline r' H2). reflexivity. }
  pose proof (re_ipv4_match_dotted_quad ip x Hp) as Hv.
  destruct (insert_ip_result d ip (span is_space rest).2 "" myorg ""
              (or_intror (andb_true_intro (conj Ho Hv))))
    as (r' & Hr & _ & _ & Horg & _).
  unfold insert_blklst_line. rewrite Hs. rewrite Hip in Hm |- *.
  change (String c0 ip' ++ rest)%string with (String c0 (ip' ++ rest)) in *.
  destruct (digit_line_kind c0 (ip' ++ rest) Hc0) as (K1 & K2 & K3 & K4).
  cbv beta iota zeta. rewrite K1, K2, K3, K4. cbn [orb].
  rewrite Hm. rewrite <- Hip in *.
  replace (truthy ip) with true by (rewrite Hip; reflexivity).
  rewrite Hv.
  destruct (insert_ip d ip (span is_space rest).2 "" myorg "") as [d' l].
  cbn [fst p_result p_sched p_dict] in *.
  split; [reflexivity|]. split; [reflexivity|].
  exists r'. split; [exact Hr | apply Horg, Ho].
Qed.

End LineFacts.

Lemma insert_blklst_line_address_witness :
  let out := IpDict.insert_blklst_line 0 unit (fun _ _ _ _ w => w)
               (fun _ => Raised ValueError) ∅ tt
               "10.1.2.3 scanner" "dshield" in
  IpDict.p_result unit out = Returned tt
  /\ IpDict.p_sched unit out = tt
  /\ exists r',
       IpDict.p_dict unit out !! "10.1.2.3" = Some r'
       /\ PyStr.str_in "dshield" (IpDict.e_org r') = true.
Proof.
  apply (insert_blklst_line_address 0 unit (fun _ _ _ _ w => w)
           (fun _ => Raised ValueError) ∅ tt
           "10.1.2.3 scanner" "dshield" "10.1.2.3" " scanner" 167838211);
    reflexivity.
Defined.

(** ** The order of the calls of [insert_ip] *)

Section MergeOrder.
Import PyStr Re IpDict Examples.

Lemma prefix_cons_inv (c d : ascii) (v s : string) :
  String.prefix (String c v) (String d s) = true ->
  c = d /\ String.prefix v s = true.
Proof.
  cbn [String.prefix]. destruct (ascii_dec c d); [auto | discriminate].
Qed.

Lemma prefix_before_sep (a r v : string) :
  String.prefix v (a ++ Cfg.SEP ++ r) = true ->
  no_pipe v = true -> ends_space v = false ->
  String.prefix v a = true.
Proof.
  revert v. induction a as [|b a IH]; intros v Hp Hn He.
  - destruct v as [|c v]; [reflexivity|]. exfalso.
    change ("" ++ Cfg.SEP ++ r)%string
      with (String " " (String "|" (String " " r))) in Hp.
    apply prefix_cons_inv in Hp as [-> Hp].
    destruct v as [|d v]; [discriminate|].
    apply prefix_cons_inv in Hp as [-> Hp].
    cbn in Hn. discriminate.
  - destruct v as [|c v]; [reflexivity|].
    change (String b a ++ Cfg.SEP ++ r)%string
      with (String b (a ++ Cfg.SEP ++ r)) in Hp.
    apply prefix_cons_inv in Hp as [-> Hp].
    cbn [String.prefix]. destruct (ascii_dec b b); [|contradiction].
    apply IH; [exact Hp | |].
    + cbn [no_pipe] in Hn. apply andb_prop in Hn as [_ Hn]. exact Hn.
    + destruct v; [reflexivity | exact He].
Qed.

Lemma str_in_app_r2 (v a s : string) :
  str_in v s = true -> str_in v (a ++ s) = true.
Proof.
  intros H. induction a as [|c a IH]; [exact H|].
  change (str_in v (String c (a ++ s)) = true).
  cbn [str_in]. rewrite IH. apply orb_true_r.
Qed.

Lemma str_in_empty (v : string) : str_in v "" = true -> v = "".
Proof.
  cbn [str_in]. rewrite orb_false_r. destruct v; [reflexivity | discriminate].
Qed.

Lemma str_in_around_sep (v a r : string) :
  atomic v = true -> truthy v = true ->
  str_in v (a ++ Cfg.SEP ++ r) = true ->
  str_in v a = true \/ str_in v r = true.
Proof.
  intros Ha Ht. unfold atomic in Ha.
  apply andb_prop in Ha as [Ha He]. apply andb_prop in Ha as [Hn Hs].
  apply negb_true_iff in He, Hs.
  induction a as [|c a IH].
  - change ("" ++ Cfg.SEP ++ r)%string
      with (String " " (String "|" (String " " r))).
    destruct v as [|d v]; [discriminate|].
    intros H. right.
    cbn [str_in String.prefix] in H.
    cbn [String.prefix] in Hs. cbn [no_pipe] in Hn.
    apply andb_prop in Hn as [Hd _].
    destruct (ascii_dec d " ") as [->|Hd1].
    { rewrite prefix_empty in Hs.
      destruct (ascii_dec " " " "); [discriminate | contradiction]. }
    destruct (ascii_dec d "|") as [->|Hd2];
      [vm_compute in Hd; discriminate|].
    cbn [orb] in H. exact H.
  - change (String c a ++ Cfg.SEP ++ r)%string
      with (String c (a ++ Cfg.SEP ++ r)).
    intros H. cbn [str_in] in H. apply orb_prop in H as [H|H].
    + left. apply str_in_prefix.
      apply (prefix_before_sep (String c a) r v H Hn He).
    + destruct (IH H) as [H1|H1]; [left | right; exact H1].
      apply str_in_cons. exact H1.
Qed.

Lemma join_cons2 (a b : string) (rest : list string) :
  join Cfg.SEP (a :: b :: rest) = (a ++ Cfg.SEP ++ join Cfg.SEP (b :: rest))%string.
Proof. reflexivity. Qed.

Lemma str_in_join_part (v : string) (parts : list string) :
  atomic v = true -> truthy v = true ->
  str_in v (join Cfg.SEP parts) = true ->
  exists p, In p parts /\ str_in v p = true.
Proof.
  intros Ha Ht. induction parts as [|a [|b rest] IH]; intros H.
  - apply str_in_empty in H. subst v. discriminate.
  - exists a. split; [left; reflexivity | exact H].
  - rewrite join_cons2 in H.
    destruct (str_in_around_sep v a _ Ha Ht H) as [H1|H1].
    + exists a. split; [left; reflexivity | exact H1].
    + destruct (IH H1) as (p & Hp & Hv). exists p. split; [right|]; assumption.
Qed.

Lemma str_in_join_mem (v : string) (ms : list string) :
  In v ms -> str_in v (join Cfg.SEP ms) = true.
Proof.
  induction ms as [|a [|b rest] IH]; intros H.
  - destruct H.
  - destruct H as [->|[]]. apply str_in_refl.
  - rewrite join_cons2. destruct H as [->|H].
    + apply str_in_app_l, str_in_refl.
    + apply str_in_app_r2, str_in_app_r2, IH, H.
Qed.

Lemma join_snoc (ms : list string) (v : string) :
  ms <> [] ->
  join Cfg.SEP [join Cfg.SEP ms; v] = join Cfg.SEP (ms ++ [v]).
Proof.
  induction ms as [|a [|b rest] IH]; intros Hne; [contradiction | reflexivity|].
  change ((a :: b :: rest) ++ [v])%list with (a :: (b :: rest) ++ [v])%list.
  change ((b :: rest) ++ [v])%list with (b :: rest ++ [v])%list.
  rewrite (join_cons2 a b (rest ++ [v])).
  change (b :: rest ++ [v])%list with ((b :: rest) ++ [v])%list.
  rewrite <- IH by discriminate.
  rewrite (join_cons2 a b rest).
  change (join Cfg.SEP [?x; v]) with (x ++ Cfg.SEP ++ v)%string.
  rewrite !append_assoc. reflexivity.
Qed.

Lemma truthy_join (ms : list string) :
  ms <> [] -> Forall (fun m => truthy m = true) ms ->
  truthy (join Cfg.SEP ms) = true.
Proof.
  destruct ms as [|a [|b rest]]; intros Hne Hall; [contradiction| |].
  - apply Forall_inv in Hall. exact Hall.
  - apply Forall_inv in Hall. rewrite join_cons2. apply truthy_app, Hall.
Qed.

(** Splitting what was joined. *)
Lemma split_sep_part (p : string) :
  forall (cur tail : string) (fuel : nat),
    no_pipe p = true ->
    (String.length (p ++ tail) <= fuel)%nat ->
    tail = "" \/ (exists r, tail = (Cfg.SEP ++ r)%string) ->
    split_sep fuel cur (p ++ tail)
    = match tail with
      | EmptyString => [(cur ++ p)%string]
      | String _ _ =>
          (cur ++ p)%string
          :: split_sep (fuel - String.length p - 1) EmptyString
               (drop_chars (String.length Cfg.SEP) tail)
      end.
Proof.
  induction p as [|c p IH]; intros cur tail fuel Hn Hf Ht.
  - change ("" ++ tail)%string with tail in *. rewrite append_empty_r.
    destruct Ht as [->|[r ->]].
    + destruct fuel; [cbn [split_sep]; rewrite append_empty_r|]; reflexivity.
    + change (Cfg.SEP ++ r)%string
        with (String " " (String "|" (String " " r))) in *.
      destruct fuel as [|fuel]; [cbn in Hf; lia|].
      cbn [split_sep String.length]. rewrite Nat.sub_0_r.
      change (String.prefix Cfg.SEP (String " " (String "|" (String " " r))))
        with (String.prefix Cfg.SEP (Cfg.SEP ++ r)).
      rewrite prefix_app. cbn [Nat.sub]. rewrite Nat.sub_0_r. reflexivity.
  - change (String c p ++ tail)%string with (String c (p ++ tail)) in *.
    destruct fuel as [|fuel]; [cbn in Hf; lia|].
    cbn [String.length] in Hf.
    cbn [no_pipe] in Hn. apply andb_prop in Hn as [Hc Hn].
    cbn [split_sep].
    assert (Hno : String.prefix Cfg.SEP (String c (p ++ tail)) = false).
    { change Cfg.SEP with (String " " (String "|" (String " " ""))).
      cbn [String.prefix]. destruct (ascii_dec " " c) as [<-|]; [|reflexivity].
      destruct p as [|d p].
      - change ("" ++ tail)%string with tail.
        destruct Ht as [->|[r ->]]; [reflexivity|].
        change (Cfg.SEP ++ r)%string
          with (String " " (String "|" (String " " r))).
        reflexivity.
      - change (String d p ++ tail)%string with (String d (p ++ tail)).
        cbn [no_pipe] in Hn. apply andb_prop in Hn as [Hd _].
        cbn [String.prefix].
        destruct (ascii_dec "|" d) as [<-|]; [|reflexivity].
        vm_compute in Hd. discriminate. }
    rewrite Hno. rewrite IH by (assumption || lia).
    rewrite append_snoc. cbn [String.length].
    replace (S fuel - S (String.length p) - 1)%nat
      with (fuel - String.length p - 1)%nat by lia.
    reflexivity.
Qed.

Lemma split_sep_join (parts : list string) :
  forall (p cur : string) (fuel : nat),
    Forall (fun m => no_pipe m = true) (p :: parts) ->
    (String.length (join Cfg.SEP (p :: parts)) <= fuel)%nat ->
    split_sep fuel cur (join Cfg.SEP (p :: parts)) = (cur ++ p)%string :: parts.
Proof.
  induction parts as [|q rest IH]; intros p cur fuel Hall Hf.
  - cbn [join] in *. rewrite <- (append_empty_r p) at 1.
    rewrite split_sep_part; [reflexivity | | | left; reflexivity].
    + apply Forall_inv in Hall. exact Hall.
    + rewrite append_empty_r. exact Hf.
  - rewrite join_cons2 in *.
    apply Forall_cons in Hall as [Hp Hall].
    rewrite split_sep_part; [|exact Hp | exact Hf | right; eexists; reflexivity].
    change (Cfg.SEP ++ join Cfg.SEP (q :: rest))%string
      with (String " " (String "|" (String " " (join Cfg.SEP (q :: rest))))).
    cbn [drop_chars String.length Cfg.SEP]. f_equal.
    rewrite IH; [reflexivity | exact Hall |].
    rewrite length_append in Hf.
    change (String.length (Cfg.SEP ++ join Cfg.SEP (q :: rest)))
      with (S (S (S (String.length (join Cfg.SEP (q :: rest)))))) in Hf.
    lia.
Qed.

Lemma members_join (parts : list string) :
  Forall (fun m => no_pipe m = true) parts ->
  truthy (join Cfg.SEP parts) = true ->
  members (join Cfg.SEP parts) = parts.
Proof.
  intros Hall Ht. unfold members. rewrite Ht.
  destruct parts as [|p parts]; [discriminate|].
  rewrite split_sep_join; [reflexivity | exact Hall | lia].
Qed.

Lemma atomic_no_pipe (v : string) : atomic v = true -> no_pipe v = true.
Proof.
  unfold atomic. intros H. apply andb_prop in H as [H _].
  apply andb_prop in H as [H _]. exact H.
Qed.

Lemma str_in_parts_mem (U : list string) (v : string) (lead : bool)
  (ms : list string) :
  member_values U -> In v U -> truthy v = true -> incl ms U ->
  str_in v (join Cfg.SEP (lead_parts lead ms)) = true <-> In v ms.
Proof.
  intros [Hat Hap] Hv Ht Hms. split.
  - intros H. rewrite List.Forall_forall in Hat.
    apply str_in_join_part in H as (p & Hp & Hin); [|auto|exact Ht].
    assert (Hpm : p = "" \/ In p ms).
    { destruct lead; cbn [lead_parts] in Hp; [|right; exact Hp].
      destruct Hp as [<-|Hp]; [left; reflexivity | right; exact Hp]. }
    destruct Hpm as [->|Hpm].
    + apply str_in_empty in Hin. subst v. discriminate.
    + specialize (Hap v p Hv (Hms p Hpm)). unfold apart in Hap.
      rewrite Ht, Hin in Hap. cbn in Hap. apply String.eqb_eq in Hap.
      subst p. exact Hpm.
  - intros H. apply str_in_join_mem.
    destruct lead; cbn [lead_parts]; [right|]; exact H.
Qed.

Lemma merge_req_step (U : list string) (v : string) (lead : bool)
  (ms : list string) :
  member_values U -> In v U ->
  (lead = true -> ms <> []) -> incl ms U -> NoDup ms ->
  Forall (fun m => truthy m = true) ms ->
  exists lead' ms',
    merge_req (join Cfg.SEP (lead_parts lead ms)) v
    = join Cfg.SEP (lead_parts lead' ms')
    /\ (lead' = true -> ms' <> []) /\ incl ms' U /\ NoDup ms'
    /\ Forall (fun m => truthy m = true) ms'
    /\ (forall x, In x ms' <-> In x ms \/ (x = v /\ truthy v = true)).
Proof.
  intros HU Hv Hl Hms Hnd Htr. unfold merge_req.
  destruct (truthy v) eqn:Ht.
  2:{ exists lead, ms. repeat split; try assumption; [tauto|].
      intros [H|[_ H]]; [exact H | discriminate]. }
  destruct (str_in v (join Cfg.SEP (lead_parts lead ms))) eqn:Hin; cbn [negb].
  - apply (str_in_parts_mem U v lead ms HU Hv Ht Hms) in Hin.
    exists lead, ms. repeat split; try assumption; [tauto|].
    intros [H|[-> _]]; assumption.
  - assert (Hnin : ~ In v ms).
    { intros H. apply (str_in_parts_mem U v lead ms HU Hv Ht Hms) in H.
      congruence. }
    assert (Hnd' : NoDup (ms ++ [v])).
    { apply NoDup_app. repeat split; [exact Hnd | | apply NoDup_singleton].
      intros x Hx Hx'. apply list_elem_of_singleton in Hx'.
      subst x. apply Hnin, list_elem_of_In, Hx. }
    assert (Hinc : incl (ms ++ [v]) U).
    { intros x Hx. apply in_app_or in Hx as [Hx|[<-|[]]]; auto. }
    assert (Htr' : Forall (fun m => truthy m = true) (ms ++ [v])).
    { apply Forall_app. split; [exact Htr|]. repeat constructor. exact Ht. }
    assert (Hmem : forall x, In x (ms ++ [v])
                             <-> In x ms \/ (x = v /\ true = true)).
    { intros x. rewrite in_app_iff. cbn [In]. intuition. }
    destruct (lead_parts lead ms) as [|a rest] eqn:Hparts.
    + destruct lead; [discriminate|]. cbn [lead_parts] in Hparts. subst ms.
      exists true, [v]. cbn [lead_parts app] in *.
      repeat split; try assumption; try discriminate; apply Hmem.
    + exists lead, (ms ++ [v])%list. rewrite join_snoc by discriminate.
      rewrite <- Hparts.
      assert (E : (lead_parts lead ms ++ [v])%list
                  = lead_parts lead (ms ++ [v])).
      { destruct lead; reflexivity. }
      rewrite E. repeat split; try assumption; try apply Hmem.
      intros _ Hnil. destruct ms; discriminate.
Qed.

Lemma merge_req_fold (U : list string) (vals : list string) :
  member_values U -> incl vals U ->
  forall (lead : bool) (ms : list string),
    (lead = true -> ms <> []) -> incl ms U -> NoDup ms ->
    Forall (fun m => truthy m = true) ms ->
    exists lead' ms',
      fold_left merge_req vals (join Cfg.SEP (lead_parts lead ms))
      = join Cfg.SEP (lead_parts lead' ms')
      /\ (lead' = true -> ms' <> []) /\ incl ms' U /\ NoDup ms'
      /\ Forall (fun m => truthy m = true) ms'
      /\ (forall x, In x ms' <-> In x ms \/ (In x vals /\ truthy x = true)).
Proof.
  intros HU. induction vals as [|v vals IH]; intros Hvals lead ms Hl Hms Hnd Htr.
  - exists lead, ms. repeat split; try assumption; [tauto|].
    intros [H|[[] _]]. exact H.
  - assert (Hv : In v U) by (apply Hvals; left; reflexivity).
    destruct (merge_req_step U v lead ms HU Hv Hl Hms Hnd Htr)
      as (lead1 & ms1 & E & Hl1 & Hms1 & Hnd1 & Htr1 & Hmem1).
    cbn [fold_left]. rewrite E.
    destruct (IH (fun x Hx => Hvals x (or_intror Hx)) lead1 ms1
                Hl1 Hms1 Hnd1 Htr1)
      as (lead2 & ms2 & E2 & Hl2 & Hms2 & Hnd2 & Htr2 & Hmem2).
    exists lead2, ms2. repeat split; try assumption.
    + intros Hx. apply Hmem2 in Hx as [Hx|Hx].
      * apply Hmem1 in Hx as [Hx|[-> Ht]]; [left; exact Hx|].
        right. split; [left; reflexivity | exact Ht].
      * right. destruct Hx as [Hx Ht]. split; [right; exact Hx | exact Ht].
    + intros [Hx|[[<-|Hx] Ht]]; apply Hmem2.
      * left. apply Hmem1. left. exact Hx.
      * left. apply Hmem1. right. split; [reflexivity | exact Ht].
      * right. split; assumption.
Qed.

(** On a field that holds something, or on a new one, the two merges
    agree but for the separator put after an empty field. *)
Lemma merge_opt_req (tmp v : string) :
  truthy tmp = true -> merge_opt tmp v = merge_req tmp v.
Proof. intros H. unfold merge_opt, merge_req. rewrite H. reflexivity. Qed.

Lemma merge_opt_empty (v : string) : merge_opt "" v = v.
Proof. unfold merge_opt. destruct v; reflexivity. Qed.

Lemma merge_req_truthy (tmp v : string) :
  truthy tmp = true -> truthy (merge_req tmp v) = true.
Proof.
  intros H. unfold merge_req. destruct (truthy v); [|exact H].
  destruct (negb (str_in v tmp)); [|exact H].
  change (join Cfg.SEP [tmp; v]) with (tmp ++ Cfg.SEP ++ v)%string.
  apply truthy_app, H.
Qed.

Lemma fold_merge_opt_req (vals : list string) :
  forall tmp, truthy tmp = true ->
              fold_left merge_opt vals tmp = fold_left merge_req vals tmp.
Proof.
  induction vals as [|v vals IH]; intros tmp H; [reflexivity|].
  cbn [fold_left]. rewrite merge_opt_req by exact H.
  apply IH, merge_req_truthy, H.
Qed.

(** The field after a sequence of values, read as a list of members. *)
Lemma nonempty_members_parts (U : list string) (lead : bool)
  (ms : list string) :
  member_values U -> incl ms U -> (lead = true -> ms <> []) ->
  Forall (fun m => truthy m = true) ms ->
  nonempty_members (join Cfg.SEP (lead_parts lead ms)) = ms.
Proof.
  intros [Hat _] Hms Hl Htr. unfold nonempty_members.
  assert (Hf : List.filter truthy ms = ms).
  { clear Hms Hl. induction ms as [|m ms IH]; [reflexivity|].
    apply Forall_cons in Htr as [Hm Htr]. cbn [List.filter]. rewrite Hm.
    f_equal. apply IH, Htr. }
  destruct ms as [|m ms].
  - destruct lead; [exfalso; apply Hl; reflexivity|]. reflexivity.
  - rewrite members_join.
    + destruct lead; cbn [lead_parts List.filter truthy]; exact Hf.
    + rewrite List.Forall_forall in Hat.
      assert (Hnp : Forall (fun m => no_pipe m = true) (m :: ms)).
      { apply List.Forall_forall. intros x Hx.
        apply atomic_no_pipe, Hat, Hms, Hx. }
      destruct lead; cbn [lead_parts]; [constructor|]; auto.
    + destruct lead; cbn [lead_parts]; [reflexivity|].
      apply truthy_join; [discriminate | exact Htr].
Qed.

(** The members of a field are the values supplied, each once, whatever
    the order of the calls. *)
Lemma field_req_members (U : list string) (v0 : string) (vals : list string) :
  member_values U -> incl (v0 :: vals) U ->
  NoDup (nonempty_members (fold_left merge_req vals v0))
  /\ forall x, In x (nonempty_members (fold_left merge_req vals v0))
               <-> In x (v0 :: vals) /\ truthy x = true.
Proof.
  intros HU Hinc.
  assert (H0 : exists ms0,
             v0 = join Cfg.SEP (lead_parts false ms0) /\ incl ms0 U
             /\ NoDup ms0 /\ Forall (fun m => truthy m = true) ms0
             /\ forall x, In x ms0 <-> x = v0 /\ truthy x = true).
  { destruct (truthy v0) eqn:Ht.
    - exists [v0]. repeat split.
      + intros x [<-|[]]. apply Hinc. left. reflexivity.
      + apply NoDup_singleton.
      + repeat constructor. exact Ht.
      + destruct H as [<-|[]]. reflexivity.
      + destruct H as [<-|[]]. exact Ht.
      + intros [-> _]. left. reflexivity.
    - exists []. destruct v0; [|discriminate]. repeat split.
      + intros x [].
      + constructor.
      + constructor.
      + destruct H.
      + destruct H.
      + intros [-> H]. discriminate. }
  destruct H0 as (ms0 & E0 & Hms0 & Hnd0 & Htr0 & Hmem0).
  destruct (merge_req_fold U vals HU (fun x Hx => Hinc x (or_intror Hx))
              false ms0 (fun H => False_ind _ (Bool.diff_false_true H))
              Hms0 Hnd0 Htr0)
    as (lead & ms & E & Hl & Hms & Hnd & Htr & Hmem).
  rewrite <- E0 in E. rewrite E.
  rewrite (nonempty_members_parts U lead ms HU Hms Hl Htr).
  split; [exact Hnd|]. intros x. rewrite Hmem, Hmem0. cbn [In].
  intuition congruence.
Qed.

Lemma field_opt_members (U : list string) (vals : list string) :
  member_values U -> incl vals U ->
  NoDup (nonempty_members (fold_left merge_opt vals ""))
  /\ forall x, In x (nonempty_members (fold_left merge_opt vals ""))
               <-> In x vals /\ truthy x = true.
Proof.
  intros HU. induction vals as [|v vals IH]; intros Hinc.
  - split; [constructor|]. intros x. cbn. tauto.
  - cbn [fold_left]. rewrite merge_opt_empty.
    destruct (truthy v) eqn:Ht.
    + rewrite fold_merge_opt_req by exact Ht.
      apply (field_req_members U v vals HU Hinc).
    + destruct v; [|discriminate].
      destruct (IH (fun x Hx => Hinc x (or_intror Hx))) as [Hnd Hmem].
      split; [exact Hnd|]. intros x. rewrite Hmem. cbn [In].
      split; [tauto|]. intros [[<-|H] Hx]; [discriminate | tauto].
Qed.

(** The record of an address under its own calls. *)
Lemma run_existing (ip : string) (L : list call) :
  Forall (fun c => c_ip c = ip) L ->
  forall (d : ip_dict) a c o ds,
    d !! ip = Some (mkElt a c o ds) ->
    run_inserts L d !! ip
    = Some (mkElt (fold_left merge_opt (map c_as L) a)
                  (fold_left merge_opt (map c_cc L) c)
                  (fold_left merge_req (map c_org L) o)
                  (fold_left merge_req
                     (map (fun c => strip (c_desc c)) L) ds)).
Proof.
  induction L as [|c0 L IH]; intros HL d a c o ds Hd; [exact Hd|].
  apply Forall_cons in HL as [Hip HL].
  cbn [run_inserts fold_left map].
  change (fold_left run_insert L (run_insert d c0))
    with (run_inserts L (run_insert d c0)).
  apply IH; [exact HL|].
  unfold run_insert, insert_ip. rewrite Hip, Hd. cbn [fst].
  rewrite lookup_insert_eq. reflexivity.
Qed.

Lemma run_rejected (ip : string) (L : list call) :
  Forall (fun c => c_ip c = ip) L ->
  re_ipv4_match ip = false
  \/ Forall (fun c => truthy (c_org c) = false) L ->
  forall d : ip_dict, d !! ip = None -> run_inserts L d !! ip = None.
Proof.
  induction L as [|c0 L IH]; intros HL Hrej d Hd; [exact Hd|].
  apply Forall_cons in HL as [Hip HL].
  cbn [run_inserts fold_left].
  change (fold_left run_insert L (run_insert d c0))
    with (run_inserts L (run_insert d c0)).
  assert (E : run_insert d c0 = d).
  { unfold run_insert. rewrite insert_ip_new_record by (rewrite Hip; exact Hd).
    rewrite Hip. destruct Hrej as [->|Hrej].
    - rewrite andb_false_r. reflexivity.
    - apply Forall_inv in Hrej. rewrite Hrej. reflexivity. }
  rewrite E. apply IH; [exact HL | | exact Hd].
  destruct Hrej as [H|H]; [left; exact H|].
  right. apply Forall_cons in H as [_ H]. exact H.
Qed.

Lemma calls_for_ip (ip : string) (cs : list call) :
  Forall (fun c => c_ip c = ip) (calls_for ip cs)
  /\ incl (calls_for ip cs) cs.
Proof.
  unfold calls_for. split.
  - apply List.Forall_forall. intros c Hc. apply filter_In in Hc as [_ Hc].
    apply String.eqb_eq, Hc.
  - intros c Hc. apply filter_In in Hc as [Hc _]. exact Hc.
Qed.

Lemma separable_values (cs : list call) (ip : string) (f : call -> string) :
  separable cs = true ->
  (forall c, call_atomic c = true -> atomic (f c) = true) ->
  (forall c1 c2, c_ip c1 = c_ip c2 -> calls_apart c1 c2 = true ->
                 apart (f c1) (f c2) = true) ->
  member_values (map f (calls_for ip cs)).
Proof.
  intros Hsep Hat Hap. unfold separable in Hsep.
  apply andb_prop in Hsep as [H1 H2].
  rewrite forallb_forall in H1, H2.
  destruct (calls_for_ip ip cs) as [Hip Hinc].
  rewrite List.Forall_forall in Hip.
  split.
  - apply List.Forall_forall. intros v Hv.
    apply in_map_iff in Hv as (c & <- & Hc). apply Hat, H1, Hinc, Hc.
  - intros u v Hu Hv.
    apply in_map_iff in Hu as (c1 & <- & Hc1).
    apply in_map_iff in Hv as (c2 & <- & Hc2).
    apply Hap.
    + rewrite (Hip c1 Hc1), (Hip c2 Hc2). reflexivity.
    + specialize (H2 c1 (Hinc c1 Hc1)). rewrite forallb_forall in H2.
      apply H2, Hinc, Hc2.
Qed.

Lemma calls_apart_fields (c1 c2 : call) :
  c_ip c1 = c_ip c2 -> calls_apart c1 c2 = true ->
  apart (c_as c1) (c_as c2) = true /\ apart (c_cc c1) (c_cc c2) = true
  /\ apart (c_org c1) (c_org c2) = true
  /\ apart (strip (c_desc c1)) (strip (c_desc c2)) = true.
Proof.
  intros Hip H. unfold calls_apart in H. rewrite Hip, String.eqb_refl in H.
  cbn [negb orb] in H.
  apply andb_prop in H as [H H4]. apply andb_prop in H as [H H3].
  apply andb_prop in H as [H1 H2]. auto.
Qed.

Lemma call_atomic_fields (c : call) :
  call_atomic c = true ->
  atomic (c_as c) = true /\ atomic (c_cc c) = true
  /\ atomic (c_org c) = true /\ atomic (strip (c_desc c)) = true.
Proof.
  intros H. unfold call_atomic in H.
  apply andb_prop in H as [H H4]. apply andb_prop in H as [H H3].
  apply andb_prop in H as [H1 H2]. auto.
Qed.

Lemma members_permutation (l1 l2 : list string) (v1 v2 : list string) :
  NoDup l1 -> NoDup l2 ->
  (forall x, In x l1 <-> In x v1 /\ truthy x = true) ->
  (forall x, In x l2 <-> In x v2 /\ truthy x = true) ->
  v1 ≡ₚ v2 -> l1 ≡ₚ l2.
Proof.
  intros H1 H2 M1 M2 Hp. apply NoDup_Permutation; [assumption..|].
  intros x. rewrite !list_elem_of_In, M1, M2.
  split; intros [Hx Ht]; (split; [|exact Ht]).
  - apply list_elem_of_In. rewrite <- Hp. apply list_elem_of_In, Hx.
  - apply list_elem_of_In. rewrite Hp. apply list_elem_of_In, Hx.
Qed.

Lemma run_created (ip : string) (c0 : call) (L : list call) (d : ip_dict) :
  Forall (fun c => c_ip c = ip) (c0 :: L) ->
  d !! ip = None ->
  re_ipv4_match ip = true -> truthy (c_org c0) = true ->
  run_inserts (c0 :: L) d !! ip = Some (record_of c0 L).
Proof.
  intros HL Hd Hm Ho. apply Forall_cons in HL as [Hip HL].
  unfold record_of. cbn [run_inserts fold_left map]. rewrite !merge_opt_empty.
  change (fold_left run_insert L (run_insert d c0))
    with (run_inserts L (run_insert d c0)).
  apply (run_existing ip L HL).
  unfold run_insert.
  rewrite insert_ip_new_record by (rewrite Hip; exact Hd).
  rewrite Hip, Ho, Hm. cbn [andb]. apply lookup_insert_eq.
Qed.

Lemma run_extended (ip : string) (c0 : call) (rest L : list call)
  (d : ip_dict) :
  Forall (fun c => c_ip c = ip) L ->
  d !! ip = Some (record_of c0 rest) ->
  run_inserts L d !! ip = Some (record_of c0 (rest ++ L)).
Proof.
  intros HL Hd. unfold record_of in *.
  rewrite (run_existing ip L HL d _ _ _ _ Hd).
  cbn [map fold_left]. rewrite !map_app, !fold_left_app. reflexivity.
Qed.

(** The record of an address in a dictionary built by calls: the first
    call accepted for it and the calls after that one. *)
Lemma run_shape (ip : string) (L : list call) :
  Forall (fun c => c_ip c = ip) L ->
  match run_inserts L ∅ !! ip with
  | None => True
  | Some r => exists pre c0 rest, L = (pre ++ c0 :: rest)%list
                                  /\ r = record_of c0 rest
  end.
Proof.
  induction L as [|c L IH]; intros HL;
    [unfold run_inserts; cbn [fold_left]; rewrite lookup_empty; exact I|].
  destruct (truthy (c_org c) && re_ipv4_match ip) eqn:Hok.
  - apply andb_prop in Hok as [Ho Hm].
    rewrite (run_created ip c L ∅ HL (lookup_empty _) Hm Ho).
    exists [], c, L. split; reflexivity.
  - pose proof HL as HL'. apply Forall_cons in HL' as [Hip HL'].
    cbn [run_inserts fold_left].
    assert (E : run_insert ∅ c = ∅).
    { unfold run_insert. rewrite insert_ip_new_record by apply lookup_empty.
      rewrite Hip, Hok. reflexivity. }
    rewrite E. specialize (IH HL').
    change (fold_left run_insert L ∅) with (run_inserts L ∅).
    destruct (run_inserts L ∅ !! ip) as [r|]; [|exact I].
    destruct IH as (pre & c0 & rest & -> & ->).
    exists (c :: pre), c0, rest. split; reflexivity.
Qed.

Lemma calls_for_app (ip : string) (l1 l2 : list call) :
  calls_for ip (l1 ++ l2) = (calls_for ip l1 ++ calls_for ip l2)%list.
Proof. unfold calls_for. apply List.filter_app. Qed.

(** Two records made of the same calls hold the same members. *)
Lemma record_of_members (LU : list call) (c c' : call) (R R' : list call) :
  member_values (map c_as LU) -> member_values (map c_cc LU) ->
  member_values (map c_org LU) ->
  member_values (map (fun c => strip (c_desc c)) LU) ->
  incl (c :: R) LU -> incl (c' :: R') LU ->
  c :: R ≡ₚ c' :: R' ->
  nonempty_members (e_as (record_of c R))
    ≡ₚ nonempty_members (e_as (record_of c' R'))
  /\ nonempty_members (e_cc (record_of c R))
       ≡ₚ nonempty_members (e_cc (record_of c' R'))
  /\ nonempty_members (e_org (record_of c R))
       ≡ₚ nonempty_members (e_org (record_of c' R'))
  /\ nonempty_members (e_desc (record_of c R))
       ≡ₚ nonempty_members (e_desc (record_of c' R')).
Proof.
  intros Uas Ucc Uorg Udesc Hi Hi' Hp. unfold record_of.
  cbn [e_as e_cc e_org e_desc].
  assert (Hmap : forall (f : call -> string) (l : list call),
             incl l LU -> incl (map f l) (map f LU)).
  { intros f l Hl x Hx. apply in_map_iff in Hx as (y & <- & Hy).
    apply in_map, Hl, Hy. }
  assert (Hpm : forall f : call -> string, map f (c :: R) ≡ₚ map f (c' :: R')).
  { intros f. apply Permutation_map, Hp. }
  repeat split.
  - destruct (field_opt_members _ (map c_as (c :: R)) Uas (Hmap _ _ Hi))
      as [N1 M1].
    destruct (field_opt_members _ (map c_as (c' :: R')) Uas (Hmap _ _ Hi'))
      as [N2 M2].
    exact (members_permutation _ _ _ _ N1 N2 M1 M2 (Hpm c_as)).
  - destruct (field_opt_members _ (map c_cc (c :: R)) Ucc (Hmap _ _ Hi))
      as [N1 M1].
    destruct (field_opt_members _ (map c_cc (c' :: R')) Ucc (Hmap _ _ Hi'))
      as [N2 M2].
    exact (members_permutation _ _ _ _ N1 N2 M1 M2 (Hpm c_cc)).
  - destruct (field_req_members _ (c_org c) (map c_org R) Uorg
                (Hmap c_org (c :: R) Hi)) as [N1 M1].
    destruct (field_req_members _ (c_org c') (map c_org R') Uorg
                (Hmap c_org (c' :: R') Hi')) as [N2 M2].
    exact (members_permutation _ _ _ _ N1 N2 M1 M2 (Hpm c_org)).
  - destruct (field_req_members _ (strip (c_desc c))
                (map (fun c => strip (c_desc c)) R) Udesc
                (Hmap (fun c => strip (c_desc c)) (c :: R) Hi)) as [N1 M1].
    destruct (field_req_members _ (strip (c_desc c'))
                (map (fun c => strip (c_desc c)) R') Udesc
                (Hmap (fun c => strip (c_desc c)) (c' :: R') Hi'))
      as [N2 M2].
    exact (members_permutation _ _ _ _ N1 N2 M1 M2
             (Hpm (fun c => strip (c_desc c)))).
Qed.

(** C3, amended.  Start from a dictionary built by [insert_ip] calls and
    take two permutations of a list of further calls in which the calls
    for an address that has no record yet all name a blocklist, or none
    of them does; let the values of all these calls read back as
    members, none occurring inside another value for the same address.
    Both permutations leave a record under the same addresses, and each
    field of a record holds the same members in the two, the empty
    string apart: calls may be reordered freely, also the calls for one
    address. *)
Theorem run_inserts_permutation (cs0 cs1 cs2 : list call) (ip : string) :
  cs1 ≡ₚ cs2 ->
  org_rule (run_inserts cs0 ∅) cs1 = true ->
  separable (cs0 ++ cs1) = true ->
  match run_inserts cs1 (run_inserts cs0 ∅) !! ip,
        run_inserts cs2 (run_inserts cs0 ∅) !! ip with
  | Some r1, Some r2 =>
      nonempty_members (e_as r1) ≡ₚ nonempty_members (e_as r2)
      /\ nonempty_members (e_cc r1) ≡ₚ nonempty_members (e_cc r2)
      /\ nonempty_members (e_org r1) ≡ₚ nonempty_members (e_org r2)
      /\ nonempty_members (e_desc r1) ≡ₚ nonempty_members (e_desc r2)
  | None, None => True
  | _, _ => False
  end.
Proof.
  intros Hperm Horg Hsep.
  set (d0 := run_inserts cs0 ∅) in *.
  rewrite <- (run_inserts_local cs1 d0 d0 ip eq_refl).
  rewrite <- (run_inserts_local cs2 d0 d0 ip eq_refl).
  pose proof (calls_for_Permutation ip cs1 cs2 Hperm) as HpL.
  destruct (calls_for_ip ip cs0) as [Hip0 _].
  destruct (calls_for_ip ip cs1) as [Hip1 Hinc1].
  destruct (calls_for_ip ip cs2) as [Hip2 _].
  pose proof (separable_values (cs0 ++ cs1) ip c_as Hsep
                (fun c H => proj1 (call_atomic_fields c H))
                (fun c1 c2 E H => proj1 (calls_apart_fields c1 c2 E H)))
    as Uas.
  pose proof (separable_values (cs0 ++ cs1) ip c_cc Hsep
                (fun c H => proj1 (proj2 (call_atomic_fields c H)))
                (fun c1 c2 E H =>
                   proj1 (proj2 (calls_apart_fields c1 c2 E H))))
    as Ucc.
  pose proof (separable_values (cs0 ++ cs1) ip c_org Hsep
                (fun c H => proj1 (proj2 (proj2 (call_atomic_fields c H))))
                (fun c1 c2 E H =>
                   proj1 (proj2 (proj2 (calls_apart_fields c1 c2 E H)))))
    as Uorg.
  pose proof (separable_values (cs0 ++ cs1) ip
                (fun c => strip (c_desc c)) Hsep
                (fun c H => proj2 (proj2 (proj2 (call_atomic_fields c H))))
                (fun c1 c2 E H =>
                   proj2 (proj2 (proj2 (calls_apart_fields c1 c2 E H)))))
    as Udesc.
  rewrite calls_for_app in Uas, Ucc, Uorg, Udesc.
  assert (Hd0 : d0 !! ip = run_inserts (calls_for ip cs0) ∅ !! ip).
  { symmetry. apply run_inserts_local. reflexivity. }
  pose proof (run_shape ip (calls_for ip cs0) Hip0) as Hshape.
  rewrite <- Hd0 in Hshape.
  remember (calls_for ip cs0) as L0 eqn:EL0.
  remember (calls_for ip cs1) as L1 eqn:EL1.
  remember (calls_for ip cs2) as L2 eqn:EL2.
  assert (Hin2 : forall c, In c L2 -> In c L1).
  { intros c Hc. apply list_elem_of_In. rewrite HpL.
    apply list_elem_of_In, Hc. }
  destruct (d0 !! ip) as [r0|] eqn:Hr0.
  - destruct Hshape as (pre & c0 & rest & E0 & ->).
    rewrite (run_extended ip c0 rest L1 d0 Hip1 Hr0).
    rewrite (run_extended ip c0 rest L2 d0 Hip2 Hr0).
    apply (record_of_members (L0 ++ L1) c0 c0 (rest ++ L1) (rest ++ L2)
             Uas Ucc Uorg Udesc).
    + rewrite E0. intros x Hx. apply in_or_app.
      destruct Hx as [<-|Hx].
      * left. apply in_or_app. right. left. reflexivity.
      * apply in_app_or in Hx as [Hx|Hx]; [left | right; exact Hx].
        apply in_or_app. right. right. exact Hx.
    + rewrite E0. intros x Hx. apply in_or_app.
      destruct Hx as [<-|Hx].
      * left. apply in_or_app. right. left. reflexivity.
      * apply in_app_or in Hx as [Hx|Hx]; [left | right; apply Hin2, Hx].
        apply in_or_app. right. right. exact Hx.
    + constructor. apply Permutation_app_head, HpL.
  - clear Hshape.
    assert (Hou : forall c c', In c L1 -> In c' L1 ->
                               truthy (c_org c) = truthy (c_org c')).
    { intros c c' Hc Hc'. unfold org_rule in Horg.
      rewrite forallb_forall in Horg. specialize (Horg c (Hinc1 c Hc)).
      rewrite List.Forall_forall in Hip1.
      unfold has_record in Horg. rewrite (Hip1 c Hc), Hr0 in Horg.
      cbn [orb] in Horg. rewrite forallb_forall in Horg.
      specialize (Horg c' (Hinc1 c' Hc')).
      rewrite (Hip1 c' Hc'), String.eqb_refl in Horg.
      cbn [negb orb] in Horg. apply Bool.eqb_prop, Horg. }
    clear EL0 EL1 EL2.
    destruct (re_ipv4_match ip) eqn:Hm.
    2:{ rewrite (run_rejected ip L1 Hip1 (or_introl Hm) d0 Hr0).
        rewrite (run_rejected ip L2 Hip2 (or_introl Hm) d0 Hr0).
        exact I. }
    destruct L1 as [|c1 r1].
    { apply Permutation_nil_l in HpL. subst L2. cbn. rewrite Hr0. exact I. }
    destruct L2 as [|c2 r2].
    { apply Permutation_nil_r in HpL. discriminate. }
    destruct (truthy (c_org c1)) eqn:Ho1.
    2:{ assert (Hall : forall L, (forall c, In c L -> In c (c1 :: r1)) ->
                       Forall (fun c => truthy (c_org c) = false) L).
        { intros L HL. apply List.Forall_forall. intros c Hc.
          rewrite (Hou c c1 (HL c Hc) (or_introl eq_refl)). exact Ho1. }
        rewrite (run_rejected ip _ Hip1 (or_intror (Hall _ (fun c H => H)))
                   d0 Hr0).
        rewrite (run_rejected ip _ Hip2 (or_intror (Hall _ Hin2)) d0 Hr0).
        exact I. }
    assert (Ho2 : truthy (c_org c2) = true).
    { rewrite (Hou c2 c1 (Hin2 c2 (or_introl eq_refl)) (or_introl eq_refl)).
      exact Ho1. }
    rewrite (run_created ip c1 r1 d0 Hip1 Hr0 Hm Ho1).
    rewrite (run_created ip c2 r2 d0 Hip2 Hr0 Hm Ho2).
    apply (record_of_members (L0 ++ c1 :: r1) c1 c2 r1 r2 Uas Ucc Uorg Udesc).
    + intros x Hx. apply in_or_app. right. exact Hx.
    + intros x Hx. apply in_or_app. right. apply Hin2, Hx.
    + exact HpL.
Qed.

Lemma run_inserts_permutation_witness :
  run_inserts [call_f; call_c; call_e] (run_inserts [call_d] ∅) !! "10.0.0.1"
  = Some (mkElt "111 | 333 | 222" "CA | FR | US" "dshield | openbl"
                "a | f | b")
  /\ run_inserts [call_e; call_f; call_c] (run_inserts [call_d] ∅)
       !! "10.0.0.1"
     = Some (mkElt "111 | 222 | 333" "CA | US | FR" "dshield | openbl"
                   "a | b | f")
  /\ ["111"; "333"; "222"] ≡ₚ ["111"; "222"; "333"]
  /\ ["CA"; "FR"; "US"] ≡ₚ ["CA"; "US"; "FR"]
  /\ ["dshield"; "openbl"] ≡ₚ ["dshield"; "openbl"]
  /\ ["a"; "f"; "b"] ≡ₚ ["a"; "b"; "f"].
Proof.
  split; [vm_compute; reflexivity|]. split; [vm_compute; reflexivity|].
  exact (run_inserts_permutation [call_d] [call_f; call_c; call_e]
           [call_e; call_f; call_c] "10.0.0.1"
           (Permutation_sym (Permutation_cons_append [call_f; call_c] call_e))
           eq_refl eq_refl).
Defined.

End MergeOrder.
